(* ===== verification/_CoqProject ===== *)
-Q . S2P
Prelude.v
Monad.v
State.v
Memory.v
Riscv.v
Kstring.v
Spinlock.v
Smp.v
Kalloc.v
Vm.v
PageTable.v
Mapping.v
Freewalk.v
Uvm.v
UserMem.v
VmSpec.v
Sched.v
Sleeplock.v
Block.v
Dll.v
Bio.v
Bcache.v
BcacheSpec.v
Binit.v
Log.v
LogDisk.v
LogSpec.v
Crash.v
Txn.v
LogDemo.v
BioSpec.v
Copy.v
Fs.v
FsBlocks.v
FsDemo.v
FsInode.v
FsFile.v
FsBmap.v
FsWrite.v
Virtio.v
VirtioSpec.v
VirtioRun.v
Uart.v
Printf.v
Console.v
ConsoleSpec.v
Pipe.v
PipeSpec.v
File.v
FsIO.v
FsDir.v
Mkfs.v
MkfsSpec.v
MkfsImage.v
MkfsMount.v
Proc.v
Syscall.v
Sysfile.v
Sysproc.v
Ulib.v
Uprintf.v
Grep.v
Wc.v
MergeSort.v
Umalloc.v
Threads.v
ThreadsHeap.v
Sh.v
ShPrint.v
