(* ===== verification/Prelude.v ===== *)
(** * Verification of the xv6-riscv kernel and its companion programs

    The repository holds a course's work on operating systems: the xv6-riscv
    kernel with its user programs, extended by a user-level thread library
    (src/mp01/xv6-riscv), and a merge sort with two threads (src/hw2).  This
    development models the kernel's C code, the program that makes its file
    system image, and the user programs with logic of their own, and proves
    them correct.  Paths below are relative to src/mp01/xv6-riscv.

    ** How the code is modelled

    Kernel code runs in a state monad over one record, [kernel] (State.v): the
    global variables of the kernel, and the part of the machine it reads and
    writes: physical memory as a byte map, the hart's tp and interrupt-enable
    bit, the locks, the disk.  An outcome (Monad.v) is a return, a [Panic] with
    the message, or [Blocked]: the code spins or sleeps and nothing ends it.  C
    integers are [Z] with the wrap-around written out ([u8] ... [s32]); structs
    are records with the source's fields; pointers into static tables are
    indices and null is [None]; page tables, trapframes and the free list of
    pages live in the byte memory, as in the machine.  Other harts and
    processes appear in three ways: Smp.v interleaves the instructions of
    [acquire] and [release]; Virtio.v interleaves calls, interrupts and the
    device, one step for what runs under the lock; in the rest a process that
    gives up the CPU gets back the state the class [Threads] of Sched.v gives
    it, which the theorems quantify over.

    ** Parts of the program, and where they are

    - Prelude.v, Monad.v, State.v, Memory.v: notation, tactics and lists; the
      monad; the data of kernel/types.h, param.h, proc.h, file.h, buf.h, fs.h,
      spinlock.h, sleeplock.h, memlayout.h; byte memory.
    - Riscv.v, Kstring.v: the page macros of kernel/riscv.h; kernel/string.c.
    - Spinlock.v, Smp.v: kernel/spinlock.c on one hart, and under interleaving.
    - Kalloc.v: kernel/kalloc.c.
    - Vm.v (the code of kernel/vm.c), PageTable.v, Mapping.v, Freewalk.v, Uvm.v,
      UserMem.v (lemmas, by operation), VmSpec.v (theorems).
    - Sched.v, Proc.v, Sleeplock.v, Copy.v: kernel/proc.c (scheduling; the life
      of processes; [either_copyin] and [either_copyout]), kernel/sleeplock.c.
    - Bio.v (kernel/bio.c), Dll.v, Bcache.v, BcacheSpec.v, Binit.v, BioSpec.v:
      the buffer cache, its list, its invariant and its abstraction, a block
      store [bst] with which all file-system code is verified.
    - Virtio.v (kernel/virtio_disk.c, virtio.h), VirtioSpec.v, VirtioRun.v: the
      disk driver and the device.  Bio.v uses the driver through the interface
      [BlockDev]: a call transfers one block; that this is what the driver does
      is the refinement theorem of VirtioRun.v.
    - Log.v (kernel/log.c), LogDisk.v, LogSpec.v, Crash.v, Txn.v, LogDemo.v: the
      log on disk images, crashes, transactions, a booted example.
    - Block.v, Fs.v (kernel/fs.c), FsBlocks.v, FsInode.v, FsFile.v, FsBmap.v,
      FsWrite.v, FsIO.v, FsDir.v, FsDemo.v: free map, inodes, files, growing and
      writing files, directories, an example.
    - Mkfs.v (mkfs/mkfs.c), MkfsSpec.v, MkfsImage.v, MkfsMount.v: the image mkfs
      makes, and what the kernel reads from it.
    - Uart.v, Printf.v, Console.v, ConsoleSpec.v: kernel/uart.c, printf.c,
      console.c.
    - Pipe.v, PipeSpec.v, File.v: kernel/pipe.c and kernel/file.c.
    - Syscall.v, Sysfile.v, Sysproc.v: kernel/syscall.c with kernel/exec.c,
      kernel/sysfile.c, kernel/sysproc.c.
    - Ulib.v, Uprintf.v, Umalloc.v, Threads.v, ThreadsHeap.v: user/ulib.c,
      printf.c, umalloc.c, threads.c with threads.h; ThreadsHeap.v proves that
      umalloc.c is the allocator threads.c relies on (the class [Malloc]).
    - Grep.v, Wc.v, Sh.v, ShPrint.v: user/grep.c, wc.c, sh.c.
    - MergeSort.v: src/hw2/hw2_2.c.

    ** What the theorems show

    - Crashes and transactions: whatever disk a crash leaves, recovery gives the
      file system before or after the transaction ([commit_atomic],
      [recover_idempotent]); [begin_op] reserves, [log_write] records, the last
      [end_op] commits; the log area of mkfs is one block too short for the
      promise of param.h ([log_space_off_by_one]).
    - The disk driver: no interleaving panics it, it refines a disk that
      transfers whole blocks at once, and its calls return; but two waiting
      callers can wake each other for ever while the disk is busy
      ([virtio_waiters_spin]).
    - Blocks, files, directories: [bread] shows the disk, [balloc] takes the
      lowest free block, [ilock] loads inodes, [writei] then [readi] gives the
      bytes written, other files untouched, within the log space [filewrite]
      counts on; [dirlookup] finds the first entry of a name.
    - mkfs: arguments that fit give a well-formed file system with exactly those
      files; the kernel reads them back; a root directory that fills its last
      block gets a size beyond its blocks ([mkfs_root_hole]).
    - Memory: mapping, unmapping, growing, copying address spaces, with pages
      conserved on success and on roll-back; user memory reads back what was
      written; the page allocator hands out distinct pages.
    - Synchronisation: mutual exclusion and absence of panics for spin locks;
      no wakeup is lost between the test and [sleep].
    - Pipes are queues, also across wrap-around of the counters; the UART keeps
      the order of characters; a full console makes the kernel panic
      ([consolewrite_full_panics]).
    - User programs: the allocator's ring, the threads' round-robin order, the
      shell's parser (it returns, and reads back every printed command), the
      regular-expression matcher against a reference semantics, printing and
      reading of numbers, sorting, and the race on [part] in hw2_2.c
      ([part_race]).

    ** Bounds and fuel

    A loop that C ends by a condition on a counter has fuel computed from the
    same quantity, stated at its definition ([mappages_fuel], [copy_fuel],
    [io_fuel], [dir_fuel], [intr_fuel], ...); the theorems conclude that the
    code returns, so the fuel is enough.  [freewalk] has the three levels of a
    table.  Waiting loops ([patience]) stand for waiting: when they run out the
    outcome is [Blocked], never a result.  The parser of the shell has four
    units for every character left ([parsecmd_returns]); the allocator has as
    much as the process has bytes.

    ** Not modelled

    - Assembly (kernel/entry.S, kernelvec.S, swtch.S, trampoline.S,
      user/initcode.S, usys, and src/CAHomework2 and 3), Verilog
      (src/CAHomework4) and what they do to registers.
    - kernel/start.c and main.c: machine set-up and the order of the
      initialisation calls; kernel/plic.c: reads and writes of one device;
      kernel/ramdisk.c: not compiled into the kernel.
    - kernel/trap.c: it moves between the control registers and the code
      modelled here ([syscall], [yield], [uartintr], [virtio_disk_intr]).
    - The parts of user programs that only issue system calls: [runcmd] and
      [main] of user/sh.c, [main] of grep.c and wc.c, and cat, echo, init, kill,
      ln, ls, mkdir, rm, zombie; the tests user/usertests.c, grind.c,
      forktest.c, stressfs.c, mp1.c.
    - src/hw2/hw2_1.c, src/fibo.c, producer.c, consumer.c: exercises in calling
      fork, shared memory, floating-point rand and pthread_create.
    - Memory ordering of the machine: shared accesses are sequentially
      consistent. *)

From stdpp Require Export base gmap strings numbers list.

Declare Scope c_scope.
Delimit Scope c_scope with C.
#[global] Open Scope Z_scope.

(** ** Arithmetic tactics *)

(** [zlia] is [lia] with the Euclidean equations of every division and
    remainder by a constant added to the context first. *)
Ltac zlia := Z.div_mod_to_equations; lia.

Create HintDb cbytes discriminated.
Create HintDb krun discriminated.
Create Rewrite HintDb klocks.

(** ** Machine integers

    The C types of kernel/types.h are modelled by [Z]; a store to a variable
    of a given width wraps around with the function of that width. *)

Definition u8 (z : Z) : Z := z mod 256.
Definition u16 (z : Z) : Z := z mod 65536.
Definition u32 (z : Z) : Z := z mod 4294967296.
Definition u64 (z : Z) : Z := z mod 18446744073709551616.
Definition s16 (z : Z) : Z := (z + 32768) mod 65536 - 32768.
Definition s32 (z : Z) : Z := (z + 2147483648) mod 4294967296 - 2147483648.

(** Truth of a C scalar and the int value of a C comparison. *)
Definition truth (z : Z) : bool := negb (z =? 0).
Definition cbool (b : bool) : Z := if b then 1 else 0.

Lemma u8_range z : 0 <= u8 z < 256.
Proof. unfold u8; zlia. Qed.
Lemma u16_range z : 0 <= u16 z < 65536.
Proof. unfold u16; zlia. Qed.
Lemma u32_range z : 0 <= u32 z < 4294967296.
Proof. unfold u32; zlia. Qed.
Lemma u64_range z : 0 <= u64 z < 18446744073709551616.
Proof. unfold u64; zlia. Qed.
Lemma s32_range z : -2147483648 <= s32 z < 2147483648.
Proof. unfold s32; zlia. Qed.

Lemma u8_id z : 0 <= z < 256 -> u8 z = z.
Proof. intros; unfold u8; apply Z.mod_small; lia. Qed.
Lemma u32_id z : 0 <= z < 4294967296 -> u32 z = z.
Proof. intros; unfold u32; apply Z.mod_small; lia. Qed.
Lemma u64_id z : 0 <= z < 18446744073709551616 -> u64 z = z.
Proof. intros; unfold u64; apply Z.mod_small; lia. Qed.
Lemma s32_id z : -2147483648 <= z < 2147483648 -> s32 z = z.
Proof. intros; unfold s32; rewrite Z.mod_small; lia. Qed.

Lemma u8_idem z : u8 (u8 z) = u8 z.
Proof. apply u8_id, u8_range. Qed.
Lemma u32_idem z : u32 (u32 z) = u32 z.
Proof. apply u32_id, u32_range. Qed.
Lemma u32_add_l a b : u32 (u32 a + b) = u32 (a + b).
Proof. unfold u32. apply Zplus_mod_idemp_l. Qed.
Lemma u32_s32 z : u32 (s32 z) = u32 z.
Proof. unfold u32, s32. zlia. Qed.

#[export] Hint Resolve u8_range u16_range u32_range u64_range : cbytes.

(** ** Little-endian byte strings *)

Fixpoint le_encode (n : nat) (z : Z) : list Z :=
  match n with
  | O => []
  | S n => u8 z :: le_encode n (z / 256)
  end.

Fixpoint le_decode (bs : list Z) : Z :=
  match bs with
  | [] => 0
  | b :: bs => u8 b + 256 * le_decode bs
  end.

Lemma le_encode_length n z : length (le_encode n z) = n.
Proof. revert z; induction n; simpl; auto. Qed.

Lemma le_decode_encode n z : le_decode (le_encode n z) = z mod 256 ^ Z.of_nat n.
Proof.
  revert z; induction n as [|n IH]; intros z; cbn [le_encode le_decode].
  - change (256 ^ Z.of_nat 0) with 1. by rewrite Z.mod_1_r.
  - rewrite IH, u8_idem, Nat2Z.inj_succ, Z.pow_succ_r by lia.
    unfold u8. rewrite Z.rem_mul_r by (try lia; apply Z.pow_pos_nonneg; lia). lia.
Qed.

Lemma le_decode_range bs : 0 <= le_decode bs < 256 ^ Z.of_nat (length bs).
Proof.
  induction bs as [|b bs IH]; cbn [le_decode length].
  - simpl. lia.
  - rewrite Nat2Z.inj_succ, Z.pow_succ_r by lia. pose proof (u8_range b). lia.
Qed.

(** ** Lists *)

Section lists.
Context {A : Type}.
Implicit Types (l : list A) (x : A).

(** Overwrite [l] from index [i] on with the elements of [new]. *)
Definition splice l (i : nat) (new : list A) : list A :=
  take i l ++ new ++ drop (i + length new) l.

Lemma splice_length l i new :
  (i + length new <= length l)%nat -> length (splice l i new) = length l.
Proof. intros. unfold splice. rewrite !length_app, length_take, length_drop. lia. Qed.

Lemma lookup_splice_in l i new j :
  (i + length new <= length l)%nat -> (i <= j < i + length new)%nat ->
  splice l i new !! j = new !! (j - i)%nat.
Proof.
  intros. unfold splice. rewrite lookup_app_r by (rewrite length_take; lia).
  rewrite length_take, lookup_app_l by lia. f_equal; lia.
Qed.

Lemma lookup_splice_out l i new j :
  (i + length new <= length l)%nat -> ~ (i <= j < i + length new)%nat ->
  splice l i new !! j = l !! j.
Proof.
  intros. unfold splice. destruct (decide (j < i)%nat).
  - rewrite lookup_app_l by (rewrite length_take; lia). rewrite lookup_take_lt by lia. done.
  - rewrite lookup_app_r by (rewrite length_take; lia).
    rewrite length_take, lookup_app_r by lia. rewrite lookup_drop. f_equal; lia.
Qed.

(** A list is determined by its length and its entries in range. *)
Lemma list_eq_bounded l1 l2 :
  length l1 = length l2 ->
  (forall i, (i < length l1)%nat -> l1 !! i = l2 !! i) -> l1 = l2.
Proof.
  intros Hlen Heq. apply list_eq. intros i.
  destruct (decide (i < length l1)%nat) as [Hi|Hi]; [by apply Heq|].
  by rewrite !lookup_ge_None_2 by lia.
Qed.

Lemma insert_insert_list l i x y : <[i := x]> (<[i := y]> l) = <[i := x]> l.
Proof.
  apply list_eq_bounded; rewrite !length_insert; [done|]. intros j Hj.
  destruct (decide (i = j)) as [->|].
  - rewrite !list_lookup_insert_eq; rewrite ?length_insert; done.
  - by rewrite !list_lookup_insert_ne.
Qed.

Lemma alter_id_at l i (f : A -> A) :
  (forall x, l !! i = Some x -> f x = x) -> alter f i l = l.
Proof.
  intros Hf. apply list_eq. intros j. destruct (decide (i = j)) as [->|].
  - rewrite list_lookup_alter_eq. destruct (l !! j) eqn:E; cbn; [by rewrite Hf|done].
  - by rewrite list_lookup_alter_ne.
Qed.
End lists.

(** ** Booleans *)

(** Turn the boolean comparisons of the context and of the goal into their
    propositions. *)
Ltac bprop :=
  repeat match goal with
  | H : (_ =? _) = true |- _ => apply Z.eqb_eq in H
  | H : (_ =? _) = false |- _ => apply Z.eqb_neq in H
  | H : (_ <? _) = true |- _ => apply Z.ltb_lt in H
  | H : (_ <? _) = false |- _ => apply Z.ltb_ge in H
  | H : (_ <=? _) = true |- _ => apply Z.leb_le in H
  | H : (_ <=? _) = false |- _ => apply Z.leb_gt in H
  | H : negb _ = true |- _ => apply negb_true_iff in H
  | H : negb _ = false |- _ => apply negb_false_iff in H
  | H : (_ && _) = true |- _ => apply andb_true_iff in H; destruct H
  | H : (_ || _) = false |- _ => apply orb_false_iff in H; destruct H
  end.
