(* ===== verification/Monad.v ===== *)
(** * The execution monad of the kernel model

    C code with global state, [panic] and blocking is written in a state
    monad whose outcome says how the code ended: it returned, it called
    [panic(msg)], or it waits for ever (a spin or a sleep that nothing ends).
    The file holds the monad, its weakest precondition and the loop
    combinators used for [for] and [while] loops with early exits. *)

From S2P Require Export Prelude.

Inductive outcome (S A : Type) : Type :=
  | Ok (a : A) (s : S)
  | Panic (msg : string)
  | Blocked.
Arguments Ok {S A} _ _.
Arguments Panic {S A} _.
Arguments Blocked {S A}.

Definition M (S A : Type) : Type := S -> outcome S A.

#[global] Instance M_ret S : MRet (M S) := fun A a s => Ok a s.
#[global] Instance M_bind S : MBind (M S) := fun A B f m s =>
  match m s with
  | Ok a s' => f a s'
  | Panic msg => Panic msg
  | Blocked => Blocked
  end.

Definition panic {S A} (msg : string) : M S A := fun _ => Panic msg.
Definition block {S A} : M S A := fun _ => Blocked.
Definition gets {S A} (f : S -> A) : M S A := fun s => Ok (f s) s.
Definition modify {S} (f : S -> S) : M S unit := fun s => Ok tt (f s).
Definition skip {S} : M S unit := mret tt.
Definition when {S} (b : bool) (m : M S unit) : M S unit := if b then m else skip.

(** [for_each xs body] runs [body] on the elements in order; an element whose
    body yields [Some r] ends the loop early with [Some r]. *)
Fixpoint for_each {S A R} (xs : list A) (body : A -> M S (option R)) : M S (option R) :=
  match xs with
  | [] => mret None
  | x :: xs => r ← body x; match r with Some r => mret (Some r) | None => for_each xs body end
  end.

(** A loop over the elements with no early exit. *)
Fixpoint for_all {S A} (xs : list A) (body : A -> M S unit) : M S unit :=
  match xs with
  | [] => skip
  | x :: xs => body x;; for_all xs body
  end.

(** [loop fuel body] repeats [body] until it yields a result; when the rounds
    of [fuel] are used up the code is still in the loop, that is, blocked. *)
Fixpoint loop {S R} (fuel : nat) (body : M S (option R)) : M S R :=
  match fuel with
  | O => block
  | Datatypes.S fuel => r ← body; match r with Some r => mret r | None => loop fuel body end
  end.

(** The same with a loop variable: [inl] continues, [inr] ends. *)
Fixpoint loop_with {S I R} (fuel : nat) (i : I) (body : I -> M S (I + R)) : M S R :=
  match fuel with
  | O => block
  | Datatypes.S fuel => r ← body i; match r with inl i => loop_with fuel i body | inr r => mret r end
  end.

(** ** Running *)

Section run.
Context {S A B : Type}.
Implicit Types (s : S) (m : M S A).

Lemma run_bind m (f : A -> M S B) s a s' :
  m s = Ok a s' -> (m ≫= f) s = f a s'.
Proof. unfold mbind, M_bind. by intros ->. Qed.

Lemma run_bind_panic m (f : A -> M S B) s msg :
  m s = Panic msg -> (m ≫= f) s = Panic msg.
Proof. unfold mbind, M_bind. by intros ->. Qed.

Lemma run_ret (a : A) s : (mret a : M S A) s = Ok a s.
Proof. done. Qed.

Lemma bind_ret (a : A) (f : A -> M S B) s : ((mret a : M S A) ≫= f) s = f a s.
Proof. done. Qed.

Lemma bind_gets (g : S -> A) (f : A -> M S B) s : (gets g ≫= f) s = f (g s) s.
Proof. done. Qed.

Lemma bind_modify (g : S -> S) (f : unit -> M S B) s : (modify g ≫= f) s = f tt (g s).
Proof. done. Qed.

Lemma bind_Ok_inv m (f : A -> M S B) s b s'' :
  (m ≫= f) s = Ok b s'' -> exists a s', m s = Ok a s' /\ f a s' = Ok b s''.
Proof. unfold mbind, M_bind. destruct (m s) eqn:E; [eauto|done..]. Qed.
End run.

Lemma bind_assoc {S A B C} (m : M S A) (f : A -> M S B) (g : B -> M S C) s :
  ((m ≫= f) ≫= g) s = (m ≫= (fun a => f a ≫= g)) s.
Proof. unfold mbind, M_bind. by destruct (m s). Qed.

(** ** Weakest preconditions

    [wp m Q s]: run from [s], [m] returns (it neither panics nor blocks) and
    its result and final state satisfy [Q]. *)

Definition wp {S A} (m : M S A) (Q : A -> S -> Prop) (s : S) : Prop :=
  match m s with Ok a s' => Q a s' | _ => False end.

(** [wlp m Q s]: if [m] returns, [Q] holds of its result and final state. *)
Definition wlp {S A} (m : M S A) (Q : A -> S -> Prop) (s : S) : Prop :=
  forall a s', m s = Ok a s' -> Q a s'.

Section wp.
Context {S : Type}.

Lemma wp_Ok {A} (m : M S A) Q s a s' : m s = Ok a s' -> Q a s' -> wp m Q s.
Proof. unfold wp. by intros ->. Qed.

Lemma wp_inv {A} (m : M S A) Q s : wp m Q s -> exists a s', m s = Ok a s' /\ Q a s'.
Proof. unfold wp. destruct (m s); [eauto|done..]. Qed.

Lemma wp_bind {A B} (m : M S A) (f : A -> M S B) Q s :
  wp m (fun a => wp (f a) Q) s -> wp (m ≫= f) Q s.
Proof. unfold wp, mbind, M_bind. by destruct (m s). Qed.

Lemma wp_mono {A} (m : M S A) (P Q : A -> S -> Prop) s :
  wp m P s -> (forall a s', P a s' -> Q a s') -> wp m Q s.
Proof. unfold wp. destruct (m s); auto. Qed.

Lemma wp_ret {A} (a : A) Q (s : S) : Q a s -> wp (mret a) Q s.
Proof. done. Qed.

Lemma wp_gets {A} (f : S -> A) Q s : Q (f s) s -> wp (gets f) Q s.
Proof. done. Qed.

Lemma wp_modify (f : S -> S) Q s : Q tt (f s) -> wp (modify f) Q s.
Proof. done. Qed.

Lemma wp_when (b : bool) (m : M S unit) Q s :
  (b = true -> wp m Q s) -> (b = false -> Q tt s) -> wp (when b m) Q s.
Proof. destruct b; cbn; auto. Qed.

Lemma wlp_bind {A B} (m : M S A) (f : A -> M S B) Q s :
  wlp m (fun a => wlp (f a) Q) s -> wlp (m ≫= f) Q s.
Proof. intros H b s'' (a & s' & Hm & Hf)%bind_Ok_inv. exact (H _ _ Hm _ _ Hf). Qed.

Lemma wlp_ret {A} (a : A) Q (s : S) : Q a s -> wlp (mret a) Q s.
Proof. intros H ? ?; cbn. by inversion 1; subst. Qed.

Lemma wlp_panic {A} msg (Q : A -> S -> Prop) s : wlp (panic msg) Q s.
Proof. done. Qed.

Lemma wlp_mono {A} (m : M S A) (P Q : A -> S -> Prop) s :
  wlp m P s -> (forall a s', P a s' -> Q a s') -> wlp m Q s.
Proof. unfold wlp. eauto. Qed.

(** An invariant that every round of a loop keeps holds at its exit. *)
Lemma wp_for_all {A} (I : list A -> S -> Prop) (xs : list A) (body : A -> M S unit) s :
  I xs s ->
  (forall x rest s, I (x :: rest) s -> wp (body x) (fun _ => I rest) s) ->
  wp (for_all xs body) (fun _ => I []) s.
Proof.
  intros HI Hbody. revert s HI. induction xs as [|x xs IH]; intros s HI; [done|].
  cbn. apply wp_bind. eapply wp_mono; [by apply Hbody|]. intros ? s' HI'. by apply IH.
Qed.

Lemma wp_loop_S {I R} fuel (i : I) (body : I -> M S (I + R)) Q s :
  wp (body i) (fun x s' =>
    match x with inl i => wp (loop_with fuel i body) Q s' | inr r => Q r s' end) s ->
  wp (loop_with (Datatypes.S fuel) i body) Q s.
Proof.
  intros H. cbn [loop_with]. apply wp_bind. eapply wp_mono; [exact H|].
  intros [i'|r] s' Hx; [exact Hx|by apply wp_ret].
Qed.

(** More fuel than needed changes nothing. *)
Lemma wp_loop_more {I R} fuel more (i : I) (body : I -> M S (I + R)) Q s :
  (fuel <= more)%nat -> wp (loop_with fuel i body) Q s -> wp (loop_with more i body) Q s.
Proof.
  revert more i s. induction fuel as [|fuel IH]; intros more i s Hle; [done|].
  destruct more as [|more]; [lia|]. cbn [loop_with]. unfold wp, mbind, M_bind.
  destruct (body i s) as [[i'|r] s'| |]; [|done..]. apply IH. lia.
Qed.
End wp.

(** Running a program step by step: unfold the elementary operations listed
    in [krun] and rewrite away the binds whose first statement reads or
    writes the state directly. *)
Ltac mrun :=
  autounfold with krun;
  repeat first
  [ rewrite bind_ret | rewrite bind_gets | rewrite bind_modify | rewrite bind_assoc
  | progress cbv beta ].

(** [mrun_by H]: the first statement runs by the equation [H]. *)
Tactic Notation "mrun_by" uconstr(H) := erewrite run_bind by (eapply H; eauto with krun).

Arguments mbind : simpl never.
Arguments M_bind : simpl never.
#[export] Hint Unfold skip when : krun.
