(* ===== verification/State.v ===== *)
(** * The kernel's data: constants, structures and global variables

    One record per [struct] of the kernel headers, with the fields of the
    source, and one record [kernel] for the global variables of the kernel
    and the part of the machine the kernel reads and writes: physical memory
    as a byte map, the executing hart's [tp] register and interrupt-enable
    bit, and the disk as a map from block numbers to blocks.

    Pointers into the static tables ([proc], [cpus], [bcache.buf],
    [icache.inode], [ftable.file]) are table indices; a null pointer is
    [None].  Physical and virtual addresses are integers.  A lock is named by
    the object it sits in ([lockid]); the locks themselves are in the state. *)

From S2P Require Export Monad.

(** ** kernel/param.h, kernel/fs.h, kernel/riscv.h, kernel/memlayout.h *)

Definition NPROC : nat := 64.
Definition NCPU : nat := 8.
Definition NOFILE : nat := 16.
Definition NFILE : nat := 100.
Definition NINODE : nat := 50.
Definition NDEV : nat := 10.
Definition ROOTDEV : Z := 1.
Definition MAXARG : nat := 32.
Definition MAXOPBLOCKS : Z := 10.
Definition LOGSIZE : Z := MAXOPBLOCKS * 3.
Definition NBUF : nat := Z.to_nat (MAXOPBLOCKS * 3).
Definition FSSIZE : Z := 1000.
Definition MAXPATH : Z := 128.

Definition ROOTINO : Z := 1.
Definition BSIZE : Z := 1024.
Definition FSMAGIC : Z := 0x10203040.
Definition NDIRECT : Z := 12.
Definition NINDIRECT : Z := BSIZE / 4.
Definition MAXFILE : Z := NDIRECT + NINDIRECT.
Definition BPB : Z := BSIZE * 8.
Definition DIRSIZ : Z := 14.
Definition T_DIR : Z := 1.
Definition T_FILE : Z := 2.
Definition T_DEVICE : Z := 3.

Definition PGSIZE : Z := 4096.
Definition PGROUNDUP (sz : Z) : Z := Z.land (u64 (sz + PGSIZE - 1)) (u64 (Z.lnot (PGSIZE - 1))).
Definition PGROUNDDOWN (a : Z) : Z := Z.land a (u64 (Z.lnot (PGSIZE - 1))).
Definition PTE_V : Z := Z.shiftl 1 0.
Definition PTE_R : Z := Z.shiftl 1 1.
Definition PTE_W : Z := Z.shiftl 1 2.
Definition PTE_X : Z := Z.shiftl 1 3.
Definition PTE_U : Z := Z.shiftl 1 4.
Definition PA2PTE (pa : Z) : Z := u64 (Z.shiftl (Z.shiftr pa 12) 10).
Definition PTE2PA (pte : Z) : Z := u64 (Z.shiftl (Z.shiftr pte 10) 12).
Definition PTE_FLAGS (pte : Z) : Z := Z.land pte 0x3FF.
Definition PXSHIFT (level : Z) : Z := 12 + 9 * level.
Definition PX (level va : Z) : Z := Z.land (Z.shiftr va (PXSHIFT level)) 0x1FF.
Definition MAXVA : Z := Z.shiftl 1 (9 + 9 + 9 + 12 - 1).

Definition KERNBASE : Z := 0x80000000.
Definition PHYSTOP : Z := KERNBASE + 128 * 1024 * 1024.
Definition UART0 : Z := 0x10000000.
Definition VIRTIO0 : Z := 0x10001000.
Definition PLIC : Z := 0x0c000000.
Definition TRAMPOLINE : Z := MAXVA - PGSIZE.
Definition KSTACK (p : Z) : Z := TRAMPOLINE - (p + 1) * 2 * PGSIZE.
Definition TRAPFRAME : Z := TRAMPOLINE - PGSIZE.

(** Addresses the linker script gives to symbols of the kernel image. *)
Class Layout := {
  kend : Z;          (* end: first address after the kernel *)
  etext : Z;         (* end of the kernel text *)
  trampoline : Z;    (* the trampoline page *)
  forkret_addr : Z;
  layout_etext : KERNBASE <= etext <= kend;
  layout_end : kend + PGSIZE <= PHYSTOP;
  layout_text_aligned : etext mod PGSIZE = 0;
  layout_tramp : KERNBASE <= trampoline < etext;
  layout_tramp_aligned : trampoline mod PGSIZE = 0
}.

(** The addresses of kernel/kernel.sym. *)
#[refine] Definition kernel_sym : Layout := {|
  kend := 0x80026000; etext := 0x80008000; trampoline := 0x80007000;
  forkret_addr := 0x80001a26 |}.
Proof. all: vm_compute; intuition congruence. Defined.

(** ** Structures *)

(** The objects that contain a sleep lock. *)
Inductive sleepid := SLbuf (i : nat) | SLinode (i : nat).

(** The objects that contain a spin lock. *)
Inductive lockid :=
  | Lkmem | Lbcache | Lftable | Licache | Llog | Lpid | Lticks
  | Lcons | Luart | Lpr | Lvdisk
  | Lproc (i : nat) | Lsleep (s : sleepid) | Lpipe (pi : Z).

#[global] Instance sleepid_eq_dec : EqDecision sleepid.
Proof. solve_decision. Defined.
#[global] Instance lockid_eq_dec : EqDecision lockid.
Proof. solve_decision. Defined.

#[global] Instance sleepid_countable : Countable sleepid.
Proof.
  refine (inj_countable'
    (fun s => match s with SLbuf i => (0%nat, i) | SLinode i => (1%nat, i) end)
    (fun '(t, i) => if decide (t = 0%nat) then SLbuf i else SLinode i) _).
  by intros [].
Defined.

#[global] Instance lockid_countable : Countable lockid.
Proof.
  refine (inj_countable'
    (fun l : lockid => match l return (nat * (nat * (sleepid * Z)))%type with
      | Lkmem => (0, (0, (SLbuf 0, 0%Z))) | Lbcache => (1, (0, (SLbuf 0, 0%Z)))
      | Lftable => (2, (0, (SLbuf 0, 0%Z))) | Licache => (3, (0, (SLbuf 0, 0%Z)))
      | Llog => (4, (0, (SLbuf 0, 0%Z))) | Lpid => (5, (0, (SLbuf 0, 0%Z)))
      | Lticks => (6, (0, (SLbuf 0, 0%Z))) | Lcons => (7, (0, (SLbuf 0, 0%Z)))
      | Luart => (8, (0, (SLbuf 0, 0%Z))) | Lpr => (9, (0, (SLbuf 0, 0%Z)))
      | Lvdisk => (10, (0, (SLbuf 0, 0%Z)))
      | Lproc i => (11, (i, (SLbuf 0, 0%Z))) | Lsleep s => (12, (0, (s, 0%Z)))
      | Lpipe pi => (13, (0, (SLbuf 0, pi))) end)%nat
    (fun '(t, (i, (s, pi))) => match t with
      | 0 => Lkmem | 1 => Lbcache | 2 => Lftable | 3 => Licache | 4 => Llog | 5 => Lpid
      | 6 => Lticks | 7 => Lcons | 8 => Luart | 9 => Lpr | 10 => Lvdisk
      | 11 => Lproc i | 12 => Lsleep s | _ => Lpipe pi end%nat) _).
  by intros [].
Defined.

(** The addresses processes sleep on. *)
Inductive channel :=
  | ChProc (i : nat) | ChLog | ChTicks | ChSleep (s : sleepid)
  | ChPipeRead (pi : Z) | ChPipeWrite (pi : Z) | ChCons | ChUart
  | ChBuf (i : nat) | ChDiskFree.

#[global] Instance channel_eq_dec : EqDecision channel.
Proof. solve_decision. Defined.

Record spinlock := mkSpinlock {
  lk_locked : Z;
  lk_name : string;
  lk_cpu : option nat
}.

Record sleeplock := mkSleeplock {
  sl_locked : Z;
  sl_name : string;
  sl_pid : Z
}.

Record context := mkContext { ctx_ra : Z; ctx_sp : Z; ctx_s : list Z }.

Record cpu := mkCpu {
  c_proc : option nat;
  c_context : context;
  c_noff : Z;
  c_intena : bool
}.

Inductive procstate := UNUSED | SLEEPING | RUNNABLE | RUNNING | ZOMBIE.

#[global] Instance procstate_eq_dec : EqDecision procstate.
Proof. solve_decision. Defined.

Record proc := mkProc {
  p_state : procstate;
  p_parent : option nat;
  p_chan : option channel;
  p_killed : Z;
  p_xstate : Z;
  p_pid : Z;
  p_kstack : Z;
  p_sz : Z;
  p_pagetable : Z;
  p_trapframe : Z;
  p_context : context;
  p_ofile : list (option nat);
  p_cwd : option nat;
  p_name : list Z
}.

Record buf := mkBuf {
  b_valid : Z;
  b_disk : Z;
  b_dev : Z;
  b_blockno : Z;
  b_refcnt : Z;
  b_prev : nat;
  b_next : nat;
  b_data : list Z
}.

Record logheader := mkLogheader { lh_n : Z; lh_block : list Z }.

Record log := mkLog {
  log_start : Z;
  log_size : Z;
  log_outstanding : Z;
  log_committing : Z;
  log_dev : Z;
  log_lh : logheader
}.

Record superblock := mkSuperblock {
  sb_magic : Z;
  sb_size : Z;
  sb_nblocks : Z;
  sb_ninodes : Z;
  sb_nlog : Z;
  sb_logstart : Z;
  sb_inodestart : Z;
  sb_bmapstart : Z
}.

Record inode := mkInode {
  i_dev : Z;
  i_inum : Z;
  i_ref : Z;
  i_valid : Z;
  i_type : Z;
  i_major : Z;
  i_minor : Z;
  i_nlink : Z;
  i_size : Z;
  i_addrs : list Z
}.

Inductive filetype := FD_NONE | FD_PIPE | FD_INODE | FD_DEVICE.

#[global] Instance filetype_eq_dec : EqDecision filetype.
Proof. solve_decision. Defined.

Record file := mkFile {
  f_type : filetype;
  f_ref : Z;
  f_readable : Z;
  f_writable : Z;
  f_pipe : Z;
  f_ip : option nat;
  f_off : Z;
  f_major : Z
}.

Record pipe := mkPipe {
  pi_data : list Z;
  pi_nread : Z;
  pi_nwrite : Z;
  pi_readopen : Z;
  pi_writeopen : Z
}.

(** Control and status registers of the executing hart, [sstatus.SIE] apart. *)
Record csrs := mkCsrs {
  r_satp : Z;
  r_stvec : Z;
  r_sepc : Z;
  r_scause : Z;
  r_stval : Z;
  r_sip : Z;
  r_spp : bool;
  r_spie : bool
}.

(** The console's input buffer and the UART's output buffer. *)
Record consbuf := mkCons {
  cons_buf : list Z;
  cons_r : Z;
  cons_w : Z;
  cons_e : Z
}.

Record uartbuf := mkUart {
  uart_tx_buf : list Z;
  uart_tx_w : Z;
  uart_tx_r : Z
}.

(** Accesses to memory-mapped device registers. *)
Inductive ioevent := IoRead (a v : Z) | IoWrite (a v : Z).

(** ** The global state

    The devices are not modelled: a read of a device register takes its value
    from [k_script], the answers the devices will give, and every access is
    recorded in [k_trace], newest first.  The disk is a map from block
    numbers to blocks; [k_hist] is a ghost record of its earlier contents, one
    per completed block write, newest first: the states a crash can expose. *)

Record kernel := mkKernel {
  k_mem : gmap Z Z;
  k_tp : nat;
  k_sie : bool;
  k_cpus : list cpu;
  k_locks : gmap lockid spinlock;
  k_sleep : gmap sleepid sleeplock;
  k_freelist : Z;
  k_proc : list proc;
  k_initproc : option nat;
  k_nextpid : Z;
  k_ticks : Z;
  k_buf : list buf;
  k_disk : gmap Z (list Z);
  k_hist : list (gmap Z (list Z));
  k_log : log;
  k_sb : superblock;
  k_inode : list inode;
  k_file : list file;
  k_pipe : gmap Z pipe;
  k_kpgtbl : Z;
  k_csr : csrs;
  k_cons : consbuf;
  k_uart : uartbuf;
  k_first : bool;
  k_panicked : Z;
  k_script : list Z;
  k_trace : list ioevent
}.

Abbreviation K := (M kernel).

(** Setters: [set_f v r] is [r] with field [f] replaced by [v]. *)
Ltac setter eta proj :=
  lazymatch goal with
  | v : _, r : _ |- _ =>
      let e := eval cbv beta delta [eta] in (eta r) in
      lazymatch eval pattern (proj r) in e with
      | ?g _ => let t := eval cbv beta in (g v) in exact t
      end
  end.

Definition eta_kernel (k : kernel) : kernel :=
  mkKernel (k_mem k) (k_tp k) (k_sie k) (k_cpus k) (k_locks k) (k_sleep k) (k_freelist k)
    (k_proc k) (k_initproc k) (k_nextpid k) (k_ticks k) (k_buf k) (k_disk k) (k_hist k) (k_log k) (k_sb k)
    (k_inode k) (k_file k) (k_pipe k) (k_kpgtbl k) (k_csr k) (k_cons k) (k_uart k) (k_first k)
    (k_panicked k) (k_script k) (k_trace k).

Definition set_mem (v : gmap Z Z) (k : kernel) : kernel := ltac:(setter eta_kernel k_mem).
Definition set_tp (v : nat) (k : kernel) : kernel := ltac:(setter eta_kernel k_tp).
Definition set_sie (v : bool) (k : kernel) : kernel := ltac:(setter eta_kernel k_sie).
Definition set_cpus (v : list cpu) (k : kernel) : kernel := ltac:(setter eta_kernel k_cpus).
Definition set_locks (v : gmap lockid spinlock) (k : kernel) : kernel := ltac:(setter eta_kernel k_locks).
Definition set_sleep (v : gmap sleepid sleeplock) (k : kernel) : kernel := ltac:(setter eta_kernel k_sleep).
Definition set_freelist (v : Z) (k : kernel) : kernel := ltac:(setter eta_kernel k_freelist).
Definition set_proc (v : list proc) (k : kernel) : kernel := ltac:(setter eta_kernel k_proc).
Definition set_initproc (v : option nat) (k : kernel) : kernel := ltac:(setter eta_kernel k_initproc).
Definition set_nextpid (v : Z) (k : kernel) : kernel := ltac:(setter eta_kernel k_nextpid).
Definition set_ticks (v : Z) (k : kernel) : kernel := ltac:(setter eta_kernel k_ticks).
Definition set_buf (v : list buf) (k : kernel) : kernel := ltac:(setter eta_kernel k_buf).
Definition set_disk (v : gmap Z (list Z)) (k : kernel) : kernel := ltac:(setter eta_kernel k_disk).
Definition set_hist (v : list (gmap Z (list Z))) (k : kernel) : kernel := ltac:(setter eta_kernel k_hist).
Definition set_log (v : log) (k : kernel) : kernel := ltac:(setter eta_kernel k_log).
Definition set_sb (v : superblock) (k : kernel) : kernel := ltac:(setter eta_kernel k_sb).
Definition set_inode (v : list inode) (k : kernel) : kernel := ltac:(setter eta_kernel k_inode).
Definition set_file (v : list file) (k : kernel) : kernel := ltac:(setter eta_kernel k_file).
Definition set_pipe (v : gmap Z pipe) (k : kernel) : kernel := ltac:(setter eta_kernel k_pipe).
Definition set_kpgtbl (v : Z) (k : kernel) : kernel := ltac:(setter eta_kernel k_kpgtbl).
Definition set_csr (v : csrs) (k : kernel) : kernel := ltac:(setter eta_kernel k_csr).
Definition set_cons (v : consbuf) (k : kernel) : kernel := ltac:(setter eta_kernel k_cons).
Definition set_uart (v : uartbuf) (k : kernel) : kernel := ltac:(setter eta_kernel k_uart).
Definition set_first (v : bool) (k : kernel) : kernel := ltac:(setter eta_kernel k_first).
Definition set_panicked (v : Z) (k : kernel) : kernel := ltac:(setter eta_kernel k_panicked).
Definition set_script (v : list Z) (k : kernel) : kernel := ltac:(setter eta_kernel k_script).
Definition set_trace (v : list ioevent) (k : kernel) : kernel := ltac:(setter eta_kernel k_trace).

Definition eta_cpu (c : cpu) : cpu :=
  mkCpu (c_proc c) (c_context c) (c_noff c) (c_intena c).
Definition set_c_proc (v : option nat) (c : cpu) : cpu := ltac:(setter eta_cpu c_proc).
Definition set_c_context (v : context) (c : cpu) : cpu := ltac:(setter eta_cpu c_context).
Definition set_c_noff (v : Z) (c : cpu) : cpu := ltac:(setter eta_cpu c_noff).
Definition set_c_intena (v : bool) (c : cpu) : cpu := ltac:(setter eta_cpu c_intena).

Definition eta_proc (p : proc) : proc :=
  mkProc (p_state p) (p_parent p) (p_chan p) (p_killed p) (p_xstate p) (p_pid p) (p_kstack p) (p_sz p) (p_pagetable p) (p_trapframe p) (p_context p) (p_ofile p) (p_cwd p) (p_name p).
Definition set_p_state (v : procstate) (p : proc) : proc := ltac:(setter eta_proc p_state).
Definition set_p_parent (v : option nat) (p : proc) : proc := ltac:(setter eta_proc p_parent).
Definition set_p_chan (v : option channel) (p : proc) : proc := ltac:(setter eta_proc p_chan).
Definition set_p_killed (v : Z) (p : proc) : proc := ltac:(setter eta_proc p_killed).
Definition set_p_xstate (v : Z) (p : proc) : proc := ltac:(setter eta_proc p_xstate).
Definition set_p_pid (v : Z) (p : proc) : proc := ltac:(setter eta_proc p_pid).
Definition set_p_kstack (v : Z) (p : proc) : proc := ltac:(setter eta_proc p_kstack).
Definition set_p_sz (v : Z) (p : proc) : proc := ltac:(setter eta_proc p_sz).
Definition set_p_pagetable (v : Z) (p : proc) : proc := ltac:(setter eta_proc p_pagetable).
Definition set_p_trapframe (v : Z) (p : proc) : proc := ltac:(setter eta_proc p_trapframe).
Definition set_p_context (v : context) (p : proc) : proc := ltac:(setter eta_proc p_context).
Definition set_p_ofile (v : list (option nat)) (p : proc) : proc := ltac:(setter eta_proc p_ofile).
Definition set_p_cwd (v : option nat) (p : proc) : proc := ltac:(setter eta_proc p_cwd).
Definition set_p_name (v : list Z) (p : proc) : proc := ltac:(setter eta_proc p_name).

Definition eta_buf (b : buf) : buf :=
  mkBuf (b_valid b) (b_disk b) (b_dev b) (b_blockno b) (b_refcnt b) (b_prev b) (b_next b) (b_data b).
Definition set_b_valid (v : Z) (b : buf) : buf := ltac:(setter eta_buf b_valid).
Definition set_b_disk (v : Z) (b : buf) : buf := ltac:(setter eta_buf b_disk).
Definition set_b_dev (v : Z) (b : buf) : buf := ltac:(setter eta_buf b_dev).
Definition set_b_blockno (v : Z) (b : buf) : buf := ltac:(setter eta_buf b_blockno).
Definition set_b_refcnt (v : Z) (b : buf) : buf := ltac:(setter eta_buf b_refcnt).
Definition set_b_prev (v : nat) (b : buf) : buf := ltac:(setter eta_buf b_prev).
Definition set_b_next (v : nat) (b : buf) : buf := ltac:(setter eta_buf b_next).
Definition set_b_data (v : list Z) (b : buf) : buf := ltac:(setter eta_buf b_data).

Definition eta_log (l : log) : log :=
  mkLog (log_start l) (log_size l) (log_outstanding l) (log_committing l) (log_dev l) (log_lh l).
Definition set_log_start (v : Z) (l : log) : log := ltac:(setter eta_log log_start).
Definition set_log_size (v : Z) (l : log) : log := ltac:(setter eta_log log_size).
Definition set_log_outstanding (v : Z) (l : log) : log := ltac:(setter eta_log log_outstanding).
Definition set_log_committing (v : Z) (l : log) : log := ltac:(setter eta_log log_committing).
Definition set_log_dev (v : Z) (l : log) : log := ltac:(setter eta_log log_dev).
Definition set_log_lh (v : logheader) (l : log) : log := ltac:(setter eta_log log_lh).

Definition eta_logheader (h : logheader) : logheader :=
  mkLogheader (lh_n h) (lh_block h).
Definition set_lh_n (v : Z) (h : logheader) : logheader := ltac:(setter eta_logheader lh_n).
Definition set_lh_block (v : list Z) (h : logheader) : logheader := ltac:(setter eta_logheader lh_block).

Definition eta_inode (ip : inode) : inode :=
  mkInode (i_dev ip) (i_inum ip) (i_ref ip) (i_valid ip) (i_type ip) (i_major ip) (i_minor ip) (i_nlink ip) (i_size ip) (i_addrs ip).
Definition set_i_dev (v : Z) (ip : inode) : inode := ltac:(setter eta_inode i_dev).
Definition set_i_inum (v : Z) (ip : inode) : inode := ltac:(setter eta_inode i_inum).
Definition set_i_ref (v : Z) (ip : inode) : inode := ltac:(setter eta_inode i_ref).
Definition set_i_valid (v : Z) (ip : inode) : inode := ltac:(setter eta_inode i_valid).
Definition set_i_type (v : Z) (ip : inode) : inode := ltac:(setter eta_inode i_type).
Definition set_i_major (v : Z) (ip : inode) : inode := ltac:(setter eta_inode i_major).
Definition set_i_minor (v : Z) (ip : inode) : inode := ltac:(setter eta_inode i_minor).
Definition set_i_nlink (v : Z) (ip : inode) : inode := ltac:(setter eta_inode i_nlink).
Definition set_i_size (v : Z) (ip : inode) : inode := ltac:(setter eta_inode i_size).
Definition set_i_addrs (v : list Z) (ip : inode) : inode := ltac:(setter eta_inode i_addrs).

Definition eta_file (f : file) : file :=
  mkFile (f_type f) (f_ref f) (f_readable f) (f_writable f) (f_pipe f) (f_ip f) (f_off f) (f_major f).
Definition set_f_type (v : filetype) (f : file) : file := ltac:(setter eta_file f_type).
Definition set_f_ref (v : Z) (f : file) : file := ltac:(setter eta_file f_ref).
Definition set_f_readable (v : Z) (f : file) : file := ltac:(setter eta_file f_readable).
Definition set_f_writable (v : Z) (f : file) : file := ltac:(setter eta_file f_writable).
Definition set_f_pipe (v : Z) (f : file) : file := ltac:(setter eta_file f_pipe).
Definition set_f_ip (v : option nat) (f : file) : file := ltac:(setter eta_file f_ip).
Definition set_f_off (v : Z) (f : file) : file := ltac:(setter eta_file f_off).
Definition set_f_major (v : Z) (f : file) : file := ltac:(setter eta_file f_major).

Definition eta_pipe (pi : pipe) : pipe :=
  mkPipe (pi_data pi) (pi_nread pi) (pi_nwrite pi) (pi_readopen pi) (pi_writeopen pi).
Definition set_pi_data (v : list Z) (pi : pipe) : pipe := ltac:(setter eta_pipe pi_data).
Definition set_pi_nread (v : Z) (pi : pipe) : pipe := ltac:(setter eta_pipe pi_nread).
Definition set_pi_nwrite (v : Z) (pi : pipe) : pipe := ltac:(setter eta_pipe pi_nwrite).
Definition set_pi_readopen (v : Z) (pi : pipe) : pipe := ltac:(setter eta_pipe pi_readopen).
Definition set_pi_writeopen (v : Z) (pi : pipe) : pipe := ltac:(setter eta_pipe pi_writeopen).

Definition eta_spinlock (lk : spinlock) : spinlock :=
  mkSpinlock (lk_locked lk) (lk_name lk) (lk_cpu lk).
Definition set_lk_locked (v : Z) (lk : spinlock) : spinlock := ltac:(setter eta_spinlock lk_locked).
Definition set_lk_name (v : string) (lk : spinlock) : spinlock := ltac:(setter eta_spinlock lk_name).
Definition set_lk_cpu (v : option nat) (lk : spinlock) : spinlock := ltac:(setter eta_spinlock lk_cpu).

Definition eta_sleeplock (lk : sleeplock) : sleeplock :=
  mkSleeplock (sl_locked lk) (sl_name lk) (sl_pid lk).
Definition set_sl_locked (v : Z) (lk : sleeplock) : sleeplock := ltac:(setter eta_sleeplock sl_locked).
Definition set_sl_name (v : string) (lk : sleeplock) : sleeplock := ltac:(setter eta_sleeplock sl_name).
Definition set_sl_pid (v : Z) (lk : sleeplock) : sleeplock := ltac:(setter eta_sleeplock sl_pid).

Definition eta_csrs (c : csrs) : csrs :=
  mkCsrs (r_satp c) (r_stvec c) (r_sepc c) (r_scause c) (r_stval c) (r_sip c) (r_spp c) (r_spie c).
Definition set_r_satp (v : Z) (c : csrs) : csrs := ltac:(setter eta_csrs r_satp).
Definition set_r_stvec (v : Z) (c : csrs) : csrs := ltac:(setter eta_csrs r_stvec).
Definition set_r_sepc (v : Z) (c : csrs) : csrs := ltac:(setter eta_csrs r_sepc).
Definition set_r_scause (v : Z) (c : csrs) : csrs := ltac:(setter eta_csrs r_scause).
Definition set_r_stval (v : Z) (c : csrs) : csrs := ltac:(setter eta_csrs r_stval).
Definition set_r_sip (v : Z) (c : csrs) : csrs := ltac:(setter eta_csrs r_sip).
Definition set_r_spp (v : bool) (c : csrs) : csrs := ltac:(setter eta_csrs r_spp).
Definition set_r_spie (v : bool) (c : csrs) : csrs := ltac:(setter eta_csrs r_spie).

Definition eta_consbuf (c : consbuf) : consbuf :=
  mkCons (cons_buf c) (cons_r c) (cons_w c) (cons_e c).
Definition set_cons_buf (v : list Z) (c : consbuf) : consbuf := ltac:(setter eta_consbuf cons_buf).
Definition set_cons_r (v : Z) (c : consbuf) : consbuf := ltac:(setter eta_consbuf cons_r).
Definition set_cons_w (v : Z) (c : consbuf) : consbuf := ltac:(setter eta_consbuf cons_w).
Definition set_cons_e (v : Z) (c : consbuf) : consbuf := ltac:(setter eta_consbuf cons_e).

Definition eta_uartbuf (u : uartbuf) : uartbuf :=
  mkUart (uart_tx_buf u) (uart_tx_w u) (uart_tx_r u).
Definition set_uart_tx_buf (v : list Z) (u : uartbuf) : uartbuf := ltac:(setter eta_uartbuf uart_tx_buf).
Definition set_uart_tx_w (v : Z) (u : uartbuf) : uartbuf := ltac:(setter eta_uartbuf uart_tx_w).
Definition set_uart_tx_r (v : Z) (u : uartbuf) : uartbuf := ltac:(setter eta_uartbuf uart_tx_r).

(** ** Accessors of the static tables

    An index outside a table reads a zeroed entry; the code only forms
    pointers into the tables. *)

Definition context0 : context := mkContext 0 0 (replicate 12 0).
Definition cpu0 : cpu := mkCpu None context0 0 false.
Definition proc0 : proc :=
  mkProc UNUSED None None 0 0 0 0 0 0 0 context0 (replicate NOFILE None) None (replicate 16 0).
Definition buf0 : buf := mkBuf 0 0 0 0 0 0 0 (replicate (Z.to_nat BSIZE) 0).
Definition inode0 : inode := mkInode 0 0 0 0 0 0 0 0 0 (replicate 13 0).
Definition file0 : file := mkFile FD_NONE 0 0 0 0 None 0 0.
Definition pipe0 : pipe := mkPipe (replicate 512 0) 0 0 0 0.
Definition spinlock0 : spinlock := mkSpinlock 0 "" None.
Definition sleeplock0 : sleeplock := mkSleeplock 0 "" 0.

#[global] Instance cpu_inhabited : Inhabited cpu := populate cpu0.
#[global] Instance proc_inhabited : Inhabited proc := populate proc0.
#[global] Instance buf_inhabited : Inhabited buf := populate buf0.
#[global] Instance inode_inhabited : Inhabited inode := populate inode0.
#[global] Instance file_inhabited : Inhabited file := populate file0.

Definition get_cpu (k : kernel) (i : nat) : cpu := k_cpus k !!! i.
Definition get_proc (k : kernel) (i : nat) : proc := k_proc k !!! i.
Definition get_buf (k : kernel) (i : nat) : buf := k_buf k !!! i.
Definition get_inode (k : kernel) (i : nat) : inode := k_inode k !!! i.
Definition get_file (k : kernel) (i : nat) : file := k_file k !!! i.
Definition get_lock (k : kernel) (l : lockid) : spinlock := default spinlock0 (k_locks k !! l).
Definition get_sleeplock (k : kernel) (s : sleepid) : sleeplock :=
  default sleeplock0 (k_sleep k !! s).
Definition get_pipe (k : kernel) (a : Z) : pipe := default pipe0 (k_pipe k !! a).

Definition upd_cpu (i : nat) (f : cpu -> cpu) (k : kernel) : kernel :=
  set_cpus (alter f i (k_cpus k)) k.
Definition upd_proc (i : nat) (f : proc -> proc) (k : kernel) : kernel :=
  set_proc (alter f i (k_proc k)) k.
Definition upd_buf (i : nat) (f : buf -> buf) (k : kernel) : kernel :=
  set_buf (alter f i (k_buf k)) k.
Definition upd_inode (i : nat) (f : inode -> inode) (k : kernel) : kernel :=
  set_inode (alter f i (k_inode k)) k.
Definition upd_file (i : nat) (f : file -> file) (k : kernel) : kernel :=
  set_file (alter f i (k_file k)) k.
Definition upd_lock (l : lockid) (f : spinlock -> spinlock) (k : kernel) : kernel :=
  set_locks (<[l := f (get_lock k l)]> (k_locks k)) k.
Definition upd_sleeplock (s : sleepid) (f : sleeplock -> sleeplock) (k : kernel) : kernel :=
  set_sleep (<[s := f (get_sleeplock k s)]> (k_sleep k)) k.
Definition upd_pipe (a : Z) (f : pipe -> pipe) (k : kernel) : kernel :=
  set_pipe (<[a := f (get_pipe k a)]> (k_pipe k)) k.
Definition upd_log (f : log -> log) (k : kernel) : kernel := set_log (f (k_log k)) k.
Definition upd_lh (f : logheader -> logheader) (k : kernel) : kernel :=
  upd_log (fun l => set_log_lh (f (log_lh l)) l) k.

Arguments get_cpu : simpl never.
Arguments get_proc : simpl never.
Arguments get_buf : simpl never.
Arguments get_inode : simpl never.
Arguments get_file : simpl never.
Arguments get_lock : simpl never.
Arguments get_sleeplock : simpl never.
Arguments get_pipe : simpl never.

Lemma get_lock_upd l f k : get_lock (upd_lock l f k) l = f (get_lock k l).
Proof. unfold get_lock at 1. unfold upd_lock; cbn. by rewrite lookup_insert_eq. Qed.

Lemma get_lock_upd_ne l l' f k : l <> l' -> get_lock (upd_lock l f k) l' = get_lock k l'.
Proof. intros. unfold get_lock, upd_lock; cbn. by rewrite lookup_insert_ne. Qed.

Lemma upd_lock_upd l f g k : upd_lock l g (upd_lock l f k) = upd_lock l (fun lk => g (f lk)) k.
Proof.
  unfold upd_lock at 1. rewrite get_lock_upd. unfold upd_lock; cbn. by rewrite insert_insert_eq.
Qed.

Lemma upd_lock_comm l l' f g k :
  l <> l' -> upd_lock l f (upd_lock l' g k) = upd_lock l' g (upd_lock l f k).
Proof.
  intros Hne. unfold upd_lock at 1 3. rewrite !get_lock_upd_ne by done.
  unfold upd_lock, set_locks; cbn. f_equal. by rewrite insert_insert_ne.
Qed.
