(* ===== verification/Memory.v ===== *)
(** * Byte-addressed memory

    The memory the kernel addresses directly is a finite map from addresses
    to byte values; an address never written reads as zero, and a cell is
    read modulo 256, so that every map is a memory.  Multi-byte accesses are
    little-endian, as on RISC-V. *)

From S2P Require Export State.

Definition rd8 (m : gmap Z Z) (a : Z) : Z := u8 (default 0 (m !! a)).
Definition wr8 (a v : Z) (m : gmap Z Z) : gmap Z Z := <[a := u8 v]> m.

Fixpoint rd_bytes (m : gmap Z Z) (a : Z) (n : nat) : list Z :=
  match n with
  | O => []
  | S n => rd8 m a :: rd_bytes m (a + 1) n
  end.

Fixpoint wr_bytes (a : Z) (bs : list Z) (m : gmap Z Z) : gmap Z Z :=
  match bs with
  | [] => m
  | b :: bs => wr_bytes (a + 1) bs (wr8 a b m)
  end.

Definition rd64 (m : gmap Z Z) (a : Z) : Z := le_decode (rd_bytes m a 8).
Definition wr64 (a v : Z) (m : gmap Z Z) : gmap Z Z := wr_bytes a (le_encode 8 v) m.
Definition rd32 (m : gmap Z Z) (a : Z) : Z := le_decode (rd_bytes m a 4).
Definition wr32 (a v : Z) (m : gmap Z Z) : gmap Z Z := wr_bytes a (le_encode 4 v) m.

(** The address ranges [a, a+n) and [b, b+l) do not overlap. *)
Definition disjoint_ranges (a n b l : Z) : Prop := a + n <= b \/ b + l <= a.

(** A list of byte values. *)
Definition bytes (bs : list Z) : Prop := Forall (fun b => 0 <= b < 256) bs.

Section memory.
Implicit Types (m : gmap Z Z) (a v : Z) (bs : list Z).

Lemma rd8_range m a : 0 <= rd8 m a < 256.
Proof. apply u8_range. Qed.

Lemma rd8_wr8 m a v x : rd8 (wr8 a v m) x = if decide (a = x) then u8 v else rd8 m x.
Proof.
  unfold rd8, wr8. rewrite lookup_insert. case_decide; cbn; [apply u8_idem|done].
Qed.

Lemma rd8_wr8_eq m a v : rd8 (wr8 a v m) a = u8 v.
Proof. rewrite rd8_wr8. by case_decide. Qed.

Lemma rd8_wr8_ne m a v x : a <> x -> rd8 (wr8 a v m) x = rd8 m x.
Proof. intros. rewrite rd8_wr8. by case_decide. Qed.

Lemma rd8_wr_bytes_out bs m a x :
  ~ (a <= x < a + Z.of_nat (length bs)) -> rd8 (wr_bytes a bs m) x = rd8 m x.
Proof.
  revert a m; induction bs as [|b bs IH]; intros a m; cbn [wr_bytes length]; [done|].
  intros Hx. rewrite IH by lia. apply rd8_wr8_ne; lia.
Qed.

Lemma rd8_wr_bytes_in bs m a i b :
  bs !! i = Some b -> rd8 (wr_bytes a bs m) (a + Z.of_nat i) = u8 b.
Proof.
  revert a m i; induction bs as [|c bs IH]; intros a m i Hi; [done|].
  destruct i as [|i]; cbn [wr_bytes].
  - injection Hi as ->. rewrite rd8_wr_bytes_out by lia.
    replace (a + Z.of_nat 0) with a by lia. apply rd8_wr8_eq.
  - replace (a + Z.of_nat (S i)) with (a + 1 + Z.of_nat i) by lia. by apply IH.
Qed.

Lemma rd_bytes_length m a n : length (rd_bytes m a n) = n.
Proof. revert a; induction n; intros; cbn; auto. Qed.

Lemma rd_bytes_lookup m a n i :
  (i < n)%nat -> rd_bytes m a n !! i = Some (rd8 m (a + Z.of_nat i)).
Proof.
  revert a i; induction n as [|n IH]; intros a i Hi; [lia|].
  destruct i as [|i]; cbn.
  - do 2 f_equal; lia.
  - rewrite IH by lia. do 2 f_equal; lia.
Qed.

Lemma rd_bytes_bytes m a n : bytes (rd_bytes m a n).
Proof. revert a; induction n; intros; constructor; [apply rd8_range|apply IHn]. Qed.

Lemma rd_bytes_ext m m' a n :
  (forall x, a <= x < a + Z.of_nat n -> rd8 m x = rd8 m' x) ->
  rd_bytes m a n = rd_bytes m' a n.
Proof.
  revert a; induction n as [|n IH]; intros a H; cbn; [done|].
  f_equal; [apply H; lia|]. apply IH. intros; apply H; lia.
Qed.

Lemma rd_bytes_app m a n l :
  rd_bytes m a (n + l) = rd_bytes m a n ++ rd_bytes m (a + Z.of_nat n) l.
Proof.
  revert a; induction n as [|n IH]; intros a; cbn [Nat.add rd_bytes app].
  - by replace (a + Z.of_nat 0) with a by lia.
  - rewrite IH. do 3 f_equal. lia.
Qed.

Lemma rd_wr_bytes_same m a bs :
  bytes bs -> rd_bytes (wr_bytes a bs m) a (length bs) = bs.
Proof.
  intros Hbs. apply list_eq_bounded; rewrite rd_bytes_length; [done|]. intros i Hi.
  rewrite rd_bytes_lookup by done.
  destruct (lookup_lt_is_Some_2 bs i Hi) as [b Hb]. rewrite Hb. f_equal.
  rewrite (rd8_wr_bytes_in bs m a i b Hb). apply u8_id.
  by eapply (Forall_lookup_1 _ _ _ _ Hbs).
Qed.

Lemma rd_wr_bytes_disjoint m a bs b n :
  disjoint_ranges a (Z.of_nat (length bs)) b (Z.of_nat n) ->
  rd_bytes (wr_bytes a bs m) b n = rd_bytes m b n.
Proof.
  intros Hd. apply rd_bytes_ext. intros x Hx. apply rd8_wr_bytes_out.
  unfold disjoint_ranges in Hd. lia.
Qed.

Lemma wr_bytes_app m a bs cs :
  wr_bytes a (bs ++ cs) m = wr_bytes (a + Z.of_nat (length bs)) cs (wr_bytes a bs m).
Proof.
  revert a m; induction bs as [|b bs IH]; intros a m; cbn [app wr_bytes length].
  - by replace (a + Z.of_nat 0) with a by lia.
  - rewrite IH. f_equal. lia.
Qed.

Lemma rd64_range m a : 0 <= rd64 m a < 18446744073709551616.
Proof. unfold rd64. pose proof (le_decode_range (rd_bytes m a 8)) as H.
  rewrite rd_bytes_length in H. exact H. Qed.

Lemma le_encode_bytes n z : bytes (le_encode n z).
Proof. revert z; induction n; intros; constructor; [apply u8_range|apply IHn]. Qed.

Lemma rd64_wr64_same m a v : rd64 (wr64 a v m) a = u64 v.
Proof.
  unfold rd64, wr64. pose proof (rd_wr_bytes_same m a _ (le_encode_bytes 8 v)) as H.
  rewrite le_encode_length in H. rewrite H, le_decode_encode. reflexivity.
Qed.

Lemma rd64_wr_bytes_disjoint m a bs b :
  disjoint_ranges a (Z.of_nat (length bs)) b 8 ->
  rd64 (wr_bytes a bs m) b = rd64 m b.
Proof. intros. unfold rd64. by rewrite rd_wr_bytes_disjoint. Qed.

Lemma rd64_wr64_disjoint m a v b :
  disjoint_ranges a 8 b 8 -> rd64 (wr64 a v m) b = rd64 m b.
Proof. intros. apply rd64_wr_bytes_disjoint. by rewrite le_encode_length. Qed.

Lemma rd64_ext m m' a :
  (forall x, a <= x < a + 8 -> rd8 m x = rd8 m' x) -> rd64 m a = rd64 m' a.
Proof. intros H. unfold rd64. f_equal. by apply rd_bytes_ext. Qed.

Lemma rd8_wr64_out m a v x : ~ (a <= x < a + 8) -> rd8 (wr64 a v m) x = rd8 m x.
Proof. intros. apply rd8_wr_bytes_out. by rewrite le_encode_length. Qed.

Lemma rd_bytes_wr64_disjoint m a v b n :
  disjoint_ranges a 8 b (Z.of_nat n) -> rd_bytes (wr64 a v m) b n = rd_bytes m b n.
Proof. intros. apply rd_wr_bytes_disjoint. by rewrite le_encode_length. Qed.

Lemma rd32_wr32_same m a v : rd32 (wr32 a v m) a = u32 v.
Proof.
  unfold rd32, wr32. pose proof (rd_wr_bytes_same m a _ (le_encode_bytes 4 v)) as H.
  rewrite le_encode_length in H. rewrite H, le_decode_encode. reflexivity.
Qed.

Lemma rd8_empty a : rd8 ∅ a = 0.
Proof. unfold rd8. by rewrite lookup_empty. Qed.

(** A zero-filled range reads as zero. *)
Lemma rd64_zero m a :
  (forall x, a <= x < a + 8 -> rd8 m x = 0) -> rd64 m a = 0.
Proof.
  intros H. unfold rd64. cbn [rd_bytes]. rewrite !H by lia. reflexivity.
Qed.
End memory.

#[export] Hint Resolve rd8_range rd_bytes_bytes rd64_range le_encode_bytes : cbytes.

Arguments rd8 : simpl never.
Arguments wr8 : simpl never.
Arguments rd64 : simpl never.
Arguments wr64 : simpl never.
Arguments rd32 : simpl never.
Arguments wr32 : simpl never.
