(* ===== verification/Riscv.v ===== *)
(** * The address and page-table-entry macros of kernel/riscv.h

    Arithmetic readings of the bit manipulations: rounding to pages, the
    nine-bit indices of a virtual address, and the packing of a physical
    address and flags into a page-table entry. *)

From S2P Require Export Memory.

Lemma land_page_mask a :
  0 <= a < 18446744073709551616 ->
  Z.land a (u64 (Z.lnot (PGSIZE - 1))) = a / 4096 * 4096.
Proof.
  intros Ha. change (u64 (Z.lnot (PGSIZE - 1))) with (Z.shiftl (Z.ones 52) 12).
  change 4096 with (2 ^ 12). rewrite <- Z.shiftr_div_pow2, <- Z.shiftl_mul_pow2 by lia.
  apply Z.bits_inj'. intros n Hn. rewrite Z.land_spec, !Z.shiftl_spec by lia.
  destruct (Z.ltb_spec n 12).
  - rewrite !(Z.testbit_neg_r _ (n - 12)) by lia. apply andb_false_r.
  - rewrite Z.shiftr_spec by lia. replace (n - 12 + 12) with n by lia.
    destruct (Z.ltb_spec n 64).
    + rewrite Z.ones_spec_low by lia. apply andb_true_r.
    + rewrite (Z.bits_above_log2 a); [done|lia|].
      destruct (decide (a = 0)) as [->|]; [cbn; lia|].
      apply Z.lt_le_trans with 64; [|lia]. apply Z.log2_lt_pow2; [lia|]. exact (proj2 Ha).
Qed.

Lemma PGROUNDDOWN_eq a :
  0 <= a < 18446744073709551616 -> PGROUNDDOWN a = a / 4096 * 4096.
Proof. apply land_page_mask. Qed.

Lemma PGROUNDUP_eq sz :
  0 <= sz <= 18446744073709551616 - 4096 -> PGROUNDUP sz = (sz + 4095) / 4096 * 4096.
Proof.
  intros Hs. unfold PGROUNDUP. rewrite u64_id by (unfold PGSIZE; lia).
  rewrite land_page_mask by (unfold PGSIZE; lia). unfold PGSIZE. do 2 f_equal. lia.
Qed.

Lemma PX_eq level va : 0 <= level -> PX level va = va / 2 ^ (12 + 9 * level) mod 512.
Proof.
  intros. unfold PX, PXSHIFT. change 0x1FF with (Z.ones 9).
  rewrite Z.land_ones, Z.shiftr_div_pow2 by lia. done.
Qed.

Lemma PX_range level va : 0 <= PX level va < 512.
Proof.
  unfold PX. change 0x1FF with (Z.ones 9). rewrite Z.land_ones by lia.
  apply Z.mod_pos_bound. done.
Qed.

(** The three indices determine the page of a virtual address below MAXVA. *)
Lemma PX_inj va va' :
  0 <= va < MAXVA -> 0 <= va' < MAXVA ->
  PX 2 va = PX 2 va' -> PX 1 va = PX 1 va' -> PX 0 va = PX 0 va' ->
  va / 4096 = va' / 4096.
Proof.
  change MAXVA with 274877906944. intros H H'. rewrite !PX_eq by lia.
  change (2 ^ (12 + 9 * 2)) with (4096 * 512 * 512). change (2 ^ (12 + 9 * 1)) with (4096 * 512).
  change (2 ^ (12 + 9 * 0)) with 4096.
  rewrite <- !Z.div_div by lia. intros. zlia.
Qed.

Lemma PTE2PA_eq pte : PTE2PA pte = u64 (pte / 1024 * 4096).
Proof. unfold PTE2PA. by rewrite Z.shiftl_mul_pow2, Z.shiftr_div_pow2 by lia. Qed.

Lemma PA2PTE_eq pa : PA2PTE pa = u64 (pa / 4096 * 1024).
Proof. unfold PA2PTE. by rewrite Z.shiftl_mul_pow2, Z.shiftr_div_pow2 by lia. Qed.

Lemma PTE_FLAGS_eq pte : PTE_FLAGS pte = pte mod 1024.
Proof. unfold PTE_FLAGS. change 0x3FF with (Z.ones 10). by rewrite Z.land_ones by lia. Qed.

(** A physical address the entry format can hold. *)
Definition pa_ok (pa : Z) : Prop := pa mod 4096 = 0 /\ 0 <= pa < 72057594037927936.

Lemma pte_pack pa flags :
  pa_ok pa -> 0 <= flags < 1024 ->
  Z.lor (PA2PTE pa) flags = pa / 4096 * 1024 + flags.
Proof.
  intros [Ha Hr] Hf. rewrite PA2PTE_eq, u64_id by zlia.
  rewrite <- Z.lxor_lor, <- Z.add_nocarry_lxor; [done|..];
    (apply Z.bits_inj'; intros n Hn; rewrite Z.land_spec, Z.bits_0;
     change 1024 with (2 ^ 10); rewrite <- Z.shiftl_mul_pow2 by lia;
     destruct (Z.ltb_spec n 10);
     [ rewrite Z.shiftl_spec_low by lia; done
     | rewrite (Z.bits_above_log2 flags), andb_false_r; [done|lia|];
       destruct (decide (flags = 0)) as [->|]; [cbn; lia|];
       apply Z.lt_le_trans with 10; [apply Z.log2_lt_pow2; cbn; lia|lia] ]).
Qed.

Lemma PTE2PA_pack pa flags :
  pa_ok pa -> 0 <= flags < 1024 -> PTE2PA (Z.lor (PA2PTE pa) flags) = pa.
Proof.
  intros Hp Hf. rewrite pte_pack by done. destruct Hp as [Ha Hr]. rewrite PTE2PA_eq.
  rewrite u64_id; [|zlia]. zlia.
Qed.

Lemma PTE_FLAGS_pack pa flags :
  pa_ok pa -> 0 <= flags < 1024 -> PTE_FLAGS (Z.lor (PA2PTE pa) flags) = flags.
Proof. intros Hp Hf. rewrite pte_pack, PTE_FLAGS_eq by done. zlia. Qed.

(** [pte & PTE_V], [pte & PTE_U] read single flag bits. *)
Definition pte_valid (pte : Z) : bool := truth (Z.land pte PTE_V).
Definition pte_user (pte : Z) : bool := truth (Z.land pte PTE_U).

Lemma land_bit pte n : 0 <= n -> truth (Z.land pte (Z.shiftl 1 n)) = Z.testbit pte n.
Proof.
  intros Hn. unfold truth. destruct (Z.testbit pte n) eqn:E.
  - apply negb_true_iff, Z.eqb_neq. intros H.
    assert (Hb : Z.testbit (Z.land pte (Z.shiftl 1 n)) n = false) by (rewrite H; apply Z.bits_0).
    rewrite Z.land_spec, E, Z.shiftl_spec, Z.sub_diag in Hb by lia. done.
  - apply negb_false_iff, Z.eqb_eq. apply Z.bits_inj'. intros i Hi.
    rewrite Z.land_spec, Z.bits_0, Z.shiftl_spec by lia. destruct (decide (i = n)) as [->|].
    + by rewrite E.
    + destruct (Z.ltb_spec i n); [rewrite (Z.testbit_neg_r _ (i - n)) by lia; apply andb_false_r|].
      replace (Z.testbit 1 (i - n)) with false; [apply andb_false_r|].
      symmetry. apply (Z.bits_above_log2 1); cbn; lia.
Qed.

Lemma pte_valid_odd pte : pte_valid pte = Z.odd pte.
Proof. unfold pte_valid, PTE_V. rewrite land_bit by lia. apply Z.bit0_odd. Qed.

Lemma pte_valid_pack pa flags :
  pa_ok pa -> 0 <= flags < 1024 ->
  pte_valid (Z.lor (PA2PTE pa) flags) = Z.odd flags.
Proof.
  intros Hp Hf. rewrite pte_valid_odd, pte_pack by done.
  replace (pa / 4096 * 1024 + flags) with (flags + 2 * (pa / 4096 * 512)) by lia.
  apply Z.odd_add_mul_2.
Qed.
