(* ===== verification/Kstring.v ===== *)
(** * kernel/string.c

    A [const char *] argument that is only read is the function from offsets
    to bytes it gives access to ([str m p] for a pointer into memory, [arr l]
    for an array held in a structure); destinations are addresses of the byte
    memory.  Loops are recursions on the count, in the source's order. *)

From S2P Require Export Memory.

Definition str (m : gmap Z Z) (p : Z) : Z -> Z := fun i => rd8 m (p + i).
Definition arr (l : list Z) : Z -> Z := fun i => u8 (l !!! Z.to_nat i).
Definition ptr_add (p : Z -> Z) (n : Z) : Z -> Z := fun i => p (n + i).

Fixpoint memset_loop (n : nat) (i dst c : Z) (m : gmap Z Z) : gmap Z Z :=
  match n with
  | O => m
  | S n => memset_loop n (i + 1) dst c (wr8 (dst + i) c m)
  end.

Definition memset (dst c n : Z) (m : gmap Z Z) : gmap Z Z :=
  memset_loop (Z.to_nat (u32 n)) 0 dst c m.

Fixpoint memcmp_loop (n : nat) (s1 s2 : Z -> Z) : Z :=
  match n with
  | O => 0
  | S n => if s1 0 =? s2 0 then memcmp_loop n (ptr_add s1 1) (ptr_add s2 1) else s1 0 - s2 0
  end.

Definition memcmp (v1 v2 : Z -> Z) (n : Z) : Z := memcmp_loop (Z.to_nat (u32 n)) v1 v2.

(** [while(n-- > 0) *d++ = *s++;] *)
Fixpoint copy_up (n : nat) (d s : Z) (m : gmap Z Z) : gmap Z Z :=
  match n with
  | O => m
  | S n => copy_up n (d + 1) (s + 1) (wr8 d (rd8 m s) m)
  end.

(** [while(n-- > 0) *--d = *--s;] *)
Fixpoint copy_down (n : nat) (d s : Z) (m : gmap Z Z) : gmap Z Z :=
  match n with
  | O => m
  | S n => copy_down n (d - 1) (s - 1) (wr8 (d - 1) (rd8 m (s - 1)) m)
  end.

Definition memmove (dst src n : Z) (m : gmap Z Z) : gmap Z Z :=
  let n := u32 n in
  if (src <? dst) && (dst <? src + n) then copy_down (Z.to_nat n) (dst + n) (src + n) m
  else copy_up (Z.to_nat n) dst src m.

(** [memmove] from a kernel object that is not in the byte memory: the source
    is read through its reader and cannot overlap the destination. *)
Definition rd_src (src : Z -> Z) (n : nat) : list Z := (fun i => u8 (src (Z.of_nat i))) <$> seq 0 n.
Definition memmove_from (dst : Z) (src : Z -> Z) (n : Z) (m : gmap Z Z) : gmap Z Z :=
  wr_bytes dst (rd_src src (Z.to_nat (u32 n))) m.

Definition memcpy (dst src n : Z) (m : gmap Z Z) : gmap Z Z := memmove dst src n m.

Fixpoint strncmp_loop (n : nat) (p q : Z -> Z) : Z :=
  match n with
  | O => 0
  | S n => if truth (p 0) && (p 0 =? q 0) then strncmp_loop n (ptr_add p 1) (ptr_add q 1)
           else p 0 - q 0
  end.

Definition strncmp (p q : Z -> Z) (n : Z) : Z := strncmp_loop (Z.to_nat (u32 n)) p q.

Fixpoint zero_fill (n : nat) (s : Z) (m : gmap Z Z) : gmap Z Z :=
  match n with
  | O => m
  | S n => zero_fill n (s + 1) (wr8 s 0 m)
  end.

Fixpoint strncpy_loop (n : nat) (s : Z) (t : Z -> Z) (m : gmap Z Z) : gmap Z Z :=
  match n with
  | O => m
  | S n =>
      let m := wr8 s (t 0) m in
      if truth (t 0) then strncpy_loop n (s + 1) (ptr_add t 1) m else zero_fill n (s + 1) m
  end.

Definition strncpy (s : Z) (t : Z -> Z) (n : Z) (m : gmap Z Z) : gmap Z Z :=
  strncpy_loop (Z.to_nat n) s t m.

Fixpoint safestrcpy_loop (n : nat) (s : Z) (t : Z -> Z) (m : gmap Z Z) : gmap Z Z :=
  match n with
  | O => wr8 s 0 m
  | S n =>
      let m := wr8 s (t 0) m in
      if truth (t 0) then safestrcpy_loop n (s + 1) (ptr_add t 1) m else wr8 (s + 1) 0 m
  end.

Definition safestrcpy (s : Z) (t : Z -> Z) (n : Z) (m : gmap Z Z) : gmap Z Z :=
  if n <=? 0 then m else safestrcpy_loop (Z.to_nat (n - 1)) s t m.

(** [fuel] bounds the scan; [None] means no NUL within [fuel] bytes. *)
Fixpoint strlen (fuel : nat) (s : Z -> Z) : option Z :=
  match fuel with
  | O => None
  | S fuel => if truth (s 0) then Z.succ <$> strlen fuel (ptr_add s 1) else Some 0
  end.

(** ** What the functions compute *)

(** The C string at [p], cut after [n] bytes: the bytes before the first NUL. *)
Fixpoint cstr (n : nat) (p : Z -> Z) : list Z :=
  match n with
  | O => []
  | S n => if truth (p 0) then p 0 :: cstr n (ptr_add p 1) else []
  end.

Lemma wr_bytes_lookup bs m a x :
  wr_bytes a bs m !! x =
    if decide (a <= x < a + Z.of_nat (length bs)) then Some (u8 (bs !!! Z.to_nat (x - a)))
    else m !! x.
Proof.
  revert a m; induction bs as [|b bs IH]; intros a m; cbn [wr_bytes length].
  { rewrite decide_False by lia. done. }
  rewrite IH. unfold wr8. destruct (decide (a = x)) as [->|Hne].
  - rewrite decide_False, lookup_insert_eq, decide_True by lia.
    by rewrite Z.sub_diag.
  - rewrite lookup_insert_ne by done. destruct (decide (a + 1 <= x < a + 1 + Z.of_nat (length bs))).
    + rewrite decide_True by lia.
      by replace (Z.to_nat (x - a)) with (S (Z.to_nat (x - (a + 1)))) by lia.
    + by rewrite decide_False by lia.
Qed.

Lemma memset_loop_spec n i dst c m :
  memset_loop n i dst c m = wr_bytes (dst + i) (replicate n c) m.
Proof.
  revert i m; induction n as [|n IH]; intros i m; cbn; [done|].
  rewrite IH. f_equal. lia.
Qed.

Lemma memset_spec dst c n m :
  0 <= n < 4294967296 -> memset dst c n m = wr_bytes dst (replicate (Z.to_nat n) c) m.
Proof.
  intros. unfold memset. rewrite memset_loop_spec, u32_id by done. f_equal; lia.
Qed.

Lemma copy_up_lookup n d s m x :
  d <= s \/ s + Z.of_nat n <= d ->
  copy_up n d s m !! x =
    if decide (d <= x < d + Z.of_nat n) then Some (rd8 m (s + (x - d))) else m !! x.
Proof.
  revert d s m; induction n as [|n IH]; intros d s m Hds; cbn [copy_up].
  { by rewrite decide_False by lia. }
  rewrite IH by lia. destruct (decide (d = x)) as [->|Hne].
  - rewrite decide_False, decide_True by lia. unfold wr8. rewrite lookup_insert_eq.
    rewrite Z.sub_diag, Z.add_0_r. f_equal. apply u8_id, rd8_range.
  - unfold wr8. rewrite lookup_insert_ne by done.
    destruct (decide (d + 1 <= x < d + 1 + Z.of_nat n)).
    + rewrite decide_True by lia. f_equal.
      change (<[d:=u8 (rd8 m s)]> m) with (wr8 d (rd8 m s) m).
      rewrite rd8_wr8_ne by lia. f_equal; lia.
    + by rewrite decide_False by lia.
Qed.

Lemma copy_down_lookup n d s m x :
  s <= d ->
  copy_down n d s m !! x =
    if decide (d - Z.of_nat n <= x < d) then Some (rd8 m (s + (x - d))) else m !! x.
Proof.
  revert d s m; induction n as [|n IH]; intros d s m Hds; cbn [copy_down].
  { by rewrite decide_False by lia. }
  rewrite IH by lia. destruct (decide (d - 1 = x)) as [<-|Hne].
  - rewrite decide_False, decide_True by lia. unfold wr8. rewrite lookup_insert_eq.
    f_equal. rewrite u8_id by apply rd8_range. f_equal; lia.
  - unfold wr8. rewrite lookup_insert_ne by done.
    destruct (decide (d - 1 - Z.of_nat n <= x < d - 1)).
    + rewrite decide_True by lia. f_equal.
      change (<[d - 1:=u8 (rd8 m (s - 1))]> m) with (wr8 (d - 1) (rd8 m (s - 1)) m).
      rewrite rd8_wr8_ne by lia. f_equal; lia.
    + by rewrite decide_False by lia.
Qed.

Lemma wr_rd_bytes_lookup m d s n x :
  wr_bytes d (rd_bytes m s n) m !! x =
    if decide (d <= x < d + Z.of_nat n) then Some (rd8 m (s + (x - d))) else m !! x.
Proof.
  rewrite wr_bytes_lookup, rd_bytes_length. case_decide; [|done]. f_equal.
  pose proof (rd_bytes_lookup m s n (Z.to_nat (x - d)) ltac:(lia)) as Hl.
  rewrite (list_lookup_total_correct _ _ _ Hl), u8_id by apply rd8_range. f_equal; lia.
Qed.

(** [memmove] copies the source as it was before the call, also when the two
    regions overlap. *)
Lemma memmove_copies dst src n m :
  0 <= n < 4294967296 ->
  memmove dst src n m = wr_bytes dst (rd_bytes m src (Z.to_nat n)) m.
Proof.
  intros Hn. unfold memmove. rewrite u32_id by done. apply map_eq. intros x.
  rewrite wr_rd_bytes_lookup.
  destruct ((src <? dst) && (dst <? src + n)) eqn:E.
  - bprop. rewrite copy_down_lookup by lia.
    destruct (decide (dst <= x < dst + Z.of_nat (Z.to_nat n))).
    + rewrite decide_True by lia. do 2 f_equal; lia.
    + by rewrite decide_False by lia.
  - apply copy_up_lookup. apply andb_false_iff in E as [E|E]; bprop; lia.
Qed.

Lemma rd_src_str m p n : rd_src (str m p) n = rd_bytes m p n.
Proof.
  apply list_eq_bounded; rewrite ?rd_bytes_length; unfold rd_src; rewrite length_fmap, length_seq; [done|].
  intros i Hi. rewrite list_lookup_fmap, lookup_seq_lt, rd_bytes_lookup by done. cbn. f_equal.
  unfold str. apply u8_id, rd8_range.
Qed.

(** The two readings of [memmove] agree on a source in memory. *)
Lemma memmove_from_str dst p n m :
  0 <= n < 4294967296 -> memmove_from dst (str m p) n m = memmove dst p n m.
Proof.
  intros Hn. unfold memmove_from. by rewrite rd_src_str, memmove_copies, u32_id.
Qed.

Lemma rd_src_length src n : length (rd_src src n) = n.
Proof. unfold rd_src. by rewrite length_fmap, length_seq. Qed.

Lemma rd_src_lookup src n i :
  (i < n)%nat -> rd_src src n !! i = Some (u8 (src (Z.of_nat i))).
Proof. intros. unfold rd_src. by rewrite list_lookup_fmap, lookup_seq_lt. Qed.

Lemma rd_src_bytes src n : bytes (rd_src src n).
Proof. apply Forall_fmap, Forall_forall. intros x _. apply u8_range. Qed.

Lemma rd_src_app src n l :
  rd_src src (n + l) = rd_src src n ++ rd_src (ptr_add src (Z.of_nat n)) l.
Proof.
  apply list_eq_bounded; rewrite ?length_app, !rd_src_length; [done|]. intros i Hi.
  rewrite rd_src_lookup by done. destruct (decide (i < n)%nat).
  - by rewrite lookup_app_l, rd_src_lookup by (rewrite ?rd_src_length; done).
  - rewrite lookup_app_r, rd_src_length, rd_src_lookup by (rewrite ?rd_src_length; lia).
    unfold ptr_add. do 3 f_equal. lia.
Qed.

Lemma rd_src_arr l : bytes l -> rd_src (arr l) (length l) = l.
Proof.
  intros Hl. apply list_eq_bounded; rewrite rd_src_length; [done|]. intros i Hi.
  rewrite rd_src_lookup by done. destruct (lookup_lt_is_Some_2 l i Hi) as [b Hb].
  rewrite Hb. f_equal. unfold arr. rewrite Nat2Z.id, (list_lookup_total_correct _ _ _ Hb).
  rewrite u8_idem. apply u8_id. by eapply (Forall_lookup_1 _ _ _ _ Hl).
Qed.

Lemma strncmp_loop_zero n p q :
  strncmp_loop n p q = 0 <-> cstr n p = cstr n q.
Proof.
  revert p q; induction n as [|n IH]; intros p q; cbn; [done|].
  destruct (truth (p 0)) eqn:Ep; cbn.
  - destruct (p 0 =? q 0) eqn:Epq; bprop.
    + rewrite IH. rewrite <- Epq, Ep. split; [congruence|by intros [= ?]].
    + split; [lia|]. destruct (truth (q 0)); [|done]. congruence.
  - unfold truth in *. bprop. destruct (q 0 =? 0) eqn:Eq; cbn; bprop; split; try done; lia.
Qed.

Lemma strlen_cstr fuel s n :
  strlen fuel s = Some n -> Z.of_nat (length (cstr fuel s)) = n.
Proof.
  revert s n; induction fuel as [|fuel IH]; intros s n; cbn; [done|].
  destruct (truth (s 0)); [|by intros [= <-]].
  intros (n' & Hn & ->)%fmap_Some. apply IH in Hn. cbn. lia.
Qed.

Lemma cstr_ext n p q : (forall i, p i = q i) -> cstr n p = cstr n q.
Proof.
  revert p q; induction n as [|n IH]; intros p q H; cbn; [done|].
  rewrite H. destruct (truth (q 0)); [|done]. f_equal. apply IH.
  intros i. apply H.
Qed.

Lemma cstr_length n p : (length (cstr n p) <= n)%nat.
Proof.
  revert p; induction n as [|n IH]; intros p; cbn; [lia|].
  destruct (truth (p 0)); cbn; [|lia]. specialize (IH (ptr_add p 1)). lia.
Qed.

Lemma wr8_wr_bytes s c m bs x :
  wr_bytes (s + 1) bs (wr8 s c m) !! x = wr_bytes s (c :: bs) m !! x.
Proof. done. Qed.

(** The bytes [safestrcpy] stores: the source cut to [n] bytes, a NUL, and
    one more NUL when the source ended early. *)
Lemma safestrcpy_loop_spec n s t m :
  safestrcpy_loop n s t m =
    wr_bytes s (cstr n t ++ replicate (if (length (cstr n t) <? n)%nat then 2 else 1) 0) m.
Proof.
  revert s t m; induction n as [|n IH]; intros s t m; cbn [safestrcpy_loop cstr]; [done|].
  destruct (truth (t 0)) eqn:Et.
  - rewrite IH. done.
  - unfold truth in Et. bprop. rewrite Et. done.
Qed.

Lemma strncpy_loop_spec n s t m :
  strncpy_loop n s t m =
    wr_bytes s (cstr n t ++ replicate (n - length (cstr n t)) 0) m.
Proof.
  assert (Hz : forall n s m, zero_fill n s m = wr_bytes s (replicate n 0) m).
  { intros k. induction k as [|k IH]; intros; cbn; [done|]. by rewrite IH. }
  revert s t m; induction n as [|n IH]; intros s t m; cbn [strncpy_loop cstr]; [done|].
  destruct (truth (t 0)) eqn:Et.
  - rewrite IH. done.
  - unfold truth in Et. bprop. rewrite Et, Hz. done.
Qed.

Arguments memset : simpl never.
Arguments memmove : simpl never.
Arguments safestrcpy : simpl never.
Arguments strncpy : simpl never.

(** Proofs go through the lemmas above, not through the definitions. *)
#[global] Opaque rd8 wr8 rd64 wr64 rd32 wr32 memset memmove strncpy safestrcpy.
