(* ===== verification/Spinlock.v ===== *)
(** * kernel/spinlock.c (and the hart-local part of kernel/riscv.h, proc.c)

    [push_off]/[pop_off], [acquire]/[release] and [holding] as they run on
    one hart.  A spin on a lock that is held never ends while only this hart
    runs, so it is the outcome [Blocked]; the interleaving of harts is the
    subject of the file Smp. *)

From S2P Require Export Memory.

(** ** Operations *)

Definition intr_get : K bool := gets k_sie.
Definition intr_on : K unit := modify (set_sie true).
Definition intr_off : K unit := modify (set_sie false).

Definition cpuid : K nat := gets k_tp.

(** A [struct cpu *] is the index into [cpus]. *)
Definition mycpu : K nat := id ← cpuid; mret id.

Definition cpu_noff (c : nat) : K Z := gets (fun k => c_noff (get_cpu k c)).
Definition cpu_intena (c : nat) : K bool := gets (fun k => c_intena (get_cpu k c)).

Definition push_off : K unit :=
  old ← intr_get;
  intr_off;;
  c ← mycpu;
  noff ← cpu_noff c;
  when (noff =? 0) (modify (upd_cpu c (set_c_intena old)));;
  modify (upd_cpu c (fun c => set_c_noff (c_noff c + 1) c)).

Definition pop_off : K unit :=
  c ← mycpu;
  on ← intr_get;
  if on : bool then panic "pop_off - interruptible" else
  noff ← cpu_noff c;
  if noff <? 1 then panic "pop_off" else
  modify (upd_cpu c (fun c => set_c_noff (c_noff c - 1) c));;
  noff ← cpu_noff c;
  intena ← cpu_intena c;
  when ((noff =? 0) && intena) intr_on.

Definition initlock (l : lockid) (name : string) : K unit :=
  modify (upd_lock l (fun _ => mkSpinlock 0 name None)).

Definition holding (l : lockid) : K bool :=
  c ← mycpu;
  lk ← gets (fun k => get_lock k l);
  mret (truth (lk_locked lk) && bool_decide (lk_cpu lk = Some c)).

(** [__sync_lock_test_and_set(&lk->locked, 1)]: the old value. *)
Definition test_and_set (l : lockid) : K Z :=
  old ← gets (fun k => lk_locked (get_lock k l));
  modify (upd_lock l (set_lk_locked 1));;
  mret old.

Definition acquire (l : lockid) : K unit :=
  push_off;;
  h ← holding l;
  if h : bool then panic "acquire" else
  old ← test_and_set l;
  (* a hart that finds the lock taken spins until another hart releases it *)
  if truth old then block else
  c ← mycpu;
  modify (upd_lock l (set_lk_cpu (Some c))).

Definition release (l : lockid) : K unit :=
  h ← holding l;
  if negb h then panic "release" else
  modify (upd_lock l (set_lk_cpu None));;
  modify (upd_lock l (set_lk_locked 0));;
  pop_off.

#[export] Hint Unfold intr_get intr_on intr_off cpuid mycpu cpu_noff cpu_intena holding
  test_and_set : krun.

(** Return the current process, or none. *)
Definition myproc : K (option nat) :=
  push_off;;
  c ← mycpu;
  p ← gets (fun k => c_proc (get_cpu k c));
  pop_off;;
  mret p.

(** ** The state of the executing hart *)

Definition this_cpu (k : kernel) : cpu := get_cpu k (k_tp k).
Definition cur_proc (k : kernel) : option nat := c_proc (this_cpu k).

(** The interrupt state agrees with the nesting depth: inside a [push_off]
    interrupts are off, and outside [intena] holds what is enabled. *)
Definition irq_ok (k : kernel) : Prop :=
  (k_tp k < length (k_cpus k))%nat /\
  0 <= c_noff (this_cpu k) /\
  (0 < c_noff (this_cpu k) -> k_sie k = false) /\
  (c_noff (this_cpu k) = 0 -> c_intena (this_cpu k) = k_sie k).

Definition lock_free (l : lockid) (k : kernel) : Prop :=
  exists name, k_locks k !! l = Some (mkSpinlock 0 name None).

(** The state after a [push_off], and after an [acquire]. *)
Definition pushed (k : kernel) : kernel :=
  set_sie false (upd_cpu (k_tp k) (fun c => set_c_noff (c_noff c + 1) c) k).

Definition acquired (l : lockid) (k : kernel) : kernel :=
  upd_lock l (fun lk => set_lk_cpu (Some (k_tp k)) (set_lk_locked 1 lk)) (pushed k).

(** [k1] has the hart, interrupt and lock state of [k]. *)
Definition same_locks (k k1 : kernel) : Prop :=
  k_tp k1 = k_tp k /\ k_sie k1 = k_sie k /\ k_cpus k1 = k_cpus k /\ k_locks k1 = k_locks k.

(** [k1] with the hart, interrupt and lock state of [k]. *)
Definition with_locks (k k1 : kernel) : kernel :=
  set_tp (k_tp k) (set_sie (k_sie k) (set_cpus (k_cpus k) (set_locks (k_locks k) k1))).

Section hart.
Implicit Types k : kernel.

Lemma upd_cpu_this k f :
  (k_tp k < length (k_cpus k))%nat -> this_cpu (upd_cpu (k_tp k) f k) = f (this_cpu k).
Proof. intros H. unfold this_cpu, get_cpu, upd_cpu; cbn. by apply list_lookup_total_alter_eq. Qed.

Lemma upd_cpu_upd_cpu k i f g : upd_cpu i g (upd_cpu i f k) = upd_cpu i (g ∘ f) k.
Proof. unfold upd_cpu; cbn. by rewrite list_alter_alter_eq. Qed.

Lemma upd_cpu_id k i f : f (get_cpu k i) = get_cpu k i -> upd_cpu i f k = k.
Proof.
  intros Hf. unfold upd_cpu. rewrite alter_id_at; [by destruct k|].
  intros x Hx%list_lookup_total_correct. unfold get_cpu in Hf. by rewrite Hx in Hf.
Qed.

Lemma push_off_run k : irq_ok k -> push_off k = Ok tt (pushed k).
Proof.
  intros (Htp & Hn & Hin & Hout). unfold push_off, pushed.
  mrun. cbn.
  change (get_cpu (set_sie false k) (k_tp k)) with (this_cpu k).
  destruct (c_noff (this_cpu k) =? 0) eqn:E; cbn; bprop; [|done].
  rewrite bind_modify. unfold modify. f_equal.
  rewrite upd_cpu_upd_cpu. unfold upd_cpu, set_sie, set_cpus; cbn. f_equal.
  apply list_alter_ext; [|done]. intros x Hx%list_lookup_total_correct.
  unfold compose, this_cpu, get_cpu in *. rewrite Hx in *. by rewrite <- (Hout E); destruct x.
Qed.

Lemma pop_off_run k k1 :
  irq_ok k -> k_tp k1 = k_tp k -> k_sie k1 = false -> k_cpus k1 = k_cpus (pushed k) ->
  pop_off k1 = Ok tt (set_sie (k_sie k) (set_cpus (k_cpus k) k1)).
Proof.
  intros (Htp & Hn & Hin & Hout) Ht Hs Hc. unfold pop_off.
  mrun.
  rewrite Hs, Ht. cbv iota. mrun.
  assert (Hg : get_cpu k1 (k_tp k) = set_c_noff (c_noff (this_cpu k) + 1) (this_cpu k)).
  { unfold get_cpu. rewrite Hc. by apply (upd_cpu_this k (fun c => set_c_noff (c_noff c + 1) c)). }
  rewrite Hg. cbn [c_noff set_c_noff].
  destruct (_ <? 1) eqn:E; bprop; [lia|]. clear E.
  mrun.
  assert (Hr : upd_cpu (k_tp k) (fun c => set_c_noff (c_noff c - 1) c) k1 = set_cpus (k_cpus k) k1).
  { unfold upd_cpu. rewrite Hc. unfold pushed, upd_cpu; cbn. f_equal.
    rewrite list_alter_alter_eq. apply alter_id_at. intros x _.
    unfold compose, set_c_noff; cbn. replace (c_noff x + 1 - 1) with (c_noff x) by lia. by destruct x. }
  rewrite Hr. change (get_cpu (set_cpus (k_cpus k) k1) (k_tp k)) with (this_cpu k).
  destruct (c_noff (this_cpu k) =? 0) eqn:E; cbn [andb]; bprop.
  - rewrite (Hout E). unfold when, intr_on, modify, skip.
    destruct (k_sie k); [done|]. cbn. by rewrite <- Hs; destruct k1.
  - rewrite Hin by lia. cbn. by rewrite <- Hs; destruct k1.
Qed.

Lemma irq_ok_pushed k : irq_ok k -> irq_ok (pushed k).
Proof.
  intros (Htp & Hn & Hin & Hout). unfold irq_ok.
  assert (Hc : this_cpu (pushed k) = set_c_noff (c_noff (this_cpu k) + 1) (this_cpu k))
    by (by apply (upd_cpu_this k (fun c => set_c_noff (c_noff c + 1) c))).
  rewrite Hc; cbn. split_and!; [by rewrite length_alter|lia|done|lia].
Qed.

Lemma irq_ok_acquired l k : irq_ok k -> irq_ok (acquired l k).
Proof. exact (irq_ok_pushed k). Qed.

Lemma get_lock_free l k : lock_free l k ->
  get_lock k l = mkSpinlock 0 (lk_name (get_lock k l)) None.
Proof. intros [nm H]. unfold get_lock. by rewrite H. Qed.

Lemma acquire_run l k : irq_ok k -> lock_free l k -> acquire l k = Ok tt (acquired l k).
Proof.
  intros Hirq Hfree. unfold acquire. rewrite (run_bind _ _ _ _ _ (push_off_run k Hirq)).
  unfold holding, test_and_set, mycpu, cpuid.
  mrun.
  change (get_lock (pushed k) l) with (get_lock k l).
  rewrite (get_lock_free _ _ Hfree). cbn [truth lk_locked Z.eqb negb andb]. mrun.
  change (get_lock (pushed k) l) with (get_lock k l).
  rewrite (get_lock_free _ _ Hfree). cbn [truth lk_locked Z.eqb negb]. mrun.
  unfold modify, acquired. by rewrite upd_lock_upd.
Qed.

Lemma release_run l k k1 :
  irq_ok k -> lock_free l k -> same_locks (acquired l k) k1 ->
  release l k1 = Ok tt (with_locks k k1).
Proof.
  intros Hirq Hfree (Ht & Hs & Hc & Hl). unfold release, holding, mycpu, cpuid.
  mrun.
  assert (Hg : get_lock k1 l = mkSpinlock 1 (lk_name (get_lock k l)) (Some (k_tp k))).
  { transitivity (get_lock (acquired l k) l); [by unfold get_lock; rewrite Hl|].
    unfold acquired. by rewrite get_lock_upd. }
  rewrite Hg, Ht. cbn [lk_locked lk_cpu truth Z.eqb negb andb].
  rewrite bool_decide_eq_true_2 by done. cbn [negb]. mrun.
  rewrite upd_lock_upd. erewrite (pop_off_run k); [|done|done|done|done].
  f_equal. unfold with_locks. change (k_tp k) with (k_tp (acquired l k)).
  rewrite <- Ht. unfold upd_lock. rewrite Hg, Hl.
  unfold acquired, upd_lock, set_sie, set_cpus, set_locks, set_tp; cbn. f_equal.
  rewrite insert_insert_eq. destruct Hfree as [nm Hn]. apply insert_id.
  unfold get_lock. by rewrite Hn.
Qed.

Lemma myproc_run k : irq_ok k -> myproc k = Ok (cur_proc k) k.
Proof.
  intros Hirq. unfold myproc. rewrite (run_bind _ _ _ _ _ (push_off_run k Hirq)).
  unfold mycpu, cpuid. mrun.
  erewrite run_bind by (by apply (pop_off_run k)). rewrite run_ret. f_equal; [|by destruct k].
  destruct Hirq as (Htp & _). unfold cur_proc, this_cpu.
  change (get_cpu (pushed k) (k_tp (pushed k))) with (this_cpu (upd_cpu (k_tp k) (fun c => set_c_noff (c_noff c + 1) c) k)).
  by rewrite upd_cpu_this.
Qed.

Lemma lock_free_acquired l l' k :
  l <> l' -> lock_free l' k -> lock_free l' (acquired l k).
Proof.
  intros Hne [nm H]. exists nm. unfold acquired; cbn. by rewrite lookup_insert_ne.
Qed.

Lemma same_locks_refl k : same_locks k k.
Proof. done. Qed.

Lemma irq_ok_same k k1 : same_locks k k1 -> irq_ok k -> irq_ok k1.
Proof.
  intros (Ht & Hs & Hc & _). unfold irq_ok, this_cpu, get_cpu. by rewrite Ht, Hs, Hc.
Qed.

Lemma lock_free_same l k k1 : same_locks k k1 -> lock_free l k -> lock_free l k1.
Proof. intros (_ & _ & _ & Hl). unfold lock_free. by rewrite Hl. Qed.

(** The lock a hart already holds, and the one it does not hold. *)
Lemma acquire_held_panics l k :
  irq_ok k -> truth (lk_locked (get_lock k l)) = true -> lk_cpu (get_lock k l) = Some (k_tp k) ->
  acquire l k = Panic "acquire".
Proof.
  intros Hirq H1 H2. unfold acquire. rewrite (run_bind _ _ _ _ _ (push_off_run k Hirq)).
  unfold holding, mycpu, cpuid.
  mrun.
  change (get_lock (pushed k) l) with (get_lock k l).
  rewrite H1, H2, bool_decide_eq_true_2; done.
Qed.

Lemma release_unheld_panics l k :
  ~ (truth (lk_locked (get_lock k l)) = true /\ lk_cpu (get_lock k l) = Some (k_tp k)) ->
  release l k = Panic "release".
Proof.
  intros H. unfold release, holding, mycpu, cpuid.
  mrun.
  destruct (truth _) eqn:E1; cbn; [|done].
  case_bool_decide; [|done]. naive_solver.
Qed.
End hart.

#[export] Hint Resolve irq_ok_pushed irq_ok_acquired lock_free_acquired same_locks_refl : krun.

(** Changes of other fields commute with restoring the lock state. *)
Section with_locks.
Context (k k1 : kernel).

Lemma with_locks_set_mem v : with_locks k (set_mem v k1) = set_mem v (with_locks k k1).
Proof. reflexivity. Qed.
Lemma same_locks_set_mem v : same_locks k k1 -> same_locks k (set_mem v k1).
Proof. exact id. Qed.
Lemma with_locks_set_sleep v : with_locks k (set_sleep v k1) = set_sleep v (with_locks k k1).
Proof. reflexivity. Qed.
Lemma same_locks_set_sleep v : same_locks k k1 -> same_locks k (set_sleep v k1).
Proof. exact id. Qed.
Lemma with_locks_set_freelist v : with_locks k (set_freelist v k1) = set_freelist v (with_locks k k1).
Proof. reflexivity. Qed.
Lemma same_locks_set_freelist v : same_locks k k1 -> same_locks k (set_freelist v k1).
Proof. exact id. Qed.
Lemma with_locks_set_proc v : with_locks k (set_proc v k1) = set_proc v (with_locks k k1).
Proof. reflexivity. Qed.
Lemma same_locks_set_proc v : same_locks k k1 -> same_locks k (set_proc v k1).
Proof. exact id. Qed.
Lemma with_locks_set_initproc v : with_locks k (set_initproc v k1) = set_initproc v (with_locks k k1).
Proof. reflexivity. Qed.
Lemma same_locks_set_initproc v : same_locks k k1 -> same_locks k (set_initproc v k1).
Proof. exact id. Qed.
Lemma with_locks_set_nextpid v : with_locks k (set_nextpid v k1) = set_nextpid v (with_locks k k1).
Proof. reflexivity. Qed.
Lemma same_locks_set_nextpid v : same_locks k k1 -> same_locks k (set_nextpid v k1).
Proof. exact id. Qed.
Lemma with_locks_set_ticks v : with_locks k (set_ticks v k1) = set_ticks v (with_locks k k1).
Proof. reflexivity. Qed.
Lemma same_locks_set_ticks v : same_locks k k1 -> same_locks k (set_ticks v k1).
Proof. exact id. Qed.
Lemma with_locks_set_buf v : with_locks k (set_buf v k1) = set_buf v (with_locks k k1).
Proof. reflexivity. Qed.
Lemma same_locks_set_buf v : same_locks k k1 -> same_locks k (set_buf v k1).
Proof. exact id. Qed.
Lemma with_locks_set_disk v : with_locks k (set_disk v k1) = set_disk v (with_locks k k1).
Proof. reflexivity. Qed.
Lemma same_locks_set_disk v : same_locks k k1 -> same_locks k (set_disk v k1).
Proof. exact id. Qed.
Lemma with_locks_set_log v : with_locks k (set_log v k1) = set_log v (with_locks k k1).
Proof. reflexivity. Qed.
Lemma same_locks_set_log v : same_locks k k1 -> same_locks k (set_log v k1).
Proof. exact id. Qed.
Lemma with_locks_set_sb v : with_locks k (set_sb v k1) = set_sb v (with_locks k k1).
Proof. reflexivity. Qed.
Lemma same_locks_set_sb v : same_locks k k1 -> same_locks k (set_sb v k1).
Proof. exact id. Qed.
Lemma with_locks_set_inode v : with_locks k (set_inode v k1) = set_inode v (with_locks k k1).
Proof. reflexivity. Qed.
Lemma same_locks_set_inode v : same_locks k k1 -> same_locks k (set_inode v k1).
Proof. exact id. Qed.
Lemma with_locks_set_file v : with_locks k (set_file v k1) = set_file v (with_locks k k1).
Proof. reflexivity. Qed.
Lemma same_locks_set_file v : same_locks k k1 -> same_locks k (set_file v k1).
Proof. exact id. Qed.
Lemma with_locks_set_pipe v : with_locks k (set_pipe v k1) = set_pipe v (with_locks k k1).
Proof. reflexivity. Qed.
Lemma same_locks_set_pipe v : same_locks k k1 -> same_locks k (set_pipe v k1).
Proof. exact id. Qed.
Lemma with_locks_set_kpgtbl v : with_locks k (set_kpgtbl v k1) = set_kpgtbl v (with_locks k k1).
Proof. reflexivity. Qed.
Lemma same_locks_set_kpgtbl v : same_locks k k1 -> same_locks k (set_kpgtbl v k1).
Proof. exact id. Qed.
Lemma with_locks_set_csr v : with_locks k (set_csr v k1) = set_csr v (with_locks k k1).
Proof. reflexivity. Qed.
Lemma same_locks_set_csr v : same_locks k k1 -> same_locks k (set_csr v k1).
Proof. exact id. Qed.
Lemma with_locks_set_cons v : with_locks k (set_cons v k1) = set_cons v (with_locks k k1).
Proof. reflexivity. Qed.
Lemma same_locks_set_cons v : same_locks k k1 -> same_locks k (set_cons v k1).
Proof. exact id. Qed.
Lemma with_locks_set_uart v : with_locks k (set_uart v k1) = set_uart v (with_locks k k1).
Proof. reflexivity. Qed.
Lemma same_locks_set_uart v : same_locks k k1 -> same_locks k (set_uart v k1).
Proof. exact id. Qed.
Lemma with_locks_set_first v : with_locks k (set_first v k1) = set_first v (with_locks k k1).
Proof. reflexivity. Qed.
Lemma same_locks_set_first v : same_locks k k1 -> same_locks k (set_first v k1).
Proof. exact id. Qed.
Lemma with_locks_set_panicked v : with_locks k (set_panicked v k1) = set_panicked v (with_locks k k1).
Proof. reflexivity. Qed.
Lemma same_locks_set_panicked v : same_locks k k1 -> same_locks k (set_panicked v k1).
Proof. exact id. Qed.
Lemma with_locks_set_script v : with_locks k (set_script v k1) = set_script v (with_locks k k1).
Proof. reflexivity. Qed.
Lemma same_locks_set_script v : same_locks k k1 -> same_locks k (set_script v k1).
Proof. exact id. Qed.
Lemma with_locks_set_trace v : with_locks k (set_trace v k1) = set_trace v (with_locks k k1).
Proof. reflexivity. Qed.
Lemma same_locks_set_trace v : same_locks k k1 -> same_locks k (set_trace v k1).
Proof. exact id. Qed.
Lemma with_locks_set_hist v : with_locks k (set_hist v k1) = set_hist v (with_locks k k1).
Proof. reflexivity. Qed.
Lemma same_locks_set_hist v : same_locks k k1 -> same_locks k (set_hist v k1).
Proof. exact id. Qed.
Lemma with_locks_upd_proc i f : with_locks k (upd_proc i f k1) = upd_proc i f (with_locks k k1).
Proof. reflexivity. Qed.
Lemma same_locks_upd_proc i f : same_locks k k1 -> same_locks k (upd_proc i f k1).
Proof. exact id. Qed.
Lemma with_locks_upd_buf i f : with_locks k (upd_buf i f k1) = upd_buf i f (with_locks k k1).
Proof. reflexivity. Qed.
Lemma same_locks_upd_buf i f : same_locks k k1 -> same_locks k (upd_buf i f k1).
Proof. exact id. Qed.
Lemma with_locks_upd_inode i f : with_locks k (upd_inode i f k1) = upd_inode i f (with_locks k k1).
Proof. reflexivity. Qed.
Lemma same_locks_upd_inode i f : same_locks k k1 -> same_locks k (upd_inode i f k1).
Proof. exact id. Qed.
Lemma with_locks_upd_file i f : with_locks k (upd_file i f k1) = upd_file i f (with_locks k k1).
Proof. reflexivity. Qed.
Lemma same_locks_upd_file i f : same_locks k k1 -> same_locks k (upd_file i f k1).
Proof. exact id. Qed.
Lemma with_locks_upd_sleeplock i f : with_locks k (upd_sleeplock i f k1) = upd_sleeplock i f (with_locks k k1).
Proof. reflexivity. Qed.
Lemma same_locks_upd_sleeplock i f : same_locks k k1 -> same_locks k (upd_sleeplock i f k1).
Proof. exact id. Qed.
Lemma with_locks_upd_pipe i f : with_locks k (upd_pipe i f k1) = upd_pipe i f (with_locks k k1).
Proof. reflexivity. Qed.
Lemma same_locks_upd_pipe i f : same_locks k k1 -> same_locks k (upd_pipe i f k1).
Proof. exact id. Qed.
Lemma with_locks_upd_log f : with_locks k (upd_log f k1) = upd_log f (with_locks k k1).
Proof. reflexivity. Qed.
Lemma same_locks_upd_log f : same_locks k k1 -> same_locks k (upd_log f k1).
Proof. exact id. Qed.
Lemma with_locks_upd_lh f : with_locks k (upd_lh f k1) = upd_lh f (with_locks k k1).
Proof. reflexivity. Qed.
Lemma same_locks_upd_lh f : same_locks k k1 -> same_locks k (upd_lh f k1).
Proof. exact id. Qed.

Lemma with_locks_id : with_locks k k = k.
Proof. by destruct k. Qed.
Lemma with_locks_pushed : with_locks k (pushed k) = k.
Proof. by destruct k. Qed.
Lemma with_locks_acquired l : with_locks k (acquired l k) = k.
Proof. by destruct k. Qed.
End with_locks.

#[export] Hint Rewrite with_locks_set_mem with_locks_set_sleep with_locks_set_freelist with_locks_set_proc
  with_locks_set_initproc with_locks_set_nextpid with_locks_set_ticks with_locks_set_buf
  with_locks_set_disk with_locks_set_log with_locks_set_sb with_locks_set_inode
  with_locks_set_file with_locks_set_hist with_locks_set_pipe with_locks_set_kpgtbl with_locks_set_csr with_locks_set_cons with_locks_set_uart with_locks_set_first with_locks_set_panicked with_locks_set_script with_locks_set_trace with_locks_upd_proc with_locks_upd_buf
  with_locks_upd_inode with_locks_upd_file with_locks_upd_sleeplock with_locks_upd_pipe
  with_locks_upd_log with_locks_upd_lh with_locks_id with_locks_pushed with_locks_acquired : klocks.
#[export] Hint Resolve same_locks_set_mem same_locks_set_sleep same_locks_set_freelist same_locks_set_proc
  same_locks_set_initproc same_locks_set_nextpid same_locks_set_ticks same_locks_set_buf
  same_locks_set_disk same_locks_set_log same_locks_set_sb same_locks_set_inode
  same_locks_set_file same_locks_set_hist same_locks_set_pipe same_locks_set_kpgtbl same_locks_set_csr same_locks_set_cons same_locks_set_uart same_locks_set_first same_locks_set_panicked same_locks_set_script same_locks_set_trace same_locks_upd_proc same_locks_upd_buf
  same_locks_upd_inode same_locks_upd_file same_locks_upd_sleeplock same_locks_upd_pipe
  same_locks_upd_log same_locks_upd_lh : krun.

(** Projections the lock operations leave alone. *)
Section acquired_fields.
Context (l : lockid) (k : kernel).
Lemma acquired_mem : k_mem (acquired l k) = k_mem k.
Proof. reflexivity. Qed.
Lemma acquired_sleep : k_sleep (acquired l k) = k_sleep k.
Proof. reflexivity. Qed.
Lemma acquired_freelist : k_freelist (acquired l k) = k_freelist k.
Proof. reflexivity. Qed.
Lemma acquired_proc : k_proc (acquired l k) = k_proc k.
Proof. reflexivity. Qed.
Lemma acquired_initproc : k_initproc (acquired l k) = k_initproc k.
Proof. reflexivity. Qed.
Lemma acquired_nextpid : k_nextpid (acquired l k) = k_nextpid k.
Proof. reflexivity. Qed.
Lemma acquired_ticks : k_ticks (acquired l k) = k_ticks k.
Proof. reflexivity. Qed.
Lemma acquired_buf : k_buf (acquired l k) = k_buf k.
Proof. reflexivity. Qed.
Lemma acquired_disk : k_disk (acquired l k) = k_disk k.
Proof. reflexivity. Qed.
Lemma acquired_log : k_log (acquired l k) = k_log k.
Proof. reflexivity. Qed.
Lemma acquired_sb : k_sb (acquired l k) = k_sb k.
Proof. reflexivity. Qed.
Lemma acquired_inode : k_inode (acquired l k) = k_inode k.
Proof. reflexivity. Qed.
Lemma acquired_file : k_file (acquired l k) = k_file k.
Proof. reflexivity. Qed.
Lemma acquired_pipe : k_pipe (acquired l k) = k_pipe k.
Proof. reflexivity. Qed.
Lemma acquired_kpgtbl : k_kpgtbl (acquired l k) = k_kpgtbl k.
Proof. reflexivity. Qed.
Lemma acquired_csr : k_csr (acquired l k) = k_csr k.
Proof. reflexivity. Qed.
Lemma acquired_cons : k_cons (acquired l k) = k_cons k.
Proof. reflexivity. Qed.
Lemma acquired_uart : k_uart (acquired l k) = k_uart k.
Proof. reflexivity. Qed.
Lemma acquired_first : k_first (acquired l k) = k_first k.
Proof. reflexivity. Qed.
Lemma acquired_panicked : k_panicked (acquired l k) = k_panicked k.
Proof. reflexivity. Qed.
Lemma acquired_script : k_script (acquired l k) = k_script k.
Proof. reflexivity. Qed.
Lemma acquired_trace : k_trace (acquired l k) = k_trace k.
Proof. reflexivity. Qed.
Lemma acquired_hist : k_hist (acquired l k) = k_hist k.
Proof. reflexivity. Qed.
Lemma acquired_tp : k_tp (acquired l k) = k_tp k.
Proof. reflexivity. Qed.
Lemma acquired_get_proc i : get_proc (acquired l k) i = get_proc k i.
Proof. reflexivity. Qed.
Lemma acquired_get_buf i : get_buf (acquired l k) i = get_buf k i.
Proof. reflexivity. Qed.
Lemma acquired_get_inode i : get_inode (acquired l k) i = get_inode k i.
Proof. reflexivity. Qed.
Lemma acquired_get_file i : get_file (acquired l k) i = get_file k i.
Proof. reflexivity. Qed.
Lemma acquired_get_pipe i : get_pipe (acquired l k) i = get_pipe k i.
Proof. reflexivity. Qed.
Lemma acquired_get_sleeplock i : get_sleeplock (acquired l k) i = get_sleeplock k i.
Proof. reflexivity. Qed.
End acquired_fields.

#[export] Hint Rewrite acquired_mem acquired_sleep acquired_freelist acquired_proc acquired_initproc
  acquired_nextpid acquired_ticks acquired_buf acquired_disk acquired_log acquired_sb
  acquired_inode acquired_file acquired_pipe acquired_hist acquired_kpgtbl acquired_csr acquired_cons acquired_uart acquired_first acquired_panicked acquired_script acquired_trace acquired_tp acquired_get_proc acquired_get_buf
  acquired_get_inode acquired_get_file acquired_get_pipe acquired_get_sleeplock : klocks.

(** [acquire_step]/[release_step k]: run the lock operation at the head of the
    program; [k] is the state before the matching [acquire]. *)
Tactic Notation "acquire_step" :=
  erewrite run_bind by (apply acquire_run; eauto with krun); autorewrite with klocks.
Tactic Notation "release_step" constr(k) :=
  first [ erewrite run_bind by (apply (release_run _ k); eauto with krun)
        | rewrite (release_run _ k) by eauto with krun ];
  autorewrite with klocks.

(** ** Correctness *)

Fixpoint times (n : nat) (m : K unit) : K unit :=
  match n with O => skip | S n => m;; times n m end.

Lemma times_snoc n m k : (times n m;; m) k = times (S n) m k.
Proof.
  revert k; induction n as [|n IH]; intros k; cbn [times].
  - unfold skip. rewrite bind_ret. unfold mbind, M_bind, mret, M_ret.
    by destruct (m k) as [[]| |].
  - rewrite bind_assoc. unfold mbind at 1, M_bind at 1. unfold mbind at 2, M_bind at 2.
    destruct (m k) as [[] k'| |]; [exact (IH k')|done..].
Qed.

Lemma pop_off_pushed k : irq_ok k -> pop_off (pushed k) = Ok tt k.
Proof. intros H. rewrite (pop_off_run k) by done. by destruct k. Qed.

(** [push_off]/[pop_off] are matched: from any consistent interrupt
    state, [n] nested [push_off]s followed by [n] [pop_off]s restore the
    state exactly (nesting count, saved [intena] and the interrupt-enable bit
    included), and no [pop_off] on the way panics. *)
Theorem push_pop_balanced n k :
  irq_ok k -> (times n push_off;; times n pop_off) k = Ok tt k.
Proof.
  revert k; induction n as [|n IH]; intros k Hk.
  { done. }
  cbn [times]. rewrite bind_assoc. rewrite (run_bind _ _ _ _ _ (push_off_run k Hk)).
  specialize (IH _ (irq_ok_pushed _ Hk)).
  apply bind_Ok_inv in IH as ([] & k' & Hp & Hq).
  rewrite (run_bind _ _ _ _ _ Hp). change (pop_off;; times n pop_off) with (times (S n) pop_off).
  rewrite <- times_snoc. rewrite (run_bind _ _ _ _ _ Hq). by apply pop_off_pushed.
Qed.

(** A free lock can be taken and given back: [acquire] returns with the
    lock recorded as held by this hart and interrupts off, a second [acquire]
    by the same hart panics instead of deadlocking, and [release] restores
    the state of before the [acquire] exactly. *)
Theorem acquire_release l k :
  irq_ok k -> lock_free l k ->
  acquire l k = Ok tt (acquired l k) /\
  holding l (acquired l k) = Ok true (acquired l k) /\
  k_sie (acquired l k) = false /\
  (acquire l;; acquire l) k = Panic "acquire" /\
  (acquire l;; release l) k = Ok tt k.
Proof.
  intros Hi Hf. pose proof (acquire_run l k Hi Hf) as Ha.
  assert (Hg : get_lock (acquired l k) l = mkSpinlock 1 (lk_name (get_lock k l)) (Some (k_tp k)))
    by (unfold acquired; by rewrite get_lock_upd).
  split_and!; [done| |done| |].
  - mrun. rewrite Hg. cbn. by rewrite bool_decide_eq_true_2.
  - rewrite (run_bind _ _ _ _ _ Ha). apply acquire_held_panics; [by apply irq_ok_acquired| |];
      by rewrite Hg.
  - rewrite (run_bind _ _ _ _ _ Ha), (release_run l k) by (done || apply same_locks_refl).
    destruct k; unfold with_locks; cbn. done.
Qed.

(** A hart outside any critical section, with interrupts on and one lock. *)
Definition one_hart : kernel :=
  mkKernel ∅ 0 true [mkCpu None context0 0 true] {[ Lkmem := mkSpinlock 0 "kmem" None ]} ∅ 0
    [] None 1 0 [] ∅ [] (mkLog 0 0 0 0 0 (mkLogheader 0 [])) (mkSuperblock 0 0 0 0 0 0 0 0) [] [] ∅
    0 (mkCsrs 0 0 0 0 0 0 false false) (mkCons (replicate 128 0) 0 0 0)
    (mkUart (replicate 32 0) 0 0) true 0 [] [].

Lemma one_hart_irq : irq_ok one_hart.
Proof. split_and!; vm_compute; (done || lia). Qed.

Lemma push_pop_balanced_witness :
  (times 3 push_off;; times 3 pop_off) one_hart = Ok tt one_hart.
Proof. apply (push_pop_balanced 3 one_hart). exact one_hart_irq. Defined.

Lemma acquire_release_witness :
  (acquire Lkmem;; release Lkmem) one_hart = Ok tt one_hart.
Proof.
  apply (acquire_release Lkmem one_hart).
  - exact one_hart_irq.
  - exists "kmem". vm_compute. reflexivity.
Defined.
