(* ===== verification/Smp.v ===== *)
(** * Spin locks under interleaving

    The harts of kernel/spinlock.c run [acquire] and [release] on one lock,
    instruction by instruction: each step of the relation is one access to
    the shared fields [locked] and [cpu] (or one change of the hart's own
    interrupt state), and any hart may take the next step.  The amoswap of
    [acquire] and the store of [release] are atomic, the checks of [holding]
    are two separate reads. *)

From S2P Require Export Spinlock.

(** Where a hart is in its acquire/critical section/release cycle. *)
Inductive pc :=
  | Idle           (* outside *)
  | AcqPushed      (* acquire: push_off done, about to read lk->locked *)
  | AcqReadCpu     (* acquire: lk->locked was set, about to read lk->cpu *)
  | AcqSwap        (* acquire: at the amoswap *)
  | AcqGot         (* acquire: the swap returned 0, lk->cpu not yet set *)
  | Critical       (* between acquire and release *)
  | RelReadCpu     (* release: lk->locked was set, about to read lk->cpu *)
  | RelHeld        (* release: holding(lk), about to clear lk->cpu *)
  | RelCleared     (* release: lk->cpu cleared, about to clear lk->locked *)
  | RelDone        (* release: before pop_off *)
  | Panicked.

#[global] Instance pc_eq_dec : EqDecision pc.
Proof. solve_decision. Defined.

Record hart := mkHart { h_pc : pc; h_noff : Z; h_intena : bool; h_sie : bool }.

Record smp := mkSmp { s_locked : Z; s_cpu : option nat; s_harts : list hart }.

Definition at_pc (p : pc) (h : hart) : hart := mkHart p (h_noff h) (h_intena h) (h_sie h).

(** [push_off] and [pop_off] on the hart's own state. *)
Definition hart_push (h : hart) : hart :=
  mkHart AcqPushed (h_noff h + 1) (if h_noff h =? 0 then h_sie h else h_intena h) false.
Definition hart_pop (h : hart) : hart :=
  if h_sie h || (h_noff h <? 1) then at_pc Panicked h
  else mkHart Idle (h_noff h - 1) (h_intena h)
         (if (h_noff h - 1 =? 0) && h_intena h then true else h_sie h).

Definition put (i : nat) (h : hart) (s : smp) : smp :=
  mkSmp (s_locked s) (s_cpu s) (<[i := h]> (s_harts s)).
Definition goto (i : nat) (p : pc) (h : hart) (s : smp) : smp := put i (at_pc p h) s.
Definition store_locked (v : Z) (s : smp) : smp := mkSmp v (s_cpu s) (s_harts s).
Definition store_cpu (v : option nat) (s : smp) : smp := mkSmp (s_locked s) v (s_harts s).

(** One step of hart [i]. *)
Inductive step (i : nat) (s : smp) : smp -> Prop :=
  | step_push_off h : s_harts s !! i = Some h -> h_pc h = Idle ->
      step i s (put i (hart_push h) s)
  | step_acq_read_locked h : s_harts s !! i = Some h -> h_pc h = AcqPushed ->
      step i s (goto i (if truth (s_locked s) then AcqReadCpu else AcqSwap) h s)
  | step_acq_read_cpu h : s_harts s !! i = Some h -> h_pc h = AcqReadCpu ->
      step i s (goto i (if decide (s_cpu s = Some i) then Panicked else AcqSwap) h s)
  | step_swap h : s_harts s !! i = Some h -> h_pc h = AcqSwap ->
      step i s (store_locked 1 (goto i (if truth (s_locked s) then AcqSwap else AcqGot) h s))
  | step_set_cpu h : s_harts s !! i = Some h -> h_pc h = AcqGot ->
      step i s (store_cpu (Some i) (goto i Critical h s))
  | step_rel_read_locked h : s_harts s !! i = Some h -> h_pc h = Critical ->
      step i s (goto i (if truth (s_locked s) then RelReadCpu else Panicked) h s)
  | step_rel_read_cpu h : s_harts s !! i = Some h -> h_pc h = RelReadCpu ->
      step i s (goto i (if decide (s_cpu s = Some i) then RelHeld else Panicked) h s)
  | step_clear_cpu h : s_harts s !! i = Some h -> h_pc h = RelHeld ->
      step i s (store_cpu None (goto i RelCleared h s))
  | step_clear_locked h : s_harts s !! i = Some h -> h_pc h = RelCleared ->
      step i s (store_locked 0 (goto i RelDone h s))
  | step_pop_off h : s_harts s !! i = Some h -> h_pc h = RelDone ->
      step i s (put i (hart_pop h) s).

(** Boot: the lock is initialised and every hart runs with interrupts on or
    off, outside any critical section. *)
Definition boot (s : smp) : Prop :=
  s_locked s = 0 /\ s_cpu s = None /\
  Forall (fun h => h_pc h = Idle /\ h_noff h = 0) (s_harts s).

Inductive reachable (s0 : smp) : smp -> Prop :=
  | reach_refl : reachable s0 s0
  | reach_step s i s' : reachable s0 s -> step i s s' -> reachable s0 s'.

(** ** The invariant *)

(** The program points at which the hart owns the lock, and those at which
    the lock also records it as its owner. *)
Definition owns (p : pc) : bool :=
  match p with AcqGot | Critical | RelReadCpu | RelHeld | RelCleared => true | _ => false end.
Definition recorded (p : pc) : bool :=
  match p with Critical | RelReadCpu | RelHeld => true | _ => false end.

Record inv (s : smp) : Prop := {
  inv_excl : forall i j hi hj, s_harts s !! i = Some hi -> s_harts s !! j = Some hj ->
    owns (h_pc hi) = true -> owns (h_pc hj) = true -> i = j;
  inv_locked : forall i h, s_harts s !! i = Some h -> owns (h_pc h) = true -> truth (s_locked s) = true;
  inv_recorded : forall i h, s_harts s !! i = Some h -> recorded (h_pc h) = true -> s_cpu s = Some i;
  inv_cpu : forall i h, s_harts s !! i = Some h -> s_cpu s = Some i -> recorded (h_pc h) = true;
  inv_sie : forall i h, s_harts s !! i = Some h ->
    h_pc h <> Panicked /\ 0 <= h_noff h /\
    (h_pc h = Idle \/ (1 <= h_noff h /\ h_sie h = false))
}.

(** Looking up a hart after hart [i] moved. *)
Lemma put_lookup i h s j :
  (i < length (s_harts s))%nat ->
  s_harts (put i h s) !! j = if decide (i = j) then Some h else s_harts s !! j.
Proof.
  intros Hi. unfold put; cbn. case_decide as E.
  - subst. by apply list_lookup_insert_eq.
  - by apply list_lookup_insert_ne.
Qed.

(** A hart state that is consistent with its program point. *)
Definition hart_ok (h : hart) : Prop :=
  h_pc h <> Panicked /\ 0 <= h_noff h /\
  (h_pc h = Idle \/ (1 <= h_noff h /\ h_sie h = false)).

(** Every step that moves hart [i] between points with the same ownership
    keeps the invariant. *)
Lemma inv_put i h h' s :
  inv s -> s_harts s !! i = Some h -> hart_ok h' ->
  owns (h_pc h') = owns (h_pc h) -> recorded (h_pc h') = recorded (h_pc h) -> inv (put i h' s).
Proof.
  intros [He Hl Hr Hc Hs] Hi Hok Ho Hrec.
  pose proof (lookup_lt_Some _ _ _ Hi) as Hlt.
  split.
  - intros a b ha hb. rewrite !put_lookup by done.
    intros Ha Hb. repeat case_decide; simplify_eq; rewrite ?Ho; eauto.
  - intros a ha. rewrite put_lookup by done.
    case_decide; intros; simplify_eq; rewrite ?Ho in *; eauto.
  - intros a ha. rewrite put_lookup by done.
    case_decide; intros; simplify_eq; rewrite ?Hrec in *; eauto.
  - intros a ha. rewrite put_lookup by done.
    case_decide; intros; simplify_eq; rewrite ?Hrec in *; eauto.
  - intros a ha. rewrite put_lookup by done. case_decide; [|by eauto]. by intros [= <-].
Qed.

Lemma inv_goto i h s p :
  inv s -> s_harts s !! i = Some h -> p <> Panicked -> h_pc h <> Idle ->
  owns p = owns (h_pc h) -> recorded p = recorded (h_pc h) -> inv (goto i p h s).
Proof.
  intros Hinv Hi Hp Hn Ho Hrec. apply (inv_put i h); [done..| |done|done].
  destruct (inv_sie _ Hinv _ _ Hi) as (_ & ? & [?|?]); [done|]. split_and!; cbn; auto.
Qed.

Lemma no_owner_unlocked s i h :
  inv s -> truth (s_locked s) = false -> s_harts s !! i = Some h -> owns (h_pc h) = false.
Proof.
  intros Hi Hl Hh. destruct (owns (h_pc h)) eqn:E; [|done].
  rewrite (inv_locked _ Hi _ _ Hh E) in Hl. done.
Qed.

Lemma only_owner s i j h hj :
  inv s -> s_harts s !! i = Some h -> owns (h_pc h) = true -> i <> j ->
  s_harts s !! j = Some hj -> owns (h_pc hj) = false.
Proof.
  intros Hinv Hi Ho Hne Hj. destruct (owns (h_pc hj)) eqn:E; [|done].
  exfalso. apply Hne. by apply (inv_excl _ Hinv i j h hj).
Qed.

Lemma recorded_owns p : recorded p = true -> owns p = true.
Proof. by destruct p. Qed.

(** Storing to [locked] or [cpu] while hart [i] moves to [p]: the facts the
    two fields must agree with. *)
Lemma inv_store i h s p l c :
  inv s -> s_harts s !! i = Some h -> p <> Panicked -> h_pc h <> Idle ->
  (forall j hj, i <> j -> s_harts s !! j = Some hj -> owns p = true -> owns (h_pc hj) = false) ->
  (owns p = true -> truth l = true) ->
  (forall j hj, i <> j -> s_harts s !! j = Some hj -> owns (h_pc hj) = true -> truth l = true) ->
  (recorded p = true <-> c = Some i) ->
  (forall j hj, i <> j -> s_harts s !! j = Some hj -> recorded (h_pc hj) = true <-> c = Some j) ->
  inv (store_locked l (store_cpu c (goto i p h s))).
Proof.
  intros Hinv Hi Hp Hn Hothers Hlp Hlo Hcp Hco.
  pose proof (lookup_lt_Some _ _ _ Hi) as Hlt.
  assert (Hlook : forall j, s_harts (store_locked l (store_cpu c (goto i p h s))) !! j =
    if decide (i = j) then Some (at_pc p h) else s_harts s !! j) by (intros; by apply put_lookup).
  split.
  - intros a b ha hb. rewrite !Hlook.
    repeat case_decide; intros; simplify_eq; cbn in *; try done.
    + exfalso. assert (owns (h_pc hb) = false) by eauto. congruence.
    + exfalso. assert (owns (h_pc ha) = false) by eauto. congruence.
    + by eapply (inv_excl _ Hinv).
  - intros a ha. rewrite Hlook. case_decide; intros; simplify_eq; cbn in *; eauto.
  - intros a ha. rewrite Hlook. case_decide; intros; simplify_eq; [by apply Hcp|by eapply Hco].
  - intros a ha. rewrite Hlook. case_decide; intros ? Hca; [|by eapply Hco].
    simplify_eq. by apply Hcp.
  - intros a ha. rewrite Hlook. case_decide; [|by apply (inv_sie _ Hinv)]. intros [= <-].
    destruct (inv_sie _ Hinv _ _ Hi) as (_ & ? & [?|?]); [done|]. cbn. auto.
Qed.

Lemma store_same i h s p :
  goto i p h s = store_locked (s_locked s) (store_cpu (s_cpu s) (goto i p h s)).
Proof. done. Qed.

Lemma step_inv i s s' : inv s -> step i s s' -> inv s'.
Proof.
  intros Hinv Hstep.
  destruct Hstep as [h Hi Hpc|h Hi Hpc|h Hi Hpc|h Hi Hpc|h Hi Hpc|h Hi Hpc|h Hi Hpc|h Hi Hpc|h Hi Hpc|h Hi Hpc];
    pose proof (inv_sie _ Hinv _ _ Hi) as (_ & Hn & Hsie).
  - apply (inv_put i h); rewrite ?Hpc; try done. split_and!; cbn; [done|lia|right; split; [lia|done]].
  - destruct (truth (s_locked s)); apply inv_goto; by rewrite ?Hpc.
  - rewrite decide_False; [apply inv_goto; by rewrite ?Hpc|].
    intros Hc. pose proof (inv_cpu _ Hinv _ _ Hi Hc) as Hr. by rewrite Hpc in Hr.
  - destruct (truth (s_locked s)) eqn:El.
    + apply (inv_store i h s AcqSwap 1 (s_cpu s)); rewrite ?Hpc; try done.
      * split; [done|]. intros Hc. pose proof (inv_cpu _ Hinv _ _ Hi Hc) as Hr. by rewrite Hpc in Hr.
      * intros j hj _ Hj. split; [by apply (inv_recorded _ Hinv)|by apply (inv_cpu _ Hinv)].
    + apply (inv_store i h s AcqGot 1 (s_cpu s)); rewrite ?Hpc; try done.
      * intros j hj _ Hj _. by eapply no_owner_unlocked.
      * split; [done|]. intros Hc. pose proof (inv_cpu _ Hinv _ _ Hi Hc) as Hr. by rewrite Hpc in Hr.
      * intros j hj _ Hj. split; [by apply (inv_recorded _ Hinv)|by apply (inv_cpu _ Hinv)].
  - assert (Ho : owns (h_pc h) = true) by by rewrite Hpc.
    apply (inv_store i h s Critical (s_locked s) (Some i)); rewrite ?Hpc; try done.
    + intros j hj Hne Hj _. by apply (only_owner s i j h hj).
    + intros _. by apply (inv_locked _ Hinv i h).
    + intros j hj _ Hj Hoj. by apply (inv_locked _ Hinv j hj).
    + intros j hj Hne Hj. split; [|congruence]. intros Hr%recorded_owns.
      by rewrite (only_owner s i j h hj) in Hr.
  - rewrite (inv_locked _ Hinv _ _ Hi) by by rewrite Hpc. apply inv_goto; by rewrite ?Hpc.
  - rewrite decide_True by (eapply (inv_recorded _ Hinv); [done|by rewrite Hpc]).
    apply inv_goto; by rewrite ?Hpc.
  - assert (Ho : owns (h_pc h) = true) by by rewrite Hpc.
    apply (inv_store i h s RelCleared (s_locked s) None); rewrite ?Hpc; try done.
    + intros j hj Hne Hj _. by apply (only_owner s i j h hj).
    + intros _. by apply (inv_locked _ Hinv i h).
    + intros j hj _ Hj Hoj. by apply (inv_locked _ Hinv j hj).
    + intros j hj Hne Hj. split; [|congruence]. intros Hr%recorded_owns.
      by rewrite (only_owner s i j h hj) in Hr.
  - assert (Ho : owns (h_pc h) = true) by by rewrite Hpc.
    apply (inv_store i h s RelDone 0 (s_cpu s)); rewrite ?Hpc; try done.
    + intros j hj Hne Hj Hoj. by rewrite (only_owner s i j h hj) in Hoj.
    + split; [done|]. intros Hc. pose proof (inv_cpu _ Hinv _ _ Hi Hc) as Hr. by rewrite Hpc in Hr.
    + intros j hj _ Hj. split; [by apply (inv_recorded _ Hinv)|by apply (inv_cpu _ Hinv)].
  - destruct Hsie as [?|[Hn1 Hs1]]; [congruence|]. unfold hart_pop. rewrite Hs1. cbn.
    destruct (h_noff h <? 1) eqn:E; bprop; [lia|].
    apply (inv_put i h); rewrite ?Hpc; try done. split_and!; cbn; [done|lia|by left].
Qed.

Lemma boot_inv s : boot s -> inv s.
Proof.
  intros (Hl & Hc & Hh). rewrite Forall_lookup in Hh. split; intros.
  - destruct (Hh i hi) as [E _]; [done|]. rewrite E in *. done.
  - destruct (Hh i h) as [E _]; [done|]. rewrite E in *. done.
  - destruct (Hh i h) as [E _]; [done|]. rewrite E in *. done.
  - congruence.
  - destruct (Hh i h) as [E ->]; [done|]. rewrite E. split_and!; [done|lia|by left].
Qed.

Lemma reachable_inv s0 s : boot s0 -> reachable s0 s -> inv s.
Proof. intros Hb Hr. induction Hr; [by apply boot_inv|by eapply step_inv]. Qed.

(** ** Mutual exclusion *)

(** C21. However the harts interleave from boot, at most one of them is
    between the end of its [acquire] and the start of its [release], the lock
    word is set while it is there and names that hart, and it runs there with
    interrupts off. *)
Theorem spinlock_mutual_exclusion s0 s i j hi hj :
  boot s0 -> reachable s0 s ->
  s_harts s !! i = Some hi -> s_harts s !! j = Some hj ->
  h_pc hi = Critical -> h_pc hj = Critical ->
  i = j /\ truth (s_locked s) = true /\ s_cpu s = Some i /\ h_sie hi = false.
Proof.
  intros Hb Hr Hi Hj Ei Ej. pose proof (reachable_inv _ _ Hb Hr) as Hinv.
  assert (Oi : owns (h_pc hi) = true) by by rewrite Ei.
  assert (Oj : owns (h_pc hj) = true) by by rewrite Ej.
  split_and!.
  - by apply (inv_excl _ Hinv i j hi hj).
  - by apply (inv_locked _ Hinv i hi).
  - eapply (inv_recorded _ Hinv); [done|by rewrite Ei].
  - destruct (inv_sie _ Hinv _ _ Hi) as (_ & _ & [?|[_ ?]]); [congruence|done].
Qed.

(** C22. No interleaving makes the panics of [acquire], [release] or
    [pop_off] fire: the two unsynchronised reads of [holding] never see a
    state that looks like a double acquire or a foreign release. *)
Theorem spinlock_no_panic s0 s i h :
  boot s0 -> reachable s0 s -> s_harts s !! i = Some h -> h_pc h <> Panicked.
Proof. intros Hb Hr Hi. by apply (inv_sie _ (reachable_inv _ _ Hb Hr) _ _ Hi). Qed.

(** Two harts; hart 0 takes the lock while hart 1 spins. *)
Definition two_harts : smp := mkSmp 0 None [mkHart Idle 0 false true; mkHart Idle 0 false true].
Definition contended : smp :=
  mkSmp 1 (Some 0%nat) [mkHart Critical 1 true false; mkHart AcqSwap 1 true false].

Lemma two_harts_boot : boot two_harts.
Proof. repeat constructor. Qed.

Lemma contended_reachable : reachable two_harts contended.
Proof.
  refine (reach_step _ _ 0 _ _ (step_set_cpu 0 (mkSmp 1 None [(mkHart AcqGot 1 true false); (mkHart AcqSwap 1 true false)])
    (mkHart AcqGot 1 true false) eq_refl eq_refl)).
  refine (reach_step _ _ 1 _ _ (step_swap 1 (mkSmp 1 None [(mkHart AcqGot 1 true false); (mkHart AcqSwap 1 true false)])
    (mkHart AcqSwap 1 true false) eq_refl eq_refl)).
  refine (reach_step _ _ 0 _ _ (step_swap 0 (mkSmp 0 None [(mkHart AcqSwap 1 true false); (mkHart AcqSwap 1 true false)])
    (mkHart AcqSwap 1 true false) eq_refl eq_refl)).
  refine (reach_step _ _ 1 _ _ (step_acq_read_locked 1 (mkSmp 0 None [(mkHart AcqSwap 1 true false); (mkHart AcqPushed 1 true false)])
    (mkHart AcqPushed 1 true false) eq_refl eq_refl)).
  refine (reach_step _ _ 0 _ _ (step_acq_read_locked 0 (mkSmp 0 None [(mkHart AcqPushed 1 true false); (mkHart AcqPushed 1 true false)])
    (mkHart AcqPushed 1 true false) eq_refl eq_refl)).
  refine (reach_step _ _ 1 _ _ (step_push_off 1 (mkSmp 0 None [(mkHart AcqPushed 1 true false); (mkHart Idle 0 false true)])
    (mkHart Idle 0 false true) eq_refl eq_refl)).
  refine (reach_step _ _ 0 _ _ (step_push_off 0 two_harts
    (mkHart Idle 0 false true) eq_refl eq_refl)).
  constructor.
Qed.

Lemma spinlock_mutual_exclusion_witness :
  truth (s_locked contended) = true /\ s_cpu contended = Some 0%nat.
Proof.
  destruct (spinlock_mutual_exclusion two_harts contended 0 0
    (mkHart Critical 1 true false) (mkHart Critical 1 true false)
    two_harts_boot contended_reachable eq_refl eq_refl eq_refl eq_refl) as (_ & H1 & H2 & _).
  exact (conj H1 H2).
Defined.

Lemma spinlock_no_panic_witness : AcqSwap <> Panicked.
Proof.
  exact (spinlock_no_panic two_harts contended 1 (mkHart AcqSwap 1 true false)
    two_harts_boot contended_reachable eq_refl).
Defined.
