(* ===== verification/Kalloc.v ===== *)
(** * kernel/kalloc.c: the physical page allocator

    The free pages form a list threaded through the first eight bytes of each
    free page ([struct run]).  The operations run on the byte memory; the
    invariant [kmem_inv] relates it to the list of free pages. *)

From S2P Require Export Riscv Kstring Spinlock.

Section kalloc.
Context {LY : Layout}.

(** ** Operations *)

Definition kfree (pa : Z) : K unit :=
  if truth (pa mod PGSIZE) || (pa <? kend) || (PHYSTOP <=? pa) then panic "kfree" else
  (* Fill with junk to catch dangling refs. *)
  modify (fun k => set_mem (memset pa 1 PGSIZE (k_mem k)) k);;
  acquire Lkmem;;
  (* r->next = kmem.freelist *)
  modify (fun k => set_mem (wr64 pa (k_freelist k) (k_mem k)) k);;
  modify (set_freelist pa);;
  release Lkmem.

Definition kalloc : K Z :=
  acquire Lkmem;;
  r ← gets k_freelist;
  when (truth r) (modify (fun k => set_freelist (rd64 (k_mem k) r) k));;
  release Lkmem;;
  (* fill with junk *)
  when (truth r) (modify (fun k => set_mem (memset r 5 PGSIZE (k_mem k)) k));;
  mret r.

Definition freerange (pa_start pa_end : Z) : K unit :=
  let p := PGROUNDUP pa_start in
  loop_with (S (Z.to_nat ((pa_end - p) / PGSIZE))) p (fun p =>
    if p + PGSIZE <=? pa_end then kfree p;; mret (inl (p + PGSIZE)) else mret (inr tt)).

Definition kinit : K unit :=
  initlock Lkmem "kmem";;
  freerange kend PHYSTOP.

(** ** The invariant *)

(** A page of memory the allocator may hand out. *)
Definition page_ok (p : Z) : Prop := p mod PGSIZE = 0 /\ kend <= p < PHYSTOP.

(** The list of runs starting at [a] visits exactly the pages [ps]. *)
Fixpoint runs (m : gmap Z Z) (a : Z) (ps : list Z) : Prop :=
  match ps with
  | [] => a = 0
  | p :: ps => a = p /\ runs m (rd64 m p) ps
  end.

Definition kmem_inv (k : kernel) (ps : list Z) : Prop :=
  runs (k_mem k) (k_freelist k) ps /\ Forall page_ok ps /\ NoDup ps.

(** Memory changed in page [p] only. *)
Definition only_page (p : Z) (m m' : gmap Z Z) : Prop :=
  forall x, ~ (p <= x < p + PGSIZE) -> rd8 m' x = rd8 m x.

Lemma page_ok_pos p : page_ok p -> 0 < p < 2281701376.
Proof.
  intros [_ H]. pose proof layout_etext. unfold PHYSTOP, KERNBASE in *. lia.
Qed.

Lemma pages_disjoint p q : page_ok p -> page_ok q -> p <> q -> p + PGSIZE <= q \/ q + PGSIZE <= p.
Proof. unfold page_ok, PGSIZE. intros [? _] [? _] ?. zlia. Qed.

Lemma only_page_memset p c m : only_page p m (memset p c PGSIZE m).
Proof.
  intros x Hx. rewrite memset_spec by (unfold PGSIZE; lia). apply rd8_wr_bytes_out.
  rewrite length_replicate. unfold PGSIZE in *. lia.
Qed.

Lemma only_page_wr64 p a v m : p <= a -> a + 8 <= p + PGSIZE -> only_page p m (wr64 a v m).
Proof.
  intros ?? x Hx. apply rd8_wr64_out. unfold PGSIZE in *. lia.
Qed.

Lemma only_page_trans p m1 m2 m3 : only_page p m1 m2 -> only_page p m2 m3 -> only_page p m1 m3.
Proof. intros H1 H2 x Hx. by rewrite H2, H1. Qed.

Lemma only_page_rd64 p m m' a :
  only_page p m m' -> a + 8 <= p \/ p + PGSIZE <= a -> rd64 m' a = rd64 m a.
Proof.
  intros H Ha. apply rd64_ext. intros x Hx. apply H.
  unfold PGSIZE in *. lia.
Qed.

Lemma only_page_rd_bytes p q m m' :
  only_page p m m' -> page_ok p -> page_ok q -> p <> q ->
  rd_bytes m' q (Z.to_nat PGSIZE) = rd_bytes m q (Z.to_nat PGSIZE).
Proof.
  intros H Hp Hq Hne. pose proof (pages_disjoint _ _ Hp Hq Hne).
  apply rd_bytes_ext. intros x Hx. apply H. unfold PGSIZE in *. lia.
Qed.

(** Writes outside the free pages do not disturb the free list. *)
Lemma runs_frame p m m' a ps :
  only_page p m m' -> page_ok p -> Forall page_ok ps -> p ∉ ps -> runs m a ps -> runs m' a ps.
Proof.
  intros Ho Hp. revert a; induction ps as [|q ps IH]; intros a Hps Hnin; [done|].
  apply Forall_cons in Hps as [Hq Hps]. apply not_elem_of_cons in Hnin as [Hne Hnin].
  intros [-> Hr]. split; [done|]. rewrite (only_page_rd64 p m m' q Ho); [by apply IH|].
  destruct (pages_disjoint p q) as [?|?]; [done..|unfold PGSIZE in *; lia|unfold PGSIZE in *; lia].
Qed.

(** ** Functional behaviour *)

Definition kfree_mem (p : Z) (k : kernel) : gmap Z Z :=
  wr64 p (k_freelist k) (memset p 1 PGSIZE (k_mem k)).

Lemma kfree_run p k :
  irq_ok k -> lock_free Lkmem k -> page_ok p ->
  kfree p k = Ok tt (set_freelist p (set_mem (kfree_mem p k) k)).
Proof.
  intros Hi Hl [Ha Hr]. unfold kfree. rewrite Ha.
  destruct (p <? kend) eqn:E1; [bprop; lia|]. destruct (PHYSTOP <=? p) eqn:E2; [bprop; lia|]. cbn [truth Z.eqb negb orb].
  mrun. set (k1 := set_mem _ k). acquire_step. mrun. release_step k1. done.
Qed.

Lemma kfree_bad p k : ~ page_ok p -> kfree p k = Panic "kfree".
Proof.
  intros H. unfold kfree.
  destruct (truth (p mod PGSIZE) || (p <? kend) || (PHYSTOP <=? p)) eqn:E; [done|].
  exfalso. apply H. unfold truth in E. bprop. split; [done|lia].
Qed.

Lemma kfree_mem_only p k : only_page p (k_mem k) (kfree_mem p k).
Proof.
  eapply only_page_trans; [apply only_page_memset|].
  apply only_page_wr64; unfold PGSIZE; lia.
Qed.

Lemma kfree_inv p k ps :
  kmem_inv k ps -> page_ok p -> p ∉ ps ->
  kmem_inv (set_freelist p (set_mem (kfree_mem p k) k)) (p :: ps).
Proof.
  intros (Hr & Hp & Hd) Hok Hnin. split_and!.
  - cbn. split; [done|]. unfold kfree_mem. rewrite rd64_wr64_same.
    rewrite u64_id; [eapply (runs_frame p (k_mem k)); eauto using kfree_mem_only|].
    destruct ps as [|q ps]; cbn in Hr; [lia|]. destruct Hr as [-> _].
    apply Forall_cons in Hp as [Hq _]. apply page_ok_pos in Hq. lia.
  - by constructor.
  - by constructor.
Qed.

Lemma kalloc_empty k :
  irq_ok k -> lock_free Lkmem k -> kmem_inv k [] -> kalloc k = Ok 0 k.
Proof.
  intros Hi Hl [Hr _]. cbn in Hr. unfold kalloc.
  acquire_step. mrun. autorewrite with klocks. rewrite Hr. cbn [truth Z.eqb negb]. mrun.
  release_step k. mrun. done.
Qed.

Definition kalloc_state (p : Z) (k : kernel) : kernel :=
  set_mem (memset p 5 PGSIZE (k_mem k)) (set_freelist (rd64 (k_mem k) p) k).

Lemma kalloc_run p ps k :
  irq_ok k -> lock_free Lkmem k -> kmem_inv k (p :: ps) -> kalloc k = Ok p (kalloc_state p k).
Proof.
  intros Hi Hl ((Hr & _) & Hp & _). apply Forall_cons in Hp as [Hok _].
  apply page_ok_pos in Hok. unfold kalloc.
  acquire_step. mrun. autorewrite with klocks. rewrite Hr.
  destruct (truth p) eqn:E; [|unfold truth in E; bprop; lia]. mrun. release_step k. mrun. done.
Qed.

Lemma kalloc_inv p ps k :
  kmem_inv k (p :: ps) -> kmem_inv (kalloc_state p k) ps.
Proof.
  intros ((Hr & Hrs) & Hp & Hd). apply Forall_cons in Hp as [Hok Hp].
  apply NoDup_cons in Hd as [Hnin Hd]. split_and!; [|done..]. cbn.
  eapply (runs_frame p); eauto using only_page_memset.
Qed.

Lemma kalloc_state_only p k : only_page p (k_mem k) (k_mem (kalloc_state p k)).
Proof. exact (only_page_memset p 5 (k_mem k)). Qed.

(** ** Initialisation *)

(** The [n] pages from [p] up. *)
Fixpoint page_run (p : Z) (n : nat) : list Z :=
  match n with O => [] | S n => p :: page_run (p + PGSIZE) n end.

Lemma elem_of_page_run p n q :
  q ∈ page_run p n <-> exists i, 0 <= i < Z.of_nat n /\ q = p + i * PGSIZE.
Proof.
  revert p; induction n as [|n IH]; intros p; cbn [page_run].
  - split; [by intros ?%elem_of_nil|]. intros (i & ? & _). lia.
  - rewrite elem_of_cons, IH. split.
    + intros [->|(i & ? & ->)]; [exists 0; lia|]. exists (i + 1). unfold PGSIZE. lia.
    + intros (i & ? & ->). destruct (decide (i = 0)) as [->|]; [left; lia|].
      right. exists (i - 1). unfold PGSIZE. lia.
Qed.

Lemma freerange_loop n p e k ps :
  irq_ok k -> lock_free Lkmem k -> kmem_inv k ps ->
  p + Z.of_nat n * PGSIZE <= e < p + (Z.of_nat n + 1) * PGSIZE ->
  Forall page_ok (page_run p n) -> Forall (fun q => q < p) ps ->
  wp (loop_with (S n) p (fun p =>
        if p + PGSIZE <=? e then kfree p;; mret (inl (p + PGSIZE)) else mret (inr tt)))
     (fun _ k' => kmem_inv k' (reverse (page_run p n) ++ ps) /\ same_locks k k') k.
Proof.
  revert p k ps; induction n as [|n IH]; intros p k ps Hi Hl Hk He Hpr Hlt.
  - cbn [loop_with]. destruct (p + PGSIZE <=? e) eqn:E; bprop; [lia|]. cbn. done.
  - change (S (S n)) with (S (S n)%nat). remember (S n) as n1 eqn:En. cbn [loop_with].
    destruct (p + PGSIZE <=? e) eqn:E; bprop; [|unfold PGSIZE in *; lia]. subst n1.
    cbn [page_run] in Hpr. apply Forall_cons in Hpr as [Hok Hpr].
    assert (Hnin : p ∉ ps) by (intros Hin; rewrite Forall_forall in Hlt; specialize (Hlt _ Hin); lia).
    apply wp_bind, wp_bind. eapply wp_Ok; [by apply kfree_run|]. apply wp_ret.
    eapply wp_mono; [apply (IH (p + PGSIZE) _ (p :: ps))|].
    + by eapply (irq_ok_same k).
    + by eapply (lock_free_same _ k).
    + by apply kfree_inv.
    + unfold PGSIZE in *. lia.
    + done.
    + constructor; [unfold PGSIZE; lia|]. eapply Forall_impl; [done|]. cbn. unfold PGSIZE. lia.
    + intros [] k' [Hinv Hs]. split; [|done]. cbn [page_run]. by rewrite reverse_cons, <- app_assoc.
Qed.

(** Every page the allocator may hand out, in the order of [kinit]. *)
Definition all_pages : list Z :=
  reverse (page_run (PGROUNDUP kend) (Z.to_nat ((PHYSTOP - PGROUNDUP kend) / PGSIZE))).

Lemma kend_range : 0 <= kend < 2281701376.
Proof.
  pose proof layout_etext. pose proof layout_end. unfold PHYSTOP, KERNBASE, PGSIZE in *. lia.
Qed.

Lemma all_pages_spec p : p ∈ all_pages <-> page_ok p.
Proof.
  unfold all_pages. rewrite elem_of_reverse, elem_of_page_run.
  pose proof kend_range as Hk. rewrite PGROUNDUP_eq by lia. unfold page_ok.
  pose proof layout_end. unfold PHYSTOP, KERNBASE, PGSIZE in *. split.
  - intros (i & Hi & ->). rewrite Z2Nat.id in Hi by zlia. zlia.
  - intros [Ha Hr]. exists ((p - (kend + 4095) / 4096 * 4096) / 4096).
    rewrite Z2Nat.id by zlia. zlia.
Qed.

Lemma kinit_run k :
  irq_ok k -> k_freelist k = 0 ->
  wp kinit (fun _ k' => kmem_inv k' all_pages /\ irq_ok k' /\ lock_free Lkmem k') k.
Proof.
  intros Hi Hf. unfold kinit. apply wp_bind. eapply wp_Ok; [done|].
  set (k1 := upd_lock _ _ k).
  assert (Hi1 : irq_ok k1) by done.
  assert (Hl1 : lock_free Lkmem k1).
  { exists "kmem". unfold k1, upd_lock; cbn. by rewrite lookup_insert_eq. }
  unfold freerange. pose proof kend_range as Hk. pose proof layout_end.
  set (n := Z.to_nat ((PHYSTOP - PGROUNDUP kend) / PGSIZE)).
  assert (Hup : PGROUNDUP kend = (kend + 4095) / 4096 * 4096) by (apply PGROUNDUP_eq; lia).
  eapply wp_mono; [apply (freerange_loop n (PGROUNDUP kend) PHYSTOP k1 [])|].
  - done.
  - done.
  - split_and!; [done|constructor|constructor].
  - subst n. rewrite Hup in *. unfold PHYSTOP, KERNBASE, PGSIZE in *. zlia.
  - apply Forall_forall. intros q Hq. apply all_pages_spec. unfold all_pages. by apply elem_of_reverse.
  - constructor.
  - intros [] k' [Hinv Hs]. rewrite app_nil_r in Hinv. split_and!; [done|..].
    + by eapply irq_ok_same.
    + by eapply lock_free_same.
Qed.

(** ** Correctness *)

(** After [kinit] the free list holds every page of memory between the
    end of the kernel and PHYSTOP, each exactly once. *)
Theorem kinit_frees_all k :
  irq_ok k -> k_freelist k = 0 ->
  exists k' ps, kinit k = Ok tt k' /\ kmem_inv k' ps /\ NoDup ps /\ (forall p, p ∈ ps <-> page_ok p).
Proof.
  intros Hi Hf. destruct (wp_inv _ _ _ (kinit_run k Hi Hf)) as ([] & k' & Hrun & Hinv & _).
  exists k', all_pages. split_and!; [done|done|apply Hinv|apply all_pages_spec].
Qed.

(** C26. [kalloc] on a non-empty free list returns its first page, removes it
    from the list, fills it with the junk byte 5 and touches no other byte of
    memory; on an empty list it returns 0 and changes nothing. *)
Theorem kalloc_spec k ps :
  irq_ok k -> lock_free Lkmem k -> kmem_inv k ps ->
  match ps with
  | [] => kalloc k = Ok 0 k
  | p :: ps' => exists k', kalloc k = Ok p k' /\ kmem_inv k' ps' /\
      rd_bytes (k_mem k') p (Z.to_nat PGSIZE) = replicate (Z.to_nat PGSIZE) 5 /\
      only_page p (k_mem k) (k_mem k') /\ same_locks k k'
  end.
Proof.
  intros Hi Hl Hk. destruct ps as [|p ps]; [by apply kalloc_empty|].
  exists (kalloc_state p k). split_and!; [by eapply kalloc_run|by apply kalloc_inv| | |done..].
  - unfold kalloc_state. cbn [k_mem set_mem]. rewrite memset_spec by (unfold PGSIZE; lia).
    rewrite <- (length_replicate (Z.to_nat PGSIZE) 5) at 2. apply rd_wr_bytes_same.
    apply Forall_replicate. lia.
  - apply kalloc_state_only.
Qed.

(** [kfree] of an allocated page puts it at the head of the free list
    and touches no byte outside the page; a misaligned address or one outside
    the memory after the kernel panics. *)
Theorem kfree_spec k ps p :
  irq_ok k -> lock_free Lkmem k -> kmem_inv k ps -> p ∉ ps ->
  (page_ok p -> exists k', kfree p k = Ok tt k' /\ kmem_inv k' (p :: ps) /\
     only_page p (k_mem k) (k_mem k') /\ same_locks k k') /\
  (~ page_ok p -> kfree p k = Panic "kfree").
Proof.
  intros Hi Hl Hk Hnin. split; [|apply kfree_bad]. intros Hok.
  exists (set_freelist p (set_mem (kfree_mem p k) k)).
  split_and!; [by apply kfree_run|by apply kfree_inv|apply kfree_mem_only|done..].
Qed.
End kalloc.

(** ** Witnesses *)

Definition page_a : Z := 0x80030000.
Definition page_b : Z := 0x80031000.

(** Two free pages. *)
Definition two_pages : kernel :=
  set_freelist page_a (set_mem (wr64 page_a page_b ∅) one_hart).

Lemma two_pages_inv : @kmem_inv kernel_sym two_pages [page_a; page_b].
Proof.
  split_and!; [vm_compute; auto| |].
  - repeat constructor; vm_compute; congruence.
  - apply (bool_decide_unpack _). vm_compute. exact I.
Qed.

Lemma two_pages_irq : irq_ok two_pages.
Proof. split_and!; vm_compute; (done || lia). Qed.

Lemma two_pages_lock : lock_free Lkmem two_pages.
Proof. exists "kmem". vm_compute. reflexivity. Qed.

Lemma kinit_frees_all_witness :
  exists k' ps, @kinit kernel_sym one_hart = Ok tt k' /\ @kmem_inv kernel_sym k' ps.
Proof.
  destruct (@kinit_frees_all kernel_sym one_hart one_hart_irq eq_refl) as (k' & ps & H1 & H2 & _).
  exact (ex_intro _ k' (ex_intro _ ps (conj H1 H2))).
Defined.

Lemma kalloc_spec_witness :
  exists k', @kalloc two_pages = Ok page_a k' /\ @kmem_inv kernel_sym k' [page_b].
Proof.
  destruct (@kalloc_spec kernel_sym two_pages [page_a; page_b] two_pages_irq two_pages_lock
    two_pages_inv) as (k' & H1 & H2 & _).
  exact (ex_intro _ k' (conj H1 H2)).
Defined.

Lemma kfree_spec_witness :
  @kfree kernel_sym 0x80030001 two_pages = Panic "kfree".
Proof.
  apply (@kfree_spec kernel_sym two_pages [page_a; page_b] 0x80030001 two_pages_irq
    two_pages_lock two_pages_inv).
  - apply (bool_decide_unpack _). vm_compute. exact I.
  - intros [H _]. revert H. vm_compute. discriminate.
Defined.
