(* ===== verification/Vm.v ===== *)
(** * kernel/vm.c: page tables and user memory

    The Sv39 page tables live in the byte memory, as the hardware reads them:
    [walk] and its callers are translated on raw page-table entries.  Kernel
    objects that are copied to user memory are readers, and what is copied
    from user memory to a kernel object is returned as the bytes stored there
    (also when the copy fails half way), for the caller to store. *)

From S2P Require Export Kalloc.

Section vm.
Context {LY : Layout}.

Definition rd_pte (a : Z) : K Z := gets (fun k => rd64 (k_mem k) a).
Definition wr_pte (a v : Z) : K unit := modify (fun k => set_mem (wr64 a v (k_mem k)) k).
Definition clear_page (p : Z) : K unit := modify (fun k => set_mem (memset p 0 PGSIZE (k_mem k)) k).

(** The descent through the levels that remain; [pagetable] is the address of
    the current page-table page. *)
Fixpoint walk_loop (levels : list Z) (pagetable va : Z) (alloc : bool) : K Z :=
  match levels with
  | [] => mret (pagetable + 8 * PX 0 va)
  | level :: levels =>
      let pte := pagetable + 8 * PX level va in
      e ← rd_pte pte;
      if pte_valid e then walk_loop levels (PTE2PA e) va alloc
      else if negb alloc then mret 0 else
      pagetable ← kalloc;
      if pagetable =? 0 then mret 0 else
      clear_page pagetable;;
      wr_pte pte (Z.lor (PA2PTE pagetable) PTE_V);;
      walk_loop levels pagetable va alloc
  end.

Definition walk (pagetable va : Z) (alloc : bool) : K Z :=
  if MAXVA <=? va then panic "walk" else walk_loop [2; 1] pagetable va alloc.

Definition walkaddr (pagetable va : Z) : K Z :=
  if MAXVA <=? va then mret 0 else
  pte ← walk pagetable va false;
  if pte =? 0 then mret 0 else
  e ← rd_pte pte;
  if negb (pte_valid e) then mret 0 else
  if negb (pte_user e) then mret 0 else
  mret (PTE2PA e).

(** [mappages] visits the pages up to [last]; when [last] is below [a] it
    runs on until [walk] panics at MAXVA. *)
Definition mappages_fuel (a last : Z) : nat :=
  if a <=? last then S (Z.to_nat ((last - a) / PGSIZE))
  else S (S (Z.to_nat ((MAXVA - a) / PGSIZE))).

(** One round of the loop: map the page at [a] to [pa]. *)
Definition mappages_body (pagetable last perm : Z) : Z * Z -> K ((Z * Z) + Z) := fun '(a, pa) =>
  pte ← walk pagetable a true;
  if pte =? 0 then mret (inr (-1)) else
  e ← rd_pte pte;
  if pte_valid e then panic "remap" else
  wr_pte pte (Z.lor (Z.lor (PA2PTE pa) perm) PTE_V);;
  if a =? last then mret (inr 0) else
  mret (inl (u64 (a + PGSIZE), u64 (pa + PGSIZE))).

Definition mappages (pagetable va size pa perm : Z) : K Z :=
  let a := PGROUNDDOWN va in
  let last := PGROUNDDOWN (u64 (va + size - 1)) in
  loop_with (mappages_fuel a last) (a, pa) (mappages_body pagetable last perm).

Definition uvmunmap_body (pagetable last : Z) (do_free : bool) : Z -> K (Z + unit) := fun a =>
  if a <? last then
    pte ← walk pagetable a false;
    if pte =? 0 then panic "uvmunmap: walk" else
    e ← rd_pte pte;
    if negb (pte_valid e) then panic "uvmunmap: not mapped" else
    if PTE_FLAGS e =? PTE_V then panic "uvmunmap: not a leaf" else
    when do_free (kfree (PTE2PA e));;
    wr_pte pte 0;;
    mret (inl (u64 (a + PGSIZE)))
  else mret (inr tt).

Definition uvmunmap (pagetable va npages : Z) (do_free : bool) : K unit :=
  if truth (va mod PGSIZE) then panic "uvmunmap: not aligned" else
  let last := u64 (va + u64 (npages * PGSIZE)) in
  loop_with (S (Z.to_nat ((last - va) / PGSIZE))) va (uvmunmap_body pagetable last do_free).

Definition uvmcreate : K Z :=
  pagetable ← kalloc;
  if pagetable =? 0 then mret 0 else
  clear_page pagetable;;
  mret pagetable.

Definition uvminit (pagetable : Z) (src : Z -> Z) (sz : Z) : K unit :=
  if PGSIZE <=? sz then panic "inituvm: more than a page" else
  mem ← kalloc;
  clear_page mem;;
  mappages pagetable 0 PGSIZE mem (Z.lor (Z.lor (Z.lor PTE_W PTE_R) PTE_X) PTE_U);;
  modify (fun k => set_mem (memmove_from mem src sz (k_mem k)) k).

Definition uvmdealloc (pagetable oldsz newsz : Z) : K Z :=
  if oldsz <=? newsz then mret oldsz else
  when (PGROUNDUP newsz <? PGROUNDUP oldsz)
    (let npages := s32 ((PGROUNDUP oldsz - PGROUNDUP newsz) / PGSIZE) in
     uvmunmap pagetable (PGROUNDUP newsz) (u64 npages) true);;
  mret newsz.

Definition uvmalloc_body (pagetable oldsz newsz : Z) : Z -> K (Z + Z) := fun a =>
  if a <? newsz then
    mem ← kalloc;
    if mem =? 0 then
      uvmdealloc pagetable a oldsz;;
      mret (inr 0)
    else
      clear_page mem;;
      r ← mappages pagetable a PGSIZE mem (Z.lor (Z.lor (Z.lor PTE_W PTE_X) PTE_R) PTE_U);
      if truth r then
        kfree mem;;
        uvmdealloc pagetable a oldsz;;
        mret (inr 0)
      else mret (inl (u64 (a + PGSIZE)))
  else mret (inr newsz).

Definition uvmalloc (pagetable oldsz newsz : Z) : K Z :=
  if newsz <? oldsz then mret oldsz else
  let oldsz := PGROUNDUP oldsz in
  loop_with (S (S (Z.to_nat ((newsz - oldsz) / PGSIZE)))) oldsz (uvmalloc_body pagetable oldsz newsz).

(** [fuel] bounds the depth of the recursion: a table has three levels. *)
Fixpoint freewalk_rec (fuel : nat) (pagetable : Z) : K unit :=
  match fuel with
  | O => block
  | S fuel =>
      for_all (Z.of_nat <$> seq 0 512) (fun i =>
        pte ← rd_pte (pagetable + 8 * i);
        if pte_valid pte && (Z.land pte (Z.lor (Z.lor PTE_R PTE_W) PTE_X) =? 0) then
          freewalk_rec fuel (PTE2PA pte);;
          wr_pte (pagetable + 8 * i) 0
        else if pte_valid pte then panic "freewalk: leaf"
        else skip);;
      kfree pagetable
  end.

Definition freewalk : Z -> K unit := freewalk_rec 3.

Definition uvmfree (pagetable sz : Z) : K unit :=
  when (0 <? sz) (uvmunmap pagetable 0 (PGROUNDUP sz / PGSIZE) true);;
  freewalk pagetable.

(** The error exit of [uvmcopy]. *)
Definition uvmcopy_err (new i : Z) : K (Z + Z) :=
  uvmunmap new 0 (i / PGSIZE) true;; mret (inr (-1)).

Definition uvmcopy_body (old new sz : Z) : Z -> K (Z + Z) := fun i =>
  if i <? sz then
    pte ← walk old i false;
    if pte =? 0 then panic "uvmcopy: pte should exist" else
    e ← rd_pte pte;
    if negb (pte_valid e) then panic "uvmcopy: page not present" else
    let pa := PTE2PA e in
    let flags := PTE_FLAGS e in
    mem ← kalloc;
    if mem =? 0 then uvmcopy_err new i else
    modify (fun k => set_mem (memmove mem pa PGSIZE (k_mem k)) k);;
    r ← mappages new i PGSIZE mem flags;
    if truth r then kfree mem;; uvmcopy_err new i
    else mret (inl (u64 (i + PGSIZE)))
  else mret (inr 0).

Definition uvmcopy (old new sz : Z) : K Z :=
  loop_with (S (S (Z.to_nat (sz / PGSIZE)))) 0 (uvmcopy_body old new sz).

Definition uvmclear (pagetable va : Z) : K unit :=
  pte ← walk pagetable va false;
  if pte =? 0 then panic "uvmclear" else
  e ← rd_pte pte;
  wr_pte pte (Z.land e (u64 (Z.lnot PTE_U))).

(** A copy of [len] bytes touches at most [len / PGSIZE + 2] pages. *)
Definition copy_fuel (len : Z) : nat := S (S (S (Z.to_nat (len / PGSIZE)))).

Definition copyout_body (pagetable : Z) : Z * (Z -> Z) * Z -> K ((Z * (Z -> Z) * Z) + Z) :=
  fun '(dstva, src, len) =>
  if 0 <? len then
    let va0 := PGROUNDDOWN dstva in
    pa0 ← walkaddr pagetable va0;
    if pa0 =? 0 then mret (inr (-1)) else
    let n := PGSIZE - (dstva - va0) in
    let n := if len <? n then len else n in
    modify (fun k => set_mem (memmove_from (pa0 + (dstva - va0)) src n (k_mem k)) k);;
    mret (inl (u64 (va0 + PGSIZE), ptr_add src n, len - n))
  else mret (inr 0).

Definition copyout (pagetable dstva : Z) (src : Z -> Z) (len : Z) : K Z :=
  loop_with (copy_fuel len) (dstva, src, len) (copyout_body pagetable).

Definition copyin_body (pagetable : Z) : Z * Z * list Z -> K ((Z * Z * list Z) + (Z * list Z)) :=
  fun '(srcva, len, dst) =>
  if 0 <? len then
    let va0 := PGROUNDDOWN srcva in
    pa0 ← walkaddr pagetable va0;
    if pa0 =? 0 then mret (inr (-1, dst)) else
    let n := PGSIZE - (srcva - va0) in
    let n := if len <? n then len else n in
    bs ← gets (fun k => rd_bytes (k_mem k) (pa0 + (srcva - va0)) (Z.to_nat n));
    mret (inl (u64 (va0 + PGSIZE), len - n, dst ++ bs))
  else mret (inr (0, dst)).

(** Returns the C result and the bytes stored at [dst]. *)
Definition copyin (pagetable srcva len : Z) : K (Z * list Z) :=
  loop_with (copy_fuel len) (srcva, len, []) (copyin_body pagetable).

(** The byte loop of [copyinstr] within one page: the bytes stored, and
    whether a NUL was met. *)
Fixpoint copyinstr_page (n : nat) (p : Z -> Z) : list Z * bool :=
  match n with
  | O => ([], false)
  | S n =>
      if p 0 =? 0 then ([0], true)
      else let '(bs, got_null) := copyinstr_page n (ptr_add p 1) in (p 0 :: bs, got_null)
  end.

Definition copyinstr_body (pagetable : Z) : Z * Z * list Z -> K ((Z * Z * list Z) + (Z * list Z)) :=
  fun '(srcva, max, dst) =>
  if 0 <? max then
    let va0 := PGROUNDDOWN srcva in
    pa0 ← walkaddr pagetable va0;
    if pa0 =? 0 then mret (inr (-1, dst)) else
    let n := PGSIZE - (srcva - va0) in
    let n := if max <? n then max else n in
    page ← gets (fun k => copyinstr_page (Z.to_nat n) (str (k_mem k) (pa0 + (srcva - va0))));
    let '(bs, got_null) := page in
    if got_null : bool then mret (inr (0, dst ++ bs))
    else mret (inl (u64 (va0 + PGSIZE), max - n, dst ++ bs))
  else mret (inr (-1, dst)).

Definition copyinstr (pagetable srcva max : Z) : K (Z * list Z) :=
  loop_with (copy_fuel max) (srcva, max, []) (copyinstr_body pagetable).

(** ** The kernel's page table *)

Definition kvmmap (kpgtbl va pa sz perm : Z) : K unit :=
  r ← mappages kpgtbl va sz pa perm;
  if truth r then panic "kvmmap" else skip.

Definition proc_mapstacks (kpgtbl : Z) : K unit :=
  for_all (seq 0 NPROC) (fun p =>
    pa ← kalloc;
    if pa =? 0 then panic "kalloc" else
    kvmmap kpgtbl (KSTACK (Z.of_nat p)) pa PGSIZE (Z.lor PTE_R PTE_W)).

Definition kvmmake : K Z :=
  kpgtbl ← kalloc;
  clear_page kpgtbl;;
  kvmmap kpgtbl UART0 UART0 PGSIZE (Z.lor PTE_R PTE_W);;
  kvmmap kpgtbl VIRTIO0 VIRTIO0 PGSIZE (Z.lor PTE_R PTE_W);;
  kvmmap kpgtbl PLIC PLIC 0x400000 (Z.lor PTE_R PTE_W);;
  kvmmap kpgtbl KERNBASE KERNBASE (etext - KERNBASE) (Z.lor PTE_R PTE_X);;
  kvmmap kpgtbl etext etext (PHYSTOP - etext) (Z.lor PTE_R PTE_W);;
  kvmmap kpgtbl TRAMPOLINE trampoline PGSIZE (Z.lor PTE_R PTE_X);;
  proc_mapstacks kpgtbl;;
  mret kpgtbl.

Definition kvminit : K unit :=
  kpgtbl ← kvmmake;
  modify (set_kpgtbl kpgtbl).

Definition MAKE_SATP (pagetable : Z) : Z := Z.lor (Z.shiftl 8 60) (Z.shiftr pagetable 12).

Definition kvminithart : K unit :=
  modify (fun k => set_csr (set_r_satp (MAKE_SATP (k_kpgtbl k)) (k_csr k)) k).
End vm.
