(* ===== verification/PageTable.v ===== *)
(** * The page-table tree and its invariant

    A page table is described by the map from index paths to page-table
    pages: the empty path is the root, [[i]] the level-1 page under entry [i]
    of the root, [[i; j]] the level-0 page below it.  [pt_wf] says that the
    byte memory holds exactly that tree, [leaf] is the translation function
    the tree denotes, and the lemmas give [walk] and [mappages] as operations
    on it. *)

From S2P Require Export Vm.

(** Arithmetic on virtual and physical addresses. *)
Ltac vlia :=
  change PGSIZE with 4096 in *; change MAXVA with 274877906944 in *;
  first [lia | zlia].

(** ** Frames *)

(** The bytes of page [q] are the same in both memories. *)
Definition page_same (q : Z) (m m' : gmap Z Z) : Prop :=
  forall x, q <= x < q + PGSIZE -> rd8 m' x = rd8 m x.

(** Memory differs at most in the pages [P]. *)
Definition outside (P : list Z) (m m' : gmap Z Z) : Prop :=
  forall x, (forall p, p ∈ P -> ~ (p <= x < p + PGSIZE)) -> rd8 m' x = rd8 m x.

(** The two states differ in memory and the head of the free list only. *)
Definition mem_only (k k' : kernel) : Prop :=
  k' = set_mem (k_mem k') (set_freelist (k_freelist k') k).

Section frames.
Context {LY : Layout}.

Lemma page_same_refl q m : page_same q m m.
Proof. done. Qed.

Lemma page_same_trans q m1 m2 m3 : page_same q m1 m2 -> page_same q m2 m3 -> page_same q m1 m3.
Proof. intros H1 H2 x Hx. by rewrite H2, H1. Qed.

Lemma only_page_same p q m m' :
  only_page p m m' -> page_ok p -> page_ok q -> p <> q -> page_same q m m'.
Proof.
  intros H Hp Hq Hne x Hx. apply H. destruct (pages_disjoint p q); [done..| |]; lia.
Qed.

Lemma page_same_rd64 q m m' a :
  page_same q m m' -> q <= a -> a + 8 <= q + PGSIZE -> rd64 m' a = rd64 m a.
Proof. intros H ??. apply rd64_ext. intros x Hx. apply H. unfold PGSIZE in *. lia. Qed.

Lemma page_same_bytes q m m' :
  page_same q m m' ->
  rd_bytes m' q (Z.to_nat PGSIZE) = rd_bytes m q (Z.to_nat PGSIZE).
Proof. intros H. apply rd_bytes_ext. intros x Hx. apply H. unfold PGSIZE in *. lia. Qed.

Lemma outside_refl P m : outside P m m.
Proof. done. Qed.

Lemma outside_trans P m1 m2 m3 : outside P m1 m2 -> outside P m2 m3 -> outside P m1 m3.
Proof. intros H1 H2 x Hx. by rewrite H2, H1. Qed.

Lemma outside_mono P Q m m' : P ⊆ Q -> outside P m m' -> outside Q m m'.
Proof. intros HP H x Hx. apply H. intros p Hp. apply Hx. by apply HP. Qed.

Lemma only_page_outside p P m m' : p ∈ P -> only_page p m m' -> outside P m m'.
Proof. intros Hp H x Hx. apply H. by apply Hx. Qed.

Lemma outside_page_same P q m m' :
  outside P m m' -> Forall page_ok P -> page_ok q -> q ∉ P -> page_same q m m'.
Proof.
  intros H HP Hq Hnin x Hx. apply H. intros p Hp Hxp. rewrite Forall_forall in HP.
  destruct (decide (p = q)) as [->|Hne]; [done|].
  destruct (pages_disjoint p q (HP p Hp) Hq Hne); lia.
Qed.

Lemma mem_only_refl k : mem_only k k.
Proof. by destruct k. Qed.

Lemma mem_only_trans k1 k2 k3 : mem_only k1 k2 -> mem_only k2 k3 -> mem_only k1 k3.
Proof. unfold mem_only. intros -> ->. done. Qed.

Lemma mem_only_locks k k' : mem_only k k' -> same_locks k k'.
Proof. intros ->. done. Qed.

Lemma mem_only_set m f k : mem_only k (set_freelist f (set_mem m k)).
Proof. done. Qed.

Lemma mem_only_set_mem m k : mem_only k (set_mem m k).
Proof. done. Qed.

Lemma kmem_inv_frame k ps m :
  kmem_inv k ps -> (forall q, q ∈ ps -> page_same q (k_mem k) m) -> kmem_inv (set_mem m k) ps.
Proof.
  intros (Hr & Hp & Hd) Hs. split_and!; [|done..]. cbn. revert Hr Hp Hs. clear Hd.
  generalize (k_freelist k). induction ps as [|q ps IH]; intros a; [done|].
  intros [-> Hr] Hp Hs. apply Forall_cons in Hp as [Hq Hp]. split; [done|].
  rewrite (page_same_rd64 q (k_mem k)); [|apply Hs; set_solver|lia|unfold PGSIZE; lia].
  apply IH; [done..|]. intros r Hin. apply Hs. set_solver.
Qed.
End frames.

#[export] Hint Resolve page_same_refl outside_refl mem_only_refl mem_only_locks mem_only_set_mem
  mem_only_set : krun.

(** ** Trees *)

Abbreviation ptree := (gmap (list Z) Z).

Definition tpages (T : ptree) : list Z := (map_to_list T).*2.

(** The entry of an inner page that points to the page [b]. *)
Definition pt_dir (b : Z) : Z := Z.lor (PA2PTE b) PTE_V.

Definition path (va : Z) : list Z := [PX 2 va; PX 1 va].

(** The level-0 entry the tree holds for [va]; none is 0. *)
Definition leaf (m : gmap Z Z) (T : ptree) (va : Z) : Z :=
  match T !! path va with
  | Some b => rd64 m (b + 8 * PX 0 va)
  | None => 0
  end.

Definition pte_addr (T : ptree) (va : Z) : Z :=
  match T !! path va with
  | Some b => b + 8 * PX 0 va
  | None => 0
  end.

Section tree.
Context {LY : Layout}.

Record pt_wf (m : gmap Z Z) (T : ptree) : Prop := {
  pt_pages : Forall page_ok (tpages T);
  pt_nodup : NoDup (tpages T);
  pt_depth : forall p a, T !! p = Some a -> (length p <= 2)%nat /\ Forall (fun i => 0 <= i < 512) p;
  pt_low : forall i p a, T !! (i :: p) = Some a -> i < 256;
  pt_parent : forall p i b, T !! (p ++ [i]) = Some b -> is_Some (T !! p);
  pt_entry : forall p a i, T !! p = Some a -> (length p < 2)%nat -> 0 <= i < 512 ->
    match T !! (p ++ [i]) with
    | Some b => rd64 m (a + 8 * i) = pt_dir b
    | None => pte_valid (rd64 m (a + 8 * i)) = false
    end
}.

(** The allocator and one page table, which share no page. *)
Record vm_inv (k : kernel) (ps : list Z) (T : ptree) : Prop := {
  vi_irq : irq_ok k;
  vi_lock : lock_free Lkmem k;
  vi_kmem : kmem_inv k ps;
  vi_pt : pt_wf (k_mem k) T;
  vi_nodup : NoDup (tpages T ++ ps)
}.

Lemma elem_of_tpages T a : a ∈ tpages T <-> exists p, T !! p = Some a.
Proof.
  unfold tpages. rewrite list_elem_of_fmap. split.
  - intros ([p b] & -> & H). apply elem_of_map_to_list in H. by exists p.
  - intros [p H]. exists (p, a). split; [done|]. by apply elem_of_map_to_list.
Qed.

Lemma tpages_insert T p a : T !! p = None -> tpages (<[p := a]> T) ≡ₚ a :: tpages T.
Proof. intros H. unfold tpages. by rewrite map_to_list_insert. Qed.

Lemma tpages_inj T p q a :
  NoDup (tpages T) -> T !! p = Some a -> T !! q = Some a -> p = q.
Proof.
  intros Hn Hp Hq. destruct (decide (p = q)) as [|Hne]; [done|]. exfalso.
  rewrite <- (insert_delete_id T p a Hp) in Hn.
  rewrite tpages_insert in Hn by apply lookup_delete_eq.
  apply NoDup_cons in Hn as [Hnin _]. apply Hnin, elem_of_tpages. exists q.
  by rewrite lookup_delete_ne.
Qed.

Lemma pt_page_ok m T p a : pt_wf m T -> T !! p = Some a -> page_ok a.
Proof.
  intros H Hp. pose proof (pt_pages _ _ H) as Hf. rewrite Forall_forall in Hf.
  apply Hf, elem_of_tpages. by exists p.
Qed.

Lemma page_ok_pa p : page_ok p -> pa_ok p.
Proof. intros H. pose proof (page_ok_pos p H). destruct H as [H _]. split; [done|lia]. Qed.

Lemma pt_dir_valid b : page_ok b -> pte_valid (pt_dir b) = true.
Proof. intros H. unfold pt_dir. rewrite pte_valid_pack; [done|by apply page_ok_pa|done]. Qed.

Lemma pt_dir_pa b : page_ok b -> PTE2PA (pt_dir b) = b.
Proof. intros H. unfold pt_dir. rewrite PTE2PA_pack; [done|by apply page_ok_pa|done]. Qed.

Lemma pt_dir_u64 b : page_ok b -> u64 (pt_dir b) = pt_dir b.
Proof.
  intros H. apply u64_id. unfold pt_dir. pose proof (page_ok_pos b H).
  rewrite pte_pack; [|by apply page_ok_pa|done]. change PTE_V with 1. zlia.
Qed.

(** An entry lies inside its page. *)
Lemma slot_in a i : 0 <= i < 512 -> a <= a + 8 * i /\ a + 8 * i + 8 <= a + PGSIZE.
Proof. unfold PGSIZE. lia. Qed.

Lemma slots_disjoint a i j : i <> j -> disjoint_ranges (a + 8 * i) 8 (a + 8 * j) 8.
Proof. unfold disjoint_ranges. lia. Qed.

Lemma only_page_slot a i v m : 0 <= i < 512 -> only_page a m (wr64 (a + 8 * i) v m).
Proof. intros Hi. apply only_page_wr64; apply slot_in; done. Qed.

(** Trees and translations depend on the table's own pages only. *)
Lemma pt_wf_frame m m' T :
  (forall a, a ∈ tpages T -> page_same a m m') -> pt_wf m T -> pt_wf m' T.
Proof.
  intros Hs [H1 H2 H3 H3' H4 H5]. split; [done..|]. intros p a i Hp Hlen Hi.
  rewrite (page_same_rd64 a m); [by apply H5|apply Hs, elem_of_tpages; by exists p|apply slot_in..];
    done.
Qed.

Lemma leaf_frame m m' T va :
  (forall a, a ∈ tpages T -> page_same a m m') -> leaf m' T va = leaf m T va.
Proof.
  intros Hs. unfold leaf. destruct (T !! path va) as [b|] eqn:E; [|done].
  apply (page_same_rd64 b); [apply Hs, elem_of_tpages; by exists (path va)|apply slot_in..];
    apply PX_range.
Qed.

Lemma vm_inv_frame k ps T m :
  vm_inv k ps T -> (forall q, q ∈ tpages T ++ ps -> page_same q (k_mem k) m) ->
  vm_inv (set_mem m k) ps T.
Proof.
  intros [H1 H2 H3 H4 H5] Hs. split; [done..| | |done].
  - apply kmem_inv_frame; [done|]. intros q Hq. apply Hs, elem_of_app. by right.
  - eapply (pt_wf_frame (k_mem k)); [|done]. intros q Hq. apply Hs, elem_of_app. by left.
Qed.

Lemma vm_pages_ok k ps T : vm_inv k ps T -> Forall page_ok (tpages T ++ ps).
Proof.
  intros H. apply Forall_app. split; [apply (pt_pages _ _ (vi_pt _ _ _ H))|apply (vi_kmem _ _ _ H)].
Qed.

(** ** [walk] without allocation *)

(** When the level-0 page exists nothing is allocated. *)
Lemma walk_present k T root va b alloc :
  pt_wf (k_mem k) T -> T !! [] = Some root -> 0 <= va < MAXVA -> T !! path va = Some b ->
  walk root va alloc k = Ok (b + 8 * PX 0 va) k.
Proof.
  intros Hwf Hroot Hva Hb. unfold walk. destruct (MAXVA <=? va) eqn:E; [bprop; lia|].
  cbn [walk_loop]. unfold rd_pte. mrun. unfold path in Hb.
  destruct (pt_parent _ _ Hwf [PX 2 va] (PX 1 va) b Hb) as [c Hc].
  pose proof (pt_entry _ _ Hwf [] root (PX 2 va) Hroot ltac:(cbn; lia) (PX_range _ _)) as H2.
  pose proof (pt_entry _ _ Hwf [PX 2 va] c (PX 1 va) Hc ltac:(cbn; lia) (PX_range _ _)) as H1.
  cbn [app] in H1, H2. rewrite Hc in H2. rewrite Hb in H1.
  pose proof (pt_page_ok _ _ _ _ Hwf Hc). pose proof (pt_page_ok _ _ _ _ Hwf Hb).
  rewrite H2, pt_dir_valid, pt_dir_pa by done. mrun.
  by rewrite H1, pt_dir_valid, pt_dir_pa by done.
Qed.

Lemma walk_lookup k T root va :
  pt_wf (k_mem k) T -> T !! [] = Some root -> 0 <= va < MAXVA ->
  walk root va false k = Ok (pte_addr T va) k.
Proof.
  intros Hwf Hroot Hva. unfold pte_addr. destruct (T !! path va) as [b|] eqn:Ev;
    [by apply (walk_present k T)|].
  unfold walk. destruct (MAXVA <=? va) eqn:E; [bprop; lia|].
  cbn [walk_loop]. unfold rd_pte. mrun. unfold path in Ev.
  pose proof (pt_entry _ _ Hwf [] root (PX 2 va) Hroot ltac:(cbn; lia) (PX_range _ _)) as H2.
  cbn [app] in H2. destruct (T !! [PX 2 va]) as [b|] eqn:Eb; [|by rewrite H2].
  rewrite H2, pt_dir_valid, pt_dir_pa by (by eapply pt_page_ok). mrun.
  pose proof (pt_entry _ _ Hwf [PX 2 va] b (PX 1 va) Eb ltac:(cbn; lia) (PX_range _ _)) as H1.
  cbn [app] in H1. rewrite Ev in H1. by rewrite H1.
Qed.

Lemma pte_addr_read m T va :
  pte_addr T va <> 0 -> rd64 m (pte_addr T va) = leaf m T va.
Proof. unfold pte_addr, leaf. by destruct (T !! path va). Qed.

Lemma leaf_no_addr m T va : pt_wf m T -> pte_addr T va = 0 -> leaf m T va = 0.
Proof.
  intros Hwf. unfold pte_addr, leaf. destruct (T !! path va) as [b|] eqn:E; [|done].
  pose proof (page_ok_pos b (pt_page_ok _ _ _ _ Hwf E)). pose proof (PX_range 0 va). lia.
Qed.

(** [walkaddr] is the translation of user pages. *)
Lemma walkaddr_run k T root va :
  pt_wf (k_mem k) T -> T !! [] = Some root -> 0 <= va ->
  walkaddr root va k =
    Ok (let e := leaf (k_mem k) T va in
        if (va <? MAXVA) && pte_valid e && pte_user e then PTE2PA e else 0) k.
Proof.
  intros Hwf Hroot Hva. unfold walkaddr. destruct (MAXVA <=? va) eqn:E; bprop.
  { destruct (va <? MAXVA) eqn:E'; bprop; [lia|done]. }
  destruct (va <? MAXVA) eqn:E'; bprop; [|lia]. cbn [andb].
  erewrite run_bind by (by apply walk_lookup).
  destruct (pte_addr T va =? 0) eqn:Ea; bprop.
  - by rewrite (leaf_no_addr _ _ _ Hwf Ea).
  - unfold rd_pte. mrun. rewrite pte_addr_read by done. cbv zeta.
    destruct (pte_valid _); cbn [negb andb]; [|done]. by destruct (pte_user _).
Qed.

(** ** Growing the tree *)

(** A fresh zeroed page [q] hung below entry [i] of the page at [p]. *)
Lemma pt_wf_grow m T p a i q :
  pt_wf m T -> T !! p = Some a -> (length p < 2)%nat -> 0 <= i < 512 -> T !! (p ++ [i]) = None ->
  (p = [] -> i < 256) -> page_ok q -> q ∉ tpages T -> (forall x, q <= x < q + PGSIZE -> rd8 m x = 0) ->
  pt_wf (wr64 (a + 8 * i) (pt_dir q) m) (<[p ++ [i] := q]> T).
Proof.
  intros Hwf Hp Hlen Hi Hnone Hlow Hq Hnin Hz. pose proof Hwf as [H1 H2 H3 H3' H4 H5].
  assert (Ha : page_ok a) by (by eapply pt_page_ok).
  assert (Hqa : q <> a) by (intros ->; apply Hnin, elem_of_tpages; by exists p).
  assert (Hpq : p <> p ++ [i]) by (intros Heq%(f_equal length); rewrite length_app in Heq; cbn in Heq; lia).
  split.
  - rewrite tpages_insert by done. by constructor.
  - rewrite tpages_insert by done. by constructor.
  - intros p' a' [[<- <-]|[_ Hl]]%lookup_insert_Some; [|by eapply H3].
    rewrite length_app, Forall_app, Forall_singleton. destruct (H3 p a Hp). cbn. split_and!; [lia|done|lia..].
  - intros i' p' a' [[Heq _]|[_ Hl]]%lookup_insert_Some; [|by eapply H3'].
    destruct p as [|j p]; injection Heq as -> _; [by apply Hlow|by eapply (H3' i' p)].
  - intros p' i' b' [[Heq <-]|[_ Hl]]%lookup_insert_Some.
    + apply app_inj_tail in Heq as [-> ->]. rewrite lookup_insert_ne by done. by exists a.
    + destruct (H4 _ _ _ Hl) as [c Hc]. destruct (decide (p ++ [i] = p')) as [<-|]; [congruence|].
      rewrite lookup_insert_ne by done. by exists c.
  - intros p' a' i' Hl Hlen' Hi'.
    destruct (decide (p ++ [i] = p')) as [<-|Hne].
    + rewrite lookup_insert_eq in Hl. injection Hl as <-.
      rewrite lookup_insert_ne
        by (intros Heq%(f_equal length); rewrite !length_app in Heq; cbn in Heq; lia).
      assert (HT : T !! ((p ++ [i]) ++ [i']) = None).
      { destruct (T !! ((p ++ [i]) ++ [i'])) eqn:E; [|done]. destruct (H4 _ _ _ E). congruence. }
      rewrite HT, rd64_zero; [done|]. intros x Hx. pose proof (slot_in q i' Hi').
      rewrite rd8_wr64_out; [apply Hz; lia|]. pose proof (slot_in a i Hi).
      destruct (pages_disjoint q a); [done..|lia|lia].
    + rewrite lookup_insert_ne in Hl by done. specialize (H5 p' a' i' Hl Hlen' Hi').
      destruct (decide (p = p')) as [<-|Hne'].
      * assert (a' = a) as -> by congruence. destruct (decide (i = i')) as [<-|Hii].
        -- rewrite lookup_insert_eq, rd64_wr64_same. by apply pt_dir_u64.
        -- rewrite lookup_insert_ne by (intros [_ ?]%app_inj_tail; done).
           rewrite rd64_wr64_disjoint by (by apply slots_disjoint). exact H5.
      * rewrite lookup_insert_ne by (intros [? _]%app_inj_tail; done).
        assert (Haa : a <> a') by (intros <-; apply Hne'; by eapply (tpages_inj T)).
        rewrite (only_page_rd64 a m); [done|by apply only_page_slot|].
        destruct (pages_disjoint a a'); [done|by eapply (pt_page_ok m)|done|..];
          pose proof (slot_in a' i' Hi'); lia.
Qed.

Lemma leaf_grow m T p a i q va :
  pt_wf m T -> T !! p = Some a -> (length p < 2)%nat -> 0 <= i < 512 -> T !! (p ++ [i]) = None ->
  page_ok q -> q ∉ tpages T -> (forall x, q <= x < q + PGSIZE -> rd8 m x = 0) ->
  leaf (wr64 (a + 8 * i) (pt_dir q) m) (<[p ++ [i] := q]> T) va = leaf m T va.
Proof.
  intros Hwf Hp Hlen Hi Hnone Hq Hnin Hz. unfold leaf.
  assert (Ha : page_ok a) by (by eapply pt_page_ok).
  assert (Hqa : q <> a) by (intros ->; apply Hnin, elem_of_tpages; by exists p).
  pose proof (PX_range 0 va) as H0. pose proof (slot_in a i Hi).
  destruct (decide (p ++ [i] = path va)) as [<-|Hne].
  - rewrite lookup_insert_eq, Hnone. apply rd64_zero. intros x Hx.
    pose proof (slot_in q _ H0). rewrite rd8_wr64_out; [apply Hz; lia|].
    destruct (pages_disjoint q a); [done..|lia|lia].
  - rewrite lookup_insert_ne by done. destruct (T !! path va) as [b|] eqn:Eb; [|done].
    assert (Hab : a <> b).
    { intros <-. assert (p = path va) as -> by (eapply (tpages_inj T); [apply Hwf|done..]). cbn in Hlen. lia. }
    apply (only_page_rd64 a); [by apply only_page_slot|]. pose proof (slot_in b _ H0).
    destruct (pages_disjoint a b); [done|by eapply (pt_page_ok m)|done|lia|lia].
Qed.

(** What an operation on the tree that only adds page-table pages does. *)
Record vm_ext (k : kernel) ps T (k' : kernel) ps' T' : Prop := {
  ve_inv : vm_inv k' ps' T';
  ve_only : mem_only k k';
  ve_sub : T ⊆ T';
  ve_perm : tpages T' ++ ps' ≡ₚ tpages T ++ ps;
  ve_out : outside (tpages T ++ ps) (k_mem k) (k_mem k')
}.

Lemma vm_ext_refl k ps T : vm_inv k ps T -> vm_ext k ps T k ps T.
Proof. by split; eauto with krun. Qed.

Lemma vm_ext_trans k1 ps1 T1 k2 ps2 T2 k3 ps3 T3 :
  vm_ext k1 ps1 T1 k2 ps2 T2 -> vm_ext k2 ps2 T2 k3 ps3 T3 -> vm_ext k1 ps1 T1 k3 ps3 T3.
Proof.
  intros [A1 A2 A3 A4 A5] [B1 B2 B3 B4 B5]. split; [done|..].
  - by eapply mem_only_trans.
  - by etransitivity.
  - by rewrite B4.
  - eapply outside_trans; [done|]. eapply outside_mono; [|done]. intros q. by rewrite A4.
Qed.

(** Taking the page [q] from the free list and hanging it into the tree. *)
Definition grown (a i q : Z) (k : kernel) : kernel :=
  let m := memset q 0 PGSIZE (k_mem (kalloc_state q k)) in
  set_mem (wr64 (a + 8 * i) (pt_dir q) m) (kalloc_state q k).

Lemma page_zero q m : forall x, q <= x < q + PGSIZE -> rd8 (memset q 0 PGSIZE m) x = 0.
Proof.
  intros x Hx. rewrite memset_spec by (unfold PGSIZE; lia).
  pose proof (rd8_wr_bytes_in (replicate (Z.to_nat PGSIZE) 0) m q (Z.to_nat (x - q)) 0) as H.
  rewrite Z2Nat.id in H by lia. replace (q + (x - q)) with x in H by lia. apply H.
  apply lookup_replicate. split; [done|]. unfold PGSIZE in *. lia.
Qed.

Lemma vm_ext_grow k q ps T p a i :
  vm_inv k (q :: ps) T -> T !! p = Some a -> (length p < 2)%nat -> 0 <= i < 512 ->
  (p = [] -> i < 256) -> T !! (p ++ [i]) = None ->
  vm_ext k (q :: ps) T (grown a i q k) ps (<[p ++ [i] := q]> T) /\
  (forall va, leaf (k_mem (grown a i q k)) (<[p ++ [i] := q]> T) va = leaf (k_mem k) T va).
Proof.
  intros [Hirq Hl Hk Hpt Hnd] Hp Hlen Hi Hlow Hnone.
  assert (Hq : page_ok q) by (by destruct Hk as (_ & [? _]%Forall_cons & _)).
  apply NoDup_app in Hnd as (Hnd & Hdis & Hnd').
  assert (Hnin : q ∉ tpages T) by (intros Hin; by apply (Hdis q Hin), elem_of_cons; left).
  set (m0 := k_mem (kalloc_state q k)). set (m1 := memset q 0 PGSIZE m0).
  assert (Hm1 : only_page q (k_mem k) m1).
  { eapply only_page_trans; [apply (kalloc_state_only q k)|apply only_page_memset]. }
  assert (Hs1 : forall b, b ∈ tpages T -> page_same b (k_mem k) m1).
  { intros b Hb. eapply only_page_same; [done..| |].
    - by apply elem_of_tpages in Hb as [pb ?]; eapply pt_page_ok.
    - by intros ->. }
  assert (Hwf1 : pt_wf m1 T) by (by eapply pt_wf_frame).
  assert (Ha : page_ok a) by (by eapply pt_page_ok).
  assert (Hain : a ∈ tpages T) by (apply elem_of_tpages; by exists p).
  assert (Hps : Forall page_ok ps) by (by destruct Hk as (_ & [_ ?]%Forall_cons & _)).
  split; [split|].
  - split; [done..| | |].
    + apply (kmem_inv_frame (kalloc_state q k)); [by apply kalloc_inv|]. intros r Hr.
      rewrite Forall_forall in Hps. apply NoDup_cons in Hnd' as [Hqr _].
      eapply page_same_trans.
      * apply (only_page_same q r m0 m1); [apply only_page_memset|done|by apply Hps|by intros ->].
      * apply (only_page_same a r); [by apply only_page_slot|done|by apply Hps|].
        intros ->. apply (Hdis r Hain), elem_of_cons. by right.
    + by apply pt_wf_grow; [..|apply page_zero].
    + rewrite tpages_insert by done. cbn. rewrite Permutation_middle. apply NoDup_app. split_and!; [done|done|done].
  - done.
  - by apply insert_subseteq.
  - rewrite tpages_insert by done. cbn. by rewrite Permutation_middle.
  - eapply outside_trans.
    + eapply (only_page_outside q); [apply elem_of_app; right; left|exact Hm1].
    + eapply (only_page_outside a); [apply elem_of_app; by left|by apply only_page_slot].
  - intros va. change (leaf (wr64 (a + 8 * i) (pt_dir q) m1) (<[p ++ [i]:=q]> T) va = leaf (k_mem k) T va).
    rewrite leaf_grow by (done || apply page_zero). by apply leaf_frame.
Qed.

(** ** [walk] with allocation *)

Lemma walk_loop_alloc levels : forall k ps T p a va,
  vm_inv k ps T -> T !! p = Some a -> (length p + length levels = 2)%nat ->
  (forall l rest, p = [] -> levels = l :: rest -> PX l va < 256) ->
  wp (walk_loop levels a va true) (fun r k' => exists ps' T',
    vm_ext k ps T k' ps' T' /\
    (forall va', leaf (k_mem k') T' va' = leaf (k_mem k) T va') /\
    ((r = 0 /\ ps' = [] /\ (length (tpages T') < length (tpages T) + length levels)%nat) \/
     (exists b, T' !! (p ++ ((fun l => PX l va) <$> levels)) = Some b /\ r = b + 8 * PX 0 va) /\
     (length (tpages T') <= length (tpages T) + length levels)%nat)) k.
Proof.
  induction levels as [|level levels IH]; intros k ps T p a va Hv Hp Hlen Hlow; cbn [walk_loop].
  { apply wp_ret. exists ps, T. split_and!; [by apply vm_ext_refl|done|]. right. split; [|lia]. exists a.
    cbn. by rewrite app_nil_r. }
  cbn in Hlen. apply wp_bind, wp_gets. set (i := PX level va).
  pose proof (PX_range level va : 0 <= i < 512) as Hi.
  pose proof (pt_entry _ _ (vi_pt _ _ _ Hv) p a i Hp ltac:(lia) Hi) as He.
  destruct (T !! (p ++ [i])) as [b|] eqn:Eb.
  - pose proof (pt_page_ok _ _ _ _ (vi_pt _ _ _ Hv) Eb) as Hb.
    rewrite He, pt_dir_valid, pt_dir_pa by done.
    eapply wp_mono; [apply (IH k ps T (p ++ [i])); [done..|rewrite length_app; cbn; lia|by destruct p]|].
    intros r k' (ps' & T' & He' & Hlf & Hr). exists ps', T'. split_and!; [done..|].
    rewrite <- app_assoc in Hr. cbn [length fmap list_fmap app] in *.
    destruct Hr as [(? & ? & ?)|[? ?]]; [left|right]; split_and!; (done || lia).
  - rewrite He. cbn [negb]. apply wp_bind. destruct ps as [|q ps].
    { eapply wp_Ok; [apply kalloc_empty; apply Hv|]. cbn [Z.eqb]. apply wp_ret.
      exists [], T. split_and!; [by apply vm_ext_refl|done|left; cbn; split_and!; (done || lia)]. }
    assert (Hq : page_ok q) by (by destruct (vi_kmem _ _ _ Hv) as (_ & [? _]%Forall_cons & _)).
    eapply wp_Ok; [eapply kalloc_run; apply Hv|].
    destruct (q =? 0) eqn:E0; bprop; [pose proof (page_ok_pos q Hq); lia|].
    apply wp_bind, wp_modify, wp_bind, wp_modify.
    destruct (vm_ext_grow k q ps T p a i Hv Hp ltac:(lia) Hi (fun H => Hlow _ _ H eq_refl) Eb) as [Hext Hlf].
    eapply wp_mono.
    + apply (IH (grown a i q k) ps (<[p ++ [i] := q]> T) (p ++ [i]) q va);
        [apply Hext|apply lookup_insert_eq|rewrite length_app; cbn; lia|by destruct p].
    + intros r k' (ps' & T' & He' & Hlf' & Hr). exists ps', T'. split_and!.
      * by eapply vm_ext_trans.
      * intros va'. by rewrite Hlf'.
      * rewrite <- app_assoc in Hr. pose proof (tpages_insert T (p ++ [i]) q Eb) as Hlen'.
        apply Permutation_length in Hlen'. cbn [length fmap list_fmap app] in *.
        destruct Hr as [(? & ? & ?)|[? ?]]; [left|right]; split_and!; (done || lia).
Qed.

Lemma walk_alloc k ps T root va :
  vm_inv k ps T -> T !! [] = Some root -> 0 <= va < MAXVA ->
  wp (walk root va true) (fun r k' => exists ps' T',
    vm_ext k ps T k' ps' T' /\
    (forall va', leaf (k_mem k') T' va' = leaf (k_mem k) T va') /\
    ((r = 0 /\ ps' = [] /\ (length (tpages T') < length (tpages T) + 2)%nat) \/
     (exists b, T' !! path va = Some b /\ r = b + 8 * PX 0 va) /\
     (length (tpages T') <= length (tpages T) + 2)%nat)) k.
Proof.
  intros Hv Hroot Hva. unfold walk. destruct (MAXVA <=? va) eqn:E; bprop; [lia|].
  apply (walk_loop_alloc [2; 1] k ps T []); [done..|]. intros l rest _ [= <- _].
  rewrite PX_eq by lia. change (2 ^ (12 + 9 * 2)) with 1073741824. vlia.
Qed.
End tree.
