(* ===== verification/Mapping.v ===== *)
(** * [mappages], [uvmunmap] and [freewalk] on the page-table tree

    Each operation is related to its effect on the translation function
    [leaf] and on the ownership of pages: which pages the tree, the free list
    and the caller hold. *)

From S2P Require Export PageTable.

(** The entry [mappages] stores. *)
Definition mkpte (pa perm : Z) : Z := Z.lor (Z.lor (PA2PTE pa) perm) PTE_V.

(** The translation [f] with [n] pages mapped from [a] on to memory at [pa]. *)
Definition map_pages (f : Z -> Z) (a n pa perm : Z) (va : Z) : Z :=
  if (a <=? va) && (va <? a + n * PGSIZE) then mkpte (pa + (va - a) / PGSIZE * PGSIZE) perm
  else f va.

(** The translation [f] with [n] pages from [a] on unmapped. *)
Definition unmap_pages (f : Z -> Z) (a n : Z) (va : Z) : Z :=
  if (a <=? va) && (va <? a + n * PGSIZE) then 0 else f va.

Section mapping.
Context {LY : Layout}.

Lemma mkpte_flags pa perm : mkpte pa perm = Z.lor (PA2PTE pa) (Z.lor perm PTE_V).
Proof. unfold mkpte. by rewrite Z.lor_assoc. Qed.

Lemma lor_flags perm : 0 <= perm < 1024 -> 0 <= Z.lor perm PTE_V < 1024.
Proof.
  intros H. split; [apply Z.lor_nonneg; split; [lia|done]|].
  destruct (decide (Z.lor perm PTE_V = 0)) as [->|Hn]; [lia|].
  assert (0 <= Z.lor perm PTE_V) by (apply Z.lor_nonneg; split; [lia|done]).
  apply (Z.log2_lt_pow2 _ 10); [lia|]. rewrite Z.log2_lor by (lia || done).
  apply Z.max_lub_lt; [|done]. destruct (decide (perm = 0)) as [->|]; [done|].
  apply Z.log2_lt_pow2; cbn; lia.
Qed.

Lemma mkpte_valid pa perm : pa_ok pa -> 0 <= perm < 1024 -> pte_valid (mkpte pa perm) = true.
Proof.
  intros Hp Hf. rewrite mkpte_flags, pte_valid_pack by (done || by apply lor_flags).
  rewrite <- Z.bit0_odd, Z.lor_spec. apply orb_true_r.
Qed.

Lemma mkpte_pa pa perm : pa_ok pa -> 0 <= perm < 1024 -> PTE2PA (mkpte pa perm) = pa.
Proof. intros Hp Hf. rewrite mkpte_flags. apply PTE2PA_pack; [done|by apply lor_flags]. Qed.

Lemma mkpte_PTE_FLAGS pa perm :
  pa_ok pa -> 0 <= perm < 1024 -> PTE_FLAGS (mkpte pa perm) = Z.lor perm PTE_V.
Proof. intros Hp Hf. rewrite mkpte_flags. apply PTE_FLAGS_pack; [done|by apply lor_flags]. Qed.

Lemma mkpte_u64 pa perm : pa_ok pa -> 0 <= perm < 1024 -> u64 (mkpte pa perm) = mkpte pa perm.
Proof.
  intros Hp Hf. apply u64_id. pose proof (lor_flags perm Hf).
  rewrite mkpte_flags, pte_pack by done. destruct Hp. zlia.
Qed.

(** ** Writing a level-0 entry *)

Lemma pt_wf_set_leaf m T va b e :
  pt_wf m T -> T !! path va = Some b -> pt_wf (wr64 (b + 8 * PX 0 va) e m) T.
Proof.
  intros Hwf Hb. pose proof Hwf as [H1 H2 H3 H3' H4 H5]. split; [done..|].
  intros p a i Hp Hlen Hi. pose proof (PX_range 0 va) as H0.
  rewrite (only_page_rd64 b m); [by apply H5|by apply only_page_slot|].
  assert (Hab : b <> a).
  { intros <-. assert (p = path va) as -> by (by eapply (tpages_inj T)). cbn in Hlen. lia. }
  pose proof (slot_in a i Hi).
  destruct (pages_disjoint b a); [by eapply (pt_page_ok m)..|done|lia|lia].
Qed.

Lemma leaf_set m T va b e va' :
  pt_wf m T -> T !! path va = Some b -> 0 <= va < MAXVA -> 0 <= va' < MAXVA ->
  leaf (wr64 (b + 8 * PX 0 va) e m) T va' =
    if decide (va / 4096 = va' / 4096) then u64 e else leaf m T va'.
Proof.
  intros Hwf Hb Hva Hva'. unfold leaf. case_decide as Heq.
  - assert (path va' = path va /\ PX 0 va' = PX 0 va) as [-> ->].
    { unfold path. rewrite !PX_eq by lia. change (2 ^ (12 + 9 * 2)) with (4096 * 512 * 512).
      change (2 ^ (12 + 9 * 1)) with (4096 * 512). change (2 ^ (12 + 9 * 0)) with 4096.
      rewrite <- !Z.div_div by lia. by rewrite Heq. }
    rewrite Hb. apply rd64_wr64_same.
  - destruct (T !! path va') as [b'|] eqn:Eb; [|done].
    pose proof (PX_range 0 va) as H0. pose proof (PX_range 0 va') as H0'.
    destruct (decide (b = b')) as [<-|Hne].
    + assert (Hpp : path va = path va') by (eapply (tpages_inj T); [apply Hwf|done..]).
      injection Hpp as E2 E1.
      apply rd64_wr64_disjoint, slots_disjoint. intros E0. apply Heq. by apply PX_inj.
    + apply (only_page_rd64 b); [by apply only_page_slot|]. pose proof (slot_in b' _ H0').
      destruct (pages_disjoint b b'); [by eapply (pt_page_ok m)..|done|lia|lia].
Qed.

Lemma vm_inv_set_leaf k ps T va b e :
  vm_inv k ps T -> T !! path va = Some b ->
  vm_ext k ps T (set_mem (wr64 (b + 8 * PX 0 va) e (k_mem k)) k) ps T.
Proof.
  intros [H1 H2 H3 H4 H5] Hb. pose proof (PX_range 0 va) as H0.
  assert (Hbin : b ∈ tpages T) by (apply elem_of_tpages; by eexists).
  pose proof (only_page_slot b (PX 0 va) e (k_mem k) H0) as Ho.
  split; [|done|done|done|].
  - split; [done..| |by apply pt_wf_set_leaf|done]. apply kmem_inv_frame; [done|].
    intros q Hq. destruct H3 as (_ & Hps & _). rewrite Forall_forall in Hps.
    apply (only_page_same b q); [done|by eapply (pt_page_ok (k_mem k))|by apply Hps|].
    intros <-. apply NoDup_app in H5 as (_ & Hd & _). by apply (Hd b).
  - cbn. eapply only_page_outside; [|exact Ho]. apply elem_of_app. by left.
Qed.

(** ** [mappages] *)

Lemma map_pages_0 f a pa perm va : map_pages f a 0 pa perm va = f va.
Proof.
  unfold map_pages. destruct (a <=? va) eqn:E1; cbn; [|done].
  destruct (va <? a + 0 * PGSIZE) eqn:E2; [|done]. bprop. lia.
Qed.

Lemma map_pages_ext f g a n pa perm va :
  f va = g va -> map_pages f a n pa perm va = map_pages g a n pa perm va.
Proof. unfold map_pages. by intros ->. Qed.

(** Mapping the first page and then the others. *)
Lemma map_pages_step f a n pa perm va :
  a mod 4096 = 0 -> 0 <= n ->
  map_pages (map_pages f a 1 pa perm) (a + PGSIZE) n (pa + PGSIZE) perm va =
  map_pages f a (n + 1) pa perm va.
Proof.
  intros Ha Hn. unfold map_pages. change PGSIZE with 4096.
  repeat match goal with |- context [?x <=? ?y] => destruct (Z.leb_spec x y)
    | |- context [?x <? ?y] => destruct (Z.ltb_spec x y) end; cbn [andb]; try lia; try done.
  - f_equal. zlia.
Qed.

Lemma mappages_round k ps T root a pa last perm :
  vm_inv k ps T -> T !! [] = Some root -> a mod 4096 = 0 -> 0 <= a < MAXVA ->
  pa_ok pa -> 0 <= perm < 1024 -> pte_valid (leaf (k_mem k) T a) = false ->
  wp (mappages_body root last perm (a, pa)) (fun x k' => exists ps' T',
    vm_ext k ps T k' ps' T' /\
    ((x = inr (-1) /\ ps' = [] /\ (forall va, leaf (k_mem k') T' va = leaf (k_mem k) T va) /\
      (length (tpages T') < length (tpages T) + 2)%nat) \/
     ((length (tpages T') <= length (tpages T) + 2)%nat /\
      x = (if a =? last then inr 0 else inl (u64 (a + PGSIZE), u64 (pa + PGSIZE))) /\
      forall va, 0 <= va < MAXVA ->
        leaf (k_mem k') T' va = map_pages (leaf (k_mem k) T) a 1 pa perm va))) k.
Proof.
  intros Hv Hroot Ha Ha0 Hpa Hperm Hfree. cbn [mappages_body]. apply wp_bind.
  eapply wp_mono; [by apply walk_alloc|]. intros r k1 (ps1 & T1 & Hext & Hlf & Hr).
  destruct Hr as [(-> & -> & Hcnt)|[(b & Hb & ->) Hcnt]].
  { apply wp_ret. exists [], T1. split; [done|]. by left. }
  pose proof (ve_inv _ _ _ _ _ _ Hext) as Hv1.
  pose proof (page_ok_pos b (pt_page_ok _ _ _ _ (vi_pt _ _ _ Hv1) Hb)).
  pose proof (PX_range 0 a) as H0.
  destruct (b + 8 * PX 0 a =? 0) eqn:E; bprop; [lia|].
  apply wp_bind, wp_gets. replace (rd64 (k_mem k1) _) with (leaf (k_mem k1) T1 a)
    by (unfold leaf; by rewrite Hb).
  rewrite Hlf, Hfree. apply wp_bind, wp_modify. fold (mkpte pa perm).
  pose proof (vm_inv_set_leaf k1 ps1 T1 a b (mkpte pa perm) Hv1 Hb) as Hext2.
  set (k2 := set_mem _ k1) in *.
  assert (HQ : exists ps' T', vm_ext k ps T k2 ps' T' /\
      (length (tpages T') <= length (tpages T) + 2)%nat /\ forall va, 0 <= va < MAXVA ->
      leaf (k_mem k2) T' va = map_pages (leaf (k_mem k) T) a 1 pa perm va).
  { exists ps1, T1. split_and!; [by eapply vm_ext_trans|done|]. intros va Hva. subst k2. cbn [k_mem set_mem].
    rewrite leaf_set by (done || apply Hv1). rewrite mkpte_u64, Hlf by done.
    unfold map_pages. change PGSIZE with 4096. case_decide.
    - replace (_ && _) with true by (symmetry; apply andb_true_iff; split; [apply Z.leb_le|apply Z.ltb_lt]; zlia).
      f_equal. zlia.
    - destruct (_ && _) eqn:Eb; [bprop; zlia|done]. }
  destruct HQ as (ps2 & T2 & HQ1 & HQ2 & HQ3).
  destruct (a =? last) eqn:El; apply wp_ret; exists ps2, T2; (split; [done|]); right; done.
Qed.

Lemma mappages_loop n : forall k ps T root a pa last perm,
  vm_inv k ps T -> T !! [] = Some root -> a mod 4096 = 0 -> 0 <= a ->
  last = a + Z.of_nat n * PGSIZE -> last < MAXVA ->
  pa mod 4096 = 0 -> 0 <= pa -> pa + Z.of_nat n * PGSIZE < 2 ^ 56 -> 0 <= perm < 1024 ->
  (forall va, a <= va < last + PGSIZE -> pte_valid (leaf (k_mem k) T va) = false) ->
  wp (loop_with (S n) (a, pa) (mappages_body root last perm)) (fun r k' => exists ps' T' j,
    vm_ext k ps T k' ps' T' /\
    (r = 0 /\ j = Z.of_nat n + 1 /\ (length (tpages T') <= length (tpages T) + 2 * (n + 1))%nat \/
     r = -1 /\ ps' = [] /\ 0 <= j <= Z.of_nat n /\
     (length (tpages T') < length (tpages T) + 2 * (n + 1))%nat) /\
    (forall va, 0 <= va < MAXVA ->
       leaf (k_mem k') T' va = map_pages (leaf (k_mem k) T) a j pa perm va)) k.
Proof.
  induction n as [|n IH]; intros k ps T root a pa last perm Hv Hroot Ha Ha0 Hlast Hmax Hpa Hpa0
    Hpal Hperm Hfree; apply wp_loop_S;
    (eapply wp_mono;
     [apply (mappages_round k ps T root a pa last perm); try done;
       [change PGSIZE with 4096 in *; lia|split; [done|change PGSIZE with 4096 in *; lia]
       |apply Hfree; change PGSIZE with 4096 in *; lia]|]);
    intros x k' (ps' & T' & Hext & [(-> & -> & Hlf & Hcnt)|(Hcnt & -> & Hlf)]).
  - exists [], T', 0. split_and!; [done|right; split_and!; (done || lia)|]. intros va Hva. by rewrite Hlf, map_pages_0.
  - replace (a =? last) with true by (symmetry; apply Z.eqb_eq; lia).
    exists ps', T', 1. split_and!; [done|left; split_and!; lia|done].
  - exists [], T', 0. split_and!; [done|right; split_and!; (done || lia)|]. intros va Hva. by rewrite Hlf, map_pages_0.
  - change PGSIZE with 4096 in *. change MAXVA with 274877906944 in *.
    replace (a =? last) with false by (symmetry; apply Z.eqb_neq; lia).
    rewrite !u64_id by lia.
    eapply wp_mono; [apply (IH k' ps' T' root (a + 4096) (pa + 4096) last perm); try lia|].
    + apply Hext.
    + eapply lookup_weaken; [done|apply Hext].
    + zlia.
    + zlia.
    + intros va Hva. rewrite Hlf by (clear Hpa; zlia). unfold map_pages. change PGSIZE with 4096.
      destruct (_ && _) eqn:Eb; [bprop; lia|]. apply Hfree. lia.
    + intros r k'' (ps'' & T'' & j & Hext' & Hr & Hlf'). exists ps'', T'', (j + 1). split_and!.
      * by eapply vm_ext_trans.
      * destruct Hr as [(-> & -> & ?)|(-> & -> & Hj & ?)]; [left|right]; split_and!; (done || lia).
      * intros va Hva. rewrite Hlf', <- (map_pages_step _ a j) by (done || lia).
        apply map_pages_ext. by apply Hlf.
Qed.

(** The effect of [mappages] on an aligned, unmapped range: it returns 0 with
    the range mapped, or, when no page is left for the tree, -1 with a proper
    prefix of it mapped. *)
Lemma mappages_run k ps T root va size pa perm :
  vm_inv k ps T -> T !! [] = Some root ->
  va mod 4096 = 0 -> size mod 4096 = 0 -> 0 <= va -> 0 < size -> va + size <= MAXVA ->
  pa mod 4096 = 0 -> 0 <= pa -> pa + size <= 2 ^ 56 -> 0 <= perm < 1024 ->
  (forall x, va <= x < va + size -> pte_valid (leaf (k_mem k) T x) = false) ->
  wp (mappages root va size pa perm) (fun r k' => exists ps' T' j,
    vm_ext k ps T k' ps' T' /\
    (r = 0 /\ j = size / 4096 /\
       Z.of_nat (length (tpages T')) <= Z.of_nat (length (tpages T)) + 2 * (size / 4096) \/
     r = -1 /\ ps' = [] /\ 0 <= j < size / 4096 /\
       Z.of_nat (length (tpages T')) < Z.of_nat (length (tpages T)) + 2 * (size / 4096)) /\
    (forall x, 0 <= x < MAXVA ->
       leaf (k_mem k') T' x = map_pages (leaf (k_mem k) T) va j pa perm x)) k.
Proof.
  intros Hv Hroot Ha Hs Ha0 Hs0 Hmax Hpa Hpa0 Hpal Hperm Hfree. unfold mappages.
  change MAXVA with 274877906944 in *.
  rewrite (PGROUNDDOWN_eq va), (PGROUNDDOWN_eq (u64 _)) by (lia || apply u64_range).
  rewrite u64_id by lia. replace (va / 4096 * 4096) with va by zlia.
  assert (El : (va + size - 1) / 4096 * 4096 = va + (size / 4096 - 1) * 4096) by zlia.
  rewrite El. unfold mappages_fuel. change PGSIZE with 4096.
  destruct (va <=? _) eqn:E; bprop; [|zlia].
  replace ((va + (size / 4096 - 1) * 4096 - va) / 4096) with (size / 4096 - 1) by zlia.
  eapply wp_mono; [apply (mappages_loop (Z.to_nat (size / 4096 - 1)) k ps T root va pa); try done|].
  1-3: change PGSIZE with 4096; change MAXVA with 274877906944; rewrite ?Z2Nat.id by zlia; zlia.
  - intros x Hx. change PGSIZE with 4096 in Hx. apply Hfree. zlia.
  - intros r k' (ps' & T' & j & Hext & Hr & Hlf). exists ps', T', j. split_and!; [done| |done].
    rewrite Z2Nat.id in Hr by zlia.
    destruct Hr as [(-> & -> & ?)|(-> & -> & Hj & ?)]; [left|right]; split_and!; (done || zlia).
Qed.

(** A page that is mapped already is not mapped again. *)
Lemma mappages_remap k T root va size pa perm :
  pt_wf (k_mem k) T -> T !! [] = Some root -> va mod 4096 = 0 -> 0 <= va < MAXVA ->
  pte_valid (leaf (k_mem k) T va) = true ->
  mappages root va size pa perm k = Panic "remap".
Proof.
  intros Hv Hroot Ha Ha0 Hval. unfold mappages. rewrite (PGROUNDDOWN_eq va) by vlia.
  replace (va / 4096 * 4096) with va by zlia.
  assert (Hf : exists n, mappages_fuel va (PGROUNDDOWN (u64 (va + size - 1))) = S n)
    by (unfold mappages_fuel; destruct (_ <=? _); eauto).
  destruct Hf as [n ->]. cbn [loop_with mappages_body]. rewrite bind_assoc.
  unfold leaf in Hval. destruct (T !! path va) as [b|] eqn:Hb; [|done].
  erewrite run_bind by (by apply (walk_present k T)).
  pose proof (page_ok_pos b (pt_page_ok _ _ _ _ Hv Hb)).
  pose proof (PX_range 0 va). destruct (b + 8 * PX 0 va =? 0) eqn:E; bprop; [lia|].
  unfold rd_pte. mrun. by rewrite Hval.
Qed.

(** ** Taking and returning pages beside a table *)

Definition kfree_state (p : Z) (k : kernel) : kernel := set_freelist p (set_mem (kfree_mem p k) k).

Lemma tpages_ok m T a : pt_wf m T -> a ∈ tpages T -> page_ok a.
Proof. intros Hwf [p Hp]%elem_of_tpages. by eapply pt_page_ok. Qed.

Lemma vm_kfree k ps T p :
  vm_inv k ps T -> page_ok p -> p ∉ (tpages T ++ ps) ->
  kfree p k = Ok tt (kfree_state p k) /\ vm_inv (kfree_state p k) (p :: ps) T /\
  (forall va, leaf (k_mem (kfree_state p k)) T va = leaf (k_mem k) T va).
Proof.
  intros [H1 H2 H3 H4 H5] Hp Hnin. rewrite elem_of_app in Hnin.
  assert (Hs : forall a, a ∈ tpages T -> page_same a (k_mem k) (k_mem (kfree_state p k))).
  { intros a Ha. apply (only_page_same p a); [apply kfree_mem_only|done|by eapply tpages_ok|].
    intros ->. tauto. }
  split_and!; [by apply kfree_run|split; [done..| | |]|intros va; by apply leaf_frame].
  - apply kfree_inv; tauto.
  - by eapply pt_wf_frame.
  - rewrite <- Permutation_middle. apply NoDup_cons. split; [by rewrite elem_of_app|done].
Qed.

Lemma vm_kalloc k ps T p :
  vm_inv k (p :: ps) T ->
  kalloc k = Ok p (kalloc_state p k) /\ vm_inv (kalloc_state p k) ps T /\ page_ok p /\
  ~ p ∈ (tpages T ++ ps) /\
  (forall va, leaf (k_mem (kalloc_state p k)) T va = leaf (k_mem k) T va).
Proof.
  intros Hv. pose proof Hv as [H1 H2 H3 H4 H5]. rewrite <- Permutation_middle in H5.
  apply NoDup_cons in H5 as [Hnin Hnd].
  assert (Hp : page_ok p) by (by destruct H3 as (_ & [? _]%Forall_cons & _)).
  assert (Hs : forall a, a ∈ tpages T -> page_same a (k_mem k) (k_mem (kalloc_state p k))).
  { intros a Ha. apply (only_page_same p a); [apply kalloc_state_only|done|by eapply tpages_ok|].
    intros ->. apply Hnin, elem_of_app. by left. }
  split_and!; [by eapply kalloc_run|split; [done..| | |done]|done|done|intros va; by apply leaf_frame].
  - by apply kalloc_inv.
  - by eapply pt_wf_frame.
Qed.

(** ** [uvmunmap] *)

(** [va] is mapped by a leaf entry to the page [pa]. *)
Definition maps_to (m : gmap Z Z) (T : ptree) (va pa : Z) : Prop :=
  pte_valid (leaf m T va) = true /\ PTE_FLAGS (leaf m T va) <> PTE_V /\ PTE2PA (leaf m T va) = pa.

Lemma unmap_pages_0 f a va : unmap_pages f a 0 va = f va.
Proof.
  unfold unmap_pages. destruct (a <=? va) eqn:E1; cbn; [|done].
  destruct (va <? a + 0 * PGSIZE) eqn:E2; [|done]. bprop. lia.
Qed.

Lemma unmap_pages_ext f g a n va : f va = g va -> unmap_pages f a n va = unmap_pages g a n va.
Proof. unfold unmap_pages. by intros ->. Qed.

Lemma unmap_pages_step f a n va :
  0 <= n -> unmap_pages (unmap_pages f a 1) (a + PGSIZE) n va = unmap_pages f a (n + 1) va.
Proof.
  intros Hn. unfold unmap_pages. change PGSIZE with 4096.
  repeat match goal with |- context [?x <=? ?y] => destruct (Z.leb_spec x y)
    | |- context [?x <? ?y] => destruct (Z.ltb_spec x y) end; cbn [andb]; try lia; done.
Qed.

(** A table and the pages [pas] beside it, with the memory that changed. *)
Record vm_trim (k : kernel) (T : ptree) (pas : list Z) (k' : kernel) (ps' : list Z) : Prop := {
  vt_inv : vm_inv k' ps' T;
  vt_only : mem_only k k';
  vt_out : outside (tpages T ++ pas) (k_mem k) (k_mem k')
}.

Lemma leaf_clear k ps T va b va' :
  vm_inv k ps T -> T !! path va = Some b -> va mod 4096 = 0 -> 0 <= va < MAXVA -> 0 <= va' < MAXVA ->
  leaf (wr64 (b + 8 * PX 0 va) 0 (k_mem k)) T va' = unmap_pages (leaf (k_mem k) T) va 1 va'.
Proof.
  intros Hv Hb Ha Hva Hva'. rewrite leaf_set by (done || apply Hv). unfold unmap_pages.
  change PGSIZE with 4096. change (u64 0) with 0. case_decide.
  - replace (_ && _) with true; [done|].
    symmetry; apply andb_true_iff; split; [apply Z.leb_le|apply Z.ltb_lt]; zlia.
  - destruct (_ && _) eqn:Eb; [bprop; zlia|done].
Qed.

Lemma uvmunmap_round k ps T root a pa last do_free :
  vm_inv k ps T -> T !! [] = Some root -> a mod 4096 = 0 -> 0 <= a < MAXVA -> a < last ->
  maps_to (k_mem k) T a pa ->
  (do_free = true -> page_ok pa /\ pa ∉ (tpages T ++ ps)) ->
  wp (uvmunmap_body root last do_free a) (fun x k' => x = inl (u64 (a + PGSIZE)) /\
    vm_trim k T (if do_free then [pa] else []) k' (if do_free then pa :: ps else ps) /\
    (forall va, 0 <= va < MAXVA -> leaf (k_mem k') T va = unmap_pages (leaf (k_mem k) T) a 1 va)) k.
Proof.
  intros Hv Hroot Ha Ha0 Hlt (Hval & Hfl & Hpa) Hfree. unfold uvmunmap_body.
  destruct (a <? last) eqn:E; bprop; [|lia]. apply wp_bind.
  destruct (T !! path a) as [b|] eqn:Hb; [|unfold leaf in Hval; by rewrite Hb in Hval].
  eapply wp_Ok; [by apply (walk_present k T root a b); [apply Hv|..]|].
  pose proof (pt_page_ok _ _ _ _ (vi_pt _ _ _ Hv) Hb) as Hbok.
  pose proof (page_ok_pos b Hbok). pose proof (PX_range 0 a) as H0.
  destruct (_ =? 0) eqn:E0; bprop; [lia|]. apply wp_bind, wp_gets.
  replace (rd64 (k_mem k) _) with (leaf (k_mem k) T a) by (unfold leaf; by rewrite Hb).
  rewrite Hval. cbn [negb]. destruct (PTE_FLAGS _ =? _) eqn:Ef; bprop; [done|]. rewrite Hpa.
  apply wp_bind. unfold when. destruct do_free.
  - destruct (Hfree eq_refl) as [Hok Hnin].
    destruct (vm_kfree k ps T pa Hv Hok Hnin) as (Hrun & Hv' & Hlf).
    eapply wp_Ok; [done|]. apply wp_bind, wp_modify, wp_ret.
    pose proof (vm_inv_set_leaf _ _ _ a b 0 Hv' Hb) as [X1 X2 _ _ _]. split_and!; [done|split|].
    + done.
    + by eapply mem_only_trans; [|exact X2].
    + eapply outside_trans.
      * eapply (only_page_outside pa); [apply elem_of_app; right; left|apply kfree_mem_only].
      * eapply (only_page_outside b); [|by apply only_page_slot].
        apply elem_of_app; left; apply elem_of_tpages; by eexists.
    + intros va Hva. cbn [k_mem set_mem]. erewrite leaf_clear by done.
      apply unmap_pages_ext, Hlf.
  - apply wp_bind, wp_modify, wp_ret.
    pose proof (vm_inv_set_leaf _ _ _ a b 0 Hv Hb) as [X1 X2 _ _ _]. split_and!; [done|split|].
    + done.
    + done.
    + eapply (only_page_outside b); [|by apply only_page_slot].
      apply elem_of_app; left; apply elem_of_tpages; by eexists.
    + intros va Hva. cbn [k_mem set_mem]. by erewrite leaf_clear.
Qed.

Lemma vm_trim_trans k1 T pas1 k2 ps2 pas2 k3 ps3 :
  vm_trim k1 T pas1 k2 ps2 -> vm_trim k2 T pas2 k3 ps3 -> vm_trim k1 T (pas1 ++ pas2) k3 ps3.
Proof.
  intros [A1 A2 A3] [B1 B2 B3]. split; [done|by eapply mem_only_trans|].
  eapply outside_trans.
  - eapply outside_mono; [|exact A3]. intros q. rewrite !elem_of_app. tauto.
  - eapply outside_mono; [|exact B3]. intros q. rewrite !elem_of_app. tauto.
Qed.

Lemma uvmunmap_loop pas : forall k ps T root a last do_free,
  vm_inv k ps T -> T !! [] = Some root -> a mod 4096 = 0 -> 0 <= a ->
  last = a + Z.of_nat (length pas) * PGSIZE -> last <= MAXVA ->
  (forall i pa, pas !! i = Some pa -> maps_to (k_mem k) T (a + Z.of_nat i * PGSIZE) pa) ->
  (do_free = true -> Forall page_ok pas /\ NoDup (pas ++ tpages T ++ ps)) ->
  wp (loop_with (S (length pas)) a (uvmunmap_body root last do_free)) (fun _ k' =>
    vm_trim k T (if do_free then pas else []) k' (if do_free then reverse pas ++ ps else ps) /\
    (forall va, 0 <= va < MAXVA ->
       leaf (k_mem k') T va = unmap_pages (leaf (k_mem k) T) a (Z.of_nat (length pas)) va)) k.
Proof.
  induction pas as [|pa pas IH]; intros k ps T root a last do_free Hv Hroot Ha Ha0 Hlast Hmax
    Hmap Hfree; apply wp_loop_S; cbn [length] in *.
  { unfold uvmunmap_body. destruct (a <? last) eqn:E; bprop; [lia|]. apply wp_ret. split.
    - destruct do_free; split; eauto with krun.
    - intros va Hva. by rewrite unmap_pages_0. }
  change PGSIZE with 4096 in *. change MAXVA with 274877906944 in *.
  assert (Hpa : maps_to (k_mem k) T a pa).
  { specialize (Hmap 0%nat pa eq_refl). by rewrite Z.mul_0_l, Z.add_0_r in Hmap. }
  eapply wp_mono; [apply (uvmunmap_round k ps T root a pa last do_free); try done; try vlia|].
  { intros Hd. destruct (Hfree Hd) as [Hok Hnd]. apply Forall_cons in Hok as [Hok _].
    cbn [app] in Hnd. apply NoDup_cons in Hnd as [Hnin _]. split; [done|].
    intros Hin. apply Hnin, elem_of_app. by right. }
  intros x k' (-> & Htrim & Hlf). change PGSIZE with 4096. rewrite u64_id by lia.
  pose proof (vt_inv _ _ _ _ _ Htrim) as Hv'.
  eapply wp_mono; [apply (IH k' (if do_free then pa :: ps else ps) T root (a + 4096)); try done; try vlia|].
  - intros i pa' Hi. specialize (Hmap (S i) pa' Hi).
    replace (a + 4096 + Z.of_nat i * 4096) with (a + Z.of_nat (S i) * 4096) by lia.
    apply lookup_lt_Some in Hi. unfold maps_to in *. change PGSIZE with 4096 in Hlf.
    rewrite Hlf by (change MAXVA with 274877906944; lia). unfold unmap_pages.
    destruct (_ && _) eqn:E; [bprop; change PGSIZE with 4096 in *; lia|done].
  - intros Hd. destruct (Hfree Hd) as [Hok Hnd]. apply Forall_cons in Hok as [_ Hok].
    split; [done|]. rewrite Hd.
    cbn in Hnd. assert (Hp : pas ++ tpages T ++ pa :: ps ≡ₚ pa :: pas ++ tpages T ++ ps) by solve_Permutation.
    by rewrite Hp.
  - intros _ k'' [Htrim' Hlf']. split.
    + destruct do_free; [|by apply (vm_trim_trans k T [] k' ps [])].
      rewrite reverse_cons, <- app_assoc. by apply (vm_trim_trans k T [pa] k' (pa :: ps) pas).
    + intros va Hva. rewrite Hlf' by done.
      replace (Z.of_nat (S (length pas))) with (Z.of_nat (length pas) + 1) by lia.
      rewrite <- unmap_pages_step by lia. by apply unmap_pages_ext, Hlf.
Qed.

Lemma uvmunmap_run k ps T root va pas do_free :
  vm_inv k ps T -> T !! [] = Some root -> va mod 4096 = 0 -> 0 <= va ->
  va + Z.of_nat (length pas) * PGSIZE <= MAXVA ->
  (forall i pa, pas !! i = Some pa -> maps_to (k_mem k) T (va + Z.of_nat i * PGSIZE) pa) ->
  (do_free = true -> Forall page_ok pas /\ NoDup (pas ++ tpages T ++ ps)) ->
  wp (uvmunmap root va (Z.of_nat (length pas)) do_free) (fun _ k' =>
    vm_trim k T (if do_free then pas else []) k' (if do_free then reverse pas ++ ps else ps) /\
    (forall x, 0 <= x < MAXVA ->
       leaf (k_mem k') T x = unmap_pages (leaf (k_mem k) T) va (Z.of_nat (length pas)) x)) k.
Proof.
  intros Hv Hroot Ha Ha0 Hmax Hmap Hfree. unfold uvmunmap. change PGSIZE with 4096 in *.
  change MAXVA with 274877906944 in *.
  rewrite Ha. cbn [truth Z.eqb negb]. rewrite !u64_id by (rewrite ?u64_id by lia; lia).
  replace (Z.to_nat ((va + Z.of_nat (length pas) * 4096 - va) / 4096)) with (length pas)
    by (rewrite Z.add_simpl_l, Z.div_mul by lia; lia).
  by apply (uvmunmap_loop pas k ps T root va).
Qed.
End mapping.
