(* ===== verification/Freewalk.v ===== *)
(** * [freewalk]: the release of a page table

    [freewalk] visits the tree below a page in index order, children before
    their parent.  [sub_pages] is the list of pages in that order; the main
    lemma says that, once no leaf is left, all of them go back to the free
    list, each once, and nothing else changes. *)

From S2P Require Export Mapping.

(** The 512 indices of a page-table page. *)
Definition indices : list Z := Z.of_nat <$> seq 0 512.

(** The pages of the subtree at path [p], in the order [freewalk] frees them. *)
Fixpoint sub_pages (d : nat) (T : ptree) (p : list Z) : list Z :=
  match T !! p with
  | None => []
  | Some a =>
      (match d with
       | O => []
       | S d => indices ≫= (fun i => sub_pages d T (p ++ [i]))
       end) ++ [a]
  end.

(** The memory holds the subtree at [p], and it has no valid leaf. *)
Fixpoint sub_wf (d : nat) (m : gmap Z Z) (T : ptree) (p : list Z) : Prop :=
  match T !! p with
  | None => True
  | Some a => forall i, 0 <= i < 512 ->
      match d with
      | O => pte_valid (rd64 m (a + 8 * i)) = false
      | S d =>
          match T !! (p ++ [i]) with
          | Some b => rd64 m (a + 8 * i) = pt_dir b /\ sub_wf d m T (p ++ [i])
          | None => pte_valid (rd64 m (a + 8 * i)) = false
          end
      end
  end.

Section freewalk.
Context {LY : Layout}.

Lemma elem_of_indices i : i ∈ indices <-> 0 <= i < 512.
Proof.
  unfold indices. rewrite list_elem_of_fmap. split.
  - intros (n & -> & Hn%elem_of_seq). lia.
  - intros Hi. exists (Z.to_nat i). split; [lia|]. apply elem_of_seq. lia.
Qed.

Lemma NoDup_indices : NoDup indices.
Proof. apply NoDup_fmap_2; [intros ??; lia|]. apply NoDup_seq. Qed.

Lemma sub_pages_child d T p i q :
  0 <= i < 512 -> is_Some (T !! p) -> q ∈ sub_pages d T (p ++ [i]) -> q ∈ sub_pages (S d) T p.
Proof.
  intros Hi [a Ha] Hq. cbn [sub_pages]. rewrite Ha. apply elem_of_app. left.
  apply list_elem_of_bind. exists i. split; [done|]. by apply elem_of_indices.
Qed.

Lemma sub_pages_self d T p a : T !! p = Some a -> a ∈ sub_pages d T p.
Proof. intros Ha. destruct d; cbn [sub_pages]; rewrite Ha; apply elem_of_app; right; left. Qed.

Lemma sub_wf_frame d : forall m m' T p,
  (forall q, q ∈ sub_pages d T p -> page_same q m m') -> sub_wf d m T p -> sub_wf d m' T p.
Proof.
  induction d as [|d IH]; intros m m' T p Hs; cbn [sub_wf];
    destruct (T !! p) as [a|] eqn:Ha; try done; intros Hw i Hi; specialize (Hw i Hi);
    (rewrite (page_same_rd64 a m m'); [|by apply Hs, sub_pages_self|by apply slot_in..]); [done|].
  destruct (T !! (p ++ [i])) as [b|] eqn:Hb; [|done]. destruct Hw as [Hw1 Hw2]. split; [done|].
  apply (IH m m'); [|done]. intros q Hq. apply Hs. by eapply sub_pages_child.
Qed.

Lemma pt_dir_no_leaf b :
  page_ok b -> Z.land (pt_dir b) (Z.lor (Z.lor PTE_R PTE_W) PTE_X) = 0.
Proof.
  intros Hb%page_ok_pa. unfold pt_dir. rewrite pte_pack by done. change PTE_V with 1.
  change (Z.lor (Z.lor PTE_R PTE_W) PTE_X) with 14. destruct Hb.
  apply Z.bits_inj'. intros n Hn. rewrite Z.land_spec, Z.bits_0.
  destruct (Z.ltb_spec n 4).
  - replace (b / 4096 * 1024 + 1) with (Z.lor (b / 4096 * 1024) 1).
    2: { pose proof (pte_pack b 1 ltac:(done) ltac:(lia)) as Hp.
         rewrite PA2PTE_eq, u64_id in Hp by zlia. done. }
    rewrite Z.lor_spec. change 1024 with (2 ^ 10). rewrite Z.mul_pow2_bits_low by lia.
    assert (n = 0 \/ n = 1 \/ n = 2 \/ n = 3) as [->|[->|[->| ->]]] by lia; done.
  - rewrite (Z.bits_above_log2 14); [apply andb_false_r|lia|]. cbn. lia.
Qed.

(** The allocator beside pages that are about to be freed. *)
Record fw_inv (k : kernel) (ps pgs : list Z) : Prop := {
  fw_irq : irq_ok k;
  fw_lock : lock_free Lkmem k;
  fw_kmem : kmem_inv k ps;
  fw_ok : Forall page_ok pgs;
  fw_nodup : NoDup (pgs ++ ps)
}.

(** The effect: the pages [pgs] are free, only they changed. *)
Record fw_post (k : kernel) (ps pgs : list Z) (k' : kernel) : Prop := {
  fp_kmem : kmem_inv k' (reverse pgs ++ ps);
  fp_only : mem_only k k';
  fp_out : outside pgs (k_mem k) (k_mem k')
}.

Lemma fw_post_nil k ps : kmem_inv k ps -> fw_post k ps [] k.
Proof. intros. split; eauto with krun. Qed.

Lemma fw_post_trans k1 ps pgs1 k2 pgs2 k3 :
  fw_post k1 ps pgs1 k2 -> fw_post k2 (reverse pgs1 ++ ps) pgs2 k3 -> fw_post k1 ps (pgs1 ++ pgs2) k3.
Proof.
  intros [A1 A2 A3] [B1 B2 B3]. split.
  - by rewrite reverse_app, <- app_assoc.
  - by eapply mem_only_trans.
  - eapply outside_trans; [eapply outside_mono; [|exact A3]|eapply outside_mono; [|exact B3]];
      intros q; rewrite elem_of_app; tauto.
Qed.

Lemma fw_inv_next k ps pgs1 pgs2 k' :
  fw_inv k ps (pgs1 ++ pgs2) -> fw_post k ps pgs1 k' -> fw_inv k' (reverse pgs1 ++ ps) pgs2.
Proof.
  intros [H1 H2 H3 H4 H5] [A1 A2 A3]. apply mem_only_locks in A2. apply Forall_app in H4 as [H4 H4'].
  split; [by eapply irq_ok_same|by eapply lock_free_same|done|done|].
  rewrite reverse_Permutation.
  assert (Hp : pgs2 ++ pgs1 ++ ps ≡ₚ (pgs1 ++ pgs2) ++ ps) by solve_Permutation. by rewrite Hp.
Qed.

Lemma fw_inv_prefix k ps pgs1 pgs2 : fw_inv k ps (pgs1 ++ pgs2) -> fw_inv k ps pgs1.
Proof.
  intros [H1 H2 H3 H4 H5]. apply Forall_app in H4 as [H4 _]. split; [done..|].
  assert (Hp : (pgs1 ++ pgs2) ++ ps ≡ₚ (pgs1 ++ ps) ++ pgs2) by solve_Permutation.
  rewrite Hp in H5. by apply NoDup_app in H5 as [H5 _].
Qed.

Lemma fw_kfree k ps a :
  fw_inv k ps [a] -> kfree a k = Ok tt (kfree_state a k) /\ fw_post k ps [a] (kfree_state a k).
Proof.
  intros [H1 H2 H3 H4 H5]. rewrite Forall_singleton in H4. apply NoDup_cons in H5 as [Hnin _].
  split; [by apply kfree_run|]. split; [exact (kfree_inv a k ps H3 H4 Hnin)|done|].
  eapply (only_page_outside a); [left|apply kfree_mem_only].
Qed.

(** What [freewalk] does at one entry. *)
Definition freewalk_entry (fuel : nat) (pagetable i : Z) : K unit :=
  pte ← rd_pte (pagetable + 8 * i);
  if pte_valid pte && (Z.land pte (Z.lor (Z.lor PTE_R PTE_W) PTE_X) =? 0) then
    freewalk_rec fuel (PTE2PA pte);;
    wr_pte (pagetable + 8 * i) 0
  else if pte_valid pte then panic "freewalk: leaf"
  else skip.

(** The statement proved by induction on the depth. *)
Definition freewalk_ok (d : nat) : Prop := forall k ps T p a,
  T !! p = Some a -> sub_wf d (k_mem k) T p -> fw_inv k ps (sub_pages d T p) ->
  wp (freewalk_rec (S d) a) (fun _ => fw_post k ps (sub_pages d T p)) k.

(** Memory after freeing [pgs] and clearing an entry of [a], seen from a page
    that is neither. *)
Lemma fw_page_same pgs a q m m' m'' i v :
  outside pgs m m' -> m'' = wr64 (a + 8 * i) v m' -> 0 <= i < 512 ->
  Forall page_ok pgs -> page_ok a -> page_ok q -> q ∉ pgs -> a <> q -> page_same q m m''.
Proof.
  intros Ho -> Hi Hok Ha Hq Hnin Hne. eapply page_same_trans; [by eapply outside_page_same|].
  by apply (only_page_same a q); [apply only_page_slot|..].
Qed.

(** The loop over the entries [js] that remain: [a]'s entries and the
    subtrees below them are still as they were. *)
Definition entries_wf (d : nat) (m : gmap Z Z) (T : ptree) (p : list Z) (a : Z) (js : list Z) : Prop :=
  forall i, i ∈ js ->
    match T !! (p ++ [i]) with
    | Some b => rd64 m (a + 8 * i) = pt_dir b /\ sub_wf d m T (p ++ [i])
    | None => pte_valid (rd64 m (a + 8 * i)) = false
    end.

(** The pages of the remaining subtrees followed by the parent's own. *)
Definition rest_pages (d : nat) (T : ptree) (p : list Z) (a : Z) (js : list Z) : list Z :=
  (js ≫= (fun i => sub_pages d T (p ++ [i]))) ++ [a].

Lemma freewalk_entry_run d k ps T p a i js :
  freewalk_ok d -> T !! p = Some a -> Forall (fun i => 0 <= i < 512) (i :: js) -> i ∉ js ->
  entries_wf d (k_mem k) T p a (i :: js) -> fw_inv k ps (rest_pages d T p a (i :: js)) ->
  wp (freewalk_entry (S d) a i) (fun _ k' => exists ps',
    ps' = reverse (sub_pages d T (p ++ [i])) ++ ps /\
    kmem_inv k' ps' /\ mem_only k k' /\
    outside (a :: sub_pages d T (p ++ [i])) (k_mem k) (k_mem k') /\
    entries_wf d (k_mem k') T p a js) k.
Proof.
  intros IH Ha Hidx Hni Hw Hinv. apply Forall_cons in Hidx as [Hi Hidx].
  pose proof (Hw i ltac:(left)) as Hwi. unfold freewalk_entry. apply wp_bind, wp_gets.
  assert (Hrest : entries_wf d (k_mem k) T p a js) by (intros j Hj; apply Hw; by right).
  destruct (T !! (p ++ [i])) as [b|] eqn:Hb.
  2:{ rewrite Hwi. cbn [andb]. apply wp_ret. exists ps. split_and!; eauto with krun.
      - destruct d; cbn [sub_pages]; by rewrite Hb.
      - apply Hinv. }
  destruct Hwi as [Hrd Hsub]. unfold rest_pages in Hinv. rewrite bind_cons, <- app_assoc in Hinv.
  pose proof (fw_ok _ _ _ Hinv) as Hok. rewrite Forall_forall in Hok.
  assert (Hbok : page_ok b) by (apply Hok, elem_of_app; left; by apply sub_pages_self).
  assert (Haok : page_ok a) by (apply Hok; rewrite !elem_of_app, list_elem_of_singleton; tauto).
  rewrite Hrd, pt_dir_valid, pt_dir_no_leaf, pt_dir_pa by done. cbn [andb Z.eqb].
  apply wp_bind. eapply wp_mono; [apply (IH k ps T (p ++ [i]) b Hb Hsub); by eapply fw_inv_prefix|].
  intros [] k' Hpost. apply wp_modify. pose proof (fw_inv_next _ _ _ _ _ Hinv Hpost) as Hinv'.
  destruct Hpost as [P1 P2 P3]. eexists. split_and!; [done|..].
  - apply kmem_inv_frame; [done|]. intros q Hq. apply (only_page_same a q); [by apply only_page_slot|done|..].
    + destruct P1 as (_ & Hf & _). rewrite Forall_forall in Hf. by apply Hf.
    + intros <-. pose proof (fw_nodup _ _ _ Hinv') as Hnd. apply NoDup_app in Hnd as (_ & Hd & _).
      apply (Hd a); [|done]. apply elem_of_app. right. left.
  - eapply mem_only_trans; [exact P2|apply mem_only_set_mem].
  - eapply outside_trans; [eapply outside_mono; [|exact P3]; intros q Hq; by right|].
    eapply (only_page_outside a); [left|]. by apply only_page_slot.
  - intros j Hj. specialize (Hrest j Hj). rewrite Forall_forall in Hidx. specialize (Hidx j Hj).
    pose proof (fw_nodup _ _ _ Hinv) as Hnd. rewrite <- !app_assoc in Hnd.
    apply NoDup_app in Hnd as (_ & Hd1 & Hnd). apply NoDup_app in Hnd as (_ & Hd2 & _).
    assert (Hpgs : Forall page_ok (sub_pages d T (p ++ [i]))).
    { apply Forall_forall. intros q Hq. apply Hok, elem_of_app. by left. }
    assert (Hslot : rd64 (wr64 (a + 8 * i) 0 (k_mem k')) (a + 8 * j) = rd64 (k_mem k) (a + 8 * j)).
    { rewrite rd64_wr64_disjoint by (apply slots_disjoint; by intros ->).
      apply (page_same_rd64 a); [|by apply slot_in..]. eapply outside_page_same; [done..|].
      intros Hin. apply (Hd1 _ Hin). apply elem_of_app. right. left. }
    cbn [k_mem set_mem]. rewrite Hslot. destruct (T !! (p ++ [j])) as [c|]; [|done].
    destruct Hrest as [R1 R2]. split; [done|]. eapply sub_wf_frame; [|exact R2]. intros q Hq.
    assert (Hqin : q ∈ js ≫= (fun i => sub_pages d T (p ++ [i]))) by (apply list_elem_of_bind; by exists j).
    eapply fw_page_same; [exact P3|done|done|done|done|apply Hok; rewrite !elem_of_app; tauto|..].
    + intros Hin. apply (Hd1 _ Hin). apply elem_of_app. by left.
    + intros <-. apply (Hd2 _ Hqin). left.
Qed.

Lemma freewalk_loop d js : forall k ps T p a,
  freewalk_ok d -> T !! p = Some a -> Forall (fun i => 0 <= i < 512) js -> NoDup js ->
  entries_wf d (k_mem k) T p a js -> fw_inv k ps (rest_pages d T p a js) ->
  wp (for_all js (freewalk_entry (S d) a);; kfree a) (fun _ => fw_post k ps (rest_pages d T p a js)) k.
Proof.
  induction js as [|i js IH]; intros k ps T p a Hok Ha Hidx Hnd Hw Hinv.
  { destruct (fw_kfree k ps a Hinv) as [Hrun Hpost]. apply wp_bind, wp_ret. by eapply wp_Ok. }
  cbn [for_all]. apply wp_bind, wp_bind. apply NoDup_cons in Hnd as [Hni Hnd].
  eapply wp_mono; [by apply (freewalk_entry_run d k ps T p a i js)|].
  intros [] k' (ps' & -> & H1 & H2 & H3 & H4). apply Forall_cons in Hidx as [_ Hidx].
  assert (Hsplit : rest_pages d T p a (i :: js) = sub_pages d T (p ++ [i]) ++ rest_pages d T p a js)
    by (unfold rest_pages; by rewrite bind_cons, app_assoc).
  rewrite Hsplit in *.
  assert (Hinv' : fw_inv k' (reverse (sub_pages d T (p ++ [i])) ++ ps) (rest_pages d T p a js)).
  { destruct Hinv as [F1 F2 F3 F4 F5]. apply Forall_app in F4 as [_ F4]. apply mem_only_locks in H2.
    split; [by eapply irq_ok_same|by eapply lock_free_same|done|done|].
    rewrite reverse_Permutation. revert F5. apply NoDup_Permutation_proper. solve_Permutation. }
  specialize (IH k' _ T p a Hok Ha Hidx Hnd H4 Hinv'). unfold wp, mbind, M_bind in IH |- *.
  destruct (for_all js _ k') as [[] k''| |]; [|done..]. destruct (kfree a k'') as [[] k3| |]; [|done..].
  destruct IH as [P1 P2 P3]. split.
  - by rewrite reverse_app, <- app_assoc.
  - by eapply mem_only_trans.
  - eapply outside_trans; [eapply outside_mono; [|exact H3]|eapply outside_mono; [|exact P3]];
      intros q; rewrite elem_of_app; [|tauto].
    intros [->|Hq]%elem_of_cons; [right|by left]. unfold rest_pages. apply elem_of_app. right. left.
Qed.

Lemma freewalk_leaf_loop js k a :
  Forall (fun i => 0 <= i < 512) js -> (forall i, 0 <= i < 512 -> pte_valid (rd64 (k_mem k) (a + 8 * i)) = false) ->
  for_all js (freewalk_entry 0 a) k = Ok tt k.
Proof.
  intros Hidx Hw. induction js as [|i js IH]; [done|]. apply Forall_cons in Hidx as [Hi Hidx].
  cbn [for_all].
  erewrite run_bind; [by apply IH|]. unfold freewalk_entry, rd_pte. mrun. by rewrite Hw.
Qed.

Lemma freewalk_ok_all d : freewalk_ok d.
Proof.
  induction d as [|d IH]; intros k ps T p a Ha Hw Hinv; cbn [freewalk_rec];
    change (for_all (Z.of_nat <$> seq 0 512)) with (for_all (S := kernel) indices).
  - cbn [sub_wf] in Hw. rewrite Ha in Hw. cbn [sub_pages] in *. rewrite Ha in *. apply wp_bind.
    destruct (fw_kfree k ps a Hinv) as [Hrun Hpost].
    eapply wp_Ok; [apply (freewalk_leaf_loop indices k a)|by eapply wp_Ok]; [|done].
    apply Forall_forall. intros i. by rewrite elem_of_indices.
  - cbn [sub_wf] in Hw. rewrite Ha in Hw. cbn [sub_pages] in *. rewrite Ha in *.
    apply (freewalk_loop d indices k ps T p a IH Ha); [|apply NoDup_indices| |exact Hinv].
    + apply Forall_forall. intros i. by rewrite elem_of_indices.
    + intros i Hi%elem_of_indices. by apply Hw.
Qed.

(** ** The whole table *)

Definition no_leaf (m : gmap Z Z) (T : ptree) : Prop :=
  forall va, 0 <= va < MAXVA -> pte_valid (leaf m T va) = false.

Lemma pt_prefix m T p s : pt_wf m T -> is_Some (T !! (p ++ s)) -> is_Some (T !! p).
Proof.
  intros Hwf. induction s as [|i s IH] using rev_ind; [by rewrite app_nil_r|].
  rewrite app_assoc. intros [b Hb]. by apply IH, (pt_parent _ _ Hwf _ i b).
Qed.

(** Every level-0 entry below MAXVA is the leaf of an address. *)
Lemma leaf_at m T i j n b :
  T !! [i; j] = Some b -> 0 <= i < 256 -> 0 <= j < 512 -> 0 <= n < 512 ->
  exists va, 0 <= va < MAXVA /\ leaf m T va = rd64 m (b + 8 * n).
Proof.
  intros Hb Hi Hj Hn. exists (((i * 512 + j) * 512 + n) * 4096). split; [vlia|].
  unfold leaf, path. rewrite !PX_eq by lia.
  change (2 ^ (12 + 9 * 2)) with (4096 * 512 * 512). change (2 ^ (12 + 9 * 1)) with (4096 * 512).
  change (2 ^ (12 + 9 * 0)) with 4096. rewrite <- !Z.div_div by lia.
  rewrite Z.div_mul by lia.
  replace (((i * 512 + j) * 512 + n) / 512) with (i * 512 + j) by zlia.
  replace ((i * 512 + j) / 512) with i by zlia.
  replace (i mod 512) with i by zlia. replace ((i * 512 + j) mod 512) with j by zlia.
  replace (((i * 512 + j) * 512 + n) mod 512) with n by zlia. by rewrite Hb.
Qed.

Lemma sub_wf_root m T : pt_wf m T -> no_leaf m T -> sub_wf 2 m T [].
Proof.
  intros Hwf Hnl. cbn [sub_wf]. destruct (T !! []) as [a|] eqn:Ha; [|done]. intros i Hi.
  pose proof (pt_entry _ _ Hwf [] a i Ha ltac:(cbn; lia) Hi) as H2. cbn [app] in *.
  destruct (T !! [i]) as [b|] eqn:Hb; [|done]. split; [done|]. intros j Hj.
  pose proof (pt_entry _ _ Hwf [i] b j Hb ltac:(cbn; lia) Hj) as H1. cbn [app] in *.
  destruct (T !! [i; j]) as [c|] eqn:Hc; [|done]. split; [done|]. intros n Hn.
  pose proof (pt_low _ _ Hwf _ _ _ Hb).
  destruct (leaf_at m T i j n c Hc ltac:(lia) Hj Hn) as (va & Hva & <-). by apply Hnl.
Qed.

Lemma sub_pages_path d : forall T p q,
  q ∈ sub_pages d T p -> exists s, (length s <= d)%nat /\ T !! (p ++ s) = Some q.
Proof.
  induction d as [|d IH]; intros T p q; cbn [sub_pages]; destruct (T !! p) as [a|] eqn:Ha;
    try by intros ?%elem_of_nil.
  - intros ->%list_elem_of_singleton. exists []. by rewrite app_nil_r.
  - rewrite elem_of_app. intros [(i & Hq & Hi)%list_elem_of_bind| ->%list_elem_of_singleton].
    + destruct (IH _ _ _ Hq) as (s & Hs & HT). exists (i :: s). rewrite <- app_assoc in HT.
      split; [cbn; lia|done].
    + exists []. rewrite app_nil_r. split; [cbn; lia|done].
Qed.

Lemma sub_pages_complete m d : forall T p s q,
  pt_wf m T -> (length s <= d)%nat -> T !! (p ++ s) = Some q -> q ∈ sub_pages d T p.
Proof.
  induction d as [|d IH]; intros T p s q Hwf Hs HT.
  - destruct s; [|cbn in Hs; lia]. rewrite app_nil_r in HT. by apply sub_pages_self.
  - destruct s as [|i s]; [rewrite app_nil_r in HT; by apply sub_pages_self|].
    apply (sub_pages_child d T p i).
    + pose proof (pt_depth _ _ Hwf _ _ HT) as [_ Hf]. rewrite Forall_app, Forall_cons in Hf. tauto.
    + by eapply pt_prefix.
    + apply (IH T (p ++ [i]) s q); [done|cbn in Hs; lia|by rewrite <- app_assoc].
Qed.

Lemma sub_pages_NoDup m d : forall T p, pt_wf m T -> NoDup (sub_pages d T p).
Proof.
  induction d as [|d IH]; intros T p Hwf; cbn [sub_pages]; destruct (T !! p) as [a|] eqn:Ha;
    try apply NoDup_singleton; try apply NoDup_nil_2.
  apply NoDup_app. split_and!; [|..|apply NoDup_singleton].
  - apply NoDup_bind; [|intros i _; by apply IH|apply NoDup_indices].
    intros i j q _ _ (s & _ & Hs)%sub_pages_path (s' & _ & Hs')%sub_pages_path.
    pose proof (tpages_inj T _ _ _ (pt_nodup _ _ Hwf) Hs Hs') as Heq.
    rewrite <- !app_assoc in Heq. apply app_inv_head in Heq. by injection Heq.
  - intros q (i & (s & _ & Hs)%sub_pages_path & _)%list_elem_of_bind ->%list_elem_of_singleton.
    pose proof (tpages_inj T _ _ _ (pt_nodup _ _ Hwf) Hs Ha) as Heq%(f_equal length).
    rewrite !length_app in Heq. cbn in Heq. lia.
Qed.

Lemma sub_pages_root m T : pt_wf m T -> sub_pages 2 T [] ≡ₚ tpages T.
Proof.
  intros Hwf. apply NoDup_Permutation; [by eapply sub_pages_NoDup|apply Hwf|]. intros q.
  rewrite elem_of_tpages. split.
  - intros (s & _ & Hs)%sub_pages_path. by exists s.
  - intros [s Hs]. eapply (sub_pages_complete m 2 T [] s); [done| |done]. by eapply pt_depth.
Qed.

(** A table without leaves goes back to the free list entirely. *)
Lemma freewalk_run k ps T root :
  vm_inv k ps T -> T !! [] = Some root -> no_leaf (k_mem k) T ->
  wp (freewalk root) (fun _ k' => exists ps',
    kmem_inv k' ps' /\ ps' ≡ₚ tpages T ++ ps /\ mem_only k k' /\
    outside (tpages T) (k_mem k) (k_mem k')) k.
Proof.
  intros [H1 H2 H3 H4 H5] Hroot Hnl. pose proof (sub_pages_root _ _ H4) as Hp.
  eapply wp_mono; [apply (freewalk_ok_all 2 k ps T [] root Hroot (sub_wf_root _ _ H4 Hnl))|].
  - split; [done..| |]; rewrite Hp; [apply H4|done].
  - intros [] k' [P1 P2 P3]. eexists. split_and!; [exact P1| |done|].
    + by rewrite reverse_Permutation, Hp.
    + eapply outside_mono; [|exact P3]. intros q. by rewrite Hp.
Qed.

(** ** A fresh table *)

Lemma pt_wf_root m root :
  page_ok root -> (forall x, root <= x < root + PGSIZE -> rd8 m x = 0) -> pt_wf m {[ [] := root ]}.
Proof.
  intros Hok Hz.
  assert (Ht : tpages {[ [] := root ]} = [root]) by (unfold tpages; by rewrite map_to_list_singleton).
  split.
  - rewrite Ht. by constructor.
  - rewrite Ht. apply NoDup_singleton.
  - intros p a [<- <-]%lookup_singleton_Some. split; [cbn; lia|constructor].
  - by intros i p a [? ?]%lookup_singleton_Some.
  - intros p i b [Hp _]%lookup_singleton_Some. by destruct p.
  - intros p a i [<- <-]%lookup_singleton_Some _ Hi. rewrite lookup_singleton_ne by done.
    rewrite rd64_zero; [done|]. intros x Hx. pose proof (slot_in root i Hi). apply Hz. lia.
Qed.

Lemma leaf_root m root va : leaf m {[ [] := root ]} va = 0.
Proof. unfold leaf. by rewrite lookup_singleton_ne. Qed.

Lemma uvmcreate_run k ps :
  irq_ok k -> lock_free Lkmem k -> kmem_inv k ps ->
  match ps with
  | [] => uvmcreate k = Ok 0 k
  | p :: ps' => exists k', uvmcreate k = Ok p k' /\ vm_inv k' ps' {[ [] := p ]} /\
      mem_only k k' /\ outside [p] (k_mem k) (k_mem k')
  end.
Proof.
  intros Hi Hl Hk. unfold uvmcreate. destruct ps as [|p ps].
  { erewrite run_bind by (by apply kalloc_empty). done. }
  pose proof Hk as (_ & Hok & Hnd). apply Forall_cons in Hok as [Hp Hok]. apply NoDup_cons in Hnd as [Hnin Hnd].
  erewrite run_bind by (by eapply kalloc_run).
  destruct (p =? 0) eqn:E; bprop; [pose proof (page_ok_pos p Hp); lia|].
  unfold clear_page. mrun. eexists. split_and!; [done| |done|].
  - split; [done|done| | |].
    + apply kmem_inv_frame; [by apply kalloc_inv|]. intros q Hq.
      rewrite Forall_forall in Hok. apply (only_page_same p q); [apply only_page_memset|done|by apply Hok|].
      by intros ->.
    + apply pt_wf_root; [done|apply page_zero].
    + unfold tpages. rewrite map_to_list_singleton. cbn. by apply NoDup_cons.
  - eapply (only_page_outside p); [left|]. eapply only_page_trans; [apply kalloc_state_only|].
    apply only_page_memset.
Qed.
End freewalk.
