(* ===== verification/Uvm.v ===== *)
(** * User address spaces: growing, shrinking, copying and freeing

    [uvmalloc] and [uvmcopy] share one loop invariant: a range of fresh pages
    with given contents has been mapped so far.  From it follow the success
    case and, through [uvmunmap], the roll-back of the error case: a failed
    call leaves the translation as it was and leaks no page. *)

From S2P Require Export Freewalk.

Section uvm.
Context {LY : Layout}.

(** ** The loop invariant *)

Section grow.
(** The state before the call, and what page [i] of the range will hold. *)
Context (k : kernel) (ps : list Z) (T : ptree) (root a : Z).
Context (perm : nat -> Z) (content : nat -> Z -> Z).

(** The pages [pas] have been mapped from [a] on. *)
Record grown_by (pas : list Z) (k' : kernel) (ps' : list Z) (T' : ptree) : Prop := {
  gb_inv : vm_inv k' ps' T';
  gb_only : mem_only k k';
  gb_sub : T ⊆ T';
  gb_perm : pas ++ tpages T' ++ ps' ≡ₚ tpages T ++ ps;
  gb_out : outside (tpages T ++ ps) (k_mem k) (k_mem k');
  gb_in : forall i pa x, pas !! i = Some pa -> 0 <= x < PGSIZE ->
    leaf (k_mem k') T' (a + Z.of_nat i * PGSIZE + x) = mkpte pa (perm i) /\
    rd8 (k_mem k') (pa + x) = content i x;
  gb_rest : forall va, 0 <= va < MAXVA -> ~ (a <= va < a + Z.of_nat (length pas) * PGSIZE) ->
    leaf (k_mem k') T' va = leaf (k_mem k) T va
}.

Context (Hv : vm_inv k ps T) (Hroot : T !! [] = Some root) (Ha : a mod 4096 = 0) (Ha0 : 0 <= a).
Context (Hperm : forall i, 0 <= perm i < 1024).

Lemma grown_by_nil : grown_by [] k ps T.
Proof. split; eauto with krun; done. Qed.

Lemma grown_pages pas k' ps' T' :
  grown_by pas k' ps' T' -> Forall page_ok (pas ++ tpages T' ++ ps') /\ NoDup (pas ++ tpages T' ++ ps').
Proof.
  intros H. rewrite (gb_perm _ _ _ _ H). split; [by apply (vm_pages_ok k)|apply Hv].
Qed.

Lemma grown_root pas k' ps' T' : grown_by pas k' ps' T' -> T' !! [] = Some root.
Proof. intros H. eapply lookup_weaken; [exact Hroot|apply H]. Qed.

(** A change of memory in the free or table pages keeps the contents of the
    pages mapped so far. *)
Lemma grown_content pas k' ps' T' m i pa x :
  grown_by pas k' ps' T' -> outside (tpages T' ++ ps') (k_mem k') m ->
  pas !! i = Some pa -> 0 <= x < PGSIZE -> rd8 m (pa + x) = content i x.
Proof.
  intros H Ho Hi Hx. destruct (grown_pages _ _ _ _ H) as [Hok Hnd].
  apply Forall_app in Hok as [Hok1 Hok2]. rewrite Forall_forall in Hok1.
  apply list_elem_of_lookup_2 in Hi as Hin.
  rewrite <- (proj2 (gb_in _ _ _ _ H i pa x Hi Hx)).
  apply (outside_page_same _ pa _ _ Ho Hok2 (Hok1 _ Hin)); [|lia].
  apply NoDup_app in Hnd as (_ & Hd & _). by apply Hd.
Qed.

(** Changes of the table and the free list that keep the translation. *)
Lemma grown_ext pas k' ps' T' k2 ps2 T2 :
  grown_by pas k' ps' T' -> vm_ext k' ps' T' k2 ps2 T2 ->
  (forall va, 0 <= va < MAXVA -> leaf (k_mem k2) T2 va = leaf (k_mem k') T' va) ->
  a + Z.of_nat (length pas) * PGSIZE <= MAXVA ->
  grown_by pas k2 ps2 T2.
Proof.
  intros H [E1 E2 E3 E4 E5] Hlf Hmax. split.
  - done.
  - eapply mem_only_trans; [apply H|done].
  - etransitivity; [apply H|done].
  - by rewrite E4, (gb_perm _ _ _ _ H).
  - eapply outside_trans; [apply H|]. eapply outside_mono; [|exact E5]. intros q Hq.
    rewrite <- (gb_perm _ _ _ _ H). apply elem_of_app. by right.
  - intros i pa x Hi Hx. split; [|exact (grown_content _ _ _ _ _ _ _ _ H E5 Hi Hx)].
    rewrite Hlf; [by apply (gb_in _ _ _ _ H)|]. apply lookup_lt_Some in Hi. vlia.
  - intros va Hva Hn. rewrite Hlf by done. exact (gb_rest _ _ _ _ H va Hva Hn).
Qed.

(** Taking the next free page and filling it. *)
Lemma vm_fill k' q ps' T' m :
  vm_inv k' (q :: ps') T' -> only_page q (k_mem (kalloc_state q k')) m ->
  vm_inv (set_mem m (kalloc_state q k')) ps' T' /\ page_ok q /\ ~ q ∈ (tpages T' ++ ps') /\
  only_page q (k_mem k') m /\ (forall va, leaf m T' va = leaf (k_mem k') T' va).
Proof.
  intros Hv' Ho. destruct (vm_kalloc k' ps' T' q Hv') as (_ & Hv1 & Hq & Hnin & Hlf).
  pose proof (vm_pages_ok _ _ _ Hv1) as Hok. rewrite Forall_forall in Hok.
  assert (Hs : forall r, r ∈ tpages T' ++ ps' -> page_same r (k_mem (kalloc_state q k')) m).
  { intros r Hr. apply (only_page_same q r); [done|done|by apply Hok|]. by intros ->. }
  split_and!; [by apply vm_inv_frame|done|done| |].
  - eapply only_page_trans; [apply kalloc_state_only|exact Ho].
  - intros va. rewrite <- Hlf. apply leaf_frame. intros r Hr. apply Hs, elem_of_app. by left.
Qed.

(** One more page: the next free page [q], filled by the caller, is mapped;
    when that fails for lack of a table page, [q] can be given back. *)
Lemma grow_step pas k' q ps' T' m :
  grown_by pas k' (q :: ps') T' ->
  (length (tpages T') <= length (tpages T) + 2 * length pas)%nat ->
  a + (Z.of_nat (length pas) + 1) * PGSIZE <= MAXVA ->
  (forall x, 0 <= x < PGSIZE ->
     pte_valid (leaf (k_mem k) T (a + Z.of_nat (length pas) * PGSIZE + x)) = false) ->
  only_page q (k_mem (kalloc_state q k')) m ->
  (forall x, 0 <= x < PGSIZE -> rd8 m (q + x) = content (length pas) x) ->
  wp (mappages root (a + Z.of_nat (length pas) * PGSIZE) PGSIZE q (perm (length pas)))
    (fun r k2 =>
      (r = 0 /\ exists ps2 T2, grown_by (pas ++ [q]) k2 ps2 T2 /\
         (length (tpages T2) <= length (tpages T) + 2 * (length pas + 1))%nat) \/
      (r = -1 /\ (length ps < 3 * (length pas + 1))%nat /\
       wp (kfree q) (fun _ k3 => exists ps3 T3, grown_by pas k3 ps3 T3) k2))
    (set_mem m (kalloc_state q k')).
Proof.
  intros H Hcnt Hmax Hfree Ho Hcont. set (n := length pas) in *. set (a' := a + Z.of_nat n * PGSIZE).
  destruct (vm_fill k' q ps' T' m (gb_inv _ _ _ _ H) Ho) as (Hv1 & Hq & Hnin & Ho' & Hlf1).
  pose proof (page_ok_pos q Hq) as Hqr. pose proof (proj1 Hq) as Hqa.
  eapply wp_mono; [apply (mappages_run _ ps' T' root a' PGSIZE q (perm n) Hv1)|].
  1: by eapply grown_root. 1-8: subst a'; (try done); try vlia.
  { apply Hperm. }
  { intros x Hx. cbn [k_mem set_mem]. rewrite Hlf1.
    rewrite (gb_rest _ _ _ _ H) by vlia.
    replace x with (a + Z.of_nat n * PGSIZE + (x - (a + Z.of_nat n * PGSIZE))) by lia.
    apply Hfree. vlia. }
  intros r k2 (ps2 & T2 & j & Hext & Hr & Hlf2). change (PGSIZE / 4096) with 1 in Hr.
  cbn [k_mem set_mem] in Hlf2. destruct Hext as [E1 E2 E3 E4 E5]. cbn [k_mem set_mem] in E5.
  assert (Hout : outside (tpages T' ++ q :: ps') (k_mem k') (k_mem k2)).
  { eapply outside_trans; [eapply (only_page_outside q); [|exact Ho']|eapply outside_mono; [|exact E5]].
    - apply elem_of_app; right; left.
    - intros r'. rewrite !elem_of_app, elem_of_cons. tauto. }
  assert (Hk2 : mem_only k' k2) by (eapply mem_only_trans; [|exact E2]; done).
  destruct Hr as [(-> & -> & Hc)|(-> & -> & Hj & Hc)].
  - left. split; [done|]. exists ps2, T2. split; [split|lia].
    + done.
    + eapply mem_only_trans; [apply H|done].
    + etransitivity; [apply H|done].
    + rewrite <- (gb_perm _ _ _ _ H), <- app_assoc, E4. solve_Permutation.
    + eapply outside_trans; [apply H|]. eapply outside_mono; [|exact Hout]. intros r Hr.
      rewrite <- (gb_perm _ _ _ _ H). apply elem_of_app. by right.
    + intros i pa x Hi Hx. apply lookup_app_Some in Hi as [Hi|[Hge Hi]].
      * split; [|exact (grown_content _ _ _ _ _ _ _ _ H Hout Hi Hx)]. apply lookup_lt_Some in Hi as Hlt. fold n in Hlt.
        rewrite Hlf2 by vlia. unfold map_pages. destruct (_ && _) eqn:E; [bprop; vlia|].
        rewrite Hlf1. by apply (gb_in _ _ _ _ H).
      * fold n in Hge, Hi. apply list_lookup_singleton_Some in Hi as [Hi <-].
        assert (i = n) as -> by lia. split.
        -- rewrite Hlf2 by vlia. unfold map_pages.
           replace (_ && _) with true
             by (symmetry; apply andb_true_iff; split; [apply Z.leb_le|apply Z.ltb_lt]; vlia).
           f_equal. vlia.
        -- rewrite <- Hcont by done.
           apply (outside_page_same _ q _ _ E5 (vm_pages_ok _ _ _ Hv1) Hq); [done|lia].
    + intros va Hva Hn. rewrite length_app in Hn. cbn [length] in Hn. fold n in Hn.
      rewrite Hlf2 by done. unfold map_pages. destruct (_ && _) eqn:E; [bprop; vlia|].
      rewrite Hlf1. apply (gb_rest _ _ _ _ H va Hva). fold n. vlia.
  - right. split_and!; [done| |].
    { pose proof (Permutation_length (gb_perm _ _ _ _ H)) as L1.
      pose proof (Permutation_length E4) as L2. rewrite !length_app in L1. rewrite !length_app in L2. cbn [length] in *. subst n. lia. }
    assert (j = 0) as -> by lia.
    assert (Hnin2 : ~ q ∈ (tpages T2 ++ [])) by (by rewrite E4).
    destruct (vm_kfree k2 [] T2 q E1 Hq Hnin2) as (Hrun & Hv3 & Hlf3).
    eapply wp_Ok; [done|]. exists [q], T2. eapply grown_ext; [exact H|split|..].
    + done.
    + eapply mem_only_trans; [exact Hk2|apply mem_only_set].
    + done.
    + rewrite app_nil_r in E4. rewrite E4. solve_Permutation.
    + eapply outside_trans; [exact Hout|]. eapply (only_page_outside q); [|apply kfree_mem_only].
      apply elem_of_app; right; left.
    + intros va Hva. rewrite Hlf3, Hlf2, map_pages_0 by done. apply Hlf1.
    + fold n. vlia.
Qed.

(** The error path: unmapping what was mapped restores the translation and
    returns every page. *)
Lemma grow_rollback pas k' ps' T' :
  grown_by pas k' ps' T' -> a + Z.of_nat (length pas) * PGSIZE <= MAXVA ->
  (forall i, PTE_FLAGS (mkpte 0 (perm i)) <> PTE_V) ->
  wp (uvmunmap root a (Z.of_nat (length pas)) true) (fun _ k2 => exists ps2,
    vm_inv k2 ps2 T' /\ mem_only k k2 /\ tpages T' ++ ps2 ≡ₚ tpages T ++ ps /\
    outside (tpages T ++ ps) (k_mem k) (k_mem k2) /\
    forall va, 0 <= va < MAXVA -> leaf (k_mem k2) T' va =
      unmap_pages (leaf (k_mem k) T) a (Z.of_nat (length pas)) va) k'.
Proof.
  intros H Hmax Hfl. destruct (grown_pages _ _ _ _ H) as [Hok Hnd].
  apply Forall_app in Hok as [Hok _]. rewrite Forall_forall in Hok.
  eapply wp_mono; [apply (uvmunmap_run k' ps' T' root a pas true)|].
  - apply H.
  - by eapply grown_root.
  - done.
  - done.
  - done.
  - intros i pa Hi. destruct (gb_in _ _ _ _ H i pa 0 Hi ltac:(done)) as [Hl _].
    rewrite Z.add_0_r in Hl. unfold maps_to. rewrite Hl.
    apply list_elem_of_lookup_2 in Hi. pose proof (page_ok_pa _ (Hok _ Hi)) as Hpa.
    split_and!; [by apply mkpte_valid| |by apply mkpte_pa].
    rewrite mkpte_PTE_FLAGS by done. rewrite <- (mkpte_PTE_FLAGS 0) by (done || apply Hperm).
    apply Hfl.
  - intros _. split; [by apply Forall_forall|done].
  - intros [] k2 [[V1 V2 V3] Hlf]. eexists. split_and!; [exact V1|..].
    + eapply mem_only_trans; [apply H|done].
    + rewrite <- (gb_perm _ _ _ _ H), reverse_Permutation. solve_Permutation.
    + eapply outside_trans; [apply H|]. eapply outside_mono; [|exact V3]. intros q Hq.
      rewrite <- (gb_perm _ _ _ _ H). revert Hq. rewrite !elem_of_app. tauto.
    + intros va Hva. rewrite Hlf by done. unfold unmap_pages. destruct (_ && _) eqn:E; [done|].
      apply (gb_rest _ _ _ _ H va Hva). apply andb_false_iff in E as [E|E]; bprop; lia.
Qed.
End grow.

(** ** [uvmalloc] *)

Definition user_perm : Z := Z.lor (Z.lor (Z.lor PTE_W PTE_X) PTE_R) PTE_U.

(** After a failed call: the translation of before, with the range [n] pages
    from [a] unmapped, and no page lost. *)
Definition rolled_back (k : kernel) (ps : list Z) (T : ptree) (a n : Z) (k' : kernel) : Prop :=
  exists ps' T', vm_inv k' ps' T' /\ mem_only k k' /\ T ⊆ T' /\
    tpages T' ++ ps' ≡ₚ tpages T ++ ps /\ outside (tpages T ++ ps) (k_mem k) (k_mem k') /\
    forall va, 0 <= va < MAXVA -> leaf (k_mem k') T' va = unmap_pages (leaf (k_mem k) T) a n va.

Lemma PGROUNDUP_aligned a : a mod 4096 = 0 -> 0 <= a < MAXVA + 1 -> PGROUNDUP a = a.
Proof. intros. rewrite PGROUNDUP_eq by vlia. vlia. Qed.

(** [uvmdealloc] on the part of the range that was mapped. *)
Lemma dealloc_rollback k ps T root a perm content pas k' ps' T' :
  vm_inv k ps T -> T !! [] = Some root -> a mod 4096 = 0 -> 0 <= a ->
  (forall i, 0 <= perm i < 1024) -> (forall i, PTE_FLAGS (mkpte 0 (perm i)) <> PTE_V) ->
  grown_by k ps T a perm content pas k' ps' T' ->
  a + Z.of_nat (length pas) * PGSIZE <= MAXVA ->
  wp (uvmdealloc root (a + Z.of_nat (length pas) * PGSIZE) a)
    (fun _ => rolled_back k ps T a (Z.of_nat (length pas))) k'.
Proof.
  intros Hv Hroot Ha Ha0 Hperm Hfl H Hmax. unfold uvmdealloc. destruct pas as [|pa pas].
  - cbn [length]. destruct (_ <=? a) eqn:E; bprop; [|vlia]. apply wp_ret. exists ps', T'.
    split_and!; [apply H..|]. intros va Hva. rewrite unmap_pages_0. apply (gb_rest _ _ _ _ _ _ _ _ _ _ H va Hva).
    cbn [length]. lia.
  - destruct (_ <=? a) eqn:E; bprop; [cbn [length] in E; vlia|].
    rewrite !PGROUNDUP_aligned by vlia. apply wp_bind.
    destruct (a <? _) eqn:E'; bprop; [|vlia]. unfold when.
    replace ((a + Z.of_nat (length (pa :: pas)) * PGSIZE - a) / PGSIZE) with (Z.of_nat (length (pa :: pas))) by vlia.
    rewrite s32_id, u64_id by vlia.
    eapply wp_mono; [by apply (grow_rollback k ps T root a perm content Hv Hroot Ha Ha0 Hperm _ k' ps' T')|].
    intros [] k2 (ps2 & R1 & R2 & R3 & R4 & R5). apply wp_ret. exists ps2, T'.
    split_and!; [done..|apply H|done|done|done].
Qed.

Definition zero_content (_ : nat) (_ : Z) : Z := 0.

Lemma uvmalloc_loop n : forall k ps T root a newsz pas k' ps' T',
  vm_inv k ps T -> T !! [] = Some root -> a mod 4096 = 0 -> 0 <= a ->
  newsz <= a + (Z.of_nat (length pas) + Z.of_nat n) * PGSIZE -> 
  a + (Z.of_nat (length pas) + Z.of_nat n - 1) * PGSIZE < newsz ->
  a + (Z.of_nat (length pas) + Z.of_nat n) * PGSIZE <= MAXVA ->
  (forall va, a <= va < a + (Z.of_nat (length pas) + Z.of_nat n) * PGSIZE -> pte_valid (leaf (k_mem k) T va) = false) ->
  grown_by k ps T a (fun _ => user_perm) zero_content pas k' ps' T' ->
  (length (tpages T') <= length (tpages T) + 2 * length pas)%nat ->
  wp (loop_with (S n) (a + Z.of_nat (length pas) * PGSIZE) (uvmalloc_body root a newsz)) (fun r k2 =>
    (r = newsz /\ exists pas2 ps2 T2, length pas2 = (length pas + n)%nat /\
       grown_by k ps T a (fun _ => user_perm) zero_content pas2 k2 ps2 T2) \/
    (r = 0 /\ (length ps < 3 * (length pas + n))%nat /\
     exists j, 0 <= j < Z.of_nat (length pas + n) /\ rolled_back k ps T a j k2)) k'.
Proof.
  induction n as [|n IH]; intros k ps T root a newsz pas k' ps' T' Hv Hroot Ha Ha0 H1 H2 H3 Hfree H Hcnt;
    apply wp_loop_S; unfold uvmalloc_body at 1.
  { destruct (_ <? newsz) eqn:E; bprop; [lia|]. apply wp_ret. left. split; [done|].
    exists pas, ps', T'. split; [lia|done]. }
  destruct (_ <? newsz) eqn:E; bprop; [|vlia]. apply wp_bind.
  assert (Hdealloc : forall k2 ps2 T2, grown_by k ps T a (fun _ => user_perm) zero_content pas k2 ps2 T2 ->
    wp (uvmdealloc root (a + Z.of_nat (length pas) * PGSIZE) a)
      (fun _ => rolled_back k ps T a (Z.of_nat (length pas))) k2).
  { intros k2 ps2 T2 H'. by apply (dealloc_rollback k ps T root a (fun _ => user_perm) zero_content pas k2 ps2 T2); try vlia. }
  destruct ps' as [|q ps'].
  - eapply wp_Ok; [apply kalloc_empty; apply (gb_inv _ _ _ _ _ _ _ _ _ _ H)|]. cbn [Z.eqb].
    apply wp_bind. eapply wp_mono; [by eapply Hdealloc|]. intros _z k2 Hr. apply wp_ret. right.
    split_and!; [done| |].
    + pose proof (Permutation_length (gb_perm _ _ _ _ _ _ _ _ _ _ H)) as L. rewrite !length_app in L.
      cbn [length] in L. lia.
    + exists (Z.of_nat (length pas)). split; [lia|done].
  - pose proof (gb_inv _ _ _ _ _ _ _ _ _ _ H) as Hv'.
    destruct (vm_kalloc k' ps' T' q Hv') as (Hrun & _ & Hq & _).
    eapply wp_Ok; [exact Hrun|]. destruct (q =? 0) eqn:E0; bprop; [pose proof (page_ok_pos q Hq); lia|].
    apply wp_bind, wp_modify, wp_bind.
    eapply wp_mono; [apply (grow_step k ps T root a (fun _ => user_perm) zero_content Hv Hroot Ha Ha0 ltac:(done) pas k' q ps' T' _ H Hcnt)|].
    + vlia.
    + intros x Hx. apply Hfree. vlia.
    + apply only_page_memset.
    + intros x Hx. apply page_zero. lia.
    + intros r k2 [(-> & ps2 & T2 & H' & Hc')|(-> & Hc' & Hkf)].
      * cbn [truth Z.eqb negb]. apply wp_ret. rewrite u64_id by vlia.
        replace (a + Z.of_nat (length pas) * PGSIZE + PGSIZE) with (a + Z.of_nat (length (pas ++ [q])) * PGSIZE)
          by (rewrite length_app; cbn [length]; lia).
        eapply wp_mono; [apply (IH k ps T root a newsz (pas ++ [q]) k2 ps2 T2 Hv Hroot Ha Ha0);
          rewrite ?length_app; cbn [length]; try vlia; try done|].
        -- intros va Hva. apply Hfree. vlia.
        -- intros r k3. rewrite length_app. cbn [length].
           by replace (length pas + 1 + n)%nat with (length pas + S n)%nat by lia.
      * cbn [truth Z.eqb negb]. apply wp_bind. eapply wp_mono; [exact Hkf|].
        intros [] k3 (ps3 & T3 & H3'). apply wp_bind. eapply wp_mono; [by eapply Hdealloc|].
        intros _z k4 Hr. apply wp_ret. right. split_and!; [done|lia|].
        exists (Z.of_nat (length pas)). split; [lia|done].
Qed.

(** ** [uvmcopy] *)

Section copy.
(** The child's table [T] with the free pages, and the parent's table [To],
    whose pages the copy does not touch. *)
Context (k : kernel) (ps : list Z) (T : ptree) (root : Z) (To : ptree) (old sz : Z) (n : nat).
Context (Hv : vm_inv k ps T) (Hroot : T !! [] = Some root).
Context (Ho : pt_wf (k_mem k) To) (Hold : To !! [] = Some old).
Context (Hsep : forall q, q ∈ tpages To -> ~ q ∈ (tpages T ++ ps)).
Context (Hn1 : sz <= Z.of_nat n * PGSIZE) (Hn2 : (Z.of_nat n - 1) * PGSIZE < sz).
Context (Hmax : Z.of_nat n * PGSIZE <= MAXVA).

Definition parent_pte (i : nat) : Z := leaf (k_mem k) To (Z.of_nat i * PGSIZE).
Definition parent_perm (i : nat) : Z := PTE_FLAGS (parent_pte i).
Definition parent_content (i : nat) (x : Z) : Z := rd8 (k_mem k) (PTE2PA (parent_pte i) + x).

(** Every page of the parent is mapped, to a page of its own. *)
Context (Hmap : forall i, (i < n)%nat -> maps_to (k_mem k) To (Z.of_nat i * PGSIZE) (PTE2PA (parent_pte i))).
Context (Hpage : forall i, (i < n)%nat ->
  page_ok (PTE2PA (parent_pte i)) /\ ~ PTE2PA (parent_pte i) ∈ (tpages T ++ ps)).
(** The child has no memory yet. *)
Context (Hfree : forall va, 0 <= va < Z.of_nat n * PGSIZE -> pte_valid (leaf (k_mem k) T va) = false).

Lemma parent_perm_range i : 0 <= parent_perm i < 1024.
Proof. unfold parent_perm. rewrite PTE_FLAGS_eq. zlia. Qed.

Lemma odd_flags e : pte_valid e = true -> Z.lor (PTE_FLAGS e) PTE_V = PTE_FLAGS e.
Proof.
  rewrite pte_valid_odd, PTE_FLAGS_eq. intros Hodd. change PTE_V with 1.
  apply Z.bits_inj'. intros m Hm. rewrite Z.lor_spec. destruct (decide (m = 0)) as [->|Hne].
  - change 1024 with (2 ^ 10). rewrite Z.mod_pow2_bits_low, Z.bit0_odd, Hodd by lia. done.
  - replace (Z.testbit 1 m) with false; [apply orb_false_r|].
    symmetry. apply (Z.bits_above_log2 1); cbn; lia.
Qed.

(** The parent's memory as the loop sees it. *)
Lemma parent_same k' q :
  outside (tpages T ++ ps) (k_mem k) (k_mem k') -> page_ok q -> ~ q ∈ (tpages T ++ ps) ->
  page_same q (k_mem k) (k_mem k').
Proof. intros Hout Hq Hnin. exact (outside_page_same _ q _ _ Hout (vm_pages_ok _ _ _ Hv) Hq Hnin). Qed.

Lemma parent_table k' :
  outside (tpages T ++ ps) (k_mem k) (k_mem k') ->
  pt_wf (k_mem k') To /\ forall va, leaf (k_mem k') To va = leaf (k_mem k) To va.
Proof.
  intros Hout.
  assert (Hs : forall q, q ∈ tpages To -> page_same q (k_mem k) (k_mem k')).
  { intros q Hq. apply parent_same; [done|by eapply tpages_ok|by apply Hsep]. }
  split; [by eapply pt_wf_frame|]. intros va. by apply leaf_frame.
Qed.

Abbreviation copied := (grown_by k ps T 0 parent_perm parent_content).

Lemma copy_rollback pas k' ps' T' :
  copied pas k' ps' T' -> (length pas <= n)%nat ->
  wp (uvmcopy_err root (Z.of_nat (length pas) * PGSIZE)) (fun x k2 => x = inr (-1) /\
    rolled_back k ps T 0 (Z.of_nat (length pas)) k2) k'.
Proof.
  intros H Hlen. unfold uvmcopy_err. apply wp_bind.
  replace (Z.of_nat (length pas) * PGSIZE / PGSIZE) with (Z.of_nat (length pas)) by vlia.
  assert (Hfl : forall i pa x, pas !! i = Some pa -> 0 <= x < PGSIZE ->
    leaf (k_mem k') T' (0 + Z.of_nat i * PGSIZE + x) = mkpte pa (parent_perm i)) by (intros; by apply H).
  destruct (grown_pages _ _ _ _ _ _ Hv pas k' ps' T' H) as [Hok Hnd].
  apply Forall_app in Hok as [Hok _]. pose proof Hok as Hok'. rewrite Forall_forall in Hok.
  eapply wp_mono; [apply (uvmunmap_run k' ps' T' root 0 pas true)|].
  - apply (gb_inv _ _ _ _ _ _ _ _ _ _ H).
  - eapply lookup_weaken; [exact Hroot|apply (gb_sub _ _ _ _ _ _ _ _ _ _ H)].
  - done.
  - done.
  - vlia.
  - intros i pa Hi. specialize (Hfl i pa 0 Hi ltac:(done)). rewrite Z.add_0_r in Hfl.
    unfold maps_to. rewrite Hfl. apply lookup_lt_Some in Hi as Hlt. apply list_elem_of_lookup_2 in Hi.
    pose proof (page_ok_pa _ (Hok _ Hi)) as Hpa. pose proof (parent_perm_range i).
    split_and!; [by apply mkpte_valid| |by apply mkpte_pa]. rewrite mkpte_PTE_FLAGS by done.
    destruct (Hmap i ltac:(lia)) as (M1 & M2 & _). unfold parent_perm. rewrite odd_flags by done. done.
  - done.
  - intros [] k2 [[V1 V2 V3] Hlf]. apply wp_ret. split; [done|]. eexists _, T'.
    split_and!; [exact V1|..].
    + eapply mem_only_trans; [apply (gb_only _ _ _ _ _ _ _ _ _ _ H)|done].
    + apply (gb_sub _ _ _ _ _ _ _ _ _ _ H).
    + rewrite <- (gb_perm _ _ _ _ _ _ _ _ _ _ H), reverse_Permutation. solve_Permutation.
    + eapply outside_trans; [apply (gb_out _ _ _ _ _ _ _ _ _ _ H)|]. eapply outside_mono; [|exact V3].
      intros q Hq. rewrite <- (gb_perm _ _ _ _ _ _ _ _ _ _ H). revert Hq. rewrite !elem_of_app. tauto.
    + intros va Hva. rewrite Hlf by done. unfold unmap_pages. destruct (_ && _) eqn:E; [done|].
      apply (gb_rest _ _ _ _ _ _ _ _ _ _ H va Hva). apply andb_false_iff in E as [E|E]; bprop; lia.
Qed.

(** What the copy of page [length pas] puts into the fresh page [q]. *)
Lemma copy_page pas k' q ps' T' m :
  copied pas k' (q :: ps') T' -> (length pas < n)%nat ->
  m = memmove q (PTE2PA (parent_pte (length pas))) PGSIZE (k_mem (kalloc_state q k')) ->
  only_page q (k_mem (kalloc_state q k')) m /\
  forall x, 0 <= x < PGSIZE -> rd8 m (q + x) = parent_content (length pas) x.
Proof.
  intros H Hlt ->. rewrite memmove_copies by done. split.
  - intros x Hx. apply rd8_wr_bytes_out. rewrite rd_bytes_length. vlia.
  - intros x Hx. destruct (Hpage _ Hlt) as [Hpok Hpnin]. set (pa := PTE2PA _) in *.
    replace (q + x) with (q + Z.of_nat (Z.to_nat x)) by lia.
    erewrite rd8_wr_bytes_in by (apply rd_bytes_lookup; vlia).
    rewrite u8_id, Z2Nat.id by (apply rd8_range || lia).
    pose proof (gb_inv _ _ _ _ _ _ _ _ _ _ H) as Hv'.
    destruct (vm_kalloc k' ps' T' q Hv') as (_ & _ & Hq & Hnin & _).
    assert (Hqin : q ∈ tpages T ++ ps).
    { rewrite <- (gb_perm _ _ _ _ _ _ _ _ _ _ H), !elem_of_app, elem_of_cons. tauto. }
    rewrite (kalloc_state_only q k'); [|destruct (pages_disjoint q pa Hq Hpok); [by intros ->|lia|lia]].
    apply (parent_same k' pa); [apply (gb_out _ _ _ _ _ _ _ _ _ _ H)|done|done|lia].
Qed.

Lemma uvmcopy_loop j : forall pas k' ps' T',
  (length pas + j = n)%nat -> copied pas k' ps' T' ->
  (length (tpages T') <= length (tpages T) + 2 * length pas)%nat ->
  wp (loop_with (S j) (Z.of_nat (length pas) * PGSIZE) (uvmcopy_body old root sz)) (fun r k2 =>
    (r = 0 /\ exists pas2 ps2 T2, length pas2 = n /\ copied pas2 k2 ps2 T2) \/
    (r = -1 /\ (length ps < 3 * n)%nat /\
     exists i, 0 <= i < Z.of_nat n /\ rolled_back k ps T 0 i k2)) k'.
Proof.
  induction j as [|j IH]; intros pas k' ps' T' Hlen H Hcnt; apply wp_loop_S; unfold uvmcopy_body at 1.
  { destruct (_ <? sz) eqn:E; bprop; [vlia|]. apply wp_ret. left. split; [done|].
    exists pas, ps', T'. split; [lia|done]. }
  destruct (_ <? sz) eqn:E; bprop; [|vlia]. apply wp_bind.
  destruct (parent_table k' (gb_out _ _ _ _ _ _ _ _ _ _ H)) as [Hwf Hlf].
  destruct (Hmap (length pas) ltac:(lia)) as (M1 & M2 & _). fold (parent_pte (length pas)) in M1, M2.
  destruct (To !! path (Z.of_nat (length pas) * PGSIZE)) as [b|] eqn:Hb;
    [|unfold parent_pte, leaf in M1; by rewrite Hb in M1].
  eapply wp_Ok; [apply (walk_present k' To old (Z.of_nat (length pas) * PGSIZE) b false Hwf Hold ltac:(vlia) Hb)|].
  pose proof (page_ok_pos b (pt_page_ok _ _ _ _ Ho Hb)). pose proof (PX_range 0 (Z.of_nat (length pas) * PGSIZE)).
  destruct (_ =? 0) eqn:E0; bprop; [lia|]. clear E0. apply wp_bind, wp_gets.
  replace (rd64 (k_mem k') _) with (parent_pte (length pas))
    by (unfold parent_pte; rewrite <- Hlf; unfold leaf; by rewrite Hb).
  rewrite M1. cbn [negb]. cbv zeta. apply wp_bind. destruct ps' as [|q ps'].
  - eapply wp_Ok; [apply kalloc_empty; apply (gb_inv _ _ _ _ _ _ _ _ _ _ H)|]. cbn [Z.eqb].
    eapply wp_mono; [by eapply copy_rollback; [exact H|lia]|]. intros x k2 [-> Hr]. right.
    split_and!; [done| |exists (Z.of_nat (length pas)); split; [lia|done]].
    pose proof (Permutation_length (gb_perm _ _ _ _ _ _ _ _ _ _ H)) as L. rewrite !length_app in L.
    cbn [length] in L. lia.
  - pose proof (gb_inv _ _ _ _ _ _ _ _ _ _ H) as Hv'.
    destruct (vm_kalloc k' ps' T' q Hv') as (Hrun & _ & Hq & _).
    eapply wp_Ok; [exact Hrun|]. destruct (q =? 0) eqn:E0; bprop; [pose proof (page_ok_pos q Hq); lia|].
    apply wp_bind, wp_modify, wp_bind.
    destruct (copy_page pas k' q ps' T' _ H ltac:(lia) eq_refl) as [Hop Hct].
    fold (parent_perm (length pas)).
    eapply wp_mono; [apply (grow_step k ps T root 0 parent_perm parent_content Hv Hroot eq_refl
      ltac:(lia) parent_perm_range pas k' q ps' T' _ H Hcnt ltac:(vlia)); [|exact Hop|exact Hct]|].
    + intros x Hx. apply Hfree. vlia.
    + intros r k2 [(-> & ps2 & T2 & H' & Hc')|(-> & Hc' & Hkf)]; cbn [truth Z.eqb negb].
      * apply wp_ret. rewrite u64_id by vlia.
        replace (Z.of_nat (length pas) * PGSIZE + PGSIZE) with (Z.of_nat (length (pas ++ [q])) * PGSIZE)
          by (rewrite length_app; cbn [length]; lia).
        apply (IH (pas ++ [q]) k2 ps2 T2); [rewrite length_app; cbn; lia|done|].
        rewrite length_app. cbn [length]. lia.
      * apply wp_bind. eapply wp_mono; [exact Hkf|]. intros [] k3 (ps3 & T3 & H3).
        eapply wp_mono; [by eapply copy_rollback; [exact H3|lia]|]. intros x k4 [-> Hr]. right.
        split_and!; [done|lia|]. exists (Z.of_nat (length pas)). split; [lia|done].
Qed.
End copy.
End uvm.
