(* ===== verification/UserMem.v ===== *)
(** * Reading and writing user memory

    [uread] is the byte a user program sees at a virtual address, through
    the page table.  [copyin], [copyinstr] and [copyout] are related to it:
    what they transfer, where they stop, and what they leave alone. *)

From S2P Require Export Uvm.

(** The physical page user code sees at [va], 0 if none. *)
Definition upage (m : gmap Z Z) (T : ptree) (va : Z) : Z :=
  let va0 := va / 4096 * 4096 in
  let e := leaf m T va0 in
  if (0 <=? va0) && (va0 <? MAXVA) && pte_valid e && pte_user e then PTE2PA e else 0.

Definition uread (m : gmap Z Z) (T : ptree) (va : Z) : option Z :=
  if upage m T va =? 0 then None else Some (rd8 m (upage m T va + va mod 4096)).

Section usermem.
Context {LY : Layout}.

Lemma upage_same m T va va' : va / 4096 = va' / 4096 -> upage m T va = upage m T va'.
Proof. unfold upage. by intros ->. Qed.

(** [walkaddr] at the start of the page of [va]. *)
Lemma walkaddr_upage k T root va :
  pt_wf (k_mem k) T -> T !! [] = Some root -> 0 <= va < 18446744073709551616 ->
  walkaddr root (PGROUNDDOWN va) k = Ok (upage (k_mem k) T va) k.
Proof.
  intros Hwf Hroot Hva. rewrite PGROUNDDOWN_eq by done.
  rewrite (walkaddr_run k T) by (done || zlia). unfold upage.
  destruct (0 <=? va / 4096 * 4096) eqn:E; bprop; [done|zlia].
Qed.

(** The bytes of one chunk of a copy: [n] bytes at [va], within a page. *)
Lemma uread_chunk m T va n i :
  upage m T va <> 0 -> va mod 4096 + Z.of_nat n <= 4096 -> (i < n)%nat ->
  uread m T (va + Z.of_nat i) = Some (rd8 m (upage m T va + va mod 4096 + Z.of_nat i)).
Proof.
  intros Hp Hn Hi. unfold uread.
  assert (Hq : (va + Z.of_nat i) / 4096 = va / 4096) by zlia.
  rewrite (upage_same m T (va + Z.of_nat i) va Hq).
  destruct (_ =? 0) eqn:E; bprop; [done|]. do 2 f_equal. zlia.
Qed.

Lemma uread_None m T va : upage m T va = 0 -> uread m T va = None.
Proof. unfold uread. by intros ->. Qed.

(** The number of rounds a copy needs, one more than the pages it touches. *)
Definition rounds (va len : Z) : Z := (va mod 4096 + len + 4095) / 4096 + 1.

Lemma copy_fuel_enough va len : 0 <= len -> rounds va len <= Z.of_nat (copy_fuel len).
Proof. intros. unfold rounds, copy_fuel. vlia. Qed.

(** The length of the first chunk. *)
Definition chunk (va len : Z) : Z :=
  let n := 4096 - va mod 4096 in if len <? n then len else n.

Lemma chunk_range va len : 0 < len -> 0 < chunk va len <= len /\ va mod 4096 + chunk va len <= 4096.
Proof. intros. unfold chunk. destruct (len <? _) eqn:E; bprop; zlia. Qed.

(** The code's expression for it. *)
Lemma chunk_code va len :
  0 <= va < 18446744073709551616 ->
  (if len <? PGSIZE - (va - PGROUNDDOWN va) then len else PGSIZE - (va - PGROUNDDOWN va)) = chunk va len.
Proof.
  intros. rewrite PGROUNDDOWN_eq by done. unfold chunk. change PGSIZE with 4096.
  replace (va - va / 4096 * 4096) with (va mod 4096) by zlia. done.
Qed.

Lemma offset_code va : 0 <= va < 18446744073709551616 -> va - PGROUNDDOWN va = va mod 4096.
Proof. intros. rewrite PGROUNDDOWN_eq by done. zlia. Qed.

(** After a chunk the copy is finished, or continues at [va + chunk]. *)
Lemma chunk_next va len :
  0 <= va < 18446744073709551616 -> 0 < len -> va + len <= 18446744073709551616 ->
  0 <= u64 (PGROUNDDOWN va + PGSIZE) < 18446744073709551616 /\
  rounds (u64 (PGROUNDDOWN va + PGSIZE)) (len - chunk va len) + 1 <= rounds va len /\
  u64 (PGROUNDDOWN va + PGSIZE) + (len - chunk va len) <= 18446744073709551616 /\
  (len - chunk va len = 0 \/ u64 (PGROUNDDOWN va + PGSIZE) = va + chunk va len).
Proof.
  intros Hva Hlen Hmax. split; [apply u64_range|]. rewrite PGROUNDDOWN_eq by done.
  change PGSIZE with 4096. unfold chunk, rounds.
  destruct (len <? _) eqn:E; bprop.
  - unfold u64. zlia.
  - destruct (decide (va / 4096 * 4096 + 4096 = 18446744073709551616)) as [Heq|Hne].
    + rewrite Heq. change (u64 18446744073709551616) with 0. zlia.
    + rewrite u64_id by zlia. zlia.
Qed.

(** ** [copyin] *)

Lemma copyin_loop k T root (Hwf : pt_wf (k_mem k) T) (Hroot : T !! [] = Some root) fuel :
  forall srcva len dst,
  0 <= srcva < 18446744073709551616 -> 0 <= len -> srcva + len <= 18446744073709551616 ->
  rounds srcva len <= Z.of_nat fuel ->
  exists r bs, loop_with fuel (srcva, len, dst) (copyin_body root) k = Ok (r, dst ++ bs) k /\
    (forall i b, bs !! i = Some b -> uread (k_mem k) T (srcva + Z.of_nat i) = Some b) /\
    (r = 0 /\ Z.of_nat (length bs) = len \/
     r = -1 /\ Z.of_nat (length bs) < len /\
       uread (k_mem k) T (srcva + Z.of_nat (length bs)) = None).
Proof.
  induction fuel as [|fuel IH]; intros srcva len dst Hva Hlen Hmax Hfuel.
  { unfold rounds in Hfuel. zlia. }
  cbn [loop_with copyin_body]. destruct (0 <? len) eqn:E; bprop.
  2:{ exists 0, []. rewrite bind_ret, app_nil_r. split_and!; [done|done|left; split; [done|cbn; lia]]. }
  rewrite bind_assoc. erewrite run_bind by (by apply walkaddr_upage).
  destruct (upage (k_mem k) T srcva =? 0) eqn:E0; bprop.
  { exists (-1), []. rewrite bind_ret, app_nil_r. split_and!; [done|done|right]. cbn [length].
    rewrite Z.add_0_r. split_and!; [done|lia|by apply uread_None]. }
  rewrite chunk_code, offset_code by done. set (n := chunk srcva len).
  pose proof (chunk_range srcva len ltac:(lia)) as Hc. fold n in Hc.
  pose proof (chunk_next srcva len Hva ltac:(lia) Hmax) as (N1 & N2 & N3 & N4). fold n in N2, N3, N4.
  mrun. set (pa := upage (k_mem k) T srcva) in *.
  set (bs0 := rd_bytes (k_mem k) (pa + srcva mod 4096) (Z.to_nat n)).
  destruct (IH (u64 (PGROUNDDOWN srcva + PGSIZE)) (len - n) (dst ++ bs0)) as (r & bs & Hrun & Hbs & Hr);
    [done|lia|done|lia|].
  exists r, (bs0 ++ bs). rewrite Hrun, <- app_assoc. split; [done|].
  assert (Hl0 : length bs0 = Z.to_nat n) by apply rd_bytes_length.
  assert (Hnext : len - n <> 0 -> srcva + n = u64 (PGROUNDDOWN srcva + PGSIZE)) by lia.
  split.
  - intros i b Hi. apply lookup_app_Some in Hi as [Hi|[Hge Hi]].
    + apply lookup_lt_Some in Hi as Hlt. rewrite Hl0 in Hlt.
      rewrite (uread_chunk _ _ _ (Z.to_nat n)) by (done || lia). fold pa.
      unfold bs0 in Hi. rewrite rd_bytes_lookup in Hi by done. by rewrite <- Hi.
    + rewrite Hl0 in Hge, Hi. specialize (Hbs _ _ Hi). rewrite <- Hbs. f_equal.
      apply lookup_lt_Some in Hi. rewrite <- Hnext by (destruct Hr; lia). lia.
  - rewrite length_app, Hl0. destruct Hr as [[-> Hr]|(-> & Hr & Hu)]; [left|right]; split_and!; try lia.
    rewrite <- Hu. f_equal. rewrite <- Hnext by lia. lia.
Qed.

Lemma copyin_run k T root srcva len :
  pt_wf (k_mem k) T -> T !! [] = Some root ->
  0 <= srcva < 18446744073709551616 -> 0 <= len -> srcva + len <= 18446744073709551616 ->
  exists r bs, copyin root srcva len k = Ok (r, bs) k /\
    (forall i b, bs !! i = Some b -> uread (k_mem k) T (srcva + Z.of_nat i) = Some b) /\
    (r = 0 /\ Z.of_nat (length bs) = len \/
     r = -1 /\ Z.of_nat (length bs) < len /\
       uread (k_mem k) T (srcva + Z.of_nat (length bs)) = None).
Proof.
  intros Hwf Hroot Hva Hlen Hmax.
  by apply (copyin_loop k T root Hwf Hroot (copy_fuel len) srcva len []), copy_fuel_enough.
Qed.

(** ** [copyout] *)

(** User pages are allocator pages, not part of the table, and no two virtual
    pages share one. *)
Definition user_ok (m : gmap Z Z) (T : ptree) : Prop :=
  (forall va, upage m T va <> 0 -> page_ok (upage m T va) /\ ~ upage m T va ∈ tpages T) /\
  (forall va va', upage m T va <> 0 -> upage m T va = upage m T va' -> va / 4096 = va' / 4096).

(** [m'] is [m] except for bytes of user pages. *)
Definition user_only (T : ptree) (m m' : gmap Z Z) : Prop :=
  forall x, (forall va, upage m T va <> 0 -> ~ (upage m T va <= x < upage m T va + PGSIZE)) ->
  rd8 m' x = rd8 m x.

(** User memory after [len] bytes of [src] are stored at [dstva]. *)
Definition ustored (m : gmap Z Z) (T : ptree) (dstva : Z) (src : Z -> Z) (len : Z) (va : Z) : option Z :=
  if (dstva <=? va) && (va <? dstva + len) then Some (u8 (src (va - dstva))) else uread m T va.

Section write.
Context (m : gmap Z Z) (T : ptree) (Hwf : pt_wf m T) (Hu : user_ok m T).

(** One chunk written to the page of [dstva]. *)
Context (dstva : Z) (src : Z -> Z) (n : nat).
Context (Hp : upage m T dstva <> 0) (Hn : dstva mod 4096 + Z.of_nat n <= 4096).
Let pa := upage m T dstva.
Let m' := wr_bytes (pa + dstva mod 4096) (rd_src src n) m.

Lemma write_only : only_page pa m m'.
Proof.
  intros x Hx. apply rd8_wr_bytes_out. rewrite rd_src_length. change PGSIZE with 4096 in Hx. zlia.
Qed.

Lemma write_table a : a ∈ tpages T -> page_same a m m'.
Proof.
  intros Ha. destruct (proj1 Hu dstva Hp) as [Hok Hnin].
  apply (only_page_same pa a); [apply write_only|done|by eapply tpages_ok|]. intros <-. done.
Qed.

Lemma write_wf : pt_wf m' T.
Proof. eapply pt_wf_frame; [|done]. apply write_table. Qed.

Lemma write_upage va : upage m' T va = upage m T va.
Proof. unfold upage. by rewrite (leaf_frame m m' T _ write_table). Qed.

Lemma write_user_ok : user_ok m' T.
Proof.
  destruct Hu as [U1 U2]. split.
  - intros va. rewrite write_upage. apply U1.
  - intros va va'. rewrite !write_upage. apply U2.
Qed.

Lemma write_uread va : uread m' T va = ustored m T dstva src (Z.of_nat n) va.
Proof.
  unfold ustored, uread. rewrite write_upage.
  destruct (decide (va / 4096 = dstva / 4096)) as [Hpg|Hpg].
  - rewrite (upage_same m T va dstva Hpg). fold pa.
    destruct (pa =? 0) eqn:E; bprop; [done|]. destruct (_ && _) eqn:Er.
    + bprop. f_equal.
      replace (pa + va mod 4096) with (pa + dstva mod 4096 + Z.of_nat (Z.to_nat (va - dstva))) by zlia.
      unfold m'. erewrite rd8_wr_bytes_in by (apply rd_src_lookup; lia).
      rewrite u8_idem. do 2 f_equal. lia.
    + f_equal. apply rd8_wr_bytes_out. rewrite rd_src_length.
      apply andb_false_iff in Er as [Er|Er]; bprop; zlia.
  - destruct (_ && _) eqn:Er; [bprop; exfalso; apply Hpg; zlia|].
    destruct (upage m T va =? 0) eqn:E; bprop; [done|]. f_equal. apply write_only.
    destruct (proj1 Hu va E) as [Hok _]. destruct (proj1 Hu dstva Hp) as [Hok' _].
    change PGSIZE with 4096.
    destruct (pages_disjoint (upage m T va) pa Hok Hok') as [Hd|Hd]; [|change PGSIZE with 4096 in Hd; zlia..].
    intros Heq. apply Hpg. by apply (proj2 Hu).
Qed.
End write.

Lemma user_only_refl T m : user_only T m m.
Proof. done. Qed.

Lemma ustored_step m T dstva src n len va m1 :
  (forall va, uread m1 T va = ustored m T dstva src n va) ->
  0 <= n -> 0 <= len ->
  ustored m1 T (dstva + n) (ptr_add src n) len va = ustored m T dstva src (n + len) va.
Proof.
  intros Hm Hn Hl. unfold ustored at 1. rewrite Hm. unfold ustored, ptr_add.
  repeat match goal with |- context [?x <=? ?y] => destruct (Z.leb_spec x y)
    | |- context [?x <? ?y] => destruct (Z.ltb_spec x y) end; cbn [andb]; try lia; try done.
  do 3 f_equal. lia.
Qed.

Lemma copyout_loop T root (Hroot : T !! [] = Some root) fuel :
  forall k dstva src len,
  pt_wf (k_mem k) T -> user_ok (k_mem k) T ->
  0 <= dstva < 18446744073709551616 -> 0 <= len -> dstva + len <= 18446744073709551616 ->
  rounds dstva len <= Z.of_nat fuel ->
  exists r m' d, loop_with fuel (dstva, src, len) (copyout_body root) k = Ok r (set_mem m' k) /\
    (r = 0 /\ d = len \/ r = -1 /\ 0 <= d < len /\ uread (k_mem k) T (dstva + d) = None) /\
    (forall va, uread m' T va = ustored (k_mem k) T dstva src d va) /\
    pt_wf m' T /\ user_ok m' T /\ user_only T (k_mem k) m' /\
    (forall va, upage m' T va = upage (k_mem k) T va).
Proof.
  induction fuel as [|fuel IH]; intros k dstva src len Hwf Hu Hva Hlen Hmax Hfuel.
  { unfold rounds in Hfuel. zlia. }
  assert (Hnil : forall va, uread (k_mem k) T va = ustored (k_mem k) T dstva src 0 va).
  { intros va. unfold ustored. destruct (_ && _) eqn:E; [bprop; lia|done]. }
  assert (Hk : k = set_mem (k_mem k) k) by (by destruct k).
  cbn [loop_with copyout_body]. destruct (0 <? len) eqn:E; bprop.
  2:{ exists 0, (k_mem k), 0. rewrite bind_ret, <- Hk.
      split_and!; [done|left; lia|done..]. }
  rewrite bind_assoc. erewrite run_bind by (by apply walkaddr_upage).
  destruct (upage (k_mem k) T dstva =? 0) eqn:E0; bprop.
  { exists (-1), (k_mem k), 0. rewrite bind_ret, <- Hk. rewrite Z.add_0_r.
    split_and!; [done|right; split_and!; [done|lia|lia|by apply uread_None]|done..]. }
  rewrite chunk_code, offset_code by done. set (n := chunk dstva len).
  pose proof (chunk_range dstva len ltac:(lia)) as Hc. fold n in Hc.
  pose proof (chunk_next dstva len Hva ltac:(lia) Hmax) as (N1 & N2 & N3 & N4). fold n in N2, N3, N4.
  mrun. unfold memmove_from. rewrite u32_id by zlia.
  set (m1 := wr_bytes _ _ (k_mem k)).
  pose proof (write_wf (k_mem k) T Hwf Hu dstva src (Z.to_nat n) E0 ltac:(lia) : pt_wf m1 T) as W1.
  pose proof (write_user_ok (k_mem k) T Hwf Hu dstva src (Z.to_nat n) E0 ltac:(lia) : user_ok m1 T) as W2.
  pose proof (write_upage (k_mem k) T Hwf Hu dstva src (Z.to_nat n) E0 ltac:(lia) : forall va, upage m1 T va = _) as W3.
  pose proof (write_uread (k_mem k) T Hwf Hu dstva src (Z.to_nat n) E0 ltac:(lia) : forall va, uread m1 T va = _) as W4.
  rewrite Z2Nat.id in W4 by lia.
  pose proof (write_only (k_mem k) T dstva src (Z.to_nat n) ltac:(lia) : only_page _ _ m1) as W5.
  destruct (IH (set_mem m1 k) (u64 (PGROUNDDOWN dstva + PGSIZE)) (ptr_add src n) (len - n))
    as (r & m' & d & Hrun & Hr & Hst & Hwf' & Hu' & Hon & Hup); [done|done|done|lia|done|lia|].
  cbn [k_mem set_mem] in *.
  assert (Hstep : forall d va, 0 <= d <= len - n ->
    ustored m1 T (u64 (PGROUNDDOWN dstva + PGSIZE)) (ptr_add src n) d va = ustored (k_mem k) T dstva src (n + d) va).
  { intros d' va Hd. destruct (decide (len - n = 0)) as [Hz|Hz].
    - assert (d' = 0) as -> by lia. rewrite Z.add_0_r, <- W4. unfold ustored.
      destruct (_ && _) eqn:E'; [bprop; lia|done].
    - destruct N4 as [?| ->]; [lia|]. apply ustored_step; [done|lia|lia]. }
  exists r, m', (n + d). split_and!; [exact Hrun| | |done|done| |].
  - destruct Hr as [[-> ->]|(-> & Hd & Hnone)]; [left; lia|right]. split_and!; [done|lia|lia|].
    destruct N4 as [?|Heq]; [lia|]. rewrite Heq, W4 in Hnone. unfold ustored in Hnone.
    replace (dstva + (n + d)) with (dstva + n + d) by lia. destruct (_ && _); [done|]. exact Hnone.
  - intros va. rewrite Hst. apply Hstep. lia.
  - intros x Hx. rewrite Hon; [apply W5; by apply Hx|]. intros va. rewrite W3. apply Hx.
  - intros va. by rewrite Hup, W3.
Qed.

Lemma copyout_run k T root dstva src len :
  pt_wf (k_mem k) T -> T !! [] = Some root -> user_ok (k_mem k) T ->
  0 <= dstva < 18446744073709551616 -> 0 <= len -> dstva + len <= 18446744073709551616 ->
  exists r m' d, copyout root dstva src len k = Ok r (set_mem m' k) /\
    (r = 0 /\ d = len \/ r = -1 /\ 0 <= d < len /\ uread (k_mem k) T (dstva + d) = None) /\
    (forall va, uread m' T va = ustored (k_mem k) T dstva src d va) /\
    pt_wf m' T /\ user_ok m' T /\ user_only T (k_mem k) m' /\
    (forall va, upage m' T va = upage (k_mem k) T va).
Proof.
  intros Hwf Hroot Hu Hva Hlen Hmax.
  apply (copyout_loop T root Hroot (copy_fuel len) k dstva src len); try done.
  by apply copy_fuel_enough.
Qed.

(** ** [copyinstr] *)

Lemma copyinstr_page_spec n : forall p bs g,
  copyinstr_page n p = (bs, g) ->
  (forall i b, bs !! i = Some b -> b = p (Z.of_nat i)) /\ (length bs <= n)%nat /\
  if g : bool then exists s, bs = s ++ [0] /\ Forall (fun b => b <> 0) s
  else length bs = n /\ Forall (fun b => b <> 0) bs.
Proof.
  induction n as [|n IH]; intros p bs g; cbn [copyinstr_page].
  { intros [= <- <-]. split_and!; [done|done|done|constructor]. }
  destruct (p 0 =? 0) eqn:E; bprop.
  { intros [= <- <-]. split_and!; [|cbn; lia|exists []; split; [done|constructor]].
    intros [|i] b; cbn; [|done]. intros [= <-]. symmetry; exact E. }
  destruct (copyinstr_page n (ptr_add p 1)) as [bs' g'] eqn:Er. intros [= <- <-].
  destruct (IH _ _ _ Er) as (H1 & H2 & H3). split_and!; [|cbn; lia|].
  - intros [|i] b; cbn [lookup list_lookup]; [intros [= <-]; f_equal; lia|].
    intros Hi. rewrite (H1 i b Hi). unfold ptr_add. f_equal. lia.
  - destruct g'.
    + destruct H3 as (s & -> & Hs). exists (p 0 :: s). split; [done|]. by constructor.
    + destruct H3 as [<- Hs]. split; [done|]. by constructor.
Qed.

(** The outcome of reading a string of at most [max] bytes at [srcva]. *)
Definition instr_post (m : gmap Z Z) (T : ptree) (srcva max r : Z) (bs : list Z) : Prop :=
  (forall i b, bs !! i = Some b -> uread m T (srcva + Z.of_nat i) = Some b) /\
  (r = 0 /\ Z.of_nat (length bs) <= max /\ (exists s, bs = s ++ [0] /\ Forall (fun b => b <> 0) s) \/
   r = -1 /\ Forall (fun b => b <> 0) bs /\
     (Z.of_nat (length bs) = max \/
      Z.of_nat (length bs) < max /\ uread m T (srcva + Z.of_nat (length bs)) = None)).

Lemma copyinstr_loop k T root (Hwf : pt_wf (k_mem k) T) (Hroot : T !! [] = Some root) fuel :
  forall srcva max dst,
  0 <= srcva < 18446744073709551616 -> 0 <= max -> srcva + max <= 18446744073709551616 ->
  rounds srcva max <= Z.of_nat fuel ->
  exists r bs, loop_with fuel (srcva, max, dst) (copyinstr_body root) k = Ok (r, dst ++ bs) k /\
    instr_post (k_mem k) T srcva max r bs.
Proof.
  unfold instr_post. induction fuel as [|fuel IH]; intros srcva max dst Hva Hlen Hmax Hfuel.
  { unfold rounds in Hfuel. zlia. }
  cbn [loop_with copyinstr_body]. destruct (0 <? max) eqn:E; bprop.
  2:{ exists (-1), []. rewrite bind_ret, app_nil_r. split_and!; [done|done|right].
      split_and!; [done|constructor|left; cbn; lia]. }
  rewrite bind_assoc. erewrite run_bind by (by apply walkaddr_upage).
  destruct (upage (k_mem k) T srcva =? 0) eqn:E0; bprop.
  { exists (-1), []. rewrite bind_ret, app_nil_r. split_and!; [done|done|right]. cbn [length].
    rewrite Z.add_0_r. split_and!; [done|constructor|right; split; [lia|by apply uread_None]]. }
  rewrite chunk_code, offset_code by done. set (n := chunk srcva max).
  pose proof (chunk_range srcva max ltac:(lia)) as Hc. fold n in Hc.
  pose proof (chunk_next srcva max Hva ltac:(lia) Hmax) as (N1 & N2 & N3 & N4). fold n in N2, N3, N4.
  mrun. set (pa := upage (k_mem k) T srcva) in *.
  destruct (copyinstr_page _ _) as [bs0 g] eqn:Ep.
  destruct (copyinstr_page_spec _ _ _ _ Ep) as (P1 & P2 & P3).
  assert (Hin : forall i b, bs0 !! i = Some b -> uread (k_mem k) T (srcva + Z.of_nat i) = Some b).
  { intros i b Hi. apply lookup_lt_Some in Hi as Hlt. rewrite (P1 i b Hi).
    by rewrite (uread_chunk _ _ _ (Z.to_nat n)) by (done || lia). }
  destruct g.
  { destruct P3 as (s & -> & Hs). exists 0, (s ++ [0]). split; [done|]. split; [done|left].
    split_and!; [done|lia|by exists s]. }
  destruct P3 as [P3 P4].
  destruct (IH (u64 (PGROUNDDOWN srcva + PGSIZE)) (max - n) (dst ++ bs0)) as (r & bs & Hrun & Hbs & Hr);
    [done|lia|done|lia|].
  exists r, (bs0 ++ bs). rewrite bind_ret, Hrun, <- app_assoc. split; [done|].
  assert (Hlbs : Z.of_nat (length bs) <= max - n) by lia.
  assert (Hnext : max - n <> 0 -> srcva + n = u64 (PGROUNDDOWN srcva + PGSIZE)) by lia.
  split.
  - intros i b Hi. apply lookup_app_Some in Hi as [Hi|[Hge Hi]]; [by apply Hin|].
    rewrite P3 in Hge, Hi. rewrite <- (Hbs _ _ Hi). f_equal. apply lookup_lt_Some in Hi.
    rewrite <- Hnext by lia. lia.
  - rewrite length_app, P3. destruct Hr as [(-> & Hr & s & -> & Hs)|(-> & Hs & Hr)]; [left|right].
    + split_and!; [done|lia|]. exists (bs0 ++ s). rewrite app_assoc. split; [done|]. by apply Forall_app.
    + split_and!; [done|by apply Forall_app|]. destruct Hr as [Hr|[Hr Hu]]; [left; lia|right].
      split; [lia|]. rewrite <- Hu. f_equal. rewrite <- Hnext by lia. lia.
Qed.

Lemma copyinstr_run k T root srcva max :
  pt_wf (k_mem k) T -> T !! [] = Some root ->
  0 <= srcva < 18446744073709551616 -> 0 <= max -> srcva + max <= 18446744073709551616 ->
  exists r bs, copyinstr root srcva max k = Ok (r, bs) k /\ instr_post (k_mem k) T srcva max r bs.
Proof.
  intros Hwf Hroot Hva Hlen Hmax.
  by apply (copyinstr_loop k T root Hwf Hroot (copy_fuel max) srcva max []), copy_fuel_enough.
Qed.
End usermem.
