(* ===== verification/VmSpec.v ===== *)
(** * Correctness of kernel/vm.c

    The theorems on the virtual-memory code: what each operation returns,
    what it does to the translation, and which pages it takes or gives back;
    with a small concrete machine on which their hypotheses hold. *)

From S2P Require Export UserMem.

Section vmspec.
Context {LY : Layout}.

(** C18. [mappages] on an unmapped, page-aligned range returns 0 with exactly
    that range mapped to consecutive pages with the given permission, or -1,
    only when the allocator is empty, with a proper prefix of it mapped.  No
    other translation changes, the tree stays well formed, only table and
    free pages are written, and every page used comes from the free list.
    A range whose first page is mapped already panics. *)
Theorem mappages_spec k ps T root va size pa perm :
  vm_inv k ps T -> T !! [] = Some root ->
  va mod 4096 = 0 -> size mod 4096 = 0 -> 0 <= va -> 0 < size -> va + size <= MAXVA ->
  pa mod 4096 = 0 -> 0 <= pa -> pa + size <= 2 ^ 56 -> 0 <= perm < 1024 ->
  ((forall x, va <= x < va + size -> pte_valid (leaf (k_mem k) T x) = false) ->
   exists r k' ps' T' j, mappages root va size pa perm k = Ok r k' /\
     vm_ext k ps T k' ps' T' /\
     (r = 0 /\ j = size / 4096 \/ r = -1 /\ ps' = [] /\ 0 <= j < size / 4096) /\
     forall x, 0 <= x < MAXVA ->
       leaf (k_mem k') T' x = map_pages (leaf (k_mem k) T) va j pa perm x) /\
  (pte_valid (leaf (k_mem k) T va) = true -> mappages root va size pa perm k = Panic "remap").
Proof.
  intros Hv Hroot Ha Hs Ha0 Hs0 Hm Hpa Hpa0 Hpam Hperm. split.
  - intros Hfree. destruct (wp_inv _ _ _ (mappages_run k ps T root va size pa perm Hv Hroot Ha Hs
      Ha0 Hs0 Hm Hpa Hpa0 Hpam Hperm Hfree)) as (r & k' & Hrun & ps' & T' & j & Hext & Hr & Hlf).
    exists r, k', ps', T', j. split_and!; [done|done| |done].
    destruct Hr as [(-> & -> & _)|(-> & -> & Hj & _)]; [by left|by right].
  - intros Hval. apply (mappages_remap k T); [apply Hv|done|done|vlia|done].
Qed.

(** C19. [uvmunmap] of mapped pages removes exactly their translations; with
    [do_free] the pages return to the free list, without it the allocator is
    untouched.  A misaligned address panics. *)
Theorem uvmunmap_spec k ps T root va pas do_free :
  vm_inv k ps T -> T !! [] = Some root -> 0 <= va ->
  va + Z.of_nat (length pas) * PGSIZE <= MAXVA ->
  (forall i pa, pas !! i = Some pa -> maps_to (k_mem k) T (va + Z.of_nat i * PGSIZE) pa) ->
  (do_free = true -> Forall page_ok pas /\ NoDup (pas ++ tpages T ++ ps)) ->
  (va mod 4096 = 0 -> exists k',
     uvmunmap root va (Z.of_nat (length pas)) do_free k = Ok tt k' /\
     vm_inv k' (if do_free then reverse pas ++ ps else ps) T /\ mem_only k k' /\
     outside (tpages T ++ if do_free then pas else []) (k_mem k) (k_mem k') /\
     forall x, 0 <= x < MAXVA ->
       leaf (k_mem k') T x = unmap_pages (leaf (k_mem k) T) va (Z.of_nat (length pas)) x) /\
  (va mod 4096 <> 0 ->
     uvmunmap root va (Z.of_nat (length pas)) do_free k = Panic "uvmunmap: not aligned").
Proof.
  intros Hv Hroot Ha0 Hmax Hmap Hfree. split.
  - intros Ha. destruct (wp_inv _ _ _ (uvmunmap_run k ps T root va pas do_free Hv Hroot Ha Ha0 Hmax
      Hmap Hfree)) as ([] & k' & Hrun & [V1 V2 V3] & Hlf).
    by exists k'.
  - intros Ha. unfold uvmunmap. change PGSIZE with 4096. unfold truth.
    by destruct (va mod 4096 =? 0) eqn:E; bprop.
Qed.

(** [uvmalloc] grows an address space by whole pages: on success every
    page of the range is a distinct page taken from the free list, filled
    with zeros and mapped user-readable, -writable and -executable, and no
    other translation changes; on failure it returns 0 with the range
    unmapped again and every page it took back in the allocator or in the
    tree.  It succeeds whenever three free pages per page asked for exist. *)
Theorem uvmalloc_spec k ps T root oldsz newsz n :
  vm_inv k ps T -> T !! [] = Some root -> 0 <= oldsz <= newsz -> newsz <= MAXVA ->
  PGROUNDUP newsz = PGROUNDUP oldsz + Z.of_nat n * PGSIZE ->
  (forall va, PGROUNDUP oldsz <= va < PGROUNDUP newsz -> pte_valid (leaf (k_mem k) T va) = false) ->
  exists r k', uvmalloc root oldsz newsz k = Ok r k' /\
    ((r = newsz /\ exists pas ps' T', length pas = n /\
        grown_by k ps T (PGROUNDUP oldsz) (fun _ => user_perm) zero_content pas k' ps' T') \/
     (r = 0 /\ (length ps < 3 * n)%nat /\
      exists j, 0 <= j < Z.of_nat n /\ rolled_back k ps T (PGROUNDUP oldsz) j k')).
Proof.
  intros Hv Hroot Hsz Hmax Hn Hfree. rewrite !PGROUNDUP_eq in * by vlia.
  unfold uvmalloc. destruct (newsz <? oldsz) eqn:E; bprop; [lia|]. rewrite PGROUNDUP_eq by vlia.
  set (a := (oldsz + 4095) / 4096 * 4096) in *. cbv zeta.
  assert (Ha : a mod 4096 = 0) by (subst a; zlia).
  pose proof (uvmalloc_loop n k ps T root a newsz [] k ps T Hv Hroot Ha) as Hl. cbn [length Nat.add] in Hl.
  change (Z.of_nat 0 * PGSIZE) with 0 in Hl. rewrite Z.add_0_r in Hl. change (Z.of_nat 0) with 0 in Hl.
  eapply wp_inv, (wp_loop_more (S n)); [subst a; vlia|apply Hl; try (subst a; vlia)].
  - intros va Hva. apply Hfree. vlia.
  - by apply grown_by_nil.
Qed.

(** C20. [uvmcopy] copies a parent's memory page by page: on success the
    child's pages are fresh, hold the same bytes and have the same
    permissions; on failure the child is as before the call and nothing is
    lost.  The parent's memory is untouched either way. *)
Theorem uvmcopy_spec k ps T root To old sz n :
  vm_inv k ps T -> T !! [] = Some root -> pt_wf (k_mem k) To -> To !! [] = Some old ->
  (forall q, q ∈ tpages To -> ~ q ∈ (tpages T ++ ps)) ->
  sz <= Z.of_nat n * PGSIZE -> (Z.of_nat n - 1) * PGSIZE < sz -> Z.of_nat n * PGSIZE <= MAXVA ->
  (forall i, (i < n)%nat ->
     maps_to (k_mem k) To (Z.of_nat i * PGSIZE) (PTE2PA (parent_pte k To i)) /\
     page_ok (PTE2PA (parent_pte k To i)) /\ ~ PTE2PA (parent_pte k To i) ∈ (tpages T ++ ps)) ->
  (forall va, 0 <= va < Z.of_nat n * PGSIZE -> pte_valid (leaf (k_mem k) T va) = false) ->
  exists r k', uvmcopy old root sz k = Ok r k' /\ outside (tpages T ++ ps) (k_mem k) (k_mem k') /\
    ((r = 0 /\ exists pas ps' T', length pas = n /\
        grown_by k ps T 0 (parent_perm k To) (parent_content k To) pas k' ps' T') \/
     (r = -1 /\ (length ps < 3 * n)%nat /\ exists j, 0 <= j < Z.of_nat n /\ rolled_back k ps T 0 j k')).
Proof.
  intros Hv Hroot Ho Hold Hsep Hn1 Hn2 Hmax Hpar Hfree.
  assert (Hw : wp (uvmcopy old root sz) (fun r k' =>
    (r = 0 /\ exists pas ps' T', length pas = n /\
        grown_by k ps T 0 (parent_perm k To) (parent_content k To) pas k' ps' T') \/
     (r = -1 /\ (length ps < 3 * n)%nat /\ exists j, 0 <= j < Z.of_nat n /\ rolled_back k ps T 0 j k')) k).
  { eapply (wp_loop_more (S n)); [vlia|].
    apply (uvmcopy_loop k ps T root To old sz n Hv Hroot Ho Hold Hsep Hn1 Hn2 Hmax) with (pas := []) (ps' := ps) (T' := T);
      try done; [intros i Hi; by apply Hpar..|by apply grown_by_nil|cbn; lia]. }
  destruct (wp_inv _ _ _ Hw) as (r & k' & Hrun & Hr). exists r, k'. split_and!; [done| |done].
  destruct Hr as [(_ & pas & ps' & T' & _ & H)|(_ & _ & j & _ & ps' & T' & _ & _ & _ & _ & H & _)]; [apply H|exact H].
Qed.

(** [uvmfree] returns a whole address space: the user pages and every
    page of the table go back to the free list, each exactly once, and no
    other memory changes. *)
Theorem uvmfree_spec k ps T root sz pas :
  vm_inv k ps T -> T !! [] = Some root -> 0 <= sz <= MAXVA ->
  PGROUNDUP sz = Z.of_nat (length pas) * PGSIZE ->
  (forall i pa, pas !! i = Some pa -> maps_to (k_mem k) T (Z.of_nat i * PGSIZE) pa) ->
  (forall va, PGROUNDUP sz <= va < MAXVA -> pte_valid (leaf (k_mem k) T va) = false) ->
  Forall page_ok pas -> NoDup (pas ++ tpages T ++ ps) ->
  exists k' ps', uvmfree root sz k = Ok tt k' /\ kmem_inv k' ps' /\
    ps' ≡ₚ pas ++ tpages T ++ ps /\ mem_only k k' /\
    outside (pas ++ tpages T) (k_mem k) (k_mem k').
Proof.
  intros Hv Hroot Hsz Hn Hmap Hrest Hok Hnd. unfold uvmfree.
  assert (Hw : wp (when (0 <? sz) (uvmunmap root 0 (PGROUNDUP sz / PGSIZE) true)) (fun _ k1 =>
    vm_trim k T pas k1 (reverse pas ++ ps) /\ no_leaf (k_mem k1) T) k).
  { apply wp_when; intros E; bprop.
    - rewrite Hn. replace (Z.of_nat (length pas) * PGSIZE / PGSIZE) with (Z.of_nat (length pas)) by vlia.
      rewrite PGROUNDUP_eq in Hn by vlia.
      eapply wp_mono; [apply (uvmunmap_run k ps T root 0 pas true Hv Hroot)|]; try done.
      + vlia.
      + intros [] k1 [Ht Hlf]. split; [done|]. intros va Hva. rewrite Hlf by done.
        unfold unmap_pages. destruct (_ && _) eqn:Eb; [done|].
        apply Hrest. rewrite PGROUNDUP_eq by vlia. apply andb_false_iff in Eb as [Eb|Eb]; bprop; vlia.
    - assert (sz = 0) as -> by lia. assert (pas = []) as ->.
      { destruct pas; [done|]. rewrite PGROUNDUP_eq in Hn by lia. cbn [length] in Hn. vlia. }
      split; [split; eauto with krun|]. intros va Hva. apply Hrest. rewrite PGROUNDUP_eq by lia. vlia. }
  destruct (wp_inv _ _ _ Hw) as ([] & k1 & Hrun & [V1 V2 V3] & Hnl).
  destruct (wp_inv _ _ _ (freewalk_run k1 _ T root V1 Hroot Hnl)) as ([] & k2 & Hrun2 & ps2 & F1 & F2 & F3 & F4).
  exists k2, ps2. rewrite (run_bind _ _ _ _ _ Hrun). split_and!; [done|done| | |].
  - rewrite F2, reverse_Permutation. solve_Permutation.
  - by eapply mem_only_trans.
  - eapply outside_trans; [eapply outside_mono; [|exact V3]|eapply outside_mono; [|exact F4]];
      intros q; rewrite !elem_of_app; tauto.
Qed.

(** C17. [copyout] followed by [copyin] of the same user range returns the
    bytes that were written: when [copyout] succeeds, so does [copyin], and
    user memory changed in that range only; when it fails, it stored a proper
    prefix, up to the first byte the user program may not access. *)
Theorem copyout_copyin k T root va src len :
  pt_wf (k_mem k) T -> T !! [] = Some root -> user_ok (k_mem k) T ->
  0 <= va < 18446744073709551616 -> 0 <= len -> va + len <= 18446744073709551616 ->
  exists r m' d, copyout root va src len k = Ok r (set_mem m' k) /\
    (forall x, uread m' T x = ustored (k_mem k) T va src d x) /\ user_only T (k_mem k) m' /\
    (r = 0 /\ d = len /\
       copyin root va len (set_mem m' k) = Ok (0, rd_src src (Z.to_nat len)) (set_mem m' k) \/
     r = -1 /\ 0 <= d < len /\ uread (k_mem k) T (va + d) = None).
Proof.
  intros Hwf Hroot Hu Hva Hlen Hmax.
  destruct (copyout_run k T root va src len Hwf Hroot Hu Hva Hlen Hmax)
    as (r & m' & d & Hrun & Hr & Hst & Hwf' & Hu' & Hon & Hup).
  exists r, m', d. split_and!; [done|done|done|]. destruct Hr as [[-> ->]|Hr]; [left|by right].
  split_and!; [done|done|].
  assert (Hst' : forall i, 0 <= i < len -> uread m' T (va + i) = Some (u8 (src i))).
  { intros i Hi. rewrite Hst. unfold ustored. destruct (_ && _) eqn:E;
      [|apply andb_false_iff in E as [E|E]; bprop; lia]. do 3 f_equal. lia. }
  destruct (copyin_run (set_mem m' k) T root va len Hwf' Hroot Hva Hlen Hmax)
    as (r & bs & Hin & Hbs & Hr). rewrite Hin. cbn [k_mem set_mem] in *.
  destruct Hr as [[-> Hl]|(-> & Hl & Hn)]; [|by rewrite Hst' in Hn by lia].
  do 2 f_equal. apply list_eq_bounded; rewrite ?rd_src_length; [lia|]. intros i Hi.
  destruct (lookup_lt_is_Some_2 bs i Hi) as [b Hb]. rewrite Hb, rd_src_lookup by lia.
  rewrite <- (Hbs i b Hb). apply Hst'. lia.
Qed.

(** [copyinstr] copies the user's string including its NUL when one
    occurs within [max] readable bytes, and otherwise returns -1 after the
    bytes it could read; kernel and user memory are unchanged, and what it
    stores never exceeds [max] bytes. *)
Theorem copyinstr_spec k T root srcva max :
  pt_wf (k_mem k) T -> T !! [] = Some root ->
  0 <= srcva < 18446744073709551616 -> 0 <= max -> srcva + max <= 18446744073709551616 ->
  exists r bs, copyinstr root srcva max k = Ok (r, bs) k /\ Z.of_nat (length bs) <= max /\
    instr_post (k_mem k) T srcva max r bs.
Proof.
  intros Hwf Hroot Hva Hlen Hmax.
  destruct (copyinstr_run k T root srcva max Hwf Hroot Hva Hlen Hmax) as (r & bs & Hrun & Hpost).
  exists r, bs. split_and!; [done| |exact Hpost]. destruct Hpost as [_ [(_ & ? & _)|(_ & _ & [?|[? _]])]]; lia.
Qed.
End vmspec.

(** ** Witnesses

    A machine with the layout of kernel.sym, free pages [pg 4] to [pg 9], and
    a table rooted at [pg 0] that maps virtual page 0 to [pg 3]. *)

Definition pg (i : Z) : Z := 0x80030000 + 4096 * i.

Definition free_mem : gmap Z Z :=
  wr64 (pg 4) (pg 5) (wr64 (pg 5) (pg 6) (wr64 (pg 6) (pg 7) (wr64 (pg 7) (pg 8) (wr64 (pg 8) (pg 9) ∅)))).

Definition free_pages : list Z := pg <$> [4; 5; 6; 7; 8; 9].

Definition root_tree : ptree := {[ [] := pg 0 ]}.
Definition empty_table : kernel := set_freelist (pg 4) (set_mem free_mem one_hart).

Definition user_mem : gmap Z Z :=
  wr64 (pg 2 + 8 * PX 0 0) (mkpte (pg 3) user_perm)
    (wr64 (pg 1 + 8 * 0) (pt_dir (pg 2)) (wr64 (pg 0 + 8 * 0) (pt_dir (pg 1)) free_mem)).
Definition user_tree : ptree := <[ [0; 0] := pg 2 ]> (<[ [0] := pg 1 ]> root_tree).
Definition user_table : kernel := set_freelist (pg 4) (set_mem user_mem one_hart).

#[local] Existing Instance kernel_sym.

Lemma pg_ok i : 0 <= i < 100 -> page_ok (pg i).
Proof.
  intros Hi. unfold pg, page_ok. change PGSIZE with 4096. change kend with 2147639296.
  change PHYSTOP with 2281701376. zlia.
Qed.

Lemma free_mem_zero i : 0 <= i < 4 -> forall x, pg i <= x < pg i + PGSIZE -> rd8 free_mem x = 0.
Proof.
  intros Hi x Hx. unfold free_mem, pg in *. change PGSIZE with 4096 in Hx.
  rewrite !rd8_wr64_out by lia. apply rd8_empty.
Qed.

Lemma root_wf : pt_wf free_mem root_tree.
Proof. apply pt_wf_root; [by apply pg_ok|by apply free_mem_zero]. Qed.

Lemma free_kmem : kmem_inv empty_table free_pages.
Proof.
  split_and!; [vm_compute; auto 10| |].
  - repeat constructor; vm_compute; congruence.
  - apply (bool_decide_unpack _). vm_compute. exact I.
Qed.

Lemma empty_table_inv : vm_inv empty_table free_pages root_tree.
Proof.
  split; [split_and!; vm_compute; (done || lia)|exists "kmem"; vm_compute; reflexivity|
    exact free_kmem|exact root_wf|apply (bool_decide_unpack _); vm_compute; exact I].
Qed.

(** The two inner pages and the leaf, added one by one. *)
Definition user_mem1 : gmap Z Z := wr64 (pg 0 + 8 * 0) (pt_dir (pg 1)) free_mem.
Definition user_mem2 : gmap Z Z := wr64 (pg 1 + 8 * 0) (pt_dir (pg 2)) user_mem1.

Lemma user_mem1_zero : forall x, pg 2 <= x < pg 2 + PGSIZE -> rd8 user_mem1 x = 0.
Proof.
  intros x Hx. unfold user_mem1. rewrite rd8_wr64_out; [by apply (free_mem_zero 2)|].
  unfold pg in *. lia.
Qed.

Lemma user_tree1 : pt_wf user_mem1 (<[ [0] := pg 1 ]> root_tree) /\
  forall va, leaf user_mem1 (<[ [0] := pg 1 ]> root_tree) va = 0.
Proof.
  pose proof root_wf as Hr.
  split; [|intros va; transitivity (leaf free_mem root_tree va); [|apply leaf_root]];
    [apply (pt_wf_grow free_mem root_tree [] (pg 0) 0 (pg 1))
    |apply (leaf_grow free_mem root_tree [] (pg 0) 0 (pg 1))];
    try done; try (by apply pg_ok); try (by apply free_mem_zero); try (cbn; lia);
    unfold tpages, root_tree; rewrite map_to_list_singleton; apply (bool_decide_unpack _); vm_compute; exact I.
Qed.

Lemma user_tree2 : pt_wf user_mem2 user_tree /\ forall va, leaf user_mem2 user_tree va = 0.
Proof.
  destruct user_tree1 as [H1 H2].
  split; [|intros va; transitivity (leaf user_mem1 (<[ [0] := pg 1 ]> root_tree) va); [|apply H2]];
    [apply (pt_wf_grow user_mem1 (<[ [0] := pg 1 ]> root_tree) [0] (pg 1) 0 (pg 2))
    |apply (leaf_grow user_mem1 (<[ [0] := pg 1 ]> root_tree) [0] (pg 1) 0 (pg 2))];
    try done; try (by apply pg_ok); try exact user_mem1_zero; try (cbn; lia);
    apply (bool_decide_unpack _); vm_compute; exact I.
Qed.

Lemma user_wf : pt_wf user_mem user_tree.
Proof. apply (pt_wf_set_leaf user_mem2 user_tree 0 (pg 2)); [apply user_tree2|done]. Qed.

Lemma user_leaf va :
  0 <= va < MAXVA -> leaf user_mem user_tree va = if decide (0 = va / 4096) then mkpte (pg 3) user_perm else 0.
Proof.
  intros Hva. destruct user_tree2 as [H1 H2].
  pose proof (leaf_set user_mem2 user_tree 0 (pg 2) (mkpte (pg 3) user_perm) va H1 eq_refl ltac:(vlia) Hva) as H.
  rewrite H2, mkpte_u64 in H; [exact H|by apply page_ok_pa, pg_ok|done].
Qed.

Lemma user_table_inv : vm_inv user_table free_pages user_tree.
Proof.
  split; [split_and!; vm_compute; (done || lia)|exists "kmem"; vm_compute; reflexivity| |
    exact user_wf|apply (bool_decide_unpack _); vm_compute; exact I].
  apply (kmem_inv_frame empty_table free_pages user_mem free_kmem). intros q Hq x Hx.
  unfold user_mem. rewrite !rd8_wr64_out; [done|..];
    (repeat (apply elem_of_cons in Hq as [->|Hq]; [revert Hx; unfold pg; change (PX 0 0) with 0; change PGSIZE with 4096; lia|]);
     by apply elem_of_nil in Hq).
Qed.

Lemma user_maps i pa : [pg 3] !! i = Some pa -> maps_to user_mem user_tree (Z.of_nat i * PGSIZE) pa.
Proof.
  destruct i as [|i]; [|done]. intros [= <-]. unfold maps_to. rewrite user_leaf by vlia. vm_compute. split_and!; congruence.
Qed.

Lemma user_pages_nodup : NoDup ([pg 3] ++ tpages user_tree ++ free_pages).
Proof. apply (bool_decide_unpack _). vm_compute. exact I. Qed.

Lemma user_upage va : upage user_mem user_tree va = if decide (0 <= va < 4096) then pg 3 else 0.
Proof.
  unfold upage. destruct (0 <=? va / 4096 * 4096) eqn:E1; bprop; cbn [andb].
  2:{ rewrite decide_False by zlia. done. }
  destruct (va / 4096 * 4096 <? MAXVA) eqn:E2; bprop; cbn [andb].
  2:{ rewrite decide_False; [done|]. vlia. }
  rewrite user_leaf by done. destruct (decide (0 = _)) as [H0|H0].
  - rewrite decide_True by zlia. reflexivity.
  - rewrite decide_False by zlia. reflexivity.
Qed.

Lemma user_mem_ok : user_ok user_mem user_tree.
Proof.
  split.
  - intros va. rewrite user_upage. case_decide; [|done]. intros _. split; [by apply pg_ok|].
    apply (bool_decide_unpack _). vm_compute. exact I.
  - intros va va'. rewrite !user_upage. case_decide; [|done]. intros _. case_decide; [zlia|discriminate].
Qed.

Lemma mappages_spec_witness :
  exists r k', mappages (pg 0) 8192 4096 (pg 3) user_perm empty_table = Ok r k'.
Proof.
  destruct (proj1 (mappages_spec empty_table free_pages root_tree (pg 0) 8192 4096 (pg 3) user_perm
    empty_table_inv eq_refl eq_refl eq_refl ltac:(lia) ltac:(lia) ltac:(vm_compute; congruence)
    eq_refl ltac:(vm_compute; congruence) ltac:(vm_compute; congruence)
    ltac:(vm_compute; split; congruence))) as (r & k' & _ & _ & _ & H & _).
  - intros x _. unfold root_tree. by rewrite leaf_root.
  - exact (ex_intro _ r (ex_intro _ k' H)).
Defined.

Lemma uvmunmap_spec_witness :
  exists k', uvmunmap (pg 0) 0 1 true user_table = Ok tt k' /\
    vm_inv k' (pg 3 :: free_pages) user_tree.
Proof.
  destruct (proj1 (uvmunmap_spec user_table free_pages user_tree (pg 0) 0 [pg 3] true user_table_inv
    eq_refl ltac:(lia) ltac:(vm_compute; congruence) user_maps
    (fun _ => conj (Forall_cons_2 _ _ _ (pg_ok 3 ltac:(lia)) (Forall_nil_2 _)) user_pages_nodup)) eq_refl)
    as (k' & H1 & H2 & _).
  exact (ex_intro _ k' (conj H1 H2)).
Defined.

Lemma uvmalloc_spec_witness :
  exists r k', uvmalloc (pg 0) 0 8192 empty_table = Ok r k'.
Proof.
  destruct (uvmalloc_spec empty_table free_pages root_tree (pg 0) 0 8192 2 empty_table_inv eq_refl
    ltac:(lia) ltac:(vm_compute; congruence) eq_refl) as (r & k' & H & _).
  - intros va _. unfold root_tree. by rewrite leaf_root.
  - exact (ex_intro _ r (ex_intro _ k' H)).
Defined.

(** A child with an empty table at [pg 4] beside the parent. *)
Definition child_tree : ptree := {[ [] := pg 10 ]}.

Lemma child_table_inv : vm_inv user_table free_pages child_tree.
Proof.
  destruct user_table_inv as [H1 H2 H3 H4 H5]. split; [done..| |].
  - apply pt_wf_root; [by apply pg_ok|]. intros x Hx. cbn [k_mem set_mem user_table set_freelist].
    unfold user_mem, free_mem. rewrite !rd8_wr64_out; [apply rd8_empty|..];
      revert Hx; unfold pg; change (PX 0 0) with 0; change PGSIZE with 4096; lia.
  - apply (bool_decide_unpack _). vm_compute. exact I.
Qed.

Lemma uvmcopy_spec_witness :
  exists r k', uvmcopy (pg 0) (pg 10) 4096 user_table = Ok r k'.
Proof.
  destruct (uvmcopy_spec user_table free_pages child_tree (pg 10) user_tree (pg 0) 4096 1
    child_table_inv eq_refl user_wf eq_refl) as (r & k' & H & _).
  - intros q Hq. assert (Hd : Forall (fun q => q ∉ tpages child_tree ++ free_pages) (tpages user_tree))
      by (apply (bool_decide_unpack _); vm_compute; exact I).
    rewrite Forall_forall in Hd. by apply Hd.
  - vm_compute. congruence.
  - vm_compute. congruence.
  - vm_compute. congruence.
  - intros i Hi. assert (i = 0%nat) as -> by lia. change (PTE2PA _) with (pg 3).
    split_and!; [exact (user_maps 0 _ eq_refl)|by apply pg_ok|].
    apply (bool_decide_unpack _). vm_compute. exact I.
  - intros va _. unfold child_tree. by rewrite leaf_root.
  - exact (ex_intro _ r (ex_intro _ k' H)).
Defined.

Lemma uvmfree_spec_witness :
  exists k' ps', uvmfree (pg 0) 4096 user_table = Ok tt k' /\ kmem_inv k' ps' /\
    ps' ≡ₚ [pg 3] ++ tpages user_tree ++ free_pages.
Proof.
  destruct (uvmfree_spec user_table free_pages user_tree (pg 0) 4096 [pg 3] user_table_inv eq_refl
    ltac:(vm_compute; split; congruence) eq_refl user_maps) as (k' & ps' & H1 & H2 & H3 & _).
  - intros va Hva. cbn [k_mem set_mem user_table set_freelist]. change (PGROUNDUP 4096) with 4096 in Hva.
    rewrite user_leaf by lia. by rewrite decide_False by zlia.
  - repeat constructor; apply pg_ok; lia.
  - exact user_pages_nodup.
  - exact (ex_intro _ k' (ex_intro _ ps' (conj H1 (conj H2 H3)))).
Defined.

Lemma copyout_copyin_witness :
  exists r m', copyout (pg 0) 100 (fun i => i) 16 user_table = Ok r (set_mem m' user_table).
Proof.
  destruct (copyout_copyin user_table user_tree (pg 0) 100 (fun i => i) 16 user_wf eq_refl user_mem_ok
    ltac:(lia) ltac:(lia) ltac:(lia)) as (r & m' & _ & H & _).
  exact (ex_intro _ r (ex_intro _ m' H)).
Defined.

Lemma copyinstr_spec_witness :
  exists r bs, copyinstr (pg 0) 100 16 user_table = Ok (r, bs) user_table.
Proof.
  destruct (copyinstr_spec user_table user_tree (pg 0) 100 16 user_wf eq_refl ltac:(lia) ltac:(lia)
    ltac:(lia)) as (r & bs & H & _).
  exact (ex_intro _ r (ex_intro _ bs H)).
Defined.
