(* ===== verification/Sched.v ===== *)
(** * kernel/proc.c: giving up the CPU, sleeping and waking

    A process that calls [sched] stops until the scheduler of some hart runs
    it again.  What the other threads do in the meantime is not determined by
    this code; it is the parameter [others] of the class [Threads], applied to
    the state in which the process stopped.  [patience] bounds how often a
    waiting loop goes round before the model says that it is still waiting. *)

From S2P Require Export Spinlock.

Class Threads := {
  (** [others p k]: the state in which process [p] runs again, if it does. *)
  others : nat -> kernel -> option kernel;
  patience : nat
}.

Section sched.
Context {TH : Threads}.

(** [myproc()] dereferenced: address 0 is not mapped in the kernel's page
    table, so a null pointer ends in kerneltrap's panic. *)
Definition this_proc : K nat :=
  p ← myproc;
  match p with
  | Some p => mret p
  | None => panic "kerneltrap"
  end.

Definition p_get {A} (p : nat) (f : proc -> A) : K A := gets (fun k => f (get_proc k p)).
Definition p_set (p : nat) (f : proc -> proc) : K unit := modify (upd_proc p f).

(** [swtch(&p->context, &mycpu()->context)]: over to the scheduler, and back. *)
Definition swtch (p : nat) : K unit := fun k =>
  match others p k with
  | Some k' => Ok tt k'
  | None => Blocked
  end.

Definition sched : K unit :=
  p ← this_proc;
  h ← holding (Lproc p);
  if negb h then panic "sched p->lock" else
  c ← mycpu;
  noff ← cpu_noff c;
  if negb (noff =? 1) then panic "sched locks" else
  st ← p_get p p_state;
  if bool_decide (st = RUNNING) then panic "sched running" else
  on ← intr_get;
  if on : bool then panic "sched interruptible" else
  c ← mycpu;
  intena ← cpu_intena c;
  swtch p;;
  c ← mycpu;
  modify (upd_cpu c (set_c_intena intena)).

Definition yield : K unit :=
  p ← this_proc;
  acquire (Lproc p);;
  p_set p (set_p_state RUNNABLE);;
  sched;;
  release (Lproc p).

Definition sleep (chan : channel) (lk : lockid) : K unit :=
  p ← this_proc;
  let own := bool_decide (lk = Lproc p) in
  when (negb own) (acquire (Lproc p);; release lk);;
  (* Go to sleep. *)
  p_set p (set_p_chan (Some chan));;
  p_set p (set_p_state SLEEPING);;
  sched;;
  (* Tidy up. *)
  p_set p (set_p_chan None);;
  when (negb own) (release (Lproc p);; acquire lk).

Definition wakeup (chan : channel) : K unit :=
  for_all (seq 0 NPROC) (fun p =>
    acquire (Lproc p);;
    st ← p_get p p_state;
    ch ← p_get p p_chan;
    when (bool_decide (st = SLEEPING) && bool_decide (ch = Some chan))
      (p_set p (set_p_state RUNNABLE));;
    release (Lproc p)).

Definition wakeup1 (p : nat) : K unit :=
  h ← holding (Lproc p);
  if negb h then panic "wakeup1" else
  st ← p_get p p_state;
  ch ← p_get p p_chan;
  when (bool_decide (ch = Some (ChProc p)) && bool_decide (st = SLEEPING))
    (p_set p (set_p_state RUNNABLE)).

Definition kill (pid : Z) : K Z :=
  r ← for_each (seq 0 NPROC) (fun p =>
    acquire (Lproc p);;
    ppid ← p_get p p_pid;
    if ppid =? pid then
      p_set p (set_p_killed 1);;
      st ← p_get p p_state;
      when (bool_decide (st = SLEEPING)) (p_set p (set_p_state RUNNABLE));;
      release (Lproc p);;
      mret (Some 0)
    else
      release (Lproc p);;
      mret None);
  mret (default (-1) r).

(** One pass of the scheduler's loop over the process table.  [run p] is what
    happens from the switch to process [p] until it switches back. *)
Definition scheduler_pass (run : nat -> kernel -> option kernel) : K unit :=
  intr_on;;
  for_all (seq 0 NPROC) (fun p =>
    acquire (Lproc p);;
    st ← p_get p p_state;
    when (bool_decide (st = RUNNABLE))
      (p_set p (set_p_state RUNNING);;
       c ← mycpu;
       modify (upd_cpu c (set_c_proc (Some p)));;
       (fun k => match run p k with Some k' => Ok tt k' | None => Blocked end);;
       c ← mycpu;
       modify (upd_cpu c (set_c_proc None)));;
    release (Lproc p)).

Definition scheduler (run : nat -> kernel -> option kernel) (passes : nat) : K unit :=
  c ← mycpu;
  modify (upd_cpu c (set_c_proc None));;
  loop_with passes tt (fun _ => scheduler_pass run;; mret (inl tt)).
End sched.

#[export] Hint Unfold p_get p_set : krun.

(** ** What waking up does *)

Definition wake (chan : channel) (p : proc) : proc :=
  if bool_decide (p_state p = SLEEPING) && bool_decide (p_chan p = Some chan)
  then set_p_state RUNNABLE p else p.

Definition woken (chan : channel) (k : kernel) : kernel := set_proc (wake chan <$> k_proc k) k.

(** Every process lock is free. *)
Definition proc_locks_free (k : kernel) : Prop := forall i, (i < NPROC)%nat -> lock_free (Lproc i) k.

Lemma get_proc_upd k i f :
  (i < length (k_proc k))%nat -> get_proc (upd_proc i f k) i = f (get_proc k i).
Proof. intros H. unfold get_proc, upd_proc; cbn. by apply list_lookup_total_alter_eq. Qed.

Lemma get_proc_upd_ne k i j f : i <> j -> get_proc (upd_proc i f k) j = get_proc k j.
Proof.
  intros H. unfold get_proc, upd_proc; cbn. rewrite !list_lookup_total_alt.
  by rewrite list_lookup_alter_ne.
Qed.

Lemma upd_proc_id k i : upd_proc i id k = k.
Proof. unfold upd_proc. rewrite alter_id_at by done. by destruct k. Qed.

(** Applying [f] to the entries of the table from [i] on, one by one. *)
Lemma alter_all {A} (f : A -> A) (n i : nat) (l : list A) :
  length l = (i + n)%nat ->
  foldl (fun l j => alter f j l) l (seq i n) = take i l ++ (f <$> drop i l).
Proof.
  revert i l; induction n as [|n IH]; intros i l Hl; cbn [seq foldl].
  - rewrite drop_ge, take_ge by lia. cbn. by rewrite app_nil_r.
  - rewrite IH by (rewrite length_alter; lia).
    destruct (lookup_lt_is_Some_2 l i ltac:(lia)) as [x Hx].
    rewrite (take_S_r _ _ (f x)) by (by rewrite list_lookup_alter_eq, Hx).
    rewrite take_alter_ge by lia. rewrite drop_alter_lt by lia. rewrite (drop_S l x i Hx). cbn.
    by rewrite <- app_assoc.
Qed.

Lemma wakeup_run `{TH : Threads} chan k :
  irq_ok k -> proc_locks_free k -> length (k_proc k) = NPROC ->
  wakeup chan k = Ok tt (woken chan k).
Proof.
  intros Hi Hl Hlen. unfold wakeup.
  assert (Hgen : forall ps k, irq_ok k -> (forall i, i ∈ ps -> lock_free (Lproc i) k) ->
    for_all ps (fun p => acquire (Lproc p);; st ← p_get p p_state; ch ← p_get p p_chan;
      when (bool_decide (st = SLEEPING) && bool_decide (ch = Some chan)) (p_set p (set_p_state RUNNABLE));;
      release (Lproc p)) k =
    Ok tt (set_proc (foldl (fun l j => alter (wake chan) j l) (k_proc k) ps) k)).
  { clear. intros ps. induction ps as [|p ps IH]; intros k Hi Hl; cbn [for_all foldl]; [by destruct k|].
    erewrite run_bind; [rewrite (IH (upd_proc p (wake chan) k)); [done|done|]|].
    - intros i Hin. apply (Hl i). by right.
    - pose proof (Hl p ltac:(left)) as Hlp. acquire_step. mrun. autorewrite with klocks.
      assert (Hw : upd_proc p (wake chan) k =
        if bool_decide (p_state (get_proc k p) = SLEEPING) && bool_decide (p_chan (get_proc k p) = Some chan)
        then upd_proc p (set_p_state RUNNABLE) k else k).
      { unfold upd_proc, get_proc, wake.
        destruct (lookup_lt_is_Some (k_proc k) p) as [_ Hx].
        destruct (decide (p < length (k_proc k))%nat) as [Hlt|Hge].
        - destruct (Hx Hlt) as [x Hx']. rewrite (list_lookup_total_correct _ _ _ Hx').
          destruct (_ && _) eqn:E.
          + f_equal. apply list_alter_ext; [|done]. intros y Hy. assert (y = x) as -> by congruence. by rewrite E.
          + rewrite alter_id_at; [by destruct k|]. intros y Hy. assert (y = x) as -> by congruence. by rewrite E.
        - rewrite !alter_id_at by (intros ? ?%lookup_lt_Some; lia). destruct (_ && _); by destruct k. }
      rewrite Hw. unfold when. destruct (_ && _).
      + mrun. release_step k. done.
      + mrun. release_step k. done. }
  rewrite Hgen; [|done|intros i Hi'%elem_of_seq; apply Hl; lia].
  unfold woken. f_equal. rewrite alter_all by done. by rewrite take_0, drop_0.
Qed.

Lemma get_proc_oob k i : (length (k_proc k) <= i)%nat -> get_proc k i = proc0.
Proof.
  intros H. unfold get_proc. rewrite list_lookup_total_alt, lookup_ge_None_2 by done. done.
Qed.

(** ** Killing *)

Definition kill_proc (p : proc) : proc :=
  let p := set_p_killed 1 p in
  if bool_decide (p_state p = SLEEPING) then set_p_state RUNNABLE p else p.

Lemma upd_proc_upd k i f g : upd_proc i g (upd_proc i f k) = upd_proc i (g ∘ f) k.
Proof. unfold upd_proc; cbn. by rewrite list_alter_alter_eq. Qed.

Lemma upd_proc_ext k i f g :
  f (get_proc k i) = g (get_proc k i) -> upd_proc i f k = upd_proc i g k.
Proof.
  intros H. unfold upd_proc. f_equal. apply list_alter_ext; [|done]. intros x Hx.
  unfold get_proc in H. by rewrite (list_lookup_total_correct _ _ _ Hx) in H.
Qed.

(** The first index of [ps] that satisfies [f]. *)
Fixpoint first_such (f : nat -> bool) (ps : list nat) : option nat :=
  match ps with
  | [] => None
  | p :: ps => if f p then Some p else first_such f ps
  end.

Lemma first_such_in f ps p : first_such f ps = Some p -> p ∈ ps /\ f p = true.
Proof.
  induction ps as [|q ps IH]; cbn; [done|]. destruct (f q) eqn:E.
  - intros [= <-]. split; [left|done].
  - intros H. destruct (IH H). split; [by right|done].
Qed.

Lemma kill_run `{TH : Threads} pid k :
  irq_ok k -> proc_locks_free k -> length (k_proc k) = NPROC ->
  kill pid k =
    match first_such (fun p => p_pid (get_proc k p) =? pid) (seq 0 NPROC) with
    | Some p => Ok 0 (upd_proc p kill_proc k)
    | None => Ok (-1) k
    end.
Proof.
  intros Hi Hl Hlen. unfold kill.
  assert (Hin : forall p, p ∈ seq 0 NPROC -> lock_free (Lproc p) k /\ (p < length (k_proc k))%nat)
    by (intros p Hp%elem_of_seq; rewrite Hlen; split; [apply Hl|]; lia).
  clear Hl Hlen. induction (seq 0 NPROC) as [|p ps IH]; cbn [for_each first_such]; [done|].
  destruct (Hin p ltac:(left)) as [Hlp Hlt].
  rewrite !bind_assoc. acquire_step. mrun. autorewrite with klocks.
  destruct (p_pid (get_proc k p) =? pid).
  - mrun. rewrite get_proc_upd, acquired_get_proc by done. cbn [p_state set_p_killed].
    assert (Hk : upd_proc p kill_proc k =
      if bool_decide (p_state (get_proc k p) = SLEEPING)
      then upd_proc p (set_p_state RUNNABLE) (upd_proc p (set_p_killed 1) k)
      else upd_proc p (set_p_killed 1) k).
    { rewrite upd_proc_upd. unfold kill_proc. case_bool_decide as E; apply upd_proc_ext;
        cbn [p_state set_p_killed]; [by rewrite bool_decide_eq_true_2|by rewrite bool_decide_eq_false_2]. }
    rewrite Hk. unfold when. case_bool_decide; mrun; release_step k; done.
  - mrun. release_step k. mrun. rewrite <- IH; [done|]. intros q Hq. apply Hin. by right.
Qed.

(** ** Sleeping *)

(** Process [p] asleep on [chan], its lock held by the hart, every other lock
    as in [k]. *)
Definition parked (p : nat) (chan : channel) (k : kernel) : kernel :=
  upd_proc p (fun q => set_p_state SLEEPING (set_p_chan (Some chan) q)) (acquired (Lproc p) k).

Lemma pushed_upd_lock l f k : pushed (upd_lock l f k) = upd_lock l f (pushed k).
Proof. reflexivity. Qed.

Lemma acquired_comm l l' k : l <> l' -> acquired l (acquired l' k) = acquired l' (acquired l k).
Proof.
  intros Hne. unfold acquired. rewrite !pushed_upd_lock. by apply upd_lock_comm.
Qed.

Lemma cur_proc_acquired l k : irq_ok k -> cur_proc (acquired l k) = cur_proc k.
Proof.
  intros (Htp & _). unfold cur_proc, this_cpu, get_cpu, acquired, pushed, upd_cpu, upd_lock; cbn.
  by rewrite list_lookup_total_alter_eq.
Qed.

Lemma this_proc_run `{TH : Threads} p k : irq_ok k -> cur_proc k = Some p -> this_proc k = Ok p k.
Proof. intros Hi Hp. unfold this_proc. erewrite run_bind by (by apply myproc_run). by rewrite Hp. Qed.

(** Held by this hart. *)
Lemma holding_acquired l k k1 : same_locks (acquired l k) k1 -> holding l k1 = Ok true k1.
Proof.
  intros (Ht & _ & _ & Hl). unfold holding. mrun.
  assert (Hg : get_lock k1 l = mkSpinlock 1 (lk_name (get_lock k l)) (Some (k_tp k))).
  { transitivity (get_lock (acquired l k) l); [by unfold get_lock; rewrite Hl|].
    unfold acquired. by rewrite get_lock_upd. }
  rewrite Hg, Ht. cbn. by rewrite bool_decide_eq_true_2.
Qed.

Lemma noff_acquired l k :
  irq_ok k -> c_noff (this_cpu (acquired l k)) = c_noff (this_cpu k) + 1.
Proof.
  intros (Htp & _). unfold this_cpu, get_cpu, acquired, pushed, upd_cpu, upd_lock; cbn.
  by rewrite list_lookup_total_alter_eq.
Qed.

(** What [sched] does after its checks. *)
Lemma sched_run `{TH : Threads} p k k1 :
  irq_ok k -> cur_proc k = Some p -> c_noff (this_cpu k) = 0 -> same_locks (acquired (Lproc p) k) k1 ->
  p_state (get_proc k1 p) <> RUNNING ->
  sched k1 = match others p k1 with
    | Some k2 => Ok tt (upd_cpu (k_tp k2) (set_c_intena (c_intena (this_cpu k1))) k2)
    | None => Blocked
    end.
Proof.
  intros Hi Hp Hn Hs Hst. unfold sched.
  assert (Hi1 : irq_ok k1) by (eapply irq_ok_same; [exact Hs|by apply irq_ok_acquired]).
  assert (Hcur : this_cpu k1 = this_cpu (acquired (Lproc p) k)).
  { destruct Hs as (Ht & _ & Hc & _). unfold this_cpu, get_cpu. by rewrite Ht, Hc. }
  erewrite run_bind by (apply (this_proc_run p); [done|unfold cur_proc; rewrite Hcur; by rewrite <- Hp, <- (cur_proc_acquired (Lproc p) k)]).
  pose proof (holding_acquired (Lproc p) k k1 Hs) as Hh. destruct Hs as (Ht & Hsie & Hc & Hl).
  erewrite run_bind by exact Hh. cbn [negb]. mrun.
  change (get_cpu k1 (k_tp k1)) with (this_cpu k1). rewrite Hcur, noff_acquired, Hn by done. change (negb (0 + 1 =? 1)) with false. cbv iota.
  mrun. rewrite bool_decide_eq_false_2 by done. mrun.
  rewrite Hsie. change (k_sie (acquired (Lproc p) k)) with false. mrun.
  change (get_cpu k1 (k_tp k1)) with (this_cpu k1). rewrite Hcur.
  unfold swtch, mbind, M_bind. destruct (others p k1); [|done]. done.
Qed.

(** Up to the switch, [sleep] has marked the process asleep while it holds the
    process's lock, and has released the condition lock [lk]. *)
Lemma sleep_run `{TH : Threads} p chan lk k :
  irq_ok k -> cur_proc k = Some p -> c_noff (this_cpu k) = 0 ->
  lock_free lk k -> lock_free (Lproc p) k -> lk <> Lproc p -> (p < length (k_proc k))%nat ->
  sleep chan lk (acquired lk k) =
    match others p (parked p chan k) with
    | None => Blocked
    | Some k2 =>
        (modify (upd_cpu (k_tp k2) (set_c_intena (c_intena (this_cpu (parked p chan k)))));;
         p_set p (set_p_chan None);; release (Lproc p);; acquire lk) k2
    end.
Proof.
  intros Hi Hp Hn Hlk Hlp Hne Hlt. unfold sleep.
  erewrite run_bind by (apply (this_proc_run p); [by apply irq_ok_acquired|by rewrite cur_proc_acquired]).
  rewrite bool_decide_eq_false_2 by done. cbn [negb when]. cbv zeta.
  rewrite bind_assoc. acquire_step. rewrite acquired_comm by done.
  erewrite run_bind by (apply (release_run lk (acquired (Lproc p) k)); eauto with krun).
  rewrite with_locks_acquired. mrun. rewrite upd_proc_upd.
  change (upd_proc p _ (acquired (Lproc p) k)) with (parked p chan k).
  unfold mbind at 1, M_bind at 1. rewrite (sched_run p k); [|done|done|done|done|].
  - destruct (others p (parked p chan k)); [|done]. unfold mbind, M_bind, modify. done.
  - unfold parked. rewrite get_proc_upd by done. done.
Qed.

(** ** Correctness *)

(** [wakeup(chan)] makes exactly the processes that sleep on [chan]
    runnable, changes nothing else and leaves every lock as it found it. *)
Theorem wakeup_spec `{TH : Threads} chan k :
  irq_ok k -> proc_locks_free k -> length (k_proc k) = NPROC ->
  exists k', wakeup chan k = Ok tt k' /\ k' = set_proc (k_proc k') k /\
    length (k_proc k') = NPROC /\
    forall i, (i < NPROC)%nat -> get_proc k' i = wake chan (get_proc k i).
Proof.
  intros Hi Hl Hlen. exists (woken chan k). split_and!; [by apply wakeup_run|done|..].
  - unfold woken; cbn. by rewrite length_fmap.
  - intros i Hlt. unfold get_proc, woken; cbn. rewrite !list_lookup_total_alt, list_lookup_fmap.
    destruct (lookup_lt_is_Some_2 (k_proc k) i ltac:(lia)) as [x ->]. done.
Qed.

(** [kill(pid)] marks the first process with that pid killed, and makes
    it runnable if it sleeps; without such a process it returns -1 and
    changes nothing. *)
Theorem kill_spec `{TH : Threads} pid k :
  irq_ok k -> proc_locks_free k -> length (k_proc k) = NPROC ->
  (exists p, (p < NPROC)%nat /\ p_pid (get_proc k p) = pid /\
     kill pid k = Ok 0 (upd_proc p kill_proc k)) \/
  ((forall p, (p < NPROC)%nat -> p_pid (get_proc k p) <> pid) /\ kill pid k = Ok (-1) k).
Proof.
  intros Hi Hl Hlen. rewrite kill_run by done.
  destruct (first_such _ _) as [p|] eqn:E.
  - left. apply first_such_in in E as [Hin%elem_of_seq Hp]. bprop. exists p. split_and!; [lia|done|done].
  - right. split; [|done]. intros p Hp Heq.
    assert (Hall : forall ps, first_such (fun p => p_pid (get_proc k p) =? pid) ps = None -> ~ p ∈ ps).
    { induction ps as [|q ps IH]; cbn; [set_solver|]. destruct (_ =? pid) eqn:Eq; [done|]. bprop.
      intros H [->|Hin]%elem_of_cons; [done|]. by apply IH. }
    apply (Hall _ E), elem_of_seq. lia.
Qed.


(** ** Witnesses *)

(** Threads that run the process again at once. *)
#[local] Instance resume_at_once : Threads := {|
  others := fun p k => Some (upd_proc p (set_p_state RUNNING) k);
  patience := 3
|}.

(** A process table with process 3 (pid 7) running and the others unused. *)
Definition one_proc : kernel :=
  set_cpus [mkCpu (Some 3%nat) context0 0 true]
    (set_locks (list_to_map ((Lticks, mkSpinlock 0 "time" None) ::
        ((fun i => (Lproc i, mkSpinlock 0 "proc" None)) <$> seq 0 NPROC)))
      (set_proc (<[3%nat := set_p_pid 7 (set_p_state RUNNING proc0)]> (replicate NPROC proc0)) one_hart)).

Lemma one_proc_irq : irq_ok one_proc.
Proof. split_and!; vm_compute; (done || lia). Qed.

Lemma one_proc_locks : proc_locks_free one_proc.
Proof.
  assert (H : Forall (fun i => k_locks one_proc !! Lproc i = Some (mkSpinlock 0 "proc" None)) (seq 0 NPROC))
    by (repeat constructor).
  intros i Hi. exists "proc". rewrite Forall_forall in H. apply H, elem_of_seq. lia.
Qed.

Lemma wakeup_spec_witness :
  exists k', wakeup ChTicks one_proc = Ok tt k' /\ length (k_proc k') = NPROC.
Proof.
  destruct (wakeup_spec ChTicks one_proc one_proc_irq one_proc_locks eq_refl) as (k' & H1 & _ & H2 & _).
  exact (ex_intro _ k' (conj H1 H2)).
Defined.

Lemma kill_spec_witness :
  (exists p, kill 7 one_proc = Ok 0 (upd_proc p kill_proc one_proc)) \/ kill 7 one_proc = Ok (-1) one_proc.
Proof.
  destruct (kill_spec 7 one_proc one_proc_irq one_proc_locks eq_refl) as [(p & _ & _ & H)|[_ H]].
  - exact (or_introl (ex_intro _ p H)).
  - exact (or_intror H).
Defined.

