(* ===== verification/Sleeplock.v ===== *)
(** * kernel/sleeplock.c: locks held across sleeps *)

From S2P Require Export Sched.

Section sleeplock.
Context {TH : Threads}.

Definition sl_get {A} (s : sleepid) (f : sleeplock -> A) : K A := gets (fun k => f (get_sleeplock k s)).
Definition sl_set (s : sleepid) (f : sleeplock -> sleeplock) : K unit := modify (upd_sleeplock s f).

Definition initsleeplock (s : sleepid) (name : string) : K unit :=
  initlock (Lsleep s) "sleep lock";;
  sl_set s (set_sl_name name);;
  sl_set s (set_sl_locked 0);;
  sl_set s (set_sl_pid 0).

Definition acquiresleep (s : sleepid) : K unit :=
  acquire (Lsleep s);;
  loop (S patience) (locked ← sl_get s sl_locked;
                     if truth locked then sleep (ChSleep s) (Lsleep s);; mret None
                     else mret (Some tt));;
  sl_set s (set_sl_locked 1);;
  p ← this_proc;
  pid ← p_get p p_pid;
  sl_set s (set_sl_pid pid);;
  release (Lsleep s).

Definition releasesleep (s : sleepid) : K unit :=
  acquire (Lsleep s);;
  sl_set s (set_sl_locked 0);;
  sl_set s (set_sl_pid 0);;
  wakeup (ChSleep s);;
  release (Lsleep s).

Definition holdingsleep (s : sleepid) : K bool :=
  acquire (Lsleep s);;
  locked ← sl_get s sl_locked;
  p ← this_proc;
  lpid ← sl_get s sl_pid;
  pid ← p_get p p_pid;
  release (Lsleep s);;
  mret (truth locked && (lpid =? pid)).
End sleeplock.

#[export] Hint Unfold sl_get sl_set : krun.

(** ** Functional behaviour without contention *)

(** The running process and the locks a sleep-lock operation takes. *)
Record proc_ctx (k : kernel) (p : nat) : Prop := {
  pc_irq : irq_ok k;
  pc_cur : cur_proc k = Some p;
  pc_locks : proc_locks_free k;
  pc_len : length (k_proc k) = NPROC
}.

Definition cur_pid (k : kernel) (p : nat) : Z := p_pid (get_proc k p).

Definition sl_held (pid : Z) (lk : sleeplock) : sleeplock := set_sl_pid pid (set_sl_locked 1 lk).
Definition sl_free (lk : sleeplock) : sleeplock := set_sl_pid 0 (set_sl_locked 0 lk).

Lemma get_sleeplock_upd s f k : get_sleeplock (upd_sleeplock s f k) s = f (get_sleeplock k s).
Proof. unfold get_sleeplock at 1. unfold upd_sleeplock; cbn. by rewrite lookup_insert_eq. Qed.

Lemma get_sleeplock_upd_ne s s' f k :
  s <> s' -> get_sleeplock (upd_sleeplock s f k) s' = get_sleeplock k s'.
Proof. intros. unfold get_sleeplock, upd_sleeplock; cbn. by rewrite lookup_insert_ne. Qed.

Lemma upd_sleeplock_upd s f g k :
  upd_sleeplock s g (upd_sleeplock s f k) = upd_sleeplock s (fun lk => g (f lk)) k.
Proof.
  unfold upd_sleeplock at 1. rewrite get_sleeplock_upd. unfold upd_sleeplock; cbn.
  by rewrite insert_insert_eq.
Qed.

Lemma acquiresleep_run `{TH : Threads} s p k :
  proc_ctx k p -> lock_free (Lsleep s) k -> sl_locked (get_sleeplock k s) = 0 ->
  acquiresleep s k = Ok tt (upd_sleeplock s (sl_held (cur_pid k p)) k).
Proof.
  intros [Hi Hp Hl Hlen] Hs H0. unfold acquiresleep. acquire_step. cbn [loop]. mrun.
  autorewrite with klocks. rewrite H0. cbn [truth Z.eqb negb]. mrun.
  erewrite run_bind by (apply (this_proc_run p);
    [apply (irq_ok_same (acquired (Lsleep s) k)); eauto with krun
    |change (cur_proc (acquired (Lsleep s) k) = Some p); by rewrite cur_proc_acquired]).
  mrun. rewrite upd_sleeplock_upd. release_step k. done.
Qed.

Lemma holdingsleep_run `{TH : Threads} s p k :
  proc_ctx k p -> lock_free (Lsleep s) k ->
  holdingsleep s k = Ok (truth (sl_locked (get_sleeplock k s)) &&
    (sl_pid (get_sleeplock k s) =? cur_pid k p)) k.
Proof.
  intros [Hi Hp Hl Hlen] Hs. unfold holdingsleep. acquire_step. mrun. autorewrite with klocks.
  erewrite run_bind by (apply (this_proc_run p);
    [eauto with krun|by rewrite cur_proc_acquired]).
  mrun. autorewrite with klocks. release_step k. done.
Qed.

Lemma releasesleep_run `{TH : Threads} s p k :
  proc_ctx k p -> lock_free (Lsleep s) k ->
  releasesleep s k = Ok tt (woken (ChSleep s) (upd_sleeplock s sl_free k)).
Proof.
  intros [Hi Hp Hl Hlen] Hs. unfold releasesleep. acquire_step. mrun. rewrite upd_sleeplock_upd.
  erewrite run_bind by (apply wakeup_run;
    [apply (irq_ok_same (acquired (Lsleep s) k)); eauto with krun
    |intros i Hlt; apply (lock_free_same _ (acquired (Lsleep s) k)); [done|];
     apply lock_free_acquired; [done|by apply Hl]
    |done]).
  rewrite (release_run _ k) by done. done.
Qed.

(** ** What the operations leave alone *)

(** The states agree on hart and locks, and on who runs with which pid. *)
Definition same_ctx (k k' : kernel) : Prop :=
  same_locks k k' /\ length (k_proc k') = length (k_proc k) /\
  forall p, p_pid (get_proc k' p) = p_pid (get_proc k p).

Lemma same_ctx_refl k : same_ctx k k.
Proof. done. Qed.

Lemma same_ctx_trans k1 k2 k3 : same_ctx k1 k2 -> same_ctx k2 k3 -> same_ctx k1 k3.
Proof.
  intros ((A1 & A2 & A3 & A4) & A5 & A6) ((B1 & B2 & B3 & B4) & B5 & B6).
  split_and!; [split_and!; congruence|congruence|]. intros p. by rewrite B6.
Qed.

Lemma same_ctx_irq k k' : same_ctx k k' -> irq_ok k -> irq_ok k'.
Proof. intros [H _]. by apply irq_ok_same. Qed.

Lemma same_ctx_lock l k k' : same_ctx k k' -> lock_free l k -> lock_free l k'.
Proof. intros [H _]. by apply lock_free_same. Qed.

Lemma same_ctx_proc k k' p : same_ctx k k' -> proc_ctx k p -> proc_ctx k' p.
Proof.
  intros (Hs & Hl & Hp) [H1 H2 H3 H4]. split.
  - by eapply irq_ok_same.
  - destruct Hs as (Ht & _ & Hc & _). unfold cur_proc, this_cpu, get_cpu in *. by rewrite Ht, Hc.
  - intros i Hi. eapply lock_free_same; [done|]. by apply H3.
  - by rewrite Hl.
Qed.

Lemma same_ctx_pid k k' p : same_ctx k k' -> cur_pid k' p = cur_pid k p.
Proof. intros (_ & _ & H). apply H. Qed.

Lemma same_ctx_woken chan k : same_ctx k (woken chan k).
Proof.
  split_and!; [done|unfold woken; cbn; by rewrite length_fmap|]. intros p.
  unfold get_proc, woken; cbn. rewrite !list_lookup_total_alt, list_lookup_fmap.
  destruct (k_proc k !! p) as [x|]; [cbn|done]. unfold wake. by destruct (_ && _).
Qed.

#[export] Hint Resolve same_ctx_refl : krun.
