(* ===== verification/Block.v ===== *)
(** * Integers inside a disk block

    A block is a list of bytes; the on-disk structures are C structures laid
    over it.  Little-endian reads and writes at a byte offset, and how they
    interact. *)

From S2P Require Export Prelude.

Definition blk_rd (w : nat) (data : list Z) (off : nat) : Z := le_decode (take w (drop off data)).
Definition blk_wr (w : nat) (off : nat) (v : Z) (data : list Z) : list Z := splice data off (le_encode w v).

Abbreviation blk_rd16 := (blk_rd 2).
Abbreviation blk_wr16 := (blk_wr 2).
Abbreviation blk_rd32 := (blk_rd 4).
Abbreviation blk_wr32 := (blk_wr 4).

Lemma blk_wr_length w off v data :
  (off + w <= length data)%nat -> length (blk_wr w off v data) = length data.
Proof. intros H. unfold blk_wr. apply splice_length. by rewrite le_encode_length. Qed.

Lemma blk_rd_wr w off v data :
  (off + w <= length data)%nat -> blk_rd w (blk_wr w off v data) off = v mod 256 ^ Z.of_nat w.
Proof.
  intros H. rewrite <- (le_decode_encode w v). unfold blk_rd. f_equal.
  apply list_eq. intros i. destruct (decide (i < w)%nat) as [Hi|Hi].
  - rewrite lookup_take_lt, lookup_drop by done. unfold blk_wr.
    rewrite lookup_splice_in by (rewrite le_encode_length; lia). f_equal. lia.
  - rewrite lookup_take_ge by lia. symmetry. apply lookup_ge_None. rewrite le_encode_length. lia.
Qed.

Lemma blk_rd_wr_ne w w' off off' v data :
  (off + w <= length data)%nat -> (off + w <= off' \/ off' + w' <= off)%nat ->
  blk_rd w' (blk_wr w off v data) off' = blk_rd w' data off'.
Proof.
  intros H Hd. unfold blk_rd. f_equal. apply list_eq. intros i. destruct (decide (i < w')%nat) as [Hi|Hi].
  - rewrite !lookup_take_lt, !lookup_drop by done. unfold blk_wr.
    apply lookup_splice_out; rewrite ?le_encode_length; lia.
  - by rewrite !lookup_take_ge by lia.
Qed.
