(* ===== verification/Dll.v ===== *)
(** * Circular doubly linked lists, as pointer functions

    [links nx pv l]: along the list [l], [nx] leads from each element to the
    following one and [pv] back.  A circular list through the head [h] with
    elements [m] is [links nx pv (h :: m ++ [h])].  The lemmas give unlinking
    and pushing to the front as the pointer assignments the C code makes. *)

From S2P Require Export Prelude.

Fixpoint links (nx pv : nat -> nat) (l : list nat) : Prop :=
  match l with
  | x :: (y :: _) as t => nx x = y /\ pv y = x /\ links nx pv t
  | _ => True
  end.

(** Pointer assignment. *)
Definition fn_upd (f : nat -> nat) (a v : nat) : nat -> nat :=
  fun x => if decide (x = a) then v else f x.

Lemma fn_upd_eq f a v : fn_upd f a v a = v.
Proof. unfold fn_upd. by case_decide. Qed.

Lemma fn_upd_ne f a v x : x <> a -> fn_upd f a v x = f x.
Proof. intros. unfold fn_upd. by case_decide. Qed.

Section links.
Implicit Types (nx pv : nat -> nat) (l : list nat) (x y b h : nat).

Lemma links_app nx pv l1 x l2 :
  links nx pv (l1 ++ x :: l2) <-> links nx pv (l1 ++ [x]) /\ links nx pv (x :: l2).
Proof.
  induction l1 as [|a l1 IH]; [cbn; tauto|].
  destruct l1 as [|c l1]; cbn in *; [tauto|]. rewrite IH. tauto.
Qed.

Lemma links_cons nx pv x y l : links nx pv (x :: y :: l) <-> nx x = y /\ pv y = x /\ links nx pv (y :: l).
Proof. done. Qed.

(** Only the sources' [nx] and the targets' [pv] matter. *)
Lemma links_ext nx pv nx' pv' l z :
  (forall x, x ∈ l -> nx' x = nx x) ->
  (forall y, y ∈ tail (l ++ [z]) -> pv' y = pv y) ->
  links nx pv (l ++ [z]) -> links nx' pv' (l ++ [z]).
Proof.
  induction l as [|x l IH]; intros Hn Hp; [done|]. cbn [app tail] in *.
  destruct (l ++ [z]) as [|y t] eqn:E; [done|]. rewrite !links_cons. intros (H1 & H2 & H3). split_and!.
  - rewrite Hn; [done|left].
  - rewrite Hp; [done|left].
  - apply IH; [intros; apply Hn; by right| |done]. intros w Hw. apply Hp. by right.
Qed.

Lemma links_reverse nx pv l : links nx pv l -> links pv nx (reverse l).
Proof.
  induction l as [|x l IH]; [done|]. rewrite reverse_cons. destruct l as [|y l]; [done|].
  rewrite links_cons. intros (H1 & H2 & H3). specialize (IH H3). rewrite reverse_cons in *.
  rewrite <- app_assoc. cbn [app]. apply links_app. split; [done|]. rewrite links_cons. done.
Qed.

(** Unlinking [b]: [b->next->prev = b->prev; b->prev->next = b->next]. *)
Lemma links_unlink nx pv h l1 b l2 :
  NoDup (h :: l1 ++ b :: l2) -> links nx pv (h :: l1 ++ b :: l2 ++ [h]) ->
  links (fn_upd nx (pv b) (nx b)) (fn_upd pv (nx b) (pv b)) (h :: (l1 ++ l2) ++ [h]) /\
  nx b <> b /\ pv b <> b.
Proof.
  intros Hnd Hl.
  destruct (exists_last (l := h :: l1) ltac:(done)) as (A & x & HA).
  destruct (l2 ++ [h]) as [|y B] eqn:HB; [by destruct l2|].
  assert (Hl' : links nx pv (A ++ x :: b :: y :: B)).
  { rewrite cons_middle, app_comm_cons, HA, <- app_assoc in Hl. exact Hl. }
  apply links_app in Hl' as [L1 L2]. rewrite !links_cons in L2. destruct L2 as (N1 & P1 & N2 & P2 & L3).
  rewrite N2, P1.
  assert (HbA : b ∉ A ++ [x]).
  { rewrite <- HA. intros Hin. change (h :: l1 ++ b :: l2) with ((h :: l1) ++ b :: l2) in Hnd.
    apply NoDup_app in Hnd as (_ & Hd & _). apply (Hd b Hin). left. }
  assert (HbB : b ∉ y :: B).
  { rewrite <- HB. apply NoDup_cons in Hnd as [Hh Hnd]. apply NoDup_app in Hnd as (_ & _ & Hnd).
    apply NoDup_cons in Hnd as [Hb _]. rewrite elem_of_app, list_elem_of_singleton. intros [?| ->]; [done|].
    apply Hh, elem_of_app. right. left. }
  split_and!; [|intros ->; apply HbB; left|intros ->; apply HbA, elem_of_app; right; left].
  rewrite <- app_assoc, HB, app_comm_cons, HA, <- app_assoc. cbn [app].
  assert (HxA : x ∉ A).
  { assert (Hn : NoDup (A ++ [x])).
    { rewrite <- HA. change (h :: l1 ++ b :: l2) with ((h :: l1) ++ b :: l2) in Hnd.
      by apply NoDup_app in Hnd as (Hn & _). }
    apply NoDup_app in Hn as (_ & Hd & _). intros Hin. apply (Hd x Hin). left. }
  assert (Htl : tail (A ++ [x]) = l1) by (rewrite <- HA; done).
  assert (Hyl1 : y ∉ l1).
  { intros Hin. assert (Hy : y ∈ l2 ++ [h]) by (rewrite HB; left). apply elem_of_app in Hy as [Hy|Hy].
    - apply NoDup_cons in Hnd as [_ Hnd]. apply NoDup_app in Hnd as (_ & Hd & _). apply (Hd y Hin). by right.
    - apply list_elem_of_singleton in Hy as ->. apply NoDup_cons in Hnd as [Hh _]. apply Hh, elem_of_app. by left. }
  apply links_app. split.
  - eapply links_ext; [| |exact L1].
    + intros w Hw. apply fn_upd_ne. by intros ->.
    + rewrite Htl. intros w Hw. apply fn_upd_ne. by intros ->.
  - rewrite links_cons. split_and!; [apply fn_upd_eq|apply fn_upd_eq|].
    rewrite <- HB. assert (HL : links nx pv (l2 ++ [h])) by (by rewrite HB).
    eapply links_ext; [| |exact HL].
    + intros w Hw. apply fn_upd_ne. intros ->.
      assert (Hx : x ∈ h :: l1) by (rewrite HA; apply elem_of_app; right; left).
      change (h :: l1 ++ b :: l2) with ((h :: l1) ++ b :: l2) in Hnd.
      apply NoDup_app in Hnd as (_ & Hd & _). apply (Hd x Hx). by right.
    + intros w Hw. apply fn_upd_ne. intros ->. rewrite HB in Hw. cbn [tail] in Hw.
      assert (Hn : NoDup (y :: B)).
      { rewrite <- HB. apply NoDup_cons in Hnd as [Hh Hnd]. apply NoDup_app in Hnd as (_ & _ & Hnd).
        apply NoDup_cons in Hnd as [_ Hnd]. apply NoDup_app. split_and!; [done| |apply NoDup_singleton].
        intros u Hu ->%list_elem_of_singleton. apply Hh, elem_of_app. right. by right. }
      apply NoDup_cons in Hn as [Hn _]. done.
Qed.

(** Pushing [b] to the front:
    [b->next = h.next; b->prev = h; h.next->prev = b; h.next = b]. *)
Lemma links_push nx pv h b m :
  NoDup (h :: b :: m) -> links nx pv (h :: m ++ [h]) ->
  links (fn_upd (fn_upd nx b (nx h)) h b) (fn_upd (fn_upd pv b h) (nx h) b) (h :: b :: m ++ [h]).
Proof.
  intros Hnd Hl. apply NoDup_cons in Hnd as [Hh Hnd]. apply NoDup_cons in Hnd as [Hb Hnd].
  apply not_elem_of_cons in Hh as [Hhb Hhm].
  destruct (m ++ [h]) as [|y B] eqn:HB; [by destruct m|].
  rewrite links_cons in Hl. destruct Hl as (N1 & P1 & Hl). rewrite N1.
  assert (Hy : y ∈ m ++ [h]) by (rewrite HB; left). rewrite elem_of_app, list_elem_of_singleton in Hy.
  assert (Hby : b <> y) by (intros ->; naive_solver).
  rewrite !links_cons. split_and!.
  - apply fn_upd_eq.
  - rewrite fn_upd_ne by done. apply fn_upd_eq.
  - rewrite fn_upd_ne by done. apply fn_upd_eq.
  - apply fn_upd_eq.
  - rewrite <- HB in *. eapply links_ext; [| |exact Hl].
    + intros w Hw. rewrite !fn_upd_ne; [done|by intros ->|by intros ->].
    + intros w Hw. assert (Hwb : w <> b).
      { intros ->. assert (Hin : b ∈ m ++ [h]) by (rewrite HB in *; by right).
        rewrite elem_of_app, list_elem_of_singleton in Hin. naive_solver. }
      assert (Hn : NoDup (m ++ [h])).
      { apply NoDup_app. split_and!; [done|intros u Hu ->%list_elem_of_singleton; done|apply NoDup_singleton]. }
      rewrite HB in Hn, Hw. cbn [tail] in Hw. apply NoDup_cons in Hn as [Hn _].
      rewrite !fn_upd_ne; [done|done|by intros ->].
Qed.

(** [links] only looks at the values of the functions. *)
Lemma links_proper nx nx' pv pv' l :
  (forall x, nx' x = nx x) -> (forall x, pv' x = pv x) -> links nx pv l -> links nx' pv' l.
Proof.
  intros Hn Hp. induction l as [|x l IH]; [done|]. destruct l as [|y l]; [done|].
  rewrite !links_cons. rewrite Hn, Hp. intros (H1 & H2 & H3). split_and!; [done..|]. by apply IH.
Qed.
End links.
