(* ===== verification/Bio.v ===== *)
(** * kernel/bio.c: the buffer cache

    A [struct buf *] is an index into [k_buf]; index [NBUF] is the list head
    [bcache.head].  The operations follow the pointers of the doubly linked
    list.  The disk driver is used through the interface [BlockDev]. *)

From S2P Require Export Sleeplock.

(** ** The interface to the disk driver *)

Definition zero_block : list Z := replicate (Z.to_nat BSIZE) 0.
Definition disk_block (d : gmap Z (list Z)) (bno : Z) : list Z := default zero_block (d !! bno).

(** The effect of a completed read and of a completed write of buffer [b]. *)
Definition disk_read (b : nat) (k : kernel) : kernel :=
  upd_buf b (set_b_data (disk_block (k_disk k) (b_blockno (get_buf k b)))) k.
Definition disk_write (b : nat) (k : kernel) : kernel :=
  set_disk (<[ b_blockno (get_buf k b) := b_data (get_buf k b) ]> (k_disk k))
    (set_hist (k_disk k :: k_hist k) k).

(** What [bread] and [bwrite] rely on: called by a process without spin locks
    held, the driver returns when the transfer is complete, having changed
    nothing but the buffer's data, respectively the disk block. *)
Class BlockDev := {
  virtio_disk_rw : nat -> bool -> K unit;
  disk_rw_read : forall b k p, proc_ctx k p -> c_noff (this_cpu k) = 0 -> lock_free Lvdisk k ->
    (b < NBUF)%nat -> virtio_disk_rw b false k = Ok tt (disk_read b k);
  disk_rw_write : forall b k p, proc_ctx k p -> c_noff (this_cpu k) = 0 -> lock_free Lvdisk k ->
    (b < NBUF)%nat -> virtio_disk_rw b true k = Ok tt (disk_write b k)
}.

(** ** Operations *)

Definition HEAD : nat := NBUF.

Definition b_get {A} (b : nat) (f : buf -> A) : K A := gets (fun k => f (get_buf k b)).
Definition b_set (b : nat) (f : buf -> buf) : K unit := modify (upd_buf b f).

#[export] Hint Unfold b_get b_set : krun.

Section bio.
Context {TH : Threads} {BD : BlockDev}.

Definition binit : K unit :=
  initlock Lbcache "bcache";;
  b_set HEAD (set_b_prev HEAD);;
  b_set HEAD (set_b_next HEAD);;
  for_all (seq 0 NBUF) (fun b =>
    n ← b_get HEAD b_next;
    b_set b (set_b_next n);;
    b_set b (set_b_prev HEAD);;
    initsleeplock (SLbuf b) "buffer";;
    n ← b_get HEAD b_next;
    b_set n (set_b_prev b);;
    b_set HEAD (set_b_next b)).

(** [for(b = start; b != &bcache.head; b = step(b)) if(found(b)) ...]: the
    first buffer found; a walk of more than [NBUF + 1] steps has met a cycle
    that does not contain the head and goes on for ever. *)
Definition bscan_body (step : buf -> nat) (found : buf -> bool) : nat -> K (nat + option nat) := fun b =>
  if (b =? HEAD)%nat then mret (inr None) else
  x ← b_get b id;
  if found x then mret (inr (Some b)) else mret (inl (step x)).

Definition bscan (step : buf -> nat) (found : buf -> bool) (start : nat) : K (option nat) :=
  loop_with (S (S NBUF)) start (bscan_body step found).

Definition bget (dev blockno : Z) : K nat :=
  acquire Lbcache;;
  h ← b_get HEAD b_next;
  (* Is the block already cached? *)
  r ← bscan b_next (fun x => (b_dev x =? dev) && (b_blockno x =? blockno)) h;
  match r with
  | Some b =>
      b_set b (fun x => set_b_refcnt (u32 (b_refcnt x + 1)) x);;
      release Lbcache;;
      acquiresleep (SLbuf b);;
      mret b
  | None =>
      (* Recycle the least recently used (LRU) unused buffer. *)
      h ← b_get HEAD b_prev;
      r ← bscan b_prev (fun x => b_refcnt x =? 0) h;
      match r with
      | Some b =>
          b_set b (set_b_dev dev);;
          b_set b (set_b_blockno blockno);;
          b_set b (set_b_valid 0);;
          b_set b (set_b_refcnt 1);;
          release Lbcache;;
          acquiresleep (SLbuf b);;
          mret b
      | None => panic "bget: no buffers"
      end
  end.

Definition bread (dev blockno : Z) : K nat :=
  b ← bget dev blockno;
  valid ← b_get b b_valid;
  when (negb (truth valid))
    (virtio_disk_rw b false;;
     b_set b (set_b_valid 1));;
  mret b.

Definition bwrite (b : nat) : K unit :=
  h ← holdingsleep (SLbuf b);
  if negb h then panic "bwrite" else
  virtio_disk_rw b true.

(** Move [b] to the head of the most-recently-used list. *)
Definition brelse_move (b : nat) : K unit :=
  n ← b_get b b_next;
  p ← b_get b b_prev;
  b_set n (set_b_prev p);;
  p ← b_get b b_prev;
  n ← b_get b b_next;
  b_set p (set_b_next n);;
  h ← b_get HEAD b_next;
  b_set b (set_b_next h);;
  b_set b (set_b_prev HEAD);;
  h ← b_get HEAD b_next;
  b_set h (set_b_prev b);;
  b_set HEAD (set_b_next b).

Definition brelse (b : nat) : K unit :=
  h ← holdingsleep (SLbuf b);
  if negb h then panic "brelse" else
  releasesleep (SLbuf b);;
  acquire Lbcache;;
  b_set b (fun x => set_b_refcnt (u32 (b_refcnt x - 1)) x);;
  refcnt ← b_get b b_refcnt;
  (* no one is waiting for it. *)
  when (refcnt =? 0) (brelse_move b);;
  release Lbcache.

Definition bpin (b : nat) : K unit :=
  acquire Lbcache;;
  b_set b (fun x => set_b_refcnt (u32 (b_refcnt x + 1)) x);;
  release Lbcache.

Definition bunpin (b : nat) : K unit :=
  acquire Lbcache;;
  b_set b (fun x => set_b_refcnt (u32 (b_refcnt x - 1)) x);;
  release Lbcache.
End bio.
