(* ===== verification/Bcache.v ===== *)
(** * The buffer cache as a view of the disk

    [bc_inv] is the invariant of the cache: the list of buffers is a circular
    doubly linked list of all of them, a block is cached at most once, the
    reference counts are the buffers in use plus the pinned ones, and an
    unused valid buffer holds what the disk holds.  [view] is the content of
    the disk as seen through the cache.  The lemmas state what [bread],
    [bwrite], [brelse], [bpin] and [bunpin] do to the view and to the disk. *)

From S2P Require Export Dll Bio.

Section bcache.
Context {TH : Threads} {BD : BlockDev}.
(** The device whose blocks are cached. *)
Context (dev : Z).

Definition bnx (k : kernel) (i : nat) : nat := b_next (get_buf k i).
Definition bpv (k : kernel) (i : nat) : nat := b_prev (get_buf k i).

(** Buffer [i] is assigned to block [bno]. *)
Definition assigned (k : kernel) (i : nat) (bno : Z) : bool :=
  (b_dev (get_buf k i) =? dev) && (b_blockno (get_buf k i) =? bno).

Definition caches (k : kernel) (i : nat) (bno : Z) : bool :=
  assigned k i bno && truth (b_valid (get_buf k i)).

Definition view (k : kernel) (bno : Z) : list Z :=
  match first_such (fun i => caches k i bno) (seq 0 NBUF) with
  | Some i => b_data (get_buf k i)
  | None => disk_block (k_disk k) bno
  end.

(** References to buffer [i]: one if it is in use, one if it is pinned. *)
Definition refs (k : kernel) (held : list nat) (pins : list Z) (i : nat) : Z :=
  cbool (bool_decide (i ∈ held)) +
  cbool ((b_dev (get_buf k i) =? dev) && bool_decide (b_blockno (get_buf k i) ∈ pins)).

Record bc_inv (k : kernel) (p : nat) (held : list nat) (pins : list Z) : Prop := {
  bc_ctx : proc_ctx k p;
  bc_noff : c_noff (this_cpu k) = 0;
  bc_lock : lock_free Lbcache k;
  bc_vlock : lock_free Lvdisk k;
  bc_slock : forall i, (i < NBUF)%nat -> lock_free (Lsleep (SLbuf i)) k;
  bc_len : length (k_buf k) = S NBUF;
  bc_list : exists l, l ≡ₚ seq 0 NBUF /\ links (bnx k) (bpv k) (HEAD :: l ++ [HEAD]);
  bc_uniq : forall i j bno, (i < NBUF)%nat -> (j < NBUF)%nat ->
    assigned k i bno = true -> assigned k j bno = true -> i = j;
  bc_ref : forall i, (i < NBUF)%nat -> b_refcnt (get_buf k i) = refs k held pins i;
  bc_clean : forall i bno, (i < NBUF)%nat -> caches k i bno = true ->
    b_refcnt (get_buf k i) = 0 -> b_data (get_buf k i) = disk_block (k_disk k) bno;
  bc_pins : forall bno, bno ∈ pins -> exists i, (i < NBUF)%nat /\ caches k i bno = true;
  bc_held : forall i, i ∈ held -> (i < NBUF)%nat /\
    exists bno, caches k i bno = true;
  bc_nodup : NoDup held;
  bc_sleep : forall i, (i < NBUF)%nat -> get_sleeplock k (SLbuf i) =
    (if bool_decide (i ∈ held) then sl_held (cur_pid k p) else sl_free) (get_sleeplock k (SLbuf i))
}.

(** The operations change buffers, sleep locks, sleeping processes and the
    disk, and nothing else. *)
Definition bio_frame (k k' : kernel) : Prop :=
  same_ctx k k' /\
  k' = set_buf (k_buf k') (set_sleep (k_sleep k') (set_proc (k_proc k')
         (set_disk (k_disk k') (set_hist (k_hist k') k)))).

Lemma bio_frame_refl k : bio_frame k k.
Proof. split; [done|by destruct k]. Qed.

Lemma bio_frame_trans k1 k2 k3 : bio_frame k1 k2 -> bio_frame k2 k3 -> bio_frame k1 k3.
Proof.
  intros [A1 A2] [B1 B2]. split; [by eapply same_ctx_trans|]. rewrite B2, A2. done.
Qed.

(** ** Buffer fields under updates *)

Lemma get_buf_upd k i f : (i < length (k_buf k))%nat -> get_buf (upd_buf i f k) i = f (get_buf k i).
Proof. intros H. unfold get_buf, upd_buf; cbn. by apply list_lookup_total_alter_eq. Qed.

Lemma get_buf_upd_ne k i j f : i <> j -> get_buf (upd_buf i f k) j = get_buf k j.
Proof.
  intros H. unfold get_buf, upd_buf; cbn. rewrite !list_lookup_total_alt.
  by rewrite list_lookup_alter_ne.
Qed.

Lemma upd_buf_upd k i f g : upd_buf i g (upd_buf i f k) = upd_buf i (g ∘ f) k.
Proof. unfold upd_buf; cbn. by rewrite list_alter_alter_eq. Qed.

Lemma upd_buf_ext k i f g :
  f (get_buf k i) = g (get_buf k i) -> upd_buf i f k = upd_buf i g k.
Proof.
  intros H. unfold upd_buf. f_equal. apply list_alter_ext; [|done]. intros x Hx.
  unfold get_buf in H. by rewrite (list_lookup_total_correct _ _ _ Hx) in H.
Qed.

Lemma length_upd_buf k i f : length (k_buf (upd_buf i f k)) = length (k_buf k).
Proof. unfold upd_buf; cbn. apply length_alter. Qed.

(** ** Looking up the view *)

Lemma first_such_unique (f : nat -> bool) i n :
  (i < n)%nat -> f i = true -> (forall j, (j < n)%nat -> f j = true -> j = i) ->
  first_such f (seq 0 n) = Some i.
Proof.
  intros Hi Hf Hu. destruct (first_such f (seq 0 n)) as [j|] eqn:E.
  - apply first_such_in in E as [Hin%elem_of_seq Hj]. f_equal. apply Hu; [lia|done].
  - exfalso. revert E. assert (Hin : i ∈ seq 0 n) by (apply elem_of_seq; lia).
    induction (seq 0 n) as [|x l IH]; [by apply elem_of_nil in Hin|]. cbn.
    destruct (f x) eqn:Ex; [done|]. apply elem_of_cons in Hin as [->|Hin]; [congruence|]. by apply IH.
Qed.

Lemma first_such_none (f : nat -> bool) n :
  (forall j, (j < n)%nat -> f j = false) -> first_such f (seq 0 n) = None.
Proof.
  intros Hf. destruct (first_such f (seq 0 n)) as [j|] eqn:E; [|done].
  apply first_such_in in E as [Hin%elem_of_seq Hj]. rewrite Hf in Hj by lia. done.
Qed.

Lemma first_such_ext (f g : nat -> bool) n :
  (forall j, (j < n)%nat -> f j = g j) -> first_such f (seq 0 n) = first_such g (seq 0 n).
Proof.
  intros H. assert (Hin : forall j, j ∈ seq 0 n -> f j = g j) by (intros j Hj%elem_of_seq; apply H; lia).
  clear H. induction (seq 0 n) as [|x l IH]; cbn; [done|]. rewrite (Hin x) by left.
  destruct (g x); [done|]. apply IH. intros j Hj. apply Hin. by right.
Qed.

Lemma caches_assigned k i bno : caches k i bno = true -> assigned k i bno = true.
Proof. unfold caches. by intros [? _]%andb_true_iff. Qed.

Lemma assigned_inv k i bno :
  assigned k i bno = true <-> b_dev (get_buf k i) = dev /\ b_blockno (get_buf k i) = bno.
Proof. unfold assigned. rewrite andb_true_iff, !Z.eqb_eq. done. Qed.

Lemma view_cached k p held pins i bno :
  bc_inv k p held pins -> (i < NBUF)%nat -> caches k i bno = true ->
  view k bno = b_data (get_buf k i).
Proof.
  intros Hb Hi Hc. unfold view. rewrite (first_such_unique _ i); [done|done|done|].
  intros j Hj Hcj. eapply (bc_uniq _ _ _ _ Hb j i bno); eauto using caches_assigned.
Qed.

Lemma view_uncached k bno :
  (forall i, (i < NBUF)%nat -> caches k i bno = false) -> view k bno = disk_block (k_disk k) bno.
Proof. intros H. unfold view. by rewrite first_such_none. Qed.

(** ** Walking the list *)

Lemma bscan_loop (step other : buf -> nat) found k l : forall x0 fuel,
  (length l < fuel)%nat -> HEAD ∉ l ->
  links (fun i => step (get_buf k i)) (fun i => other (get_buf k i)) (x0 :: l ++ [HEAD]) ->
  loop_with fuel (step (get_buf k x0)) (bscan_body step found) k =
    Ok (first_such (fun i => found (get_buf k i)) l) k.
Proof.
  induction l as [|b l IH]; intros x0 fuel Hf Hh Hl; destruct fuel as [|fuel]; try (cbn in Hf; lia);
    cbn [app] in Hl; rewrite links_cons in Hl; destruct Hl as (Hn & _ & Hl); rewrite Hn;
    cbn [loop_with first_such]; unfold bscan_body.
  - by rewrite Nat.eqb_refl.
  - apply not_elem_of_cons in Hh as [Hb Hh].
    destruct (b =? HEAD)%nat eqn:E; [apply Nat.eqb_eq in E; congruence|]. mrun.
    destruct (found (id (get_buf k b))) eqn:Ef; unfold id in Ef; rewrite Ef; mrun; [done|].
    apply (IH b fuel); [cbn in Hf; lia|done|done].
Qed.

Lemma bscan_next k l found :
  l ≡ₚ seq 0 NBUF -> links (bnx k) (bpv k) (HEAD :: l ++ [HEAD]) ->
  bscan b_next found (bnx k HEAD) k = Ok (first_such (fun i => found (get_buf k i)) l) k.
Proof.
  intros Hp Hl. apply (bscan_loop b_next b_prev found k l HEAD); [| |exact Hl].
  - rewrite Hp, length_seq. lia.
  - rewrite Hp, elem_of_seq. unfold HEAD. lia.
Qed.

Lemma bscan_prev k l found :
  l ≡ₚ seq 0 NBUF -> links (bnx k) (bpv k) (HEAD :: l ++ [HEAD]) ->
  bscan b_prev found (bpv k HEAD) k = Ok (first_such (fun i => found (get_buf k i)) (reverse l)) k.
Proof.
  intros Hp Hl. apply links_reverse in Hl. rewrite reverse_cons, reverse_app in Hl. cbn [reverse] in Hl.
  apply (bscan_loop b_prev b_next found k (reverse l) HEAD); [| |exact Hl].
  - rewrite reverse_Permutation, Hp, length_seq. lia.
  - rewrite reverse_Permutation, Hp, elem_of_seq. unfold HEAD. lia.
Qed.

Lemma first_such_None f ps : first_such f ps = None <-> forall i, i ∈ ps -> f i = false.
Proof.
  induction ps as [|x ps IH]; cbn; [split; [by intros _ i ?%elem_of_nil|done]|].
  destruct (f x) eqn:E.
  - split; [done|]. intros H. specialize (H x ltac:(left)). congruence.
  - rewrite IH. split; [intros H i [->|Hi]%elem_of_cons; auto|]. intros H i Hi. apply H. by right.
Qed.

(** ** Changing one buffer *)

(** A buffer without its list pointers. *)
Definition payload (x : buf) : Z * Z * Z * Z * list Z :=
  (b_dev x, b_blockno x, b_valid x, b_refcnt x, b_data x).

Lemma payload_assigned k k' j n :
  payload (get_buf k' j) = payload (get_buf k j) -> assigned k' j n = assigned k j n.
Proof. unfold payload, assigned. by intros [= -> -> _ _ _]. Qed.

Lemma payload_caches k k' j n :
  payload (get_buf k' j) = payload (get_buf k j) -> caches k' j n = caches k j n.
Proof. unfold payload, caches, assigned. by intros [= -> -> -> _ _]. Qed.

(** A block that [b] does not cache, before or after, is seen as before. *)
Lemma view_change k k' b n :
  (forall j, (j < NBUF)%nat -> j <> b -> payload (get_buf k' j) = payload (get_buf k j)) ->
  caches k b n = false -> caches k' b n = false ->
  disk_block (k_disk k') n = disk_block (k_disk k) n -> view k' n = view k n.
Proof.
  intros Hpay H1 H2 Hd. unfold view.
  rewrite (first_such_ext (fun i => caches k' i n) (fun i => caches k i n)).
  - destruct (first_such _ _) as [i|] eqn:E; [|done]. apply first_such_in in E as [Hi%elem_of_seq Hc].
    assert (Hib : i <> b) by (intros ->; congruence).
    pose proof (Hpay i ltac:(lia) Hib) as He. unfold payload in He. by injection He.
  - intros j Hj. destruct (decide (j = b)) as [->|Hjb]; [congruence|]. by apply payload_caches, Hpay.
Qed.
Section change.
Context (k k' : kernel) (p : nat) (held held' : list nat) (pins pins' : list Z) (b : nat).
Context (Hinv : bc_inv k p held pins) (Hb : (b < NBUF)%nat) (Hctx : same_ctx k k').
(** The other buffers. *)
Context (Hlen : length (k_buf k') = S NBUF).
Context (Hlist : exists l, l ≡ₚ seq 0 NBUF /\ links (bnx k') (bpv k') (HEAD :: l ++ [HEAD])).
Context (Hpay : forall j, (j < NBUF)%nat -> j <> b -> payload (get_buf k' j) = payload (get_buf k j)).
Context (Hsl : forall j, j <> b -> get_sleeplock k' (SLbuf j) = get_sleeplock k (SLbuf j)).
Context (Hheld : forall j, j <> b -> j ∈ held' <-> j ∈ held) (Hnd : NoDup held').
Context (Hpin : forall j n, (j < NBUF)%nat -> j <> b -> assigned k j n = true -> n ∈ pins' <-> n ∈ pins).
Context (Hdisk : forall j n, (j < NBUF)%nat -> j <> b -> caches k j n = true ->
  disk_block (k_disk k') n = disk_block (k_disk k) n).
(** The buffer that changed. *)
Context (Hfresh : forall j n, (j < NBUF)%nat -> j <> b -> assigned k' b n = true -> assigned k j n = false).
Context (Href : b_refcnt (get_buf k' b) = refs k' held' pins' b).
Context (Hclean : forall n, caches k' b n = true -> b_refcnt (get_buf k' b) = 0 ->
  b_data (get_buf k' b) = disk_block (k_disk k') n).
Context (Hpins : forall n, n ∈ pins' -> caches k' b n = true \/ exists j, (j < NBUF)%nat /\ j <> b /\ caches k j n = true).
Context (Hheldb : b ∈ held' -> exists n, caches k' b n = true).
Context (Hslb : get_sleeplock k' (SLbuf b) =
  (if bool_decide (b ∈ held') then sl_held (cur_pid k p) else sl_free) (get_sleeplock k' (SLbuf b))).

Lemma bc_inv_change : bc_inv k' p held' pins'.
Proof.
  assert (Hlocks : same_locks k k') by apply Hctx. split.
  - eapply same_ctx_proc; [done|apply Hinv].
  - destruct Hlocks as (Ht & _ & Hc & _). unfold this_cpu, get_cpu. rewrite Ht, Hc. apply Hinv.
  - exact (lock_free_same _ _ _ Hlocks (bc_lock _ _ _ _ Hinv)).
  - exact (lock_free_same _ _ _ Hlocks (bc_vlock _ _ _ _ Hinv)).
  - intros i Hi. exact (lock_free_same _ _ _ Hlocks (bc_slock _ _ _ _ Hinv i Hi)).
  - done.
  - done.
  - intros i j n Hi Hj Hai Haj. destruct (decide (i = b)) as [->|Hib]; destruct (decide (j = b)) as [->|Hjb].
    + done.
    + rewrite (payload_assigned k k') in Haj by auto. by rewrite (Hfresh j n) in Haj.
    + rewrite (payload_assigned k k') in Hai by auto. by rewrite (Hfresh i n) in Hai.
    + rewrite (payload_assigned k k') in Hai, Haj by auto. by apply (bc_uniq _ _ _ _ Hinv i j n).
  - intros i Hi. destruct (decide (i = b)) as [->|Hib]; [exact Href|].
    pose proof (Hpay i Hi Hib) as He. pose proof (bc_ref _ _ _ _ Hinv i Hi) as Hr.
    unfold payload in He. injection He as E1 E2 E3 E4 E5. rewrite E4, Hr. unfold refs. rewrite E1, E2.
    f_equal; f_equal; [apply bool_decide_ext; symmetry; by apply Hheld|].
    destruct (b_dev (get_buf k i) =? dev) eqn:Ed; cbn [andb]; [|done]. apply bool_decide_ext. symmetry.
    apply (Hpin i); [done..|]. unfold assigned. by rewrite Ed, Z.eqb_refl.
  - intros i n Hi Hc Hr. destruct (decide (i = b)) as [->|Hib]; [by apply Hclean|].
    pose proof (Hpay i Hi Hib) as He. rewrite (payload_caches k k') in Hc by done.
    unfold payload in He. injection He as E1 E2 E3 E4 E5. rewrite E4 in Hr. rewrite E5.
    rewrite (Hdisk i n) by done. by apply (bc_clean _ _ _ _ Hinv).
  - intros n [Hc|(j & Hj & Hjb & Hc)]%Hpins; [by exists b|]. exists j. split; [done|].
    by rewrite (payload_caches k k') by auto.
  - intros i Hi. destruct (decide (i = b)) as [->|Hib]; [by auto|].
    destruct (bc_held _ _ _ _ Hinv i) as [Hlt [n Hc]]; [by apply Hheld|]. split; [done|]. exists n.
    by rewrite (payload_caches k k') by auto.
  - done.
  - intros i Hi. rewrite (same_ctx_pid _ _ _ Hctx). destruct (decide (i = b)) as [->|Hib]; [exact Hslb|].
    rewrite Hsl by done. rewrite (bc_sleep _ _ _ _ Hinv i Hi) at 1.
    by rewrite (bool_decide_ext _ _ (Hheld i Hib)).
Qed.

End change.

(** The contents of the buffers in use are not touched by other operations. *)
Definition keeps (held : list nat) (k k' : kernel) : Prop :=
  forall i, i ∈ held -> payload (get_buf k' i) = payload (get_buf k i).

Lemma caches_held k p held pins b n :
  bc_inv k p held pins -> b ∈ held -> b_blockno (get_buf k b) = n -> caches k b n = true.
Proof.
  intros Hinv Hb <-. destruct (bc_held _ _ _ _ Hinv b Hb) as (_ & m & Hc).
  pose proof Hc as Ha%caches_assigned. apply assigned_inv in Ha as [_ ->]. done.
Qed.

Lemma assigned_fun k i n m : assigned k i n = true -> assigned k i m = true -> n = m.
Proof. rewrite !assigned_inv. intros [_ <-] [_ <-]. done. Qed.

Lemma caches_fun k i n m : caches k i n = true -> caches k i m = true -> n = m.
Proof. intros ?%caches_assigned ?%caches_assigned. by eapply assigned_fun. Qed.

(** ** Pinning *)

Lemma refs_held k held pins b :
  b ∈ held -> b_dev (get_buf k b) = dev ->
  refs k held pins b = 1 + cbool (bool_decide (b_blockno (get_buf k b) ∈ pins)).
Proof. intros Hin Hd. unfold refs. rewrite bool_decide_eq_true_2, Hd, Z.eqb_refl by done. done. Qed.

(** Only the reference count of [b] changes: the list and the rest stay. *)
Lemma links_same k b f (Hn : forall x, b_next (f x) = b_next x) (Hp : forall x, b_prev (f x) = b_prev x) :
  (b < length (k_buf k))%nat ->
  (exists l, l ≡ₚ seq 0 NBUF /\ links (bnx k) (bpv k) (HEAD :: l ++ [HEAD])) ->
  exists l, l ≡ₚ seq 0 NBUF /\ links (bnx (upd_buf b f k)) (bpv (upd_buf b f k)) (HEAD :: l ++ [HEAD]).
Proof.
  intros Hlt (l & Hl & Hk). exists l. split; [done|]. eapply links_proper; [..|exact Hk]; intros x.
  - unfold bnx. destruct (decide (b = x)) as [<-|]; [by rewrite get_buf_upd, Hn|by rewrite get_buf_upd_ne].
  - unfold bpv. destruct (decide (b = x)) as [<-|]; [by rewrite get_buf_upd, Hp|by rewrite get_buf_upd_ne].
Qed.

Lemma held_lt k p held pins b : bc_inv k p held pins -> b ∈ held -> (b < length (k_buf k))%nat.
Proof. intros Hinv Hb. rewrite (bc_len _ _ _ _ Hinv). pose proof (proj1 (bc_held _ _ _ _ Hinv b Hb)). lia. Qed.

Lemma same_ctx_upd_buf k b f : same_ctx k (upd_buf b f k).
Proof. done. Qed.

Lemma bio_frame_upd_buf k b f : bio_frame k (upd_buf b f k).
Proof. split; [done|by destruct k]. Qed.

(** A new reference count and new data for a buffer in use. *)
Lemma bc_inv_held k p held pins pins' b n rc data :
  bc_inv k p held pins -> b ∈ held -> b_blockno (get_buf k b) = n ->
  (forall m, m <> n -> m ∈ pins' <-> m ∈ pins) ->
  rc = 1 + cbool (bool_decide (n ∈ pins')) ->
  bc_inv (upd_buf b (fun x => set_b_refcnt rc (set_b_data data x)) k) p held pins'.
Proof.
  intros Hinv Hb Hn Hpins Hrc. pose proof (held_lt _ _ _ _ _ Hinv Hb) as Hlt.
  destruct (bc_held _ _ _ _ Hinv b Hb) as (HbN & _).
  pose proof (caches_held _ _ _ _ _ _ Hinv Hb Hn) as Hc. pose proof (caches_assigned _ _ _ Hc) as Ha.
  assert (Hg : get_buf (upd_buf b (fun x => set_b_refcnt rc (set_b_data data x)) k) b =
    set_b_refcnt rc (set_b_data data (get_buf k b))) by (by rewrite get_buf_upd).
  assert (Has : forall m, assigned (upd_buf b (fun x => set_b_refcnt rc (set_b_data data x)) k) b m = assigned k b m)
    by (intros m; unfold assigned; by rewrite Hg).
  assert (Hcs : forall m, caches (upd_buf b (fun x => set_b_refcnt rc (set_b_data data x)) k) b m = caches k b m)
    by (intros m; unfold caches; by rewrite Has, Hg).
  apply (bc_inv_change k _ p held held pins pins' b); try done.
  - by rewrite length_upd_buf, (bc_len _ _ _ _ Hinv).
  - apply links_same; [done..|apply Hinv].
  - intros j _ Hjb. by rewrite get_buf_upd_ne.
  - apply Hinv.
  - intros j m Hj Hjb Haj. apply Hpins. intros ->. apply Hjb.
    by apply (bc_uniq _ _ _ _ Hinv j b n).
  - intros j m Hj Hjb. rewrite Has. intros Hab. destruct (assigned k j m) eqn:E; [|done].
    exfalso. apply Hjb. by apply (bc_uniq _ _ _ _ Hinv j b m).
  - rewrite Hg. apply assigned_inv in Ha as [Hd _]. rewrite refs_held by (done || by rewrite Hg).
    rewrite Hg. cbn. by rewrite Hn.
  - rewrite Hg. cbn [b_refcnt set_b_refcnt]. intros m _ Hz. rewrite Hrc in Hz.
    destruct (bool_decide _); cbn in Hz; lia.
  - intros m Hm. destruct (decide (m = n)) as [->|Hne]; [left; by rewrite Hcs|].
    destruct (bc_pins _ _ _ _ Hinv m) as (j & Hj & Hcj); [by apply Hpins|].
    destruct (decide (j = b)) as [->|]; [left; by rewrite Hcs|right; eauto].
  - intros _. exists n. by rewrite Hcs.
  - rewrite bool_decide_eq_true_2 by done.
    pose proof (bc_sleep _ _ _ _ Hinv b HbN) as Hs. by rewrite bool_decide_eq_true_2 in Hs.
Qed.

Lemma bc_inv_set_data k p held pins b data :
  bc_inv k p held pins -> b ∈ held -> bc_inv (upd_buf b (set_b_data data) k) p held pins.
Proof.
  intros Hinv Hb. destruct (bc_held _ _ _ _ Hinv b Hb) as (HbN & n & Hc).
  pose proof (caches_assigned _ _ _ Hc) as [Hd Hn]%assigned_inv.
  pose proof (bc_ref _ _ _ _ Hinv b HbN) as Hr. rewrite refs_held in Hr by done.
  rewrite (upd_buf_ext _ _ _ (fun x => set_b_refcnt (b_refcnt (get_buf k b)) (set_b_data data x)))
    by (by destruct (get_buf k b)).
  apply (bc_inv_held k p held pins pins b n); [done|done|done|done|]. by rewrite Hr, Hn.
Qed.

(** The view after new data for block [n]. *)
Lemma view_set_data k p held pins b data n m :
  bc_inv k p held pins -> b ∈ held -> b_blockno (get_buf k b) = n ->
  view (upd_buf b (set_b_data data) k) m = if decide (m = n) then data else view k m.
Proof.
  intros Hinv Hb Hn. pose proof (held_lt _ _ _ _ _ Hinv Hb) as Hlt.
  destruct (bc_held _ _ _ _ Hinv b Hb) as (HbN & _).
  pose proof (caches_held _ _ _ _ _ _ Hinv Hb Hn) as Hc.
  assert (Hcs : forall m, caches (upd_buf b (set_b_data data) k) b m = caches k b m).
  { intros x. unfold caches, assigned. by rewrite get_buf_upd. }
  case_decide as Hm.
  - subst m. rewrite (view_cached _ p held pins b); [by rewrite get_buf_upd|by apply bc_inv_set_data|done|].
    by rewrite Hcs.
  - assert (Hcf : caches k b m = false).
    { destruct (caches k b m) eqn:E; [|done]. exfalso. apply Hm. by eapply caches_fun. }
    apply (view_change k _ b); [|done|by rewrite Hcs|done]. intros j _ Hjb. by rewrite get_buf_upd_ne.
Qed.

Lemma view_same_payload k k' :
  (forall j, (j < NBUF)%nat -> caches k' j = caches k j /\ b_data (get_buf k' j) = b_data (get_buf k j)) ->
  (forall n, disk_block (k_disk k') n = disk_block (k_disk k) n) -> forall n, view k' n = view k n.
Proof.
  intros H Hd n. unfold view.
  rewrite (first_such_ext (fun i => caches k' i n) (fun i => caches k i n)).
  - destruct (first_such _ _) as [i|] eqn:E; [|done]. apply first_such_in in E as [Hi%elem_of_seq _].
    apply H. lia.
  - intros j Hj. by rewrite (proj1 (H j Hj)).
Qed.

Lemma view_set_refcnt k b rc n : view (upd_buf b (set_b_refcnt rc) k) n = view k n.
Proof.
  apply view_same_payload; [|done]. intros j _. unfold get_buf, upd_buf, caches, assigned; cbn.
  unfold get_buf; cbn. rewrite list_lookup_total_alter. case_decide as E; [|done].
  destruct E as [-> _]. done.
Qed.

Lemma bpin_run k p held pins b n :
  bc_inv k p held pins -> b ∈ held -> b_blockno (get_buf k b) = n -> ~ n ∈ pins ->
  exists k', bpin b k = Ok tt k' /\ bc_inv k' p held (n :: pins) /\ bio_frame k k' /\
    (forall m, view k' m = view k m) /\ k_disk k' = k_disk k /\ k_hist k' = k_hist k /\
    (forall i, b_blockno (get_buf k' i) = b_blockno (get_buf k i) /\ b_data (get_buf k' i) = b_data (get_buf k i)).
Proof.
  intros Hinv Hb Hn Hnp. pose proof (held_lt _ _ _ _ _ Hinv Hb) as Hlt.
  destruct (bc_held _ _ _ _ Hinv b Hb) as (HbN & m & Hc).
  pose proof (caches_assigned _ _ _ Hc) as [Hd _]%assigned_inv.
  pose proof (bc_ref _ _ _ _ Hinv b HbN) as Hr. rewrite refs_held, Hn, bool_decide_eq_false_2 in Hr by done.
  pose proof (pc_irq _ _ (bc_ctx _ _ _ _ Hinv)) as Hi. pose proof (bc_lock _ _ _ _ Hinv) as Hl.
  exists (upd_buf b (set_b_refcnt 2) k). split_and!.
  - unfold bpin. acquire_step. mrun. release_step k. f_equal. apply upd_buf_ext. by rewrite Hr.
  - rewrite (upd_buf_ext _ _ _ (fun x => set_b_refcnt 2 (set_b_data (b_data (get_buf k b)) x)))
      by (by destruct (get_buf k b)).
    apply (bc_inv_held k p held pins (n :: pins) b n); [done|done|done|set_solver|].
    by rewrite bool_decide_eq_true_2 by left.
  - apply bio_frame_upd_buf.
  - intros x. apply view_set_refcnt.
  - done.
  - done.
  - intros i. destruct (decide (b = i)) as [<-|]; [by rewrite get_buf_upd|by rewrite get_buf_upd_ne].
Qed.

Lemma bunpin_run k p held pins pins' b n :
  bc_inv k p held pins -> b ∈ held -> b_blockno (get_buf k b) = n -> n ∈ pins ->
  (forall m, m ∈ pins' <-> m ∈ pins /\ m <> n) ->
  exists k', bunpin b k = Ok tt k' /\ bc_inv k' p held pins' /\ bio_frame k k' /\
    (forall m, view k' m = view k m) /\ k_disk k' = k_disk k /\ k_hist k' = k_hist k /\
    (forall i, b_blockno (get_buf k' i) = b_blockno (get_buf k i) /\ b_data (get_buf k' i) = b_data (get_buf k i)).
Proof.
  intros Hinv Hb Hn Hnp Hp'. pose proof (held_lt _ _ _ _ _ Hinv Hb) as Hlt.
  destruct (bc_held _ _ _ _ Hinv b Hb) as (HbN & m & Hc).
  pose proof (caches_assigned _ _ _ Hc) as [Hd _]%assigned_inv.
  pose proof (bc_ref _ _ _ _ Hinv b HbN) as Hr. rewrite refs_held, Hn, bool_decide_eq_true_2 in Hr by done.
  pose proof (pc_irq _ _ (bc_ctx _ _ _ _ Hinv)) as Hi. pose proof (bc_lock _ _ _ _ Hinv) as Hl.
  exists (upd_buf b (set_b_refcnt 1) k). split_and!.
  - unfold bunpin. acquire_step. mrun. release_step k. f_equal. apply upd_buf_ext. by rewrite Hr.
  - rewrite (upd_buf_ext _ _ _ (fun x => set_b_refcnt 1 (set_b_data (b_data (get_buf k b)) x)))
      by (by destruct (get_buf k b)).
    apply (bc_inv_held k p held pins pins' b n); [done|done|done|intros x Hx; rewrite Hp'; tauto|].
    rewrite bool_decide_eq_false_2; [done|]. rewrite Hp'. tauto.
  - apply bio_frame_upd_buf.
  - intros x. apply view_set_refcnt.
  - done.
  - done.
  - intros i. destruct (decide (b = i)) as [<-|]; [by rewrite get_buf_upd|by rewrite get_buf_upd_ne].
Qed.

(** ** [bwrite] *)

Lemma holdingsleep_held k p held pins b :
  bc_inv k p held pins -> b ∈ held -> holdingsleep (SLbuf b) k = Ok true k.
Proof.
  intros Hinv Hb. destruct (bc_held _ _ _ _ Hinv b Hb) as (HbN & _).
  rewrite (holdingsleep_run _ p); [|apply Hinv|by apply Hinv].
  pose proof (bc_sleep _ _ _ _ Hinv b HbN) as Hs. rewrite bool_decide_eq_true_2 in Hs by done.
  rewrite Hs. cbn. by rewrite Z.eqb_refl.
Qed.

Lemma disk_block_insert d n m x :
  disk_block (<[n := x]> d) m = if decide (m = n) then x else disk_block d m.
Proof. unfold disk_block. rewrite lookup_insert. by repeat case_decide; subst. Qed.

Lemma bwrite_run k p held pins b n :
  bc_inv k p held pins -> b ∈ held -> b_blockno (get_buf k b) = n ->
  bwrite b k = Ok tt (disk_write b k) /\ bc_inv (disk_write b k) p held pins /\
  bio_frame k (disk_write b k) /\ (forall m, view (disk_write b k) m = view k m) /\
  k_disk (disk_write b k) = <[n := view k n]> (k_disk k) /\
  k_hist (disk_write b k) = k_disk k :: k_hist k.
Proof.
  intros Hinv Hb Hn. destruct (bc_held _ _ _ _ Hinv b Hb) as (HbN & _).
  pose proof (caches_held _ _ _ _ _ _ Hinv Hb Hn) as Hc. pose proof (caches_assigned _ _ _ Hc) as Ha.
  pose proof (view_cached _ _ _ _ _ _ Hinv HbN Hc) as Hv.
  assert (Hd : k_disk (disk_write b k) = <[n := view k n]> (k_disk k)).
  { unfold disk_write. cbn. by rewrite Hn, Hv. }
  assert (Hdb : forall j m, (j < NBUF)%nat -> j <> b -> caches k j m = true ->
    disk_block (k_disk (disk_write b k)) m = disk_block (k_disk k) m).
  { intros j m Hj Hjb Hcj. rewrite Hd, disk_block_insert. case_decide as E; [|done]. subst m. exfalso. apply Hjb.
    by apply (bc_uniq _ _ _ _ Hinv j b n), Ha; [..|apply caches_assigned]. }
  split_and!; [| | |intros m|done|done].
  - unfold bwrite. erewrite run_bind by (by eapply holdingsleep_held). cbn [negb].
    apply (disk_rw_write b k p); [apply Hinv..|done].
  - apply (bc_inv_change k _ p held held pins pins b); try done; try apply Hinv; try done.
    + intros j m Hj Hjb Hab. destruct (assigned k j m) eqn:E; [|done]. exfalso. apply Hjb.
      by apply (bc_uniq _ _ _ _ Hinv j b m).
    + intros m Hcm _. rewrite Hd, disk_block_insert.
      rewrite (caches_fun k b m n Hcm Hc) by done. rewrite decide_True by done. symmetry. exact Hv.
    + intros m Hm. destruct (bc_pins _ _ _ _ Hinv m Hm) as (j & Hj & Hcj).
      destruct (decide (j = b)) as [->|]; [by left|right; eauto].
  - split; [done|by destruct k].
  - destruct (decide (m = n)) as [->|Hne].
    + rewrite Hv. unfold view.
      change (fun i => caches (disk_write b k) i n) with (fun i => caches k i n).
      rewrite (first_such_unique _ b); [done|done|done|].
      intros j Hj Hcj. by apply (bc_uniq _ _ _ _ Hinv j b n), Ha; [..|apply caches_assigned].
    + unfold view. change (fun i => caches (disk_write b k) i m) with (fun i => caches k i m).
      destruct (first_such _ _); [done|]. rewrite Hd, disk_block_insert. by rewrite decide_False.
Qed.

(** ** [brelse] *)

(** The pointer functions after an assignment. *)
Lemma bnx_set_next k i v : (i < length (k_buf k))%nat -> forall x,
  bnx (upd_buf i (set_b_next v) k) x = fn_upd (bnx k) i v x.
Proof.
  intros Hi x. unfold bnx, fn_upd. case_decide as E; [subst; by rewrite get_buf_upd|].
  by rewrite get_buf_upd_ne.
Qed.

Lemma bpv_set_prev k i v : (i < length (k_buf k))%nat -> forall x,
  bpv (upd_buf i (set_b_prev v) k) x = fn_upd (bpv k) i v x.
Proof.
  intros Hi x. unfold bpv, fn_upd. case_decide as E; [subst; by rewrite get_buf_upd|].
  by rewrite get_buf_upd_ne.
Qed.

(** Fields other than the one assigned. *)
Lemma get_buf_upd_field {A} (g : buf -> A) k i f x :
  (forall b, g (f b) = g b) -> g (get_buf (upd_buf i f k) x) = g (get_buf k x).
Proof.
  intros Hg. unfold get_buf, upd_buf; cbn. rewrite list_lookup_total_alter.
  case_decide as E; [|done]. destruct E as [-> _]. apply Hg.
Qed.

Lemma bnx_set_prev k i v x : bnx (upd_buf i (set_b_prev v) k) x = bnx k x.
Proof. by apply (get_buf_upd_field b_next). Qed.

Lemma bpv_set_next k i v x : bpv (upd_buf i (set_b_next v) k) x = bpv k x.
Proof. by apply (get_buf_upd_field b_prev). Qed.

(** Linking [b] in behind the head. *)
Definition enqueue (b : nat) (k : kernel) : kernel :=
  let k3 := upd_buf b (set_b_next (bnx k HEAD)) k in
  let k4 := upd_buf b (set_b_prev HEAD) k3 in
  let k5 := upd_buf (bnx k4 HEAD) (set_b_prev b) k4 in
  upd_buf HEAD (set_b_next b) k5.

(** The relinking code of [brelse], as one state change. *)
Definition relink (b : nat) (k : kernel) : kernel :=
  let k1 := upd_buf (bnx k b) (set_b_prev (bpv k b)) k in
  let k2 := upd_buf (bpv k1 b) (set_b_next (bnx k1 b)) k1 in
  enqueue b k2.

Lemma links_mem nx pv x t : links nx pv (x :: t) -> t <> [] -> nx x ∈ t.
Proof. destruct t as [|y t]; [done|]. rewrite links_cons. intros (-> & _) _. left. Qed.

(** Every element of the ring has its neighbours in the ring. *)
Lemma ring_bounds k l : l ≡ₚ seq 0 NBUF -> links (bnx k) (bpv k) (HEAD :: l ++ [HEAD]) ->
  forall x, x ∈ HEAD :: l -> (bnx k x < S NBUF)%nat /\ (bpv k x < S NBUF)%nat.
Proof.
  intros Hp Hl x Hx.
  assert (Hb : forall y, y ∈ HEAD :: l ++ [HEAD] -> (y < S NBUF)%nat).
  { intros y. rewrite elem_of_cons, elem_of_app, list_elem_of_singleton, Hp, elem_of_seq. unfold HEAD. lia. }
  apply list_elem_of_split in Hx as (l1 & l2 & Heq).
  assert (Heq2 : HEAD :: l ++ [HEAD] = l1 ++ x :: l2 ++ [HEAD]) by (rewrite app_comm_cons, Heq; by rewrite <- app_assoc).
  split.
  - apply Hb. rewrite Heq2 in Hl |- *. apply links_app in Hl as [_ Hl].
    apply links_mem in Hl; [|by destruct l2]. apply elem_of_app. right. by right.
  - apply Hb. destruct l1 as [|h l1].
    + injection Heq as <- <-. apply links_reverse in Hl. rewrite reverse_cons, reverse_app in Hl.
      cbn [reverse app] in Hl. apply links_mem in Hl; [|by destruct (reverse l)].
      revert Hl. rewrite !elem_of_cons, !elem_of_app, elem_of_reverse. tauto.
    + apply links_reverse in Hl. rewrite Heq2, reverse_app, reverse_cons, reverse_app, <- app_assoc in Hl.
      apply links_app in Hl as [_ Hl].
      apply links_mem in Hl; [|rewrite reverse_cons; by destruct (reverse l1)].
      rewrite Heq2. apply elem_of_app. left. by apply elem_of_reverse.
Qed.

Lemma enqueue_links b m k :
  (b < NBUF)%nat -> length (k_buf k) = S NBUF -> NoDup (HEAD :: b :: m) ->
  Forall (fun x => (x < NBUF)%nat) m -> links (bnx k) (bpv k) (HEAD :: m ++ [HEAD]) ->
  links (bnx (enqueue b k)) (bpv (enqueue b k)) (HEAD :: b :: m ++ [HEAD]).
Proof.
  intros Hb L2 Hnd Hm Hk. set (k3 := upd_buf b (set_b_next (bnx k HEAD)) k).
  set (k4 := upd_buf b (set_b_prev HEAD) k3).
  assert (L3 : length (k_buf k3) = S NBUF) by (unfold k3; by rewrite length_upd_buf).
  assert (L4 : length (k_buf k4) = S NBUF) by (unfold k4; by rewrite length_upd_buf).
  assert (Nx4 : forall x, bnx k4 x = fn_upd (bnx k) b (bnx k HEAD) x).
  { intros x. unfold k4. rewrite bnx_set_prev. unfold k3. apply bnx_set_next. lia. }
  assert (H4 : bnx k4 HEAD = bnx k HEAD).
  { rewrite Nx4. apply fn_upd_ne. unfold HEAD. lia. }
  assert (Bh : (bnx k HEAD < S NBUF)%nat).
  { apply links_mem in Hk; [|by destruct m]. rewrite Forall_forall in Hm.
    apply elem_of_app in Hk as [Hk| ->%list_elem_of_singleton]; [specialize (Hm _ Hk); lia|unfold HEAD; lia]. }
  eapply links_proper; [..|apply (links_push _ _ HEAD b m Hnd Hk)].
  - intros x. unfold enqueue. fold k3 k4. rewrite bnx_set_next by (rewrite length_upd_buf; unfold HEAD; lia).
    unfold fn_upd at 1 2. case_decide; [done|]. rewrite bnx_set_prev. apply Nx4.
  - intros x. unfold enqueue. fold k3 k4. rewrite bpv_set_next. rewrite bpv_set_prev by (rewrite H4; lia).
    rewrite H4. unfold fn_upd at 1 2. case_decide; [done|]. unfold k4. rewrite bpv_set_prev by lia.
    unfold fn_upd. case_decide; [done|]. unfold k3. by rewrite bpv_set_next.
Qed.

Lemma relink_links b k :
  (b < NBUF)%nat -> length (k_buf k) = S NBUF ->
  (exists l, l ≡ₚ seq 0 NBUF /\ links (bnx k) (bpv k) (HEAD :: l ++ [HEAD])) ->
  exists l, l ≡ₚ seq 0 NBUF /\ links (bnx (relink b k)) (bpv (relink b k)) (HEAD :: l ++ [HEAD]).
Proof.
  intros Hb Hlen (l & Hl & Hk).
  assert (Hin : b ∈ l) by (rewrite Hl; apply elem_of_seq; lia).
  destruct (ring_bounds k l Hl Hk b ltac:(by right)) as [Bn Bp].
  apply list_elem_of_split in Hin as (l1 & l2 & ->).
  assert (Hnd : NoDup (HEAD :: l1 ++ b :: l2)).
  { apply NoDup_cons. rewrite Hl. split; [rewrite elem_of_seq; unfold HEAD; lia|apply NoDup_seq]. }
  rewrite <- app_assoc in Hk. cbn [app] in Hk.
  destruct (links_unlink _ _ HEAD l1 b l2 Hnd Hk) as (Hu & Nb & Pb).
  exists (b :: l1 ++ l2). split; [by rewrite Permutation_middle|].
  assert (Hnd' : NoDup (HEAD :: b :: l1 ++ l2)) by (by rewrite Permutation_middle).
  set (k1 := upd_buf (bnx k b) (set_b_prev (bpv k b)) k).
  assert (Pv1 : forall x, bpv k1 x = fn_upd (bpv k) (bnx k b) (bpv k b) x) by (apply bpv_set_prev; lia).
  assert (Nx1 : forall x, bnx k1 x = bnx k x) by (intros; apply bnx_set_prev).
  assert (P1 : bpv k1 b = bpv k b) by (rewrite Pv1; by apply fn_upd_ne).
  set (k2 := upd_buf (bpv k1 b) (set_b_next (bnx k1 b)) k1).
  assert (L1 : length (k_buf k1) = S NBUF) by (unfold k1; by rewrite length_upd_buf).
  apply (enqueue_links b (l1 ++ l2) k2); [done|unfold k2; by rewrite length_upd_buf|done| |].
  - apply Forall_forall. intros x Hx. assert (Hs : x ∈ l1 ++ b :: l2) by (rewrite <- Permutation_middle; by right).
    rewrite Hl, elem_of_seq in Hs. lia.
  - eapply links_proper; [..|exact Hu]; intros x; unfold k2; [|rewrite bpv_set_next; apply Pv1].
    rewrite bnx_set_next by (rewrite P1; lia). unfold fn_upd. by rewrite P1, !Nx1.
Qed.

Lemma relink_payload b k x : payload (get_buf (relink b k) x) = payload (get_buf k x).
Proof. unfold relink, enqueue. by rewrite !(get_buf_upd_field payload). Qed.

Lemma relink_length b k : length (k_buf (relink b k)) = length (k_buf k).
Proof. unfold relink, enqueue. by rewrite !length_upd_buf. Qed.

Lemma same_locks_relink b k k1 : same_locks k k1 -> same_locks k (relink b k1).
Proof. unfold relink, enqueue. by eauto 10 with krun. Qed.

Lemma with_locks_relink b k k1 : with_locks k (relink b k1) = relink b (with_locks k k1).
Proof. unfold relink, enqueue. by autorewrite with klocks. Qed.

(** After the sleep lock is released. *)
Definition unlocked (b : nat) (k : kernel) : kernel :=
  woken (ChSleep (SLbuf b)) (upd_sleeplock (SLbuf b) sl_free k).

Definition released (b : nat) (rc : Z) (k : kernel) : kernel :=
  let k1 := upd_buf b (set_b_refcnt rc) (unlocked b k) in
  if rc =? 0 then relink b k1 else k1.

Lemma unlocked_ctx b k : same_ctx k (unlocked b k).
Proof. apply (same_ctx_woken _ (upd_sleeplock (SLbuf b) sl_free k)). Qed.

Lemma unlocked_buf b k i : get_buf (unlocked b k) i = get_buf k i.
Proof. done. Qed.

Lemma brelse_move_run b k : brelse_move b k = Ok tt (relink b k).
Proof.
  unfold brelse_move, relink, enqueue, bnx, bpv. mrun. unfold modify. reflexivity.
Qed.

Lemma brelse_exec k p held pins b rc :
  bc_inv k p held pins -> b ∈ held -> u32 (b_refcnt (get_buf k b) - 1) = rc ->
  brelse b k = Ok tt (released b rc k).
Proof.
  intros Hinv Hb Hrc. destruct (bc_held _ _ _ _ Hinv b Hb) as (HbN & _).
  pose proof (held_lt _ _ _ _ _ Hinv Hb) as Hlt.
  unfold brelse. erewrite run_bind by (by eapply holdingsleep_held). cbn [negb].
  erewrite run_bind by (apply (releasesleep_run _ p); [apply Hinv|by apply (bc_slock _ _ _ _ Hinv)]).
  fold (unlocked b k). pose proof (unlocked_ctx b k) as Hctx.
  assert (Hi : irq_ok (unlocked b k)) by (eapply same_ctx_irq; [exact Hctx|apply (pc_irq _ _ (bc_ctx _ _ _ _ Hinv))]).
  assert (Hl : lock_free Lbcache (unlocked b k)) by (exact (same_ctx_lock _ _ _ Hctx (bc_lock _ _ _ _ Hinv))).
  acquire_step. mrun. rewrite get_buf_upd by done. autorewrite with klocks.
  rewrite (upd_buf_ext _ _ _ (set_b_refcnt rc)) by (autorewrite with klocks; by rewrite unlocked_buf, Hrc).
  cbn [b_refcnt set_b_refcnt]. rewrite unlocked_buf, Hrc. unfold released.
  destruct (rc =? 0).
  - set (k1 := upd_buf b (set_b_refcnt rc) (acquired Lbcache (unlocked b k))).
    rewrite (run_bind _ _ _ _ _ (brelse_move_run b k1)).
    rewrite (release_run _ (unlocked b k)) by (done || apply same_locks_relink; unfold k1; eauto with krun).
    rewrite with_locks_relink. unfold k1. by autorewrite with klocks.
  - mrun. release_step (unlocked b k). done.
Qed.

Lemma released_payload b rc k i :
  (b < length (k_buf k))%nat ->
  payload (get_buf (released b rc k) i) =
    payload (if decide (i = b) then set_b_refcnt rc (get_buf k b) else get_buf k i).
Proof.
  intros Hb. unfold released.
  assert (H : payload (get_buf (upd_buf b (set_b_refcnt rc) (unlocked b k)) i) =
    payload (if decide (i = b) then set_b_refcnt rc (get_buf k b) else get_buf k i)).
  { case_decide as E; [subst i; by rewrite get_buf_upd|by rewrite get_buf_upd_ne]. }
  destruct (rc =? 0); [by rewrite relink_payload|done].
Qed.

Lemma relink_frame b k : bio_frame k (relink b k).
Proof.
  unfold relink, enqueue. cbv zeta. do 5 (eapply bio_frame_trans; [|apply bio_frame_upd_buf]).
  apply bio_frame_upd_buf.
Qed.

Lemma unlocked_frame b k : bio_frame k (unlocked b k).
Proof. split; [apply unlocked_ctx|]. by destruct k. Qed.

Lemma released_frame b rc k : bio_frame k (released b rc k).
Proof.
  assert (H : bio_frame k (upd_buf b (set_b_refcnt rc) (unlocked b k))).
  { eapply bio_frame_trans; [apply unlocked_frame|apply bio_frame_upd_buf]. }
  unfold released. destruct (rc =? 0); [|exact H].
  eapply bio_frame_trans; [exact H|apply relink_frame].
Qed.

(** What [relink] leaves alone. *)
Lemma relink_rest b k :
  k_disk (relink b k) = k_disk k /\ k_hist (relink b k) = k_hist k /\ k_sleep (relink b k) = k_sleep k.
Proof. done. Qed.

Lemma released_rest b rc k :
  k_disk (released b rc k) = k_disk k /\ k_hist (released b rc k) = k_hist k /\
  forall s, get_sleeplock (released b rc k) s = get_sleeplock (upd_sleeplock (SLbuf b) sl_free k) s.
Proof.
  unfold released. destruct (rc =? 0); [|done]. unfold get_sleeplock.
  by destruct (relink_rest b (upd_buf b (set_b_refcnt rc) (unlocked b k))) as (-> & -> & ->).
Qed.

Lemma brelse_run k p held held' pins b n :
  bc_inv k p held pins -> held ≡ₚ b :: held' -> b_blockno (get_buf k b) = n ->
  n ∈ pins \/ view k n = disk_block (k_disk k) n ->
  exists k', brelse b k = Ok tt k' /\ bc_inv k' p held' pins /\ bio_frame k k' /\
    (forall m, view k' m = view k m) /\ k_disk k' = k_disk k /\ k_hist k' = k_hist k /\
    (forall i, b_blockno (get_buf k' i) = b_blockno (get_buf k i) /\ b_data (get_buf k' i) = b_data (get_buf k i)).
Proof.
  intros Hinv Hperm Hn Hclean. assert (Hb : b ∈ held) by (rewrite Hperm; left).
  pose proof (bc_nodup _ _ _ _ Hinv) as Hnd. rewrite Hperm in Hnd. apply NoDup_cons in Hnd as [Hnin Hnd].
  destruct (bc_held _ _ _ _ Hinv b Hb) as (HbN & _). pose proof (held_lt _ _ _ _ _ Hinv Hb) as Hlt.
  pose proof (caches_held _ _ _ _ _ _ Hinv Hb Hn) as Hc. pose proof (caches_assigned _ _ _ Hc) as Ha.
  pose proof (view_cached _ _ _ _ _ _ Hinv HbN Hc) as Hv.
  pose proof Ha as [Hd _]%assigned_inv.
  set (rc := cbool (bool_decide (n ∈ pins))).
  assert (Hrc : u32 (b_refcnt (get_buf k b) - 1) = rc).
  { rewrite (bc_ref _ _ _ _ Hinv b HbN), refs_held, Hn by done. unfold rc. by destruct (bool_decide _). }
  exists (released b rc k). pose proof (released_frame b rc k) as Hf.
  assert (Hpay : forall i, payload (get_buf (released b rc k) i) =
    payload (if decide (i = b) then set_b_refcnt rc (get_buf k b) else get_buf k i))
    by (intros i; by apply released_payload).
  assert (Hg : forall i, b_dev (get_buf (released b rc k) i) = b_dev (get_buf k i) /\
    b_blockno (get_buf (released b rc k) i) = b_blockno (get_buf k i) /\
    b_valid (get_buf (released b rc k) i) = b_valid (get_buf k i) /\
    b_data (get_buf (released b rc k) i) = b_data (get_buf k i)).
  { intros i. specialize (Hpay i). unfold payload in Hpay. injection Hpay as -> -> -> _ ->.
    case_decide as E; [by subst i|done]. }
  assert (Has : forall i m, assigned (released b rc k) i m = assigned k i m).
  { intros i m. unfold assigned. by destruct (Hg i) as (-> & -> & _). }
  assert (Hcs : forall i m, caches (released b rc k) i m = caches k i m).
  { intros i m. unfold caches. rewrite Has. by destruct (Hg i) as (_ & _ & -> & _). }
  destruct (released_rest b rc k) as (Hdk & Hhist & Hsl).
  assert (Hrb : b_refcnt (get_buf (released b rc k) b) = rc).
  { specialize (Hpay b). rewrite decide_True in Hpay by done. unfold payload in Hpay. by injection Hpay. }
  split_and!; [by eapply brelse_exec| |done| |done|done|].
  - apply (bc_inv_change k _ p held held' pins pins b); try done.
    + apply Hf.
    + unfold released. destruct (rc =? 0); rewrite ?relink_length, length_upd_buf; apply (bc_len _ _ _ _ Hinv).
    + assert (Hls : exists l, l ≡ₚ seq 0 NBUF /\ links (bnx (upd_buf b (set_b_refcnt rc) (unlocked b k)))
        (bpv (upd_buf b (set_b_refcnt rc) (unlocked b k))) (HEAD :: l ++ [HEAD])).
      { apply links_same; [done..|]. exact (bc_list _ _ _ _ Hinv). }
      unfold released. destruct (rc =? 0); [|exact Hls]. apply relink_links; [done| |exact Hls].
      rewrite length_upd_buf. apply (bc_len _ _ _ _ Hinv).
    + intros j _ Hjb. rewrite Hpay. by rewrite decide_False.
    + intros j Hjb. rewrite Hsl. by apply get_sleeplock_upd_ne; intros [= ->].
    + intros j Hjb. rewrite Hperm, elem_of_cons. tauto.
    + intros j m Hj Hjb. by rewrite Hdk.
    + intros j m Hj Hjb. rewrite Has. intros Hab. destruct (assigned k j m) eqn:E; [|done].
      exfalso. apply Hjb. by apply (bc_uniq _ _ _ _ Hinv j b m).
    + rewrite Hrb. unfold refs. destruct (Hg b) as (-> & -> & _). rewrite bool_decide_eq_false_2 by done.
      by rewrite Hd, Z.eqb_refl, Hn.
    + intros m Hcm Hz. rewrite Hcs in Hcm. rewrite (caches_fun _ _ _ _ Hcm Hc), Hdk.
      destruct (Hg b) as (_ & _ & _ & ->). rewrite <- Hv. destruct Hclean as [Hp|]; [|done].
      rewrite Hrb in Hz. unfold rc in Hz. by rewrite bool_decide_eq_true_2 in Hz.
    + intros m Hm. destruct (bc_pins _ _ _ _ Hinv m Hm) as (j & Hj & Hcj).
      destruct (decide (j = b)) as [->|]; [left; by rewrite Hcs|right; eauto].
    + rewrite bool_decide_eq_false_2 by done. rewrite Hsl, get_sleeplock_upd. done.
  - apply view_same_payload; [|by rewrite Hdk]. intros j _. split; [|apply Hg].
    unfold caches, assigned. by destruct (Hg j) as (-> & -> & -> & _).
  - intros i. split; apply Hg.
Qed.

(** ** [bread] *)

(** With fewer buffers in use or pinned than there are, one is unused. *)
Lemma unused_exists k p held pins :
  bc_inv k p held pins -> (length held + length pins < NBUF)%nat ->
  exists i, (i < NBUF)%nat /\ b_refcnt (get_buf k i) = 0.
Proof.
  intros Hinv Hlen.
  destruct (first_such (fun i => b_refcnt (get_buf k i) =? 0) (seq 0 NBUF)) as [i|] eqn:E.
  { apply first_such_in in E as [Hi%elem_of_seq Hr]. exists i. bprop. split; [lia|done]. }
  exfalso. rewrite first_such_None in E.
  set (inuse := filter (fun i => i ∈ held) (seq 0 NBUF)).
  set (pinned := filter (fun i => ~ i ∈ held) (seq 0 NBUF)).
  assert (H1 : (length inuse <= length held)%nat).
  { apply submseteq_length, NoDup_submseteq; [apply NoDup_filter, NoDup_seq|].
    intros i. unfold inuse. rewrite list_elem_of_filter. tauto. }
  assert (Hp : forall i, i ∈ pinned -> (i < NBUF)%nat /\ assigned k i (b_blockno (get_buf k i)) = true /\
    b_blockno (get_buf k i) ∈ pins).
  { intros i. unfold pinned. rewrite list_elem_of_filter. intros [Hn Hi]. specialize (E i Hi). bprop.
    apply elem_of_seq in Hi. split; [lia|]. rewrite (bc_ref _ _ _ _ Hinv i) in E by lia.
    unfold refs in E. rewrite bool_decide_eq_false_2 in E by done.
    unfold assigned. destruct (b_dev (get_buf k i) =? dev); cbn in E |- *; [|done].
    rewrite Z.eqb_refl. case_bool_decide; [done|]. cbn in E. done. }
  assert (H2 : (length pinned <= length pins)%nat).
  { rewrite <- (length_fmap (fun i => b_blockno (get_buf k i)) pinned).
    apply submseteq_length, NoDup_submseteq.
    - apply NoDup_fmap_2_strong; [|apply NoDup_filter, NoDup_seq]. intros i j Hi Hj Heq.
      destruct (Hp i Hi) as (Hi1 & Hi2 & _). destruct (Hp j Hj) as (Hj1 & Hj2 & _).
      apply (bc_uniq _ _ _ _ Hinv i j (b_blockno (get_buf k i))); [done|done|done|by rewrite Heq].
    - intros n (i & -> & Hi)%list_elem_of_fmap. by apply Hp. }
  assert (H3 : length (seq 0 NBUF) = (length inuse + length pinned)%nat).
  { unfold inuse, pinned. clear. induction (seq 0 NBUF) as [|x l IH]; [done|].
    rewrite !filter_cons. destruct (decide (x ∈ held)) as [Hx|Hx].
    - rewrite (decide_False (P := ~ x ∈ held)) by tauto. cbn. lia.
    - rewrite (decide_True (P := ~ x ∈ held)) by done. cbn. lia. }
  rewrite length_seq in H3. lia.
Qed.

(** What [bread] does after [bget]: fill the buffer unless it is valid. *)
Definition filled (b : nat) (k : kernel) : kernel :=
  if truth (b_valid (get_buf k b)) then k
  else upd_buf b (set_b_valid 1) (disk_read b k).

(** [bget] takes the buffer [b] for the block: [g] updates its fields. *)
Definition taken (b : nat) (g : buf -> buf) (pid : Z) (k : kernel) : kernel :=
  upd_sleeplock (SLbuf b) (sl_held pid) (upd_buf b g k).

Lemma bget_run k p held pins n :
  bc_inv k p held pins -> (forall i, i ∈ held -> assigned k i n = false) ->
  (exists i, (i < NBUF)%nat /\ assigned k i n = true) \/ (length held + length pins < NBUF)%nat ->
  exists b g, bget dev n k = Ok b (taken b g (cur_pid k p) k) /\ (b < NBUF)%nat /\ ~ b ∈ held /\
    ((assigned k b n = true /\ g = (fun x => set_b_refcnt (u32 (b_refcnt x + 1)) x)) \/
     ((forall i, (i < NBUF)%nat -> assigned k i n = false) /\ b_refcnt (get_buf k b) = 0 /\
      g = (fun x => set_b_refcnt 1 (set_b_valid 0 (set_b_blockno n (set_b_dev dev x)))))).
Proof.
  intros Hinv Hfree Hroom. destruct (bc_list _ _ _ _ Hinv) as (l & Hl & Hlinks).
  pose proof (pc_irq _ _ (bc_ctx _ _ _ _ Hinv)) as Hi. pose proof (bc_lock _ _ _ _ Hinv) as Hlk.
  assert (Hin : forall i, i ∈ l <-> (i < NBUF)%nat) by (intros i; rewrite Hl, elem_of_seq; lia).
  set (f := fun x : buf => (b_dev x =? dev) && (b_blockno x =? n)).
  assert (Hscan1 : bscan b_next f (bnx (acquired Lbcache k) HEAD) (acquired Lbcache k) =
    Ok (first_such (fun i => assigned k i n) l) (acquired Lbcache k)).
  { rewrite (bscan_next _ l); [done..]. }
  assert (Hscan2 : bscan b_prev (fun x => b_refcnt x =? 0) (bpv (acquired Lbcache k) HEAD) (acquired Lbcache k) =
    Ok (first_such (fun i => b_refcnt (get_buf k i) =? 0) (reverse l)) (acquired Lbcache k)).
  { rewrite (bscan_prev _ l); [done..]. }
  assert (Hsl : forall i g, (i < NBUF)%nat -> ~ i ∈ held ->
    acquiresleep (SLbuf i) (upd_buf i g k) = Ok tt (taken i g (cur_pid k p) k)).
  { intros i g Hi' Hni. rewrite (acquiresleep_run _ p); [done|..].
    - exact (same_ctx_proc k _ p (same_ctx_upd_buf k i g) (bc_ctx _ _ _ _ Hinv)).
    - exact (same_ctx_lock _ _ _ (same_ctx_upd_buf k i g) (bc_slock _ _ _ _ Hinv i Hi')).
    - change (sl_locked (get_sleeplock k (SLbuf i)) = 0). pose proof (bc_sleep _ _ _ _ Hinv i Hi') as Hs.
      rewrite bool_decide_eq_false_2 in Hs by done. by rewrite Hs. }
  unfold bget. acquire_step. mrun. autorewrite with klocks. fold f.
  rewrite (run_bind _ _ _ _ _ Hscan1).
  destruct (first_such (fun i => assigned k i n) l) as [b|] eqn:E1.
  - apply first_such_in in E1 as [Hb Ha]. apply Hin in Hb.
    assert (Hnb : ~ b ∈ held) by (intros H; specialize (Hfree b H); congruence).
    eexists b, _. split_and!; [|done|done|left; split; [done|reflexivity]].
    mrun. release_step k. erewrite run_bind by (by apply Hsl). done.
  - rewrite first_such_None in E1. mrun. autorewrite with klocks. rewrite (run_bind _ _ _ _ _ Hscan2).
    destruct (first_such _ (reverse l)) as [b|] eqn:E2.
    + apply first_such_in in E2 as [Hb Hr]. rewrite elem_of_reverse in Hb. apply Hin in Hb. bprop.
      assert (Hnb : ~ b ∈ held).
      { intros H. pose proof (bc_ref _ _ _ _ Hinv b Hb) as Hrr. unfold refs in Hrr.
        rewrite bool_decide_eq_true_2 in Hrr by done. destruct (_ && _); cbn in Hrr; lia. }
      eexists b, _. split_and!; [|done|done|right; split_and!; [|done|reflexivity]].
      * mrun. rewrite !upd_buf_upd. release_step k. erewrite run_bind by (by apply Hsl). done.
      * intros i Hi'. apply E1. by apply Hin.
    + exfalso. rewrite first_such_None in E2. destruct Hroom as [(i & Hi' & Ha)|Hroom].
      { rewrite E1 in Ha; [done|]. by apply Hin. }
      destruct (unused_exists _ _ _ _ Hinv Hroom) as (i & Hi' & Hr).
      specialize (E2 i). rewrite elem_of_reverse, Hin in E2. specialize (E2 Hi'). bprop. done.
Qed.

Lemma get_buf_taken b g pid k i : get_buf (taken b g pid k) i = get_buf (upd_buf b g k) i.
Proof. done. Qed.

Lemma taken_ctx b g pid k : same_ctx k (taken b g pid k).
Proof. done. Qed.

(** The state after [bread]: buffer [b] as [x], locked. *)
Definition loaded (b : nat) (x : buf) (pid : Z) (k : kernel) : kernel :=
  upd_buf b (fun _ => x) (upd_sleeplock (SLbuf b) (sl_held pid) k).

Lemma loaded_eq b g pid k :
  (b < length (k_buf k))%nat ->
  upd_buf b g (upd_sleeplock (SLbuf b) (sl_held pid) k) = loaded b (g (get_buf k b)) pid k.
Proof. intros Hb. unfold loaded. by apply upd_buf_ext. Qed.

Lemma fill_run k p held pins b g :
  bc_inv k p held pins -> (b < NBUF)%nat ->
  let x := g (get_buf k b) in
  (valid ← b_get b b_valid;
   when (negb (truth valid)) (virtio_disk_rw b false;; b_set b (set_b_valid 1));;
   mret b) (taken b g (cur_pid k p) k) =
  Ok b (loaded b (if truth (b_valid x) then x
                  else set_b_valid 1 (set_b_data (disk_block (k_disk k) (b_blockno x)) x)) (cur_pid k p) k).
Proof.
  intros Hinv Hb x. assert (Hlt : (b < length (k_buf k))%nat) by (rewrite (bc_len _ _ _ _ Hinv); lia).
  mrun. rewrite get_buf_taken, get_buf_upd by done. fold x.
  assert (Ht : taken b g (cur_pid k p) k = loaded b x (cur_pid k p) k) by exact (loaded_eq b g (cur_pid k p) k Hlt).
  destruct (truth (b_valid x)); cbn [negb]; mrun; [by rewrite Ht|].
  pose proof (taken_ctx b g (cur_pid k p) k) as Hctx.
  erewrite run_bind by (apply (disk_rw_read b _ p);
    [exact (same_ctx_proc _ _ _ Hctx (bc_ctx _ _ _ _ Hinv))|exact (bc_noff _ _ _ _ Hinv)
    |exact (same_ctx_lock _ _ _ Hctx (bc_vlock _ _ _ _ Hinv))|done]).
  mrun. f_equal. unfold disk_read. rewrite get_buf_taken, get_buf_upd by done. fold x.
  change (k_disk (taken b g (cur_pid k p) k)) with (k_disk k). unfold taken.
  change (upd_sleeplock (SLbuf b) (sl_held (cur_pid k p)) (upd_buf b g k))
    with (upd_buf b g (upd_sleeplock (SLbuf b) (sl_held (cur_pid k p)) k)).
  rewrite !upd_buf_upd. by rewrite loaded_eq.
Qed.

Lemma bread_run k p held pins n :
  bc_inv k p held pins -> (forall i, i ∈ held -> assigned k i n = false) ->
  (exists i, (i < NBUF)%nat /\ assigned k i n = true) \/ (length held + length pins < NBUF)%nat ->
  exists b k', bread dev n k = Ok b k' /\ bc_inv k' p (b :: held) pins /\ ~ b ∈ held /\
    b_blockno (get_buf k' b) = n /\ b_data (get_buf k' b) = view k n /\
    (forall m, view k' m = view k m) /\ k_disk k' = k_disk k /\ k_hist k' = k_hist k /\
    bio_frame k k' /\ (forall i, i <> b -> get_buf k' i = get_buf k i).
Proof.
  intros Hinv Hfree Hroom.
  destruct (bget_run k p held pins n Hinv Hfree Hroom) as (b & g & Hget & Hb & Hnb & Hcase).
  assert (Hlt : (b < length (k_buf k))%nat) by (rewrite (bc_len _ _ _ _ Hinv); lia).
  pose proof (fill_run k p held pins b g Hinv Hb) as Hfill. cbv zeta in Hfill.
  set (x := if truth (b_valid (g (get_buf k b))) then g (get_buf k b)
            else set_b_valid 1 (set_b_data (disk_block (k_disk k) (b_blockno (g (get_buf k b)))) (g (get_buf k b)))) in *.
  set (k' := loaded b x (cur_pid k p) k) in *.
  assert (Hx : b_dev x = dev /\ b_blockno x = n /\ truth (b_valid x) = true /\ b_data x = view k n /\
    b_next x = b_next (get_buf k b) /\ b_prev x = b_prev (get_buf k b) /\
    b_refcnt x = 1 + cbool (bool_decide (n ∈ pins)) /\
    forall j, (j < NBUF)%nat -> j <> b -> assigned k j n = false).
  { destruct Hcase as [[Ha ->]|(Hnone & Hr & ->)].
    - pose proof Ha as [Hd Hn]%assigned_inv. pose proof (bc_ref _ _ _ _ Hinv b Hb) as Hr.
      unfold refs in Hr. rewrite bool_decide_eq_false_2, Hd, Z.eqb_refl, Hn in Hr by done.
      assert (Hu : forall j, (j < NBUF)%nat -> j <> b -> assigned k j n = false).
      { intros j Hj Hjb. destruct (assigned k j n) eqn:E; [|done]. exfalso. apply Hjb.
        by apply (bc_uniq _ _ _ _ Hinv j b n). }
      subst x. cbn [b_valid set_b_refcnt].
      assert (Hrc : u32 (b_refcnt (get_buf k b) + 1) = 1 + cbool (bool_decide (n ∈ pins)))
        by (rewrite Hr; by destruct (bool_decide _)).
      destruct (truth (b_valid (get_buf k b))) eqn:Ev; cbn; rewrite Hn; split_and!; try done.
      + symmetry. eapply view_cached; [done|done|]. unfold caches. by rewrite Ha, Ev.
      + symmetry. apply view_uncached. intros i Hi. unfold caches.
        destruct (decide (i = b)) as [->|Hib]; [by rewrite Ev, andb_false_r|by rewrite Hu].
    - subst x. cbn. split_and!; try done.
      + symmetry. apply view_uncached. intros i Hi. unfold caches. by rewrite Hnone.
      + rewrite bool_decide_eq_false_2; [done|]. intros Hp.
        destruct (bc_pins _ _ _ _ Hinv n Hp) as (j & Hj & Hc%caches_assigned). rewrite Hnone in Hc; done.
      + intros j Hj _. by apply Hnone. }
  destruct Hx as (Xd & Xn & Xv & Xdata & Xnx & Xpv & Xr & Xu).
  assert (Hgb : get_buf k' b = x) by (unfold k', loaded; by rewrite get_buf_upd).
  assert (Hgo : forall i, i <> b -> get_buf k' i = get_buf k i).
  { intros i Hib. unfold k', loaded. by rewrite get_buf_upd_ne. }
  assert (Has : forall m, assigned k' b m = (m =? n)).
  { intros m. unfold assigned. rewrite Hgb, Xd, Xn, Z.eqb_refl. apply Z.eqb_sym. }
  assert (Hcs : forall m, caches k' b m = (m =? n)).
  { intros m. unfold caches. by rewrite Has, Hgb, Xv, andb_true_r. }
  assert (Hinv' : bc_inv k' p (b :: held) pins).
  { apply (bc_inv_change k k' p held (b :: held) pins pins b); try done.
    - unfold k', loaded. rewrite length_upd_buf. apply (bc_len _ _ _ _ Hinv).
    - destruct (bc_list _ _ _ _ Hinv) as (l & Hl & Hk). exists l. split; [done|].
      eapply links_proper; [..|exact Hk]; intros i; unfold bnx, bpv;
        (destruct (decide (i = b)) as [->|]; [by rewrite Hgb|by rewrite Hgo]).
    - intros j _ Hjb. by rewrite Hgo.
    - intros j Hjb. unfold k', loaded. by apply get_sleeplock_upd_ne; intros [= ->].
    - intros j Hjb. rewrite elem_of_cons. tauto.
    - apply NoDup_cons. split; [done|apply (bc_nodup _ _ _ _ Hinv)].
    - intros j m Hj Hjb. rewrite Has. intros ->%Z.eqb_eq. by apply Xu.
    - rewrite Hgb. rewrite refs_held by (rewrite ?Hgb; done || left). by rewrite Hgb, Xn.
    - intros m _. rewrite Hgb, Xr. destruct (bool_decide _); cbn; lia.
    - intros m Hm. destruct (bc_pins _ _ _ _ Hinv m Hm) as (j & Hj & Hcj).
      destruct (decide (m = n)) as [->|Hmn]; [left; by rewrite Hcs, Z.eqb_refl|]. right. exists j. split_and!; try done.
      intros ->. destruct Hcase as [[Ha _]|(_ & Hr & _)].
      + apply Hmn. by eapply assigned_fun; [apply caches_assigned|].
      + pose proof (bc_ref _ _ _ _ Hinv b Hb) as Hrr. pose proof (caches_assigned _ _ _ Hcj) as [Hd' Hn']%assigned_inv.
        unfold refs in Hrr. rewrite Hd', Hn', Z.eqb_refl, bool_decide_eq_false_2, bool_decide_eq_true_2 in Hrr by done.
        cbn in Hrr. lia.
    - intros _. exists n. by rewrite Hcs, Z.eqb_refl.
    - rewrite bool_decide_eq_true_2 by left. unfold k', loaded.
      change (get_sleeplock (upd_buf b (fun _ => x) ?kk) ?s) with (get_sleeplock kk s).
      by rewrite get_sleeplock_upd. }
  exists b, k'. split_and!; [|done|done|by rewrite Hgb|by rewrite Hgb| |done|done| |done].
  - unfold bread. rewrite (run_bind _ _ _ _ _ Hget). exact Hfill.
  - intros m. destruct (decide (m = n)) as [->|Hmn].
    + rewrite (view_cached k' p (b :: held) pins b); [by rewrite Hgb|done|done|by rewrite Hcs, Z.eqb_refl].
    + destruct (caches k b m) eqn:Ec.
      * destruct Hcase as [[Ha _]|(_ & Hr & _)].
        { exfalso. apply Hmn. by eapply assigned_fun; [apply caches_assigned|]. }
        rewrite (view_cached k p held pins b m Hinv Hb Ec).
        rewrite (bc_clean _ _ _ _ Hinv b m Hb Ec Hr). change (view k' m = disk_block (k_disk k') m). apply view_uncached. intros i Hi.
        destruct (decide (i = b)) as [->|Hib]; [rewrite Hcs; by apply Z.eqb_neq|].
        unfold caches, assigned. rewrite Hgo by done. fold (assigned k i m).
        destruct (assigned k i m) eqn:E; [|done]. exfalso. apply Hib.
        eapply (bc_uniq _ _ _ _ Hinv i b m); eauto using caches_assigned.
      * apply (view_change k k' b); [intros j _ Hjb; by rewrite Hgo|done|rewrite Hcs; by apply Z.eqb_neq|done].
  - split; [done|]. unfold k', loaded. by destruct k.
Qed.
End bcache.
