(* ===== verification/BcacheSpec.v ===== *)
(** * The buffer cache as an abstract block store

    [bst k p hs pins V D H]: in state [k], process [p] holds the buffers [hs]
    (each with its block number), the blocks [pins] are pinned, the cache
    shows the blocks as [V], the disk holds [D], and [H] are the earlier disk
    contents.  Each operation of bio.c is a step on these; the file-system
    code is verified against these rules only. *)

From S2P Require Export Bcache.

(** Block contents with one block replaced. *)
Definition vset (V : Z -> list Z) (n : Z) (d : list Z) : Z -> list Z :=
  fun m => if decide (m = n) then d else V m.

Lemma vset_eq V n d : vset V n d n = d.
Proof. unfold vset. by case_decide. Qed.

Lemma vset_ne V n d m : m <> n -> vset V n d m = V m.
Proof. intros. unfold vset. by case_decide. Qed.

Section bst.
Context {TH : Threads} {BD : BlockDev}.
Context (dev : Z).

Record bst (k : kernel) (p : nat) (hs : list (nat * Z)) (pins : list Z) (V : Z -> list Z)
    (D : gmap Z (list Z)) (H : list (gmap Z (list Z))) : Prop := {
  bs_inv : bc_inv dev k p hs.*1 pins;
  bs_held : forall b n, (b, n) ∈ hs -> b_blockno (get_buf k b) = n;
  bs_view : forall m, view dev k m = V m;
  bs_disk : k_disk k = D;
  bs_hist : k_hist k = H
}.

Lemma bst_in (b : nat) (n : Z) (hs : list (nat * Z)) : (b, n) ∈ hs -> b ∈ hs.*1.
Proof. intros Hin. apply list_elem_of_fmap. by exists (b, n). Qed.

Lemma bst_data k p hs pins V D H b n :
  bst k p hs pins V D H -> (b, n) ∈ hs -> b_data (get_buf k b) = V n.
Proof.
  intros Hs Hin. pose proof (bs_held _ _ _ _ _ _ _ Hs b n Hin) as Hn.
  pose proof (bs_inv _ _ _ _ _ _ _ Hs) as Hi. apply bst_in in Hin.
  rewrite <- (bs_view _ _ _ _ _ _ _ Hs n). symmetry. eapply view_cached; [exact Hi| |].
  - by apply (bc_held _ _ _ _ _ Hi).
  - by eapply caches_held.
Qed.

(** A block that is not in use and not pinned is on disk as seen. *)
Lemma bst_unused k p hs pins V D H m :
  bst k p hs pins V D H -> ~ m ∈ hs.*2 -> ~ m ∈ pins -> V m = disk_block D m.
Proof.
  intros Hs Hh Hm. rewrite <- (bs_view _ _ _ _ _ _ _ Hs), <- (bs_disk _ _ _ _ _ _ _ Hs).
  pose proof (bs_inv _ _ _ _ _ _ _ Hs) as Hi.
  destruct (first_such (fun i => caches dev k i m) (seq 0 NBUF)) as [i|] eqn:E; [|unfold view; by rewrite E].
  apply first_such_in in E as [Hin%elem_of_seq Hc]. rewrite (view_cached dev k p hs.*1 pins i) by (done || lia).
  apply (bc_clean _ _ _ _ _ Hi); [lia|done|]. rewrite (bc_ref _ _ _ _ _ Hi) by lia.
  apply caches_assigned, assigned_inv in Hc as [Hd Hn]. unfold refs.
  rewrite bool_decide_eq_false_2; [by rewrite Hd, Hn, Z.eqb_refl, bool_decide_eq_false_2|].
  intros ([i' n] & -> & Hin')%list_elem_of_fmap. apply Hh, list_elem_of_fmap. exists (i', n). split; [|done].
  cbn in *. rewrite <- Hn. by apply (bs_held _ _ _ _ _ _ _ Hs).
Qed.

Lemma bst_clean k p pins V D H m :
  bst k p [] pins V D H -> ~ m ∈ pins -> V m = disk_block D m.
Proof. intros Hs. apply (bst_unused _ _ _ _ _ _ _ _ Hs), not_elem_of_nil. Qed.

Lemma bst_bread k p hs pins V D H n :
  bst k p hs pins V D H -> ~ n ∈ hs.*2 -> n ∈ pins \/ (length hs + length pins < NBUF)%nat ->
  wp (bread dev n) (fun b k' => bst k' p ((b, n) :: hs) pins V D H /\ bio_frame k k' /\
    ~ b ∈ hs.*1) k.
Proof.
  intros Hs Hn Hroom. pose proof (bs_inv _ _ _ _ _ _ _ Hs) as Hi.
  destruct (bread_run dev k p hs.*1 pins n Hi) as (b & k' & Hrun & Hinv & Hnb & Hbn & Hd & Hv & Hdk & Hh & Hf & Ho).
  - intros i Hin. destruct (assigned dev k i n) eqn:E; [|done]. exfalso.
    apply list_elem_of_fmap in Hin as ([i' m] & -> & Hin). cbn in E.
    apply assigned_inv in E as [_ E]. rewrite (bs_held _ _ _ _ _ _ _ Hs i' m Hin) in E. subst m.
    apply Hn, list_elem_of_fmap. by exists (i', n).
  - destruct Hroom as [Hp|Hr]; [left|right; by rewrite length_fmap].
    destruct (bc_pins _ _ _ _ _ Hi n Hp) as (i & Hlt & Hc). exists i. split; [done|]. by apply caches_assigned.
  - eapply wp_Ok; [exact Hrun|]. split_and!; [split|done|done].
    + done.
    + intros i m [[= -> ->]|Hin]%elem_of_cons; [done|].
      rewrite Ho; [by apply (bs_held _ _ _ _ _ _ _ Hs)|]. intros ->. apply Hnb. by eapply bst_in.
    + intros m. rewrite Hv. apply Hs.
    + rewrite Hdk. apply Hs.
    + rewrite Hh. apply Hs.
Qed.

Lemma bst_set_data k p hs pins V D H b n d :
  bst k p hs pins V D H -> (b, n) ∈ hs ->
  bst (upd_buf b (set_b_data d) k) p hs pins (vset V n d) D H.
Proof.
  intros Hs Hin. pose proof (bs_inv _ _ _ _ _ _ _ Hs) as Hi.
  pose proof (bs_held _ _ _ _ _ _ _ Hs b n Hin) as Hn. pose proof (bst_in _ _ _ Hin) as Hb. split.
  - by apply bc_inv_set_data.
  - intros b' n' Hin'. rewrite (get_buf_upd_field b_blockno) by done. by apply (bs_held _ _ _ _ _ _ _ Hs).
  - intros m. rewrite (view_set_data dev k p hs.*1 pins b d n) by done. unfold vset.
    case_decide; [done|]. apply Hs.
  - apply Hs.
  - apply Hs.
Qed.

Lemma bst_bwrite k p hs pins V D H b n :
  bst k p hs pins V D H -> (b, n) ∈ hs ->
  wp (bwrite b) (fun _ k' => bst k' p hs pins V (<[n := V n]> D) (D :: H) /\ bio_frame k k') k.
Proof.
  intros Hs Hin. pose proof (bs_inv _ _ _ _ _ _ _ Hs) as Hi.
  pose proof (bs_held _ _ _ _ _ _ _ Hs b n Hin) as Hn. pose proof (bst_in _ _ _ Hin) as Hb.
  destruct (bwrite_run dev k p hs.*1 pins b n Hi Hb Hn) as (Hrun & Hinv & Hf & Hv & Hd & Hh).
  eapply wp_Ok; [exact Hrun|]. split; [split|done].
  - done.
  - intros b' n' Hin'. exact (bs_held _ _ _ _ _ _ _ Hs b' n' Hin').
  - intros m. rewrite Hv. apply Hs.
  - rewrite Hd, (bs_view _ _ _ _ _ _ _ Hs), (bs_disk _ _ _ _ _ _ _ Hs). done.
  - rewrite Hh, (bs_disk _ _ _ _ _ _ _ Hs), (bs_hist _ _ _ _ _ _ _ Hs). done.
Qed.

Lemma bst_brelse k p hs hs' pins V D H b n :
  bst k p hs pins V D H -> hs ≡ₚ (b, n) :: hs' -> n ∈ pins \/ V n = disk_block D n ->
  wp (brelse b) (fun _ k' => bst k' p hs' pins V D H /\ bio_frame k k') k.
Proof.
  intros Hs Hp Hc. pose proof (bs_inv _ _ _ _ _ _ _ Hs) as Hi.
  assert (Hin : (b, n) ∈ hs) by (rewrite Hp; left).
  pose proof (bs_held _ _ _ _ _ _ _ Hs b n Hin) as Hn.
  destruct (brelse_run dev k p hs.*1 hs'.*1 pins b n Hi) as (k' & Hrun & Hinv & Hf & Hv & Hd & Hh & Ho).
  - by rewrite Hp.
  - done.
  - rewrite (bs_view _ _ _ _ _ _ _ Hs), (bs_disk _ _ _ _ _ _ _ Hs). done.
  - eapply wp_Ok; [exact Hrun|]. split; [split|done].
    + done.
    + intros b' n' Hin'. rewrite (proj1 (Ho b')). apply (bs_held _ _ _ _ _ _ _ Hs). rewrite Hp. by right.
    + intros m. rewrite Hv. apply Hs.
    + rewrite Hd. apply Hs.
    + rewrite Hh. apply Hs.
Qed.

Lemma bst_bunpin k p hs pins pins' V D H b n :
  bst k p hs pins V D H -> (b, n) ∈ hs -> n ∈ pins ->
  (forall m, m ∈ pins' <-> m ∈ pins /\ m <> n) ->
  wp (bunpin b) (fun _ k' => bst k' p hs pins' V D H /\ bio_frame k k') k.
Proof.
  intros Hs Hin Hp Hp'. pose proof (bs_inv _ _ _ _ _ _ _ Hs) as Hi.
  pose proof (bs_held _ _ _ _ _ _ _ Hs b n Hin) as Hn. pose proof (bst_in _ _ _ Hin) as Hb.
  destruct (bunpin_run dev k p hs.*1 pins pins' b n Hi Hb Hn Hp Hp') as (k' & Hrun & Hinv & Hf & Hv & Hd & Hh & Ho).
  eapply wp_Ok; [exact Hrun|]. split; [split|done].
  - done.
  - intros b' n' Hin'. rewrite (proj1 (Ho b')). by apply (bs_held _ _ _ _ _ _ _ Hs).
  - intros m. rewrite Hv. apply Hs.
  - rewrite Hd. apply Hs.
  - rewrite Hh. apply Hs.
Qed.

(** Equal views and equally many pins. *)
Lemma bst_view k p hs pins V V' D H :
  bst k p hs pins V D H -> (forall m, V m = V' m) -> bst k p hs pins V' D H.
Proof. intros [H1 H2 H3 H4 H5] Hv. split; [done..| |done|done]. intros m. by rewrite H3. Qed.

(** The rest of the state does not matter. *)
Lemma bst_frame k k' p hs pins V D H :
  bst k p hs pins V D H -> same_ctx k k' -> k_buf k' = k_buf k -> k_sleep k' = k_sleep k ->
  k_disk k' = k_disk k -> k_hist k' = k_hist k -> bst k' p hs pins V D H.
Proof.
  intros [Hi H2 H3 H4 H5] Hc Eb Es Ed Eh.
  assert (Hg : forall i, get_buf k' i = get_buf k i) by (intros i; unfold get_buf; by rewrite Eb).
  assert (Ha : forall i n, assigned dev k' i n = assigned dev k i n) by (intros; unfold assigned; by rewrite Hg).
  assert (Hca : forall i n, caches dev k' i n = caches dev k i n) by (intros; unfold caches; by rewrite Ha, Hg).
  pose proof (proj1 Hc) as Hl. split.
  - destruct Hi as [I1 I2 I3 I4 I5 I6 I7 I8 I9 I10 I11 I12 I13 I14]. split.
    + by eapply same_ctx_proc.
    + destruct Hl as (Ht & _ & Hcp & _). unfold this_cpu, get_cpu. by rewrite Ht, Hcp.
    + by eapply lock_free_same.
    + by eapply lock_free_same.
    + intros i Hi. eapply lock_free_same; [done|]. by apply I5.
    + by rewrite Eb.
    + destruct I7 as (l & L1 & L2). exists l. split; [done|].
      eapply links_proper; [..|exact L2]; intros x; unfold bnx, bpv; by rewrite Hg.
    + intros i j n. rewrite !Ha. apply I8.
    + intros i. unfold refs. rewrite Hg. apply I9.
    + intros i n. rewrite Hca, Hg, Ed. apply I10.
    + intros n Hn. destruct (I11 n Hn) as (i & ? & ?). exists i. by rewrite Hca.
    + intros i Hin. destruct (I12 i Hin) as (? & n & ?). split; [done|]. exists n. by rewrite Hca.
    + done.
    + intros i Hi. unfold get_sleeplock. rewrite Es, (same_ctx_pid _ _ _ Hc). by apply I14.
  - intros b n Hin. rewrite Hg. by apply H2.
  - intros m. rewrite <- H3. apply view_same_payload; [|by rewrite Ed]. intros j _. rewrite Hg. split; [|done].
    unfold caches, assigned. by rewrite Hg.
  - by rewrite Ed.
  - by rewrite Eh.
Qed.
End bst.
