(* ===== verification/Binit.v ===== *)
(** * [binit] establishes the buffer cache

    From zeroed buffers, [binit] makes the circular list and the locks, and
    the cache then shows the disk as it is. *)

From S2P Require Export BcacheSpec.

Section binit.
Context {TH : Threads} {BD : BlockDev}.

(** One round of the loop of [binit]. *)
Definition added (b : nat) (k : kernel) : kernel :=
  enqueue b (upd_sleeplock (SLbuf b) (fun _ => mkSleeplock 0 "buffer" 0)
    (upd_lock (Lsleep (SLbuf b)) (fun _ => mkSpinlock 0 "sleep lock" None) k)).

Lemma binit_run k :
  binit k = Ok tt (foldl (fun k b => added b k)
    (upd_buf HEAD (set_b_next HEAD) (upd_buf HEAD (set_b_prev HEAD)
      (upd_lock Lbcache (fun _ => mkSpinlock 0 "bcache" None) k))) (seq 0 NBUF)).
Proof.
  unfold binit, initlock. mrun. generalize (seq 0 NBUF) as l.
  generalize (upd_buf HEAD (set_b_next HEAD) (upd_buf HEAD (set_b_prev HEAD)
      (upd_lock Lbcache (fun _ => mkSpinlock 0 "bcache" None) k))) as k1.
  intros k1 l. revert k1. induction l as [|b l IH]; intros k1; [done|]. cbn [for_all foldl].
  rewrite <- IH. unfold initsleeplock, initlock. mrun. f_equal. unfold added. rewrite !upd_sleeplock_upd. done.
Qed.

(** What the rounds leave alone, and what they have built. *)
Record built (k0 : kernel) (m : list nat) (k : kernel) : Prop := {
  bu_rest : k_tp k = k_tp k0 /\ k_sie k = k_sie k0 /\ k_cpus k = k_cpus k0 /\ k_proc k = k_proc k0 /\
    k_disk k = k_disk k0 /\ k_hist k = k_hist k0 /\ k_log k = k_log k0 /\ k_sb k = k_sb k0 /\ k_inode k = k_inode k0;
  bu_locks : forall l, l <> Lbcache -> (forall i, l <> Lsleep (SLbuf i)) -> k_locks k !! l = k_locks k0 !! l;
  bu_lock : lock_free Lbcache k;
  bu_len : length (k_buf k) = S NBUF;
  bu_payload : forall i, payload (get_buf k i) = payload (get_buf k0 i);
  bu_links : links (bnx k) (bpv k) (HEAD :: m ++ [HEAD]);
  bu_sleep : forall i, i ∈ m -> lock_free (Lsleep (SLbuf i)) k /\
    get_sleeplock k (SLbuf i) = mkSleeplock 0 "buffer" 0
}.

Lemma added_rest b k :
  k_tp (added b k) = k_tp k /\ k_sie (added b k) = k_sie k /\ k_cpus (added b k) = k_cpus k /\
  k_proc (added b k) = k_proc k /\ k_disk (added b k) = k_disk k /\ k_hist (added b k) = k_hist k /\
  k_log (added b k) = k_log k /\ k_sb (added b k) = k_sb k /\ k_inode (added b k) = k_inode k.
Proof. done. Qed.

Lemma added_payload b k i : payload (get_buf (added b k) i) = payload (get_buf k i).
Proof. unfold added, enqueue. by rewrite !(get_buf_upd_field payload). Qed.

Lemma added_locks b k l : l <> Lsleep (SLbuf b) -> k_locks (added b k) !! l = k_locks k !! l.
Proof. intros H. unfold added, enqueue, upd_lock; cbn. by rewrite lookup_insert_ne. Qed.

Lemma added_sleep b k i : i <> b -> get_sleeplock (added b k) (SLbuf i) = get_sleeplock k (SLbuf i).
Proof.
  intros H. unfold get_sleeplock, added, enqueue, upd_sleeplock; cbn.
  by rewrite lookup_insert_ne by congruence.
Qed.

Lemma built_added k0 m b k :
  built k0 m k -> Forall (fun x => (x < NBUF)%nat) (b :: m) -> NoDup (b :: m) -> built k0 (b :: m) (added b k).
Proof.
  intros [H1 H2 H3 H4 H5 H6 H7] Hlt Hnd. split.
  - destruct (added_rest b k) as (-> & -> & -> & -> & -> & -> & -> & -> & ->). done.
  - intros l Hl Hs. rewrite added_locks; auto.
  - destruct H3 as [name H3]. exists name. by rewrite added_locks.
  - unfold added, enqueue. rewrite !length_upd_buf. done.
  - intros i. by rewrite added_payload.
  - apply Forall_cons in Hlt as [Hb Hm]. apply enqueue_links; [done|done| |done|done].
    apply NoDup_cons. split; [|done]. intros Hin.
    assert (Hall : Forall (fun x => (x < NBUF)%nat) (b :: m)) by (by constructor).
    rewrite Forall_forall in Hall. specialize (Hall _ Hin). unfold HEAD in Hall. lia.
  - intros i [->|Hi]%elem_of_cons.
    + split; [exists "sleep lock"; unfold added, enqueue, upd_lock; cbn; by rewrite lookup_insert_eq|].
      unfold get_sleeplock, added, enqueue, upd_sleeplock; cbn. by rewrite lookup_insert_eq.
    + assert (Hib : i <> b) by (intros ->; by apply NoDup_cons in Hnd as [? _]).
      destruct (H7 i Hi) as [[name Hn] Hs]. split; [|by rewrite added_sleep].
      exists name. rewrite added_locks by congruence. done.
Qed.

Lemma built_foldl k0 l : forall m k,
  built k0 m k -> Forall (fun x => (x < NBUF)%nat) (m ++ l) -> NoDup (m ++ l) ->
  built k0 (reverse l ++ m) (foldl (fun k b => added b k) k l).
Proof.
  induction l as [|b l IH]; intros m k Hb Hlt Hnd; [done|]. cbn [foldl].
  rewrite reverse_cons, <- app_assoc. cbn [app]. rewrite <- Permutation_middle in Hnd.
  rewrite <- (Permutation_middle m l b) in Hlt. apply (IH (b :: m)); [|done|done].
  apply built_added; [done| |].
  - apply (Forall_app _ (b :: m) l), Hlt.
  - apply (NoDup_app (b :: m) l), Hnd.
Qed.

(** The state of the kernel before [binit]: zeroed buffers. *)
Record bss_buf (k : kernel) : Prop := {
  bss_len : length (k_buf k) = S NBUF;
  bss_zero : forall i, payload (get_buf k i) = payload buf0
}.

Lemma binit_built k :
  bss_buf k -> exists k', binit k = Ok tt k' /\ built k (reverse (seq 0 NBUF)) k'.
Proof.
  intros [Hlen Hz]. eexists. split; [apply binit_run|]. rewrite <- (app_nil_r (reverse _)).
  apply built_foldl; cbn [app]; [|apply Forall_forall; intros x Hx%elem_of_seq; lia|apply NoDup_seq].
  split; try done.
  - intros l Hl _. unfold upd_lock; cbn. by rewrite lookup_insert_ne.
  - exists "bcache". unfold upd_lock; cbn. by rewrite lookup_insert_eq.
  - by rewrite !length_upd_buf.
  - intros i. by rewrite !(get_buf_upd_field payload).
  - cbn [app]. rewrite links_cons. split_and!; [|rewrite bpv_set_next|done].
    + rewrite bnx_set_next by (rewrite length_upd_buf; cbn; unfold HEAD; lia). apply fn_upd_eq.
    + rewrite bpv_set_prev by (cbn; unfold HEAD; lia). apply fn_upd_eq.
  - intros i Hi%elem_of_nil. done.
Qed.

Lemma built_bst dev k p k' :
  bss_buf k -> proc_ctx k p -> c_noff (this_cpu k) = 0 -> lock_free Lvdisk k -> dev <> 0 ->
  built k (reverse (seq 0 NBUF)) k' ->
  bst dev k' p [] [] (disk_block (k_disk k)) (k_disk k) (k_hist k).
Proof.
  intros [_ Hz] [Hi Hc Hpl Hln] Hno [vn Hv] Hdev [(Et & Es & Ec & Ep & Ed & Eh & _) H2 H3 H4 H5 H6 H7].
  assert (Hd : forall i, b_dev (get_buf k' i) = 0 /\ b_refcnt (get_buf k' i) = 0).
  { intros i. pose proof (H5 i) as E. rewrite Hz in E. unfold payload in E. by injection E. }
  assert (Ha : forall i n, assigned dev k' i n = false).
  { intros i n. unfold assigned. rewrite (proj1 (Hd i)). apply andb_false_iff. left. by apply Z.eqb_neq. }
  assert (Hca : forall i n, caches dev k' i n = false) by (intros i n; unfold caches; by rewrite Ha).
  assert (Hin : forall i, (i < NBUF)%nat -> i ∈ reverse (seq 0 NBUF)) by (intros i ?; apply elem_of_reverse, elem_of_seq; lia).
  split; [split| | | |].
  - split.
    + unfold irq_ok, this_cpu, get_cpu in *. by rewrite Et, Es, Ec.
    + unfold cur_proc, this_cpu, get_cpu in *. by rewrite Et, Ec.
    + intros i Hlt. destruct (Hpl i Hlt) as [name Hn]. exists name. by rewrite H2.
    + by rewrite Ep.
  - unfold this_cpu, get_cpu in *. by rewrite Et, Ec.
  - done.
  - exists vn. by rewrite H2.
  - intros i Hlt. by apply H7, Hin.
  - done.
  - exists (reverse (seq 0 NBUF)). split; [apply reverse_Permutation|done].
  - intros i j n _ _. by rewrite Ha.
  - intros i _. unfold refs. rewrite (proj1 (Hd i)), (proj2 (Hd i)), bool_decide_eq_false_2 by apply not_elem_of_nil.
    by rewrite (proj2 (Z.eqb_neq 0 dev)) by done.
  - intros i n _. by rewrite Hca.
  - intros n Hn%elem_of_nil. done.
  - intros n Hn%elem_of_nil. done.
  - apply NoDup_nil_2.
  - intros i Hlt. rewrite bool_decide_eq_false_2 by apply not_elem_of_nil.
    by rewrite (proj2 (H7 i (Hin i Hlt))).
  - intros b n Hn%elem_of_nil. done.
  - intros m. rewrite <- Ed. apply view_uncached. intros i _. apply Hca.
  - done.
  - done.
Qed.
End binit.
