(* ===== verification/Log.v ===== *)
(** * kernel/log.c: the write-ahead log

    The operations of the log on top of the buffer cache.  A header block is
    read and written at the byte level: [struct logheader] is the int [n]
    followed by [LOGSIZE] ints, little-endian.  An index at or above [LOGSIZE]
    leaves the array of the header; the model ignores such a write, and the
    theorems exclude it. *)

From S2P Require Export Block BcacheSpec.

(** [lh->n] and [lh->block[i]] of a header block. *)
Definition hd_n (data : list Z) : Z := s32 (blk_rd32 data 0).
Definition hd_block (data : list Z) (i : nat) : Z := s32 (blk_rd32 data (4 + 4 * i)).
Definition hd_set_n (n : Z) (data : list Z) : list Z := blk_wr32 0 (u32 n) data.
Definition hd_set_block (i : nat) (b : Z) (data : list Z) : list Z := blk_wr32 (4 + 4 * i) (u32 b) data.

Definition log_get {A} (f : log -> A) : K A := gets (fun k => f (k_log k)).
Definition log_upd (f : log -> log) : K unit := modify (upd_log f).
Definition lh_get {A} (f : logheader -> A) : K A := gets (fun k => f (log_lh (k_log k))).
Definition lh_upd (f : logheader -> logheader) : K unit := modify (upd_lh f).

#[export] Hint Unfold log_get log_upd lh_get lh_upd : krun.

Section log.
Context {TH : Threads} {BD : BlockDev}.

(** [bread(log.dev, blockno)]: both arguments are converted from [int]. *)
Definition log_bread (blockno : Z) : K nat :=
  dev ← log_get log_dev;
  bread (u32 dev) (u32 blockno).

(** [memmove(dst->data, src->data, BSIZE)] *)
Definition memmove_data (dst src : nat) : K unit :=
  data ← b_get src b_data;
  b_set dst (set_b_data data).

Definition install_one (recovering : bool) (tail : nat) : K unit :=
  start ← log_get log_start;
  lbuf ← log_bread (start + Z.of_nat tail + 1);
  blk ← lh_get (fun lh => lh_block lh !!! tail);
  dbuf ← log_bread blk;
  memmove_data dbuf lbuf;;
  bwrite dbuf;;
  when (negb recovering) (bunpin dbuf);;
  brelse lbuf;;
  brelse dbuf.

(** Copy committed blocks from log to their home location *)
Definition install_trans (recovering : bool) : K unit :=
  n ← lh_get lh_n;
  for_all (seq 0 (Z.to_nat n)) (install_one recovering).

(** Read the log header from disk into the in-memory log header *)
Definition read_head : K unit :=
  start ← log_get log_start;
  b ← log_bread start;
  data ← b_get b b_data;
  lh_upd (set_lh_n (hd_n data));;
  for_all (seq 0 (Z.to_nat (hd_n data))) (fun i =>
    lh_upd (fun lh => set_lh_block (<[i := hd_block data i]> (lh_block lh)) lh));;
  brelse b.

(** Write in-memory log header to disk.  This is the true point at which the
    current transaction commits. *)
Definition write_head : K unit :=
  start ← log_get log_start;
  b ← log_bread start;
  n ← lh_get lh_n;
  b_set b (fun x => set_b_data (hd_set_n n (b_data x)) x);;
  for_all (seq 0 (Z.to_nat n)) (fun i =>
    blk ← lh_get (fun lh => lh_block lh !!! i);
    b_set b (fun x => set_b_data (hd_set_block i blk (b_data x)) x));;
  bwrite b;;
  brelse b.

Definition recover_from_log : K unit :=
  read_head;;
  install_trans true;;
  lh_upd (set_lh_n 0);;
  write_head.

(** [sizeof(struct logheader) >= BSIZE] is decided by the constants. *)
Definition sizeof_logheader : Z := 4 + 4 * LOGSIZE.

Definition initlog (dev : Z) (sb : superblock) : K unit :=
  if BSIZE <=? sizeof_logheader then panic "initlog: too big logheader" else
  initlock Llog "log";;
  log_upd (set_log_start (s32 (sb_logstart sb)));;
  log_upd (set_log_size (s32 (sb_nlog sb)));;
  log_upd (set_log_dev dev);;
  recover_from_log.

Definition begin_op : K unit :=
  acquire Llog;;
  loop (S patience) (
    committing ← log_get log_committing;
    n ← lh_get lh_n;
    outstanding ← log_get log_outstanding;
    if truth committing then sleep ChLog Llog;; mret None
    else if LOGSIZE <? n + (outstanding + 1) * MAXOPBLOCKS then sleep ChLog Llog;; mret None
    else log_upd (fun l => set_log_outstanding (log_outstanding l + 1) l);;
         release Llog;;
         mret (Some tt)).

Definition write_log_one (tail : nat) : K unit :=
  start ← log_get log_start;
  to ← log_bread (start + Z.of_nat tail + 1);
  blk ← lh_get (fun lh => lh_block lh !!! tail);
  from ← log_bread blk;
  memmove_data to from;;
  bwrite to;;
  brelse from;;
  brelse to.

(** Copy modified blocks from cache to log. *)
Definition write_log : K unit :=
  n ← lh_get lh_n;
  for_all (seq 0 (Z.to_nat n)) write_log_one.

Definition commit : K unit :=
  n ← lh_get lh_n;
  when (0 <? n)
    (write_log;;
     write_head;;
     install_trans false;;
     lh_upd (set_lh_n 0);;
     write_head).

Definition end_op : K unit :=
  acquire Llog;;
  log_upd (fun l => set_log_outstanding (log_outstanding l - 1) l);;
  committing ← log_get log_committing;
  if truth committing then panic "log.committing" else
  outstanding ← log_get log_outstanding;
  let do_commit := outstanding =? 0 in
  (if do_commit then log_upd (set_log_committing 1) else wakeup ChLog);;
  release Llog;;
  when do_commit
    (commit;;
     acquire Llog;;
     log_upd (set_log_committing 0);;
     wakeup ChLog;;
     release Llog).

(** The index at which [log_write] records the block: where it is already
    (log absorption), or behind the last one. *)
Fixpoint log_slot (n : nat) (i : nat) (blocks : list Z) (bno : Z) : nat :=
  match n with
  | O => i
  | S n => if u32 (blocks !!! i) =? bno then i else log_slot n (S i) blocks bno
  end.

Definition log_write (b : nat) : K unit :=
  n ← lh_get lh_n;
  size ← log_get log_size;
  if (LOGSIZE <=? n) || (size - 1 <=? n) then panic "too big a transaction" else
  outstanding ← log_get log_outstanding;
  if outstanding <? 1 then panic "log_write outside of trans" else
  acquire Llog;;
  n ← lh_get lh_n;
  blocks ← lh_get lh_block;
  bno ← b_get b b_blockno;
  let i := log_slot (Z.to_nat n) 0 blocks bno in
  lh_upd (fun lh => set_lh_block (<[i := s32 bno]> (lh_block lh)) lh);;
  when (Z.of_nat i =? n)
    (bpin b;;
     lh_upd (fun lh => set_lh_n (lh_n lh + 1) lh));;
  release Llog.
End log.
