(* ===== verification/LogDisk.v ===== *)
(** * Disk images and what recovery makes of them

    A crash leaves a disk image.  [recovered d m] is the content block [m]
    has after [recover_from_log] has run on image [d]; it is computed from the
    image alone.  The lemmas say how the four kinds of disk writes the log
    makes change it: a log block while the header is empty, a header, a home
    block that the header lists, and the clearing of the header. *)

From S2P Require Export Log.

Section logdisk.
(** The log area: [sz] blocks from block [s], the header first. *)
Context (s sz : Z).

(** A block outside the log area, with a block number that fits an [int]. *)
Definition home (m : Z) : Prop := 0 <= m < 2147483648 /\ (m < s \/ s + sz <= m).

(** The block numbers a header lists. *)
Definition hd_blocks (data : list Z) : list Z := hd_block data <$> seq 0 (Z.to_nat (hd_n data)).

Fixpoint install_from (i : nat) (bl : list Z) (d : gmap Z (list Z)) : gmap Z (list Z) :=
  match bl with
  | [] => d
  | n :: bl => install_from (S i) bl (<[n := disk_block d (s + Z.of_nat i + 1)]> d)
  end.

Definition recovered (d : gmap Z (list Z)) (m : Z) : list Z :=
  disk_block (install_from 0 (hd_blocks (disk_block d s)) d) m.

(** The last position from [i] on at which [m] is listed. *)
Fixpoint last_pos (i : nat) (m : Z) (bl : list Z) : option nat :=
  match bl with
  | [] => None
  | n :: bl => match last_pos (S i) m bl with
               | Some j => Some j
               | None => if decide (m = n) then Some i else None
               end
  end.

(** The content of [m] after installing: the log block listed last for it. *)
Definition pick (i : nat) (bl : list Z) (L : nat -> list Z) (B : Z -> list Z) (m : Z) : list Z :=
  match last_pos i m bl with Some j => L j | None => B m end.

(** The log blocks of an image. *)
Definition log_blocks (d : gmap Z (list Z)) (j : nat) : list Z := disk_block d (s + Z.of_nat j + 1).

Definition fits (i : nat) (bl : list Z) : Prop :=
  Forall home bl /\ 0 <= s /\ Z.of_nat (i + length bl) < sz.

Lemma fits_cons i n bl : fits i (n :: bl) -> home n /\ fits (S i) bl.
Proof.
  intros ([? ?]%Forall_cons & ? & Hl). cbn [length] in Hl. split; [done|]. split_and!; [done|done|].
  rewrite Nat.add_succ_l, <- Nat.add_succ_r. done.
Qed.

Lemma home_not_log n j : home n -> 0 <= s -> Z.of_nat j + 1 < sz -> n <> s + Z.of_nat j + 1.
Proof. intros [_ H] ? ?. lia. Qed.

Lemma last_pos_bounds i m bl j : last_pos i m bl = Some j -> (i <= j < i + length bl)%nat.
Proof.
  revert i. induction bl as [|n bl IH]; cbn; intros i; [done|].
  destruct (last_pos (S i) m bl) as [j'|] eqn:E.
  - intros [= ->]. apply IH in E. lia.
  - case_decide; [|done]. intros [= <-]. lia.
Qed.

Lemma last_pos_None i m bl : last_pos i m bl = None <-> m ∉ bl.
Proof.
  revert i. induction bl as [|n bl IH]; cbn; intros i; [split; [by intros _ ?%elem_of_nil|done]|].
  rewrite not_elem_of_cons, <- (IH (S i)). destruct (last_pos (S i) m bl); [split; [done|by intros [_ ?]]|].
  case_decide; split; try done; by intros [? _].
Qed.

Lemma pick_ext i bl L L' B B' m :
  (forall j, (i <= j < i + length bl)%nat -> L j = L' j) -> (m ∉ bl -> B m = B' m) ->
  pick i bl L B m = pick i bl L' B' m.
Proof.
  intros HL HB. unfold pick. destruct (last_pos i m bl) eqn:E.
  - apply HL. by eapply last_pos_bounds.
  - apply HB. by eapply last_pos_None.
Qed.

Lemma install_from_pick bl : forall i d m, fits i bl ->
  disk_block (install_from i bl d) m = pick i bl (log_blocks d) (disk_block d) m.
Proof.
  induction bl as [|n bl IH]; intros i d m Hf; [done|]. cbn [install_from].
  pose proof Hf as (_ & Hs & Hl). apply fits_cons in Hf as [Hn Hf]. cbn [length] in Hl.
  rewrite IH by done. unfold pick at 2. cbn [last_pos]. unfold pick.
  destruct (last_pos (S i) m bl) as [j|] eqn:E.
  - apply last_pos_bounds in E. unfold log_blocks. rewrite disk_block_insert, decide_False; [done|].
    apply not_eq_sym, home_not_log; [done|done|lia].
  - rewrite disk_block_insert. by case_decide.
Qed.

(** What recovery does, block by block. *)
Lemma recovered_pick d m :
  fits 0 (hd_blocks (disk_block d s)) ->
  recovered d m = pick 0 (hd_blocks (disk_block d s)) (log_blocks d) (disk_block d) m.
Proof. intros. unfold recovered. by apply install_from_pick. Qed.

Lemma recovered_empty d m : hd_blocks (disk_block d s) = [] -> recovered d m = disk_block d m.
Proof. intros H. unfold recovered. by rewrite H. Qed.

(** Two images with the same header and log blocks that agree on the home
    blocks the header does not list are recovered alike. *)
Lemma recovered_same d d' m :
  disk_block d' s = disk_block d s -> fits 0 (hd_blocks (disk_block d s)) ->
  (forall j, (j < length (hd_blocks (disk_block d s)))%nat -> log_blocks d' j = log_blocks d j) ->
  (m ∉ hd_blocks (disk_block d s) -> disk_block d' m = disk_block d m) ->
  recovered d' m = recovered d m.
Proof.
  intros Hh Hf Hl Hb. rewrite !recovered_pick by (by rewrite ?Hh). rewrite Hh.
  apply pick_ext; [|done]. intros j Hj. apply Hl. lia.
Qed.

(** ** The header block *)

Fixpoint hd_fill (i : nat) (bl : list Z) (data : list Z) : list Z :=
  match bl with
  | [] => data
  | b :: bl => hd_fill (S i) bl (hd_set_block i b data)
  end.

(** The header block that [write_head] makes of [data]. *)
Definition hd_enc (bl : list Z) (data : list Z) : list Z :=
  hd_fill 0 bl (hd_set_n (Z.of_nat (length bl)) data).

Lemma hd_fill_length bl : forall i data,
  (4 + 4 * (i + length bl) <= length data)%nat -> length (hd_fill i bl data) = length data.
Proof.
  induction bl as [|b bl IH]; intros i data H; [done|]. cbn [hd_fill length] in *.
  assert (E : length (hd_set_block i b data) = length data) by (apply blk_wr_length; lia).
  rewrite IH by (rewrite E; lia). done.
Qed.

Lemma hd_fill_n bl : forall i data,
  (4 + 4 * (i + length bl) <= length data)%nat -> hd_n (hd_fill i bl data) = hd_n data.
Proof.
  induction bl as [|b bl IH]; intros i data H; [done|]. cbn [hd_fill length] in *.
  assert (E : length (hd_set_block i b data) = length data) by (apply blk_wr_length; lia).
  rewrite IH by (rewrite E; lia). unfold hd_n, hd_set_block. by rewrite blk_rd_wr_ne by lia.
Qed.

Lemma hd_block_fill bl : forall i data j,
  (4 + 4 * (i + length bl) <= length data)%nat -> (j < i)%nat ->
  hd_block (hd_fill i bl data) j = hd_block data j.
Proof.
  induction bl as [|b bl IH]; intros i data j H Hj; [done|]. cbn [hd_fill length] in *.
  assert (E : length (hd_set_block i b data) = length data) by (apply blk_wr_length; lia).
  rewrite IH by (rewrite ?E; lia). unfold hd_block, hd_set_block. by rewrite blk_rd_wr_ne by lia.
Qed.

Lemma hd_block_fill_in bl : forall i data j b,
  (4 + 4 * (i + length bl) <= length data)%nat -> bl !! j = Some b -> -2147483648 <= b < 2147483648 ->
  hd_block (hd_fill i bl data) (i + j) = b.
Proof.
  induction bl as [|c bl IH]; intros i data j b H Hj Hb; [done|]. cbn [hd_fill length] in *.
  assert (E : length (hd_set_block i c data) = length data) by (apply blk_wr_length; lia).
  destruct j as [|j]; cbn in Hj.
  - injection Hj as ->. rewrite Nat.add_0_r, hd_block_fill by (rewrite ?E; lia).
    unfold hd_block, hd_set_block. rewrite blk_rd_wr by lia. change (256 ^ Z.of_nat 4) with 4294967296.
    fold (u32 (u32 b)). rewrite u32_idem. unfold s32, u32. zlia.
  - rewrite Nat.add_succ_r, <- Nat.add_succ_l. apply IH; [rewrite E; lia|done|done].
Qed.

Lemma hd_enc_length bl data :
  (4 + 4 * length bl <= length data)%nat -> length (hd_enc bl data) = length data.
Proof.
  intros H. unfold hd_enc. assert (E : length (hd_set_n (Z.of_nat (length bl)) data) = length data) by (apply blk_wr_length; lia).
  rewrite hd_fill_length; rewrite E; done.
Qed.

(** The header read back is the header written. *)
Lemma hd_blocks_enc bl data :
  (4 + 4 * length bl <= length data)%nat -> Z.of_nat (length bl) < 2147483648 ->
  Forall (fun b => 0 <= b < 2147483648) bl -> hd_blocks (hd_enc bl data) = bl.
Proof.
  intros H Hn Hb. unfold hd_blocks, hd_enc.
  assert (E : length (hd_set_n (Z.of_nat (length bl)) data) = length data) by (apply blk_wr_length; lia).
  rewrite hd_fill_n by (rewrite E; lia).
  assert (E2 : hd_n (hd_set_n (Z.of_nat (length bl)) data) = Z.of_nat (length bl)).
  { unfold hd_n, hd_set_n. rewrite blk_rd_wr by lia. change (256 ^ Z.of_nat 4) with 4294967296.
    fold (u32 (u32 (Z.of_nat (length bl)))). rewrite u32_idem. unfold s32, u32. zlia. }
  rewrite E2, Nat2Z.id. apply list_eq_bounded; [by rewrite length_fmap, length_seq|].
  intros i Hi. rewrite length_fmap, length_seq in Hi. rewrite list_lookup_fmap, lookup_seq_lt by done. cbn [fmap option_fmap option_map].
  destruct (lookup_lt_is_Some_2 bl i Hi) as [b Hib]. rewrite Hib. f_equal.
  apply (hd_block_fill_in bl 0); [rewrite E; lia|done|]. rewrite Forall_lookup in Hb. specialize (Hb _ _ Hib). lia.
Qed.
End logdisk.
