(* ===== verification/LogSpec.v ===== *)
(** * The log commits atomically

    The steps of log.c over the abstract block store [bst], and the theorems:
    whatever disk image a crash during [commit] leaves, recovery makes of it
    the file system before the transaction or the one after it; and recovery
    may itself be interrupted any number of times. *)

From S2P Require Export LogDisk.

(** The log code changes buffers, sleep locks, sleeping processes, the disk
    and the log header, and nothing else. *)
Record log_frame (k k' : kernel) : Prop := {
  lf_ctx : same_ctx k k';
  lf_rest : k' = set_log (k_log k') (set_buf (k_buf k') (set_sleep (k_sleep k') (set_proc (k_proc k')
         (set_disk (k_disk k') (set_hist (k_hist k') k)))));
  lf_out : log_outstanding (k_log k') = log_outstanding (k_log k);
  lf_com : log_committing (k_log k') = log_committing (k_log k)
}.

Lemma log_frame_refl k : log_frame k k.
Proof. split; [done|by destruct k|done|done]. Qed.

Lemma log_frame_trans k1 k2 k3 : log_frame k1 k2 -> log_frame k2 k3 -> log_frame k1 k3.
Proof.
  intros [A1 A2 A3 A4] [B1 B2 B3 B4].
  split; [by eapply same_ctx_trans|rewrite B2, A2; done|congruence|congruence].
Qed.

Lemma log_frame_bio k k' : bio_frame k k' -> log_frame k k'.
Proof.
  intros [H1 H2]. assert (El : k_log k' = k_log k) by (rewrite H2; done).
  split; [done| |by rewrite El|by rewrite El]. rewrite El, H2. by destruct k.
Qed.

Lemma log_frame_lh k f : log_frame k (upd_lh f k).
Proof. split; [done|by destruct k|done|done]. Qed.

Lemma log_frame_buf k b f : log_frame k (upd_buf b f k).
Proof. apply log_frame_bio, bio_frame_upd_buf. Qed.

Section logspec.
Context {TH : Threads} {BD : BlockDev}.
(** The device, the log area and the state the code started in. *)
Context (dev s sz : Z) (k0 : kernel).

(** The device and the log area fit their C types. *)
Record geometry : Prop := {
  geo_dev : 0 <= dev < 2147483648;
  geo_start : 0 <= s;
  geo_size : 0 < sz;
  geo_end : s + sz < 2147483648
}.
Context (geo : geometry).

(** The in-memory header lists the blocks [bl]. *)
Record lg (k : kernel) (bl : list Z) : Prop := {
  lg_dev : log_dev (k_log k) = dev;
  lg_start : log_start (k_log k) = s;
  lg_size : log_size (k_log k) = sz;
  lg_n : lh_n (log_lh (k_log k)) = Z.of_nat (length bl);
  lg_len : length (lh_block (log_lh (k_log k))) = Z.to_nat LOGSIZE;
  lg_blocks : take (length bl) (lh_block (log_lh (k_log k))) = bl;
  lg_lock : lock_free Llog k;
  lg_from : log_frame k0 k
}.

(** A transaction the log has room for. *)
Record txn (bl : list Z) : Prop := {
  tx_fits : fits s sz 0 bl;
  tx_nodup : NoDup bl;
  tx_max : (length bl < NBUF)%nat
}.

Lemma lg_lookup k bl i n : lg k bl -> bl !! i = Some n -> lh_block (log_lh (k_log k)) !!! i = n.
Proof.
  intros Hg Hi. rewrite <- (lg_blocks _ _ Hg) in Hi. apply lookup_take_Some in Hi as [Hi _].
  by apply list_lookup_total_correct.
Qed.

Lemma lg_frame k k' bl : lg k bl -> bio_frame k k' -> lg k' bl.
Proof.
  intros [H1 H2 H3 H4 H5 H6 H7 H8] Hf. pose proof Hf as [Hc E].
  assert (El : k_log k' = k_log k) by (rewrite E; done).
  split; rewrite ?El; try done; [by eapply same_ctx_lock|].
  eapply log_frame_trans; [done|by apply log_frame_bio].
Qed.

Lemma lg_upd_buf k b f bl : lg k bl -> lg (upd_buf b f k) bl.
Proof. intros H. eapply lg_frame; [done|apply bio_frame_upd_buf]. Qed.

Lemma log_bread_wp k bl p hs pins V D H n :
  lg k bl -> bst dev k p hs pins V D H -> 0 <= n < 4294967296 -> ~ n ∈ hs.*2 ->
  n ∈ pins \/ (length hs + length pins < NBUF)%nat ->
  wp (log_bread n) (fun b k' => bst dev k' p ((b, n) :: hs) pins V D H /\ lg k' bl /\ ~ b ∈ hs.*1) k.
Proof.
  intros Hg Hs Hn Hin Hr. unfold log_bread. mrun. apply wp_bind, wp_gets.
  rewrite (lg_dev _ _ Hg), (u32_id dev), (u32_id n) by (destruct geo; lia).
  eapply wp_mono; [by apply bst_bread|]. intros b k' (Hb & Hf & Hnb). split_and!; [done| |done].
  by eapply lg_frame.
Qed.

(** [memmove(dst->data, src->data, BSIZE)] between two buffers in use. *)
Lemma memmove_data_wp k p hs pins V D H dst src nd ns :
  bst dev k p hs pins V D H -> (dst, nd) ∈ hs -> (src, ns) ∈ hs ->
  wp (memmove_data dst src) (fun _ k' => bst dev k' p hs pins (vset V nd (V ns)) D H /\ bio_frame k k') k.
Proof.
  intros Hs Hd Hsrc. unfold memmove_data. apply wp_bind, wp_gets, wp_modify. split; [|apply bio_frame_upd_buf].
  rewrite (bst_data _ _ _ _ _ _ _ _ _ _ Hs Hsrc). by apply bst_set_data.
Qed.

(** ** Copying one block to the log *)

Lemma write_log_one_wp k bl p V D H i n :
  lg k bl -> txn bl -> bst dev k p [] bl V D H -> bl !! i = Some n ->
  wp (write_log_one i) (fun _ k' => lg k' bl /\
    bst dev k' p [] bl (vset V (s + Z.of_nat i + 1) (V n)) (<[s + Z.of_nat i + 1 := V n]> D) (D :: H)) k.
Proof.
  intros Hg [(Hh & _ & Hl) Hnd Hmax] Hs Hi. set (l := s + Z.of_nat i + 1).
  assert (Hn : n ∈ bl) by (by eapply list_elem_of_lookup_2).
  pose proof (lookup_lt_Some _ _ _ Hi) as Hlt.
  assert (Hhn : home s sz n) by (rewrite Forall_forall in Hh; by apply Hh).
  assert (Hnl : n <> l) by (apply (home_not_log s sz); [done|apply geo|lia]).
  assert (Hlb : ~ l ∈ bl).
  { intros Hin. rewrite Forall_forall in Hh. destruct (Hh l Hin). destruct geo. unfold l in *. lia. }
  unfold write_log_one. apply wp_bind, wp_gets. rewrite (lg_start _ _ Hg). fold l. apply wp_bind.
  eapply wp_mono; [eapply log_bread_wp; [done|done|destruct geo; unfold l; lia|by intros ?%elem_of_nil|cbn; lia]|].
  intros to k1 (Hs1 & Hg1 & _). apply wp_bind, wp_gets. rewrite (lg_lookup _ _ _ _ Hg1 Hi). apply wp_bind.
  eapply wp_mono; [eapply log_bread_wp; [done|done|destruct Hhn; lia|cbn; by intros [->|?%elem_of_nil]%elem_of_cons|by left]|].
  intros from k2 (Hs2 & Hg2 & _). apply wp_bind.
  eapply wp_mono; [eapply (memmove_data_wp _ _ _ _ _ _ _ to from l n); [done|right; left|left]|].
  intros [] k3 (Hs3 & F3). pose proof (lg_frame _ _ _ Hg2 F3) as Hg3. apply wp_bind.
  eapply wp_mono; [eapply (bst_bwrite dev _ _ _ _ _ _ _ to l); [done|right; left]|].
  intros [] k4 (Hs4 & F4). pose proof (lg_frame _ _ _ Hg3 F4) as Hg4. rewrite vset_eq in Hs4. apply wp_bind.
  eapply wp_mono; [eapply (bst_brelse dev _ _ _ [(to, l)] _ _ _ _ from n); [done|done|by left]|].
  intros [] k5 (Hs5 & F5). pose proof (lg_frame _ _ _ Hg4 F5) as Hg5.
  eapply wp_mono; [eapply (bst_brelse dev _ _ _ [] _ _ _ _ to l); [done|done|]|].
  - right. rewrite vset_eq, disk_block_insert. by rewrite decide_True.
  - intros [] k6 (Hs6 & F6). split; [by eapply lg_frame|done].
Qed.

(** ** Copying one block home *)

Lemma install_one_wp k bl p pins pins' V D H i n recovering :
  lg k bl -> fits s sz 0 bl -> Forall (home s sz) pins -> (length pins + 1 < NBUF \/ n ∈ pins /\ length pins < NBUF)%nat ->
  bst dev k p [] pins V D H -> bl !! i = Some n ->
  (if recovering : bool then pins' = pins else n ∈ pins /\ forall m, m ∈ pins' <-> m ∈ pins /\ m <> n) ->
  wp (install_one recovering i) (fun _ k' => lg k' bl /\
    let x := V (s + Z.of_nat i + 1) in
    bst dev k' p [] pins' (vset V n x) (<[n := x]> D) (D :: H)) k.
Proof.
  intros Hg (Hh & _ & Hl) Hpins Hmax Hs Hi Hrec. set (l := s + Z.of_nat i + 1). cbn zeta.
  assert (Hn : n ∈ bl) by (by eapply list_elem_of_lookup_2).
  pose proof (lookup_lt_Some _ _ _ Hi) as Hlt.
  assert (Hhn : home s sz n) by (rewrite Forall_forall in Hh; by apply Hh).
  assert (Hnl : n <> l) by (apply (home_not_log s sz); [done|apply geo|lia]).
  assert (Hlb : ~ l ∈ pins).
  { intros Hin. rewrite Forall_forall in Hpins. destruct (Hpins l Hin). destruct geo. unfold l in *. lia. }
  pose proof (bst_clean _ _ _ _ _ _ _ _ Hs Hlb) as Hcl.
  unfold install_one. apply wp_bind, wp_gets. rewrite (lg_start _ _ Hg). fold l. apply wp_bind.
  eapply wp_mono; [eapply log_bread_wp; [done|done|destruct geo; unfold l; lia|by intros ?%elem_of_nil|cbn; lia]|].
  intros lbuf k1 (Hs1 & Hg1 & _). apply wp_bind, wp_gets. rewrite (lg_lookup _ _ _ _ Hg1 Hi). apply wp_bind.
  eapply wp_mono; [eapply log_bread_wp; [done|done|destruct Hhn; lia|cbn; by intros [->|?%elem_of_nil]%elem_of_cons|]|].
  { destruct Hmax as [?|[? _]]; [right; cbn; lia|by left]. }
  intros dbuf k2 (Hs2 & Hg2 & _). apply wp_bind.
  eapply wp_mono; [eapply (memmove_data_wp _ _ _ _ _ _ _ dbuf lbuf n l); [done|left|right; left]|].
  intros [] k3 (Hs3 & F3). pose proof (lg_frame _ _ _ Hg2 F3) as Hg3. apply wp_bind.
  eapply wp_mono; [eapply (bst_bwrite dev _ _ _ _ _ _ _ dbuf n); [done|left]|].
  intros [] k4 (Hs4 & F4). pose proof (lg_frame _ _ _ Hg3 F4) as Hg4. rewrite vset_eq in Hs4. apply wp_bind.
  apply (wp_mono _ (fun _ k5 => lg k5 bl /\
    bst dev k5 p [(dbuf, n); (lbuf, l)] pins' (vset V n (V l)) (<[n := V l]> D) (D :: H))).
  { destruct recovering; cbn [negb when]; [subst pins'; by apply wp_ret|]. destruct Hrec as [Hp Hp'].
    eapply wp_mono; [eapply (bst_bunpin dev _ _ _ _ pins' _ _ _ dbuf n); [done|left|done|done]|].
    intros [] k5 (Hs5 & F5). split; [by eapply lg_frame|done]. }
  intros [] k5 (Hg5 & Hs5). apply wp_bind.
  eapply wp_mono; [eapply (bst_brelse dev _ _ _ [(dbuf, n)] _ _ _ _ lbuf l); [done|by apply perm_swap|]|].
  { right. by rewrite vset_ne, disk_block_insert, decide_False. }
  intros [] k6 (Hs6 & F6). pose proof (lg_frame _ _ _ Hg5 F6) as Hg6.
  eapply wp_mono; [eapply (bst_brelse dev _ _ _ [] _ _ _ _ dbuf n); [done|done|]|].
  - right. rewrite vset_eq, disk_block_insert. by rewrite decide_True.
  - intros [] k7 (Hs7 & F7). split; [by eapply lg_frame|done].
Qed.

(** ** The header *)

Lemma head_loop_wp (b : nat) bl0 p hs pins D H : forall bl i k V,
  lg k bl0 -> drop i bl0 = bl -> bst dev k p hs pins V D H -> (b, s) ∈ hs ->
  wp (for_all (seq i (length bl)) (fun i =>
        blk ← lh_get (fun lh => lh_block lh !!! i);
        b_set b (fun x => set_b_data (hd_set_block i blk (b_data x)) x)))
     (fun _ k' => lg k' bl0 /\ bst dev k' p hs pins (vset V s (hd_fill i bl (V s))) D H) k.
Proof.
  induction bl as [|n bl IH]; intros i k V Hg Hd Hs Hb.
  - cbn. apply wp_ret. split; [done|]. eapply bst_view; [done|]. intros m. unfold vset. by case_decide; subst.
  - cbn [length seq for_all]. apply wp_bind. mrun. apply wp_bind, wp_gets, wp_modify.
    assert (Hi : bl0 !! i = Some n) by (by rewrite <- (Nat.add_0_r i), <- lookup_drop, Hd).
    rewrite (lg_lookup _ _ _ _ Hg Hi).
    rewrite (upd_buf_ext _ _ _ (set_b_data (hd_set_block i n (V s))))
      by (by rewrite (bst_data _ _ _ _ _ _ _ _ _ _ Hs Hb)).
    eapply wp_mono; [apply (IH (S i) _ (vset V s (hd_set_block i n (V s))))|].
    + by apply lg_upd_buf.
    + by rewrite <- Nat.add_1_r, <- drop_drop, Hd.
    + by apply bst_set_data.
    + done.
    + intros [] k' [Hg' Hs']. split; [done|]. eapply bst_view; [done|]. intros m. cbn [hd_fill].
      rewrite vset_eq. unfold vset. by case_decide.
Qed.

Lemma write_head_wp k bl p pins V D H :
  lg k bl -> ~ s ∈ pins -> (length pins < NBUF)%nat -> bst dev k p [] pins V D H ->
  wp write_head (fun _ k' => lg k' bl /\
    bst dev k' p [] pins (vset V s (hd_enc bl (V s))) (<[s := hd_enc bl (V s)]> D) (D :: H)) k.
Proof.
  intros Hg Hsp Hmax Hs. unfold write_head. apply wp_bind, wp_gets. rewrite (lg_start _ _ Hg). apply wp_bind.
  eapply wp_mono; [eapply log_bread_wp; [done|done|destruct geo; lia|by intros ?%elem_of_nil|cbn; lia]|].
  intros b k1 (Hs1 & Hg1 & _). apply wp_bind, wp_gets. rewrite (lg_n _ _ Hg1), Nat2Z.id. mrun.
  apply wp_bind, wp_modify, wp_bind.
  rewrite (upd_buf_ext _ _ _ (set_b_data (hd_set_n (Z.of_nat (length bl)) (V s))))
    by (rewrite (bst_data _ _ _ _ _ _ _ _ b s Hs1) by left; done).
  eapply wp_mono; [eapply (head_loop_wp b bl p [(b, s)] pins D H bl 0); [by apply lg_upd_buf|done| |left]|].
  { eapply bst_set_data; [done|left]. }
  intros [] k2 (Hg2 & Hs2). rewrite vset_eq in Hs2. fold (hd_enc bl (V s)) in Hs2. apply wp_bind.
  eapply wp_mono; [eapply (bst_bwrite dev _ _ _ _ _ _ _ b s); [done|left]|].
  intros [] k3 (Hs3 & F3). rewrite vset_eq in Hs3.
  eapply wp_mono; [eapply (bst_brelse dev _ _ _ [] _ _ _ _ b s); [done|done|]|].
  - right. by rewrite vset_eq, disk_block_insert, decide_True.
  - intros [] k4 (Hs4 & F4). split; [eapply lg_frame; [|done]; by eapply lg_frame|].
    eapply bst_view; [done|]. intros m. unfold vset. by repeat case_decide.
Qed.

(** The header in memory is emptied. *)
Lemma lg_clear k bl : lg k bl -> lg (upd_lh (set_lh_n 0) k) [].
Proof.
  intros [H1 H2 H3 H4 H5 H6 H7 H8]. split; try done.
  eapply log_frame_trans; [done|apply log_frame_lh].
Qed.

Lemma bst_upd_lh k p hs pins V D H f :
  bst dev k p hs pins V D H -> bst dev (upd_lh f k) p hs pins V D H.
Proof. intros Hs. by eapply bst_frame. Qed.

(** ** Copying the transaction to the log *)

(** The images while the log is written: header and home blocks as in [D]. *)
Definition same_fs (D d : gmap Z (list Z)) : Prop :=
  disk_block d s = disk_block D s /\ forall m, home s sz m -> disk_block d m = disk_block D m.

Lemma write_log_loop p bl0 : forall bl i k V D H,
  lg k bl0 -> txn bl0 -> drop i bl0 = bl -> bst dev k p [] bl0 V D H ->
  wp (for_all (seq i (length bl)) write_log_one) (fun _ k' => lg k' bl0 /\ exists imgs V' D',
    bst dev k' p [] bl0 V' D' (imgs ++ H) /\ Forall (same_fs D) (D' :: imgs) /\
    (forall m, home s sz m \/ m = s -> V' m = V m) /\
    (forall j, (j < i)%nat -> V' (s + Z.of_nat j + 1) = V (s + Z.of_nat j + 1)) /\
    (forall j n, (i <= j)%nat -> bl0 !! j = Some n -> V' (s + Z.of_nat j + 1) = V n)) k.
Proof.
  induction bl as [|n bl IH]; intros i k V D H Hg Ht Hd Hs.
  - cbn. apply wp_ret. split; [done|]. exists [], V, D. split_and!; [done|by repeat constructor|done|done|].
    intros j n Hj Hn. exfalso. apply lookup_lt_Some in Hn. assert (length (drop i bl0) = 0%nat) by (by rewrite Hd).
    rewrite length_drop in H0. lia.
  - cbn [length seq for_all]. apply wp_bind.
    assert (Hi : bl0 !! i = Some n) by (by rewrite <- (Nat.add_0_r i), <- lookup_drop, Hd).
    eapply wp_mono; [by apply write_log_one_wp|]. intros [] k1 (Hg1 & Hs1).
    eapply wp_mono; [eapply (IH (S i)); [done|done|by rewrite <- Nat.add_1_r, <- drop_drop, Hd|done]|].
    intros [] k2 (Hg2 & imgs & V' & D' & Hs2 & Hf & Hv & Hlo & Hhi).
    split; [done|]. exists (imgs ++ [D]), V', D'. pose proof (lookup_lt_Some _ _ _ Hi) as Hlt.
    pose proof (tx_fits _ Ht) as (Hh & _ & Hl). rewrite Forall_forall in Hh.
    assert (Hne : forall m, home s sz m \/ m = s -> m <> s + Z.of_nat i + 1).
    { intros m [Hm| ->]; [apply (home_not_log s sz); [done|apply geo|lia]|lia]. }
    assert (Hsf : forall d, same_fs (<[s + Z.of_nat i + 1 := V n]> D) d -> same_fs D d).
    { intros d [E1 E2]. split; [|intros m Hm; rewrite (E2 m Hm)]; rewrite ?E1, disk_block_insert, decide_False; auto. }
    split_and!.
    + by rewrite <- app_assoc.
    + rewrite app_comm_cons. apply Forall_app. split; [by eapply Forall_impl|]. by repeat constructor.
    + intros m Hm. rewrite Hv by done. apply vset_ne. auto.
    + intros j Hj. rewrite Hlo by lia. apply vset_ne. lia.
    + intros j x Hj Hx. assert (Hhx : home s sz x) by (apply Hh; by eapply list_elem_of_lookup_2).
      destruct (decide (j = i)) as [->|Hji].
      * rewrite Hi in Hx. injection Hx as <-. rewrite Hlo by lia. apply vset_eq.
      * rewrite (Hhi j x) by (done || lia). apply vset_ne. auto.
Qed.

Lemma write_log_wp p bl k V D H :
  lg k bl -> txn bl -> bst dev k p [] bl V D H ->
  wp write_log (fun _ k' => lg k' bl /\ exists imgs V' D',
    bst dev k' p [] bl V' D' (imgs ++ H) /\ Forall (same_fs D) (D' :: imgs) /\
    (forall m, home s sz m \/ m = s -> V' m = V m) /\
    (forall j n, bl !! j = Some n -> V' (s + Z.of_nat j + 1) = V n)) k.
Proof.
  intros Hg Ht Hs. unfold write_log. apply wp_bind, wp_gets. rewrite (lg_n _ _ Hg), Nat2Z.id.
  eapply wp_mono; [by apply (write_log_loop p bl bl 0)|]. intros [] k' (Hg' & imgs & V' & D' & H1 & H2 & H3 & _ & H5).
  split; [done|]. exists imgs, V', D'. split_and!; [done..|]. intros j n. apply H5. lia.
Qed.

(** ** Copying the transaction home *)

(** The images while home blocks are written: all blocks not listed in the
    header are as in [D]. *)
Definition same_but (bl : list Z) (D d : gmap Z (list Z)) : Prop :=
  forall m, ~ m ∈ bl -> disk_block d m = disk_block D m.

Definition pinned (recovering : bool) (bl : list Z) : list Z := if recovering then [] else bl.

Lemma install_loop p bl0 recovering : forall bl i k V D H,
  lg k bl0 -> fits s sz 0 bl0 -> (if recovering : bool then True else NoDup bl0 /\ (length bl0 < NBUF)%nat) ->
  drop i bl0 = bl -> bst dev k p [] (pinned recovering bl) V D H ->
  wp (for_all (seq i (length bl)) (install_one recovering)) (fun _ k' => lg k' bl0 /\ exists imgs V',
    bst dev k' p [] [] V' (install_from s i bl D) (imgs ++ H) /\
    Forall (same_but bl D) (install_from s i bl D :: imgs)) k.
Proof.
  induction bl as [|n bl IH]; intros i k V D H Hg Hf Hrec Hd Hs.
  - cbn. apply wp_ret. split; [done|]. exists [], V. split; [by destruct recovering|]. by repeat constructor.
  - cbn [length seq for_all]. apply wp_bind.
    assert (Hi : bl0 !! i = Some n) by (by rewrite <- (Nat.add_0_r i), <- lookup_drop, Hd).
    pose proof Hf as (Hh & _ & Hl). pose proof (lookup_lt_Some _ _ _ Hi) as Hlt.
    assert (Hhd : Forall (home s sz) (pinned recovering (n :: bl))).
    { destruct recovering; [done|]. cbn [pinned]. rewrite <- Hd. by apply Forall_drop. }
    assert (Hlp : ~ s + Z.of_nat i + 1 ∈ pinned recovering (n :: bl)).
    { intros Hin. rewrite Forall_forall in Hhd. apply Hhd in Hin.
      apply (home_not_log s sz _ i) in Hin; [done|apply geo|lia]. }
    pose proof (bst_clean _ _ _ _ _ _ _ _ Hs Hlp) as Hcl.
    assert (Hlen : (length (n :: bl) <= length bl0)%nat) by (rewrite <- Hd, length_drop; lia).
    eapply wp_mono; [eapply (install_one_wp _ bl0 _ _ (pinned recovering bl) _ _ _ _ n); [done|done|done| |done|done|]|].
    + destruct recovering; cbn [pinned]; [left; by apply Nat.ltb_lt|right]. destruct Hrec. split; [left|lia].
    + destruct recovering; [done|]. cbn [pinned]. split; [left|]. destruct Hrec as [Hnd _].
      apply (sublist_NoDup (n :: bl)) in Hnd; [|rewrite <- Hd; apply sublist_drop].
      apply NoDup_cons in Hnd as [Hn _]. intros m. rewrite elem_of_cons. split; [|tauto].
      intros Hm. split; [tauto|]. by intros ->.
    + intros [] k1 (Hg1 & Hs1). cbn zeta in Hs1. rewrite Hcl in Hs1.
      eapply wp_mono; [eapply (IH (S i)); [done|done|done|by rewrite <- Nat.add_1_r, <- drop_drop, Hd|done]|].
      intros [] k2 (Hg2 & imgs & V' & Hs2 & Hsb). split; [done|]. exists (imgs ++ [D]), V'. split.
      * rewrite <- app_assoc. exact Hs2.
      * cbn [install_from]. rewrite app_comm_cons. apply Forall_app. split.
        { eapply Forall_impl; [exact Hsb|]. intros d Hsd m [Hmn Hm]%not_elem_of_cons.
          rewrite (Hsd m Hm), disk_block_insert. by rewrite decide_False. }
        by repeat constructor.
Qed.

Lemma install_trans_wp p bl recovering k V D H :
  lg k bl -> fits s sz 0 bl -> (if recovering : bool then True else NoDup bl /\ (length bl < NBUF)%nat) ->
  bst dev k p [] (pinned recovering bl) V D H ->
  wp (install_trans recovering) (fun _ k' => lg k' bl /\ exists imgs V',
    bst dev k' p [] [] V' (install_from s 0 bl D) (imgs ++ H) /\
    Forall (same_but bl D) (install_from s 0 bl D :: imgs)) k.
Proof.
  intros Hg Hf Hrec Hs. unfold install_trans. apply wp_bind, wp_gets. rewrite (lg_n _ _ Hg), Nat2Z.id.
  by eapply (install_loop p bl recovering bl 0).
Qed.
End logspec.
