(* ===== verification/Txn.v ===== *)
(** * Transactions: [begin_op], [log_write], [end_op]

    A file-system system call runs between [begin_op] and [end_op]; its
    writes go through [log_write].  The lemmas and theorems state what each
    of the three does to the log and to the block store. *)

From S2P Require Export Crash.

Section txn.
Context {TH : Threads} {BD : BlockDev}.

(** ** [bpin] inside a critical section *)

Definition incr_ref (x : buf) : buf := set_b_refcnt (u32 (b_refcnt x + 1)) x.

Lemma bpin_exec b k : irq_ok k -> lock_free Lbcache k -> bpin b k = Ok tt (upd_buf b incr_ref k).
Proof. intros Hi Hl. unfold bpin. acquire_step. mrun. release_step k. done. Qed.

Lemma log_slot_spec n m : forall bl i blocks,
  take m blocks = n ++ bl -> i = length n -> Forall (fun b => 0 <= b < 2147483648) bl ->
  (m = length n + length bl)%nat -> forall bno,
  log_slot (length bl) i blocks bno =
    (i + match list_find (eq bno) bl with Some (j, _) => j | None => length bl end)%nat.
Proof.
  revert n. intros n bl. revert n. induction bl as [|b bl IH]; intros n i blocks Ht Hi Hb Hm bno; cbn.
  - by rewrite Nat.add_0_r.
  - assert (Hbi : blocks !! i = Some b).
    { assert (H : take m blocks !! i = Some b) by (rewrite Ht, Hi; apply list_lookup_middle; done).
      apply lookup_take_Some in H. apply H. }
    rewrite (list_lookup_total_correct _ _ _ Hbi). apply Forall_cons in Hb as [Hb Hbl].
    rewrite u32_id by lia. case_decide as E.
    + subst. rewrite Z.eqb_refl. lia.
    + rewrite (proj2 (Z.eqb_neq b bno)) by congruence.
      rewrite (IH (n ++ [b]) (S i)); [|by rewrite <- app_assoc|rewrite length_app; cbn; lia|done|rewrite length_app; cbn in *; lia].
      destruct (list_find (eq bno) bl) as [[j x]|]; cbn; lia.
Qed.

Context (dev s sz : Z) (k0 : kernel).

Definition blocks_with (bl : list Z) (n : Z) : list Z := if decide (n ∈ bl) then bl else bl ++ [n].

Lemma lg_slot k bl n :
  lg dev s sz k0 k bl -> Forall (home s sz) bl ->
  log_slot (length bl) 0 (lh_block (log_lh (k_log k))) n =
    match list_find (eq n) bl with Some (j, _) => j | None => length bl end.
Proof.
  intros Hg Hh. rewrite (log_slot_spec [] (length bl) bl 0); [done|apply Hg|done| |done].
  eapply Forall_impl; [exact Hh|]. by intros x [? _].
Qed.

(** The held buffer of a block that is not pinned gets one more reference. *)
Lemma bst_pin k p hs pins V D H b n :
  bst dev k p hs pins V D H -> (b, n) ∈ hs -> ~ n ∈ pins ->
  bst dev (upd_buf b incr_ref k) p hs (pins ++ [n]) V D H.
Proof.
  intros [Hi H2 H3 H4 H5] Hin Hn. pose proof (bst_in _ _ _ Hin) as Hb. pose proof (H2 _ _ Hin) as Hbn.
  pose proof (proj1 (bc_held _ _ _ _ _ Hi b Hb)) as HbN.
  pose proof (bc_ref _ _ _ _ _ Hi b HbN) as Hr.
  pose proof (caches_held _ _ _ _ _ _ _ Hi Hb Hbn) as [Hd _]%caches_assigned%assigned_inv.
  rewrite refs_held, Hbn, bool_decide_eq_false_2 in Hr by done.
  assert (E : upd_buf b incr_ref k = upd_buf b (fun x => set_b_refcnt 2 (set_b_data (b_data (get_buf k b)) x)) k).
  { apply upd_buf_ext. unfold incr_ref. rewrite Hr. by destruct (get_buf k b). }
  split.
  - rewrite E. apply (bc_inv_held dev k p hs.*1 pins (pins ++ [n]) b n); [done|done|done|set_solver|].
    by rewrite bool_decide_eq_true_2 by set_solver.
  - intros b' n' Hin'. rewrite (get_buf_upd_field b_blockno) by done. by apply H2.
  - intros m. rewrite <- H3. apply view_same_payload; [|done]. intros j _. split.
    + unfold caches, assigned. by rewrite !(get_buf_upd_field b_dev), !(get_buf_upd_field b_blockno), !(get_buf_upd_field b_valid).
    + by rewrite (get_buf_upd_field b_data).
  - done.
  - done.
Qed.

Lemma log_write_exec k bl p hs V D H b n :
  lg dev s sz k0 k bl -> Forall (home s sz) bl -> bst dev k p hs bl V D H -> (b, n) ∈ hs -> home s sz n ->
  Z.of_nat (length bl) < LOGSIZE -> Z.of_nat (length bl) < sz - 1 ->
  1 <= log_outstanding (k_log k) -> lock_free Llog k ->
  let i := match list_find (eq n) bl with Some (j, _) => j | None => length bl end in
  let k1 := upd_lh (fun lh => set_lh_block (<[i := n]> (lh_block lh)) lh) k in
  log_write b k = Ok tt (if decide (n ∈ bl) then k1
    else upd_lh (fun lh => set_lh_n (lh_n lh + 1) lh) (upd_buf b incr_ref k1)).
Proof.
  intros Hg Hh Hs Hin Hn Hl1 Hl2 Ho Hlk i k1.
  pose proof (bs_inv _ _ _ _ _ _ _ _ Hs) as Hi. pose proof (pc_irq _ _ (bc_ctx _ _ _ _ _ Hi)) as Hirq.
  pose proof (bc_lock _ _ _ _ _ Hi) as Hbl. unfold log_write. mrun.
  rewrite (lg_n _ _ _ _ _ _ Hg), (lg_size _ _ _ _ _ _ Hg).
  rewrite (proj2 (Z.leb_gt _ _) Hl1), (proj2 (Z.leb_gt _ _) Hl2). cbn [orb]. mrun.
  rewrite (proj2 (Z.ltb_ge _ _) Ho). acquire_step. mrun. autorewrite with klocks.
  rewrite (lg_n _ _ _ _ _ _ Hg), Nat2Z.id, (bs_held _ _ _ _ _ _ _ _ Hs b n Hin), (lg_slot k bl n Hg Hh).
  fold i. rewrite (s32_id n) by (destruct Hn; lia).
  destruct (decide (n ∈ bl)) as [Hnb|Hnb].
  - assert (Hlt : (i < length bl)%nat).
    { unfold i. destruct (list_find (eq n) bl) as [[j x]|] eqn:E.
      - apply list_find_Some in E as (E & _). by eapply lookup_lt_Some.
      - apply list_find_None in E. rewrite Forall_forall in E. by destruct (E n Hnb). }
    rewrite (proj2 (Z.eqb_neq _ _)) by lia. cbv iota. mrun. release_step k. done.
  - assert (Hlt : i = length bl).
    { unfold i. destruct (list_find (eq n) bl) as [[j x]|] eqn:E; [|done].
      apply list_find_Some in E as (E & -> & _). exfalso. apply Hnb. by eapply list_elem_of_lookup_2. }
    rewrite Hlt, Z.eqb_refl. cbv iota. mrun.
    erewrite run_bind by (apply bpin_exec;
      [apply (irq_ok_same (acquired Llog k)); eauto with krun
      |apply (lock_free_same _ (acquired Llog k)); [done|by apply lock_free_acquired]]).
    mrun. release_step k. unfold k1. by rewrite Hlt.
Qed.

(** C4. [log_write] of a buffer in use adds its block to the transaction, or
    absorbs the write when the block is in it already; the block is pinned in
    the cache until the commit, the disk is not written, and nothing but the
    log header and the reference count changes. *)
Theorem log_write_spec k bl p hs V D H b n :
  lg dev s sz k0 k bl -> Forall (home s sz) bl -> bst dev k p hs bl V D H -> (b, n) ∈ hs -> home s sz n ->
  Z.of_nat (length bl) < LOGSIZE -> Z.of_nat (length bl) < sz - 1 -> 1 <= log_outstanding (k_log k) ->
  exists k', log_write b k = Ok tt k' /\ lg dev s sz k0 k' (blocks_with bl n) /\
    bst dev k' p hs (blocks_with bl n) V D H /\ log_frame k k'.
Proof.
  intros Hg Hh Hs Hin Hn Hl1 Hl2 Ho. pose proof Hg as [G1 G2 G3 G4 G5 G6 G7 G8].
  eexists. split; [by eapply log_write_exec|]. unfold blocks_with. destruct (decide (n ∈ bl)) as [Hnb|Hnb].
  - split_and!; [|by apply bst_upd_lh|apply log_frame_lh].
    destruct (list_find (eq n) bl) as [[j x]|] eqn:E.
    + apply list_find_Some in E as (E & <- & _). rewrite <- G6 in E.
      apply lookup_take_Some in E as [E _]. split; try done; cbn; try by rewrite list_insert_id.
      eapply log_frame_trans; [done|apply log_frame_lh].
    + apply list_find_None in E. rewrite Forall_forall in E. by destruct (E n Hnb).
  - assert (E : list_find (eq n) bl = None).
    { apply list_find_None, Forall_forall. intros x Hx ->. done. }
    rewrite E.
    set (k1 := upd_lh (fun lh => set_lh_block (<[length bl := n]> (lh_block lh)) lh) k).
    assert (Hfr : log_frame k (upd_lh (fun lh => set_lh_n (lh_n lh + 1) lh) (upd_buf b incr_ref k1))).
    { do 2 (eapply log_frame_trans; [|apply log_frame_lh || apply log_frame_buf]). apply log_frame_lh. }
    split_and!; [|apply bst_upd_lh, bst_pin, Hnb; [by apply bst_upd_lh|done]|exact Hfr].
    split; try done; cbn.
    + rewrite G4, length_app. cbn. lia.
    + by rewrite length_insert.
    + rewrite length_app. cbn [length]. rewrite Nat.add_1_r.
      rewrite (take_S_r _ _ n) by (rewrite list_lookup_insert_eq; [done|change LOGSIZE with 30 in *; lia]).
      by rewrite take_insert_ge, G6 by lia.
    + by eapply log_frame_trans.
Qed.

(** [log_write] panics when the transaction has filled the log area and
    outside of a transaction. *)
Theorem log_write_errors k bl b :
  lg dev s sz k0 k bl ->
  (LOGSIZE <= Z.of_nat (length bl) \/ sz - 1 <= Z.of_nat (length bl) ->
     log_write b k = Panic "too big a transaction") /\
  (Z.of_nat (length bl) < LOGSIZE -> Z.of_nat (length bl) < sz - 1 -> log_outstanding (k_log k) < 1 ->
     log_write b k = Panic "log_write outside of trans").
Proof.
  intros Hg. unfold log_write. mrun. rewrite (lg_n _ _ _ _ _ _ Hg), (lg_size _ _ _ _ _ _ Hg). split.
  - intros H. replace ((LOGSIZE <=? _) || _) with true; [done|]. symmetry. apply orb_true_iff. lia.
  - intros H1 H2 H3. rewrite (proj2 (Z.leb_gt _ _) H1), (proj2 (Z.leb_gt _ _) H2). cbn [orb]. mrun.
    by rewrite (proj2 (Z.ltb_lt _ _) H3).
Qed.
End txn.

(** ** Reservation of log space *)

Section reserve.
Context {TH : Threads} {BD : BlockDev}.

Lemma release_wlp_log l k : wlp (release l) (fun _ k' => k_log k' = k_log k) k.
Proof.
  intros [] k'. unfold release. mrun. destruct (negb _); [done|]. mrun. unfold pop_off. mrun.
  destruct (k_sie _); [done|]. mrun. destruct (_ <? 1); [done|]. mrun.
  destruct ((_ =? 0) && _); cbn [when]; by intros [= <-].
Qed.

(** Room for every operation in progress to write [MAXOPBLOCKS] blocks. *)
Definition log_space (l : log) : Prop :=
  log_committing l = 0 /\ lh_n (log_lh l) + log_outstanding l * MAXOPBLOCKS <= LOGSIZE.

(** C5. Whatever other processes do while it waits, [begin_op] returns only
    when no commit is in progress and the space of [LOGSIZE] blocks covers the
    logged blocks plus [MAXOPBLOCKS] for every operation in progress, the new
    one included. *)
Theorem begin_op_reserves k : wlp begin_op (fun _ k' => log_space (k_log k')) k.
Proof.
  unfold begin_op. apply wlp_bind. intros [] k1 _. generalize (S patience) as fuel. intros fuel. revert k1.
  induction fuel as [|fuel IH]; intros k1; [done|]. cbn [loop]. apply wlp_bind.
  apply (wlp_mono _ (fun r k' => match r with Some _ => log_space (k_log k') | None => True end)).
  - intros r k' Hr. revert Hr. mrun. destruct (truth (log_committing (k_log k1))) eqn:Ec.
    { intros (? & ? & _ & [= <- <-])%bind_Ok_inv. done. }
    mrun. destruct (LOGSIZE <? _) eqn:El.
    { intros (? & ? & _ & [= <- <-])%bind_Ok_inv. done. }
    mrun. intros ([] & k2 & Hrel & [= <- <-])%bind_Ok_inv. apply release_wlp_log in Hrel. rewrite Hrel. cbn.
    apply negb_false_iff, Z.eqb_eq in Ec. apply Z.ltb_ge in El. split; [done|]. cbn. lia.
  - intros [[]|] k'; [intros H; by apply wlp_ret|intros _; apply IH].
Qed.

End reserve.

(** ** A process inside a transaction *)

Section intx.
Context {TH : Threads} {BD : BlockDev}.
Context (dev s sz : Z).
Context (geo : geometry dev s sz).

(** Since state [k0], process [p] works in a transaction that has logged the
    blocks [bl]; it holds the buffers [hs] and sees the blocks [V]. *)
Record intx (k0 k : kernel) (p : nat) (hs : list (nat * Z)) (bl : list Z) (V : Z -> list Z)
    (D : gmap Z (list Z)) (H : list (gmap Z (list Z))) : Prop := {
  it_lg : lg dev s sz k0 k bl;
  it_bst : bst dev k p hs bl V D H;
  it_home : Forall (home s sz) bl;
  it_nodup : NoDup bl;
  it_clean : forall m, ~ m ∈ bl -> V m = disk_block D m;
  it_out : 1 <= log_outstanding (k_log k)
}.

Definition room (bl : list Z) : Prop := Z.of_nat (length bl) < LOGSIZE - 1 /\ Z.of_nat (length bl) < sz - 1.

Lemma blocks_with_in bl n : n ∈ blocks_with bl n.
Proof. unfold blocks_with. case_decide; set_solver. Qed.

Lemma blocks_with_other bl n m : ~ m ∈ blocks_with bl n -> ~ m ∈ bl.
Proof. unfold blocks_with. case_decide; set_solver. Qed.

Lemma blocks_with_nodup bl n : NoDup bl -> NoDup (blocks_with bl n).
Proof.
  intros H. unfold blocks_with. case_decide; [done|]. apply NoDup_app. split_and!; [done|set_solver|].
  apply NoDup_singleton.
Qed.

Lemma blocks_with_home bl n : Forall (home s sz) bl -> home s sz n -> Forall (home s sz) (blocks_with bl n).
Proof. intros. unfold blocks_with. case_decide; [done|]. apply Forall_app. split; [done|]. by constructor. Qed.

Lemma blocks_with_length bl n : (length (blocks_with bl n) <= length bl + 1)%nat.
Proof. unfold blocks_with. case_decide; [lia|]. rewrite length_app. cbn. lia. Qed.

Lemma intx_bread k0 k p hs bl V D H n :
  intx k0 k p hs bl V D H -> ~ n ∈ hs.*2 -> n ∈ bl \/ (length hs + length bl < NBUF)%nat ->
  wp (bread dev n) (fun b k' => intx k0 k' p ((b, n) :: hs) bl V D H /\ ~ b ∈ hs.*1) k.
Proof.
  intros [G B Hh Hn Hc Ho] Hin Hr. eapply wp_mono; [by apply bst_bread|]. intros b k' (Hb & Hf & Hnb).
  split; [|done]. pose proof (log_frame_bio _ _ Hf) as Hlf.
  split; [by eapply lg_frame|done..|by rewrite (lf_out _ _ Hlf)].
Qed.

(** The buffer is released unchanged, or its block is in the transaction. *)
Lemma intx_brelse k0 k p hs hs' bl V D H b n :
  intx k0 k p hs bl V D H -> hs ≡ₚ (b, n) :: hs' ->
  wp (brelse b) (fun _ k' => intx k0 k' p hs' bl V D H) k.
Proof.
  intros [G B Hh Hn Hc Ho] Hp. eapply wp_mono; [eapply bst_brelse; [done|done|]|].
  - destruct (decide (n ∈ bl)); [by left|right; by apply Hc].
  - intros [] k' (Hb & Hf). pose proof (log_frame_bio _ _ Hf) as Hlf.
    split; [by eapply lg_frame|done..|by rewrite (lf_out _ _ Hlf)].
Qed.

(** Data written to a buffer in use, then [log_write]. *)
Lemma intx_log_write k0 k p hs bl V D H b n d :
  intx k0 k p hs bl V D H -> (b, n) ∈ hs -> home s sz n -> room bl ->
  wp (log_write b) (fun _ k' => intx k0 k' p hs (blocks_with bl n) (vset V n d) D H)
    (upd_buf b (set_b_data d) k).
Proof.
  intros [G B Hh Hn Hc Ho] Hin Hhn [Hr1 Hr2].
  destruct (log_write_spec dev s sz k0 (upd_buf b (set_b_data d) k) bl p hs (vset V n d) D H b n)
    as (k' & Hrun & Hg' & Hb' & Hf'); try done; [by apply lg_upd_buf|by apply bst_set_data|lia|].
  eapply wp_Ok; [exact Hrun|]. split; [done|done|by apply blocks_with_home|by apply blocks_with_nodup| |].
  - intros m Hm. rewrite vset_ne; [by apply Hc, (blocks_with_other bl n)|]. intros ->. apply Hm, blocks_with_in.
  - rewrite (lf_out _ _ Hf'). exact Ho.
Qed.

(** What a transaction leaves to [commit]. *)
Lemma intx_txn k0 k p hs bl V D H :
  intx k0 k p hs bl V D H -> Z.of_nat (length bl) < LOGSIZE -> Z.of_nat (length bl) < sz -> txn s sz bl.
Proof.
  intros [G B Hh Hn Hc Ho] H1 H2. split; [split_and!; [done|apply geo|cbn; lia]|done|].
  change NBUF with 30%nat. change LOGSIZE with 30 in H1. lia.
Qed.
End intx.

(** ** [begin_op] and [end_op] *)

Section ops.
Context {TH : Threads} {BD : BlockDev}.
Context (dev s sz : Z).
Context (geo : geometry dev s sz).

(** Changes to the counters of the log keep the block store. *)
Lemma bst_upd_log k p hs pins V D H f :
  bst dev k p hs pins V D H -> bst dev (upd_log f k) p hs pins V D H.
Proof. intros Hs. by eapply bst_frame. Qed.

Lemma lg_counters k0 k bl f :
  lg dev s sz k0 k bl -> (forall l, log_dev (f l) = log_dev l /\ log_start (f l) = log_start l /\
    log_size (f l) = log_size l /\ log_lh (f l) = log_lh l) ->
  lg dev s sz (upd_log f k) (upd_log f k) bl.
Proof.
  intros [H1 H2 H3 H4 H5 H6 H7 H8] Hf. destruct (Hf (k_log k)) as (E1 & E2 & E3 & E4).
  split; cbn; rewrite ?E1, ?E2, ?E3, ?E4; (done || apply log_frame_refl).
Qed.

Lemma lg_self k0 k bl : lg dev s sz k0 k bl -> lg dev s sz k k bl.
Proof. intros [H1 H2 H3 H4 H5 H6 H7 H8]. split; try done. apply log_frame_refl. Qed.

Lemma begin_op_run k p bl V D H :
  lg dev s sz k k bl -> bst dev k p [] bl V D H -> log_committing (k_log k) = 0 ->
  Z.of_nat (length bl) + (log_outstanding (k_log k) + 1) * MAXOPBLOCKS <= LOGSIZE ->
  begin_op k = Ok tt (upd_log (fun l => set_log_outstanding (log_outstanding l + 1) l) k).
Proof.
  intros Hg Hs Hc Hr. pose proof (pc_irq _ _ (bc_ctx _ _ _ _ _ (bs_inv _ _ _ _ _ _ _ _ Hs))) as Hi.
  pose proof (lg_lock _ _ _ _ _ _ Hg) as Hl. unfold begin_op. acquire_step. cbn [loop]. mrun.
  autorewrite with klocks. rewrite Hc, (lg_n _ _ _ _ _ _ Hg). cbn [truth Z.eqb negb].
  rewrite (proj2 (Z.ltb_ge _ _) Hr). mrun. release_step k. done.
Qed.

(** A transaction that has just begun. *)
Lemma begin_op_intx k p bl V D H :
  lg dev s sz k k bl -> bst dev k p [] bl V D H -> Forall (home s sz) bl -> NoDup bl ->
  log_committing (k_log k) = 0 -> 0 <= log_outstanding (k_log k) ->
  Z.of_nat (length bl) + (log_outstanding (k_log k) + 1) * MAXOPBLOCKS <= LOGSIZE ->
  wp begin_op (fun _ k' => intx dev s sz k' k' p [] bl V D H /\
    k' = upd_log (fun l => set_log_outstanding (log_outstanding l + 1) l) k) k.
Proof.
  intros Hg Hs Hh Hn Hc Ho Hr. eapply wp_Ok; [by eapply begin_op_run|]. split; [|done]. split.
  - by eapply lg_counters.
  - by apply bst_upd_log.
  - done.
  - done.
  - intros m. by eapply bst_clean.
  - cbn. lia.
Qed.

Lemma woken_lg chan k0 k bl : lg dev s sz k0 k bl -> lg dev s sz k0 (woken chan k) bl.
Proof.
  intros Hg. eapply lg_frame; [done|]. split; [apply same_ctx_woken|]. by destruct k.
Qed.

Lemma woken_bst chan k p hs pins V D H :
  bst dev k p hs pins V D H -> bst dev (woken chan k) p hs pins V D H.
Proof. intros Hs. eapply bst_frame; [done|apply same_ctx_woken|done..]. Qed.

(** The end of [end_op]: the commit is over. *)
Lemma end_op_tail k0 k p bl pins V D H :
  lg dev s sz k0 k bl -> bst dev k p [] pins V D H ->
  (acquire Llog;; log_upd (set_log_committing 0);; wakeup ChLog;; release Llog) k =
    Ok tt (woken ChLog (upd_log (set_log_committing 0) k)).
Proof.
  intros Hg Hs. pose proof (bc_ctx _ _ _ _ _ (bs_inv _ _ _ _ _ _ _ _ Hs)) as [Hi Hp Hpl Hlen].
  pose proof (lg_lock _ _ _ _ _ _ Hg) as Hl. acquire_step. mrun.
  erewrite run_bind by (apply wakeup_run;
    [apply (irq_ok_same (acquired Llog k)); eauto with krun
    |intros i Hlt; apply (lock_free_same _ (acquired Llog k)); [done|];
     apply lock_free_acquired; [done|by apply Hpl]
    |done]).
  rewrite (release_run _ k) by done. done.
Qed.

(** The beginning of the last [end_op]. *)
Lemma end_op_run k0 k p bl pins V D H :
  lg dev s sz k0 k bl -> bst dev k p [] pins V D H ->
  log_outstanding (k_log k) = 1 -> log_committing (k_log k) = 0 ->
  end_op k = (commit;; acquire Llog;; log_upd (set_log_committing 0);; wakeup ChLog;; release Llog)
    (upd_log (fun l => set_log_committing 1 (set_log_outstanding (log_outstanding l - 1) l)) k).
Proof.
  intros Hg Hs Ho Hc. pose proof (pc_irq _ _ (bc_ctx _ _ _ _ _ (bs_inv _ _ _ _ _ _ _ _ Hs))) as Hi.
  pose proof (lg_lock _ _ _ _ _ _ Hg) as Hlk. unfold end_op. acquire_step. mrun.
  change (log_committing (k_log (upd_log _ (acquired Llog k)))) with (log_committing (k_log k)).
  rewrite Hc. cbn [truth Z.eqb negb]. mrun.
  change (log_outstanding (k_log (upd_log _ (acquired Llog k)))) with (log_outstanding (k_log k) - 1).
  rewrite Ho. change (1 - 1 =? 0) with true. cbv iota. mrun. release_step k. done.
Qed.

(** C3. The last [end_op] of a transaction commits it: it returns with no
    operation outstanding, an empty log and the blocks as the process saw
    them, on disk; and every disk content on the way recovers to the file
    system before or after the transaction. *)
Theorem end_op_commits k0 k p bl V D H :
  intx dev s sz k0 k p [] bl V D H -> Z.of_nat (length bl) < LOGSIZE -> Z.of_nat (length bl) < sz ->
  log_outstanding (k_log k) = 1 -> log_committing (k_log k) = 0 ->
  hd_blocks (disk_block D s) = [] -> length (disk_block D s) = Z.to_nat BSIZE ->
  exists k', end_op k = Ok tt k' /\ lg dev s sz k' k' [] /\
    log_outstanding (k_log k') = 0 /\ log_committing (k_log k') = 0 /\ exists newer older V' D',
    bst dev k' p [] [] V' D' (newer ++ older ++ H) /\ hd_blocks (disk_block D' s) = [] /\
    length (disk_block D' s) = Z.to_nat BSIZE /\
    Forall (recovers_to s sz (disk_block D)) older /\ Forall (recovers_to s sz V) (D' :: newer) /\
    forall m, home s sz m -> V' m = V m /\ disk_block D' m = V m.
Proof.
  intros Hit Hl1 Hl2 Ho Hc He Hl. pose proof (intx_txn dev s sz geo _ _ _ _ _ _ _ _ Hit Hl1 Hl2) as Ht.
  destruct Hit as [G B _ _ _ _].
  set (k1 := upd_log (fun l => set_log_committing 1 (set_log_outstanding (log_outstanding l - 1) l)) k).
  assert (G1 : lg dev s sz k1 k1 bl) by (by eapply lg_counters).
  assert (B1 : bst dev k1 p [] bl V D H) by (by apply bst_upd_log).
  assert (Hrun : forall P, wp commit (fun _ => P) k1 -> exists k2, commit k1 = Ok tt k2 /\ P k2).
  { intros P Hp. apply wp_inv in Hp as ([] & k2 & Hk2 & HP). by exists k2. }
  assert (Hcm : exists k2, commit k1 = Ok tt k2 /\ committed dev s sz k1 k2 p V D H).
  { destruct (decide (bl = [])) as [->|Hne].
    - exists k1. split; [unfold commit; mrun; by rewrite (lg_n _ _ _ _ _ _ G1)|]. split; [done|].
      pose proof (fun m => bst_clean _ _ _ _ _ _ _ m B1 (not_elem_of_nil m)) as Hclean.
      exists [], [], V, D. split_and!; try done. repeat constructor. intros m _. by rewrite recovered_empty.
    - apply Hrun. by eapply commit_wp. }
  destruct Hcm as (k2 & Hcm & G2 & nw & od & V' & D' & B2 & Hrest).
  exists (woken ChLog (upd_log (set_log_committing 0) k2)). split_and!.
  - rewrite (end_op_run k0 k p bl bl V D H) by done. fold k1. rewrite (run_bind _ _ _ _ _ Hcm). by eapply end_op_tail.
  - eapply lg_self, woken_lg. by eapply lg_counters.
  - cbn. rewrite (lf_out _ _ (lg_from _ _ _ _ _ _ G2)). cbn. lia.
  - done.
  - exists nw, od, V', D'. split; [by apply woken_bst, bst_upd_log|exact Hrest].
Qed.
End ops.
