(* ===== verification/LogDemo.v ===== *)
(** * A booted file system

    A disk driver that satisfies the driver interface, a kernel state before
    [binit], and the states reached from it by the operations; the theorems
    of the buffer cache and of the log are applied to them. *)

From S2P Require Export Txn.

(** A driver that transfers at once. *)
#[global] Instance ram_disk : BlockDev.
Proof.
  refine {| virtio_disk_rw := fun b write k => Ok tt (if write : bool then disk_write b k else disk_read b k) |};
    reflexivity.
Defined.

#[local] Existing Instance resume_at_once.

(** Process 3 runs; the buffers are zeroed; the log area is the one mkfs makes. *)
Definition booted : kernel :=
  set_buf (replicate (S NBUF) buf0)
    (set_log (mkLog 2 LOGSIZE 0 0 1 (mkLogheader 0 (replicate (Z.to_nat LOGSIZE) 0)))
    (set_locks (<[Lvdisk := mkSpinlock 0 "virtio_disk" None]>
      (<[Llog := mkSpinlock 0 "log" None]> (k_locks one_proc))) one_proc)).

Lemma booted_buf : bss_buf booted.
Proof.
  split; [done|]. intros i. unfold get_buf. rewrite list_lookup_total_alt. cbn [k_buf booted set_buf].
  destruct (replicate (S NBUF) buf0 !! i) eqn:E; [|done]. by apply lookup_replicate in E as [-> _].
Qed.

Lemma booted_ctx : proc_ctx booted 3.
Proof.
  split; [exact one_proc_irq|done| |done]. intros i Hi. destruct (one_proc_locks i Hi) as [name Hn].
  exists name. cbn [k_locks booted set_buf set_log set_locks]. by rewrite !lookup_insert_ne.
Qed.

Lemma geometry_mkfs : geometry 1 2 LOGSIZE.
Proof. split; vm_compute; intuition congruence. Qed.

(** After [binit]. *)
Lemma demo_ready : exists k, binit booted = Ok tt k /\
  bst 1 k 3 [] [] (disk_block ∅) ∅ [] /\ lg 1 2 LOGSIZE k k [] /\ k_log k = k_log booted.
Proof.
  destruct (binit_built booted booted_buf) as (k & Hrun & Hb). exists k.
  pose proof (bu_rest _ _ _ Hb) as (_ & _ & _ & _ & _ & _ & El & _). split_and!; [done| | |done].
  - apply (built_bst 1 booted 3 k booted_buf booted_ctx); [done| |done|done]. exists "virtio_disk". by vm_compute.
  - split; rewrite ?El; try done; [|apply log_frame_refl]. exists "log". rewrite (bu_locks _ _ _ Hb) by done. by vm_compute.
Qed.

Definition demo_data : list Z := 42 :: replicate 1023 0.

(** Block 100 written in a transaction. *)
Lemma demo_tx : exists k0 k, intx 1 2 LOGSIZE k0 k 3 [] [100] (vset (disk_block ∅) 100 demo_data) ∅ [] /\
  log_outstanding (k_log k) = 1 /\ log_committing (k_log k) = 0.
Proof.
  destruct demo_ready as (k1 & _ & Hs & Hg & El).
  assert (Hwp : wp (begin_op;; b ← bread 1 100; b_set b (set_b_data demo_data);; log_write b;; brelse b)
    (fun _ k => exists k0, intx 1 2 LOGSIZE k0 k 3 [] [100] (vset (disk_block ∅) 100 demo_data) ∅ [] /\
      log_outstanding (k_log k) = 1 /\ log_committing (k_log k) = 0) k1).
  { apply wp_bind. eapply wp_mono; [eapply begin_op_intx; rewrite ?El; first [done|constructor|vm_compute; congruence]|].
    intros [] k2 [Hi Ek2]. apply wp_bind.
    eapply wp_mono; [eapply intx_bread; [done|apply not_elem_of_nil|right; by apply Nat.ltb_lt]|].
    intros b k3 [Hi3 _]. mrun. apply wp_bind, wp_modify, wp_bind.
    eapply wp_mono; [eapply (intx_log_write 1 2 LOGSIZE geometry_mkfs _ _ _ _ _ _ _ _ b 100); [done|left| |]|].
    - split; vm_compute; intuition congruence.
    - by vm_compute.
    - intros [] k4 Hi4. eapply wp_mono; [by eapply (intx_brelse 1 2 LOGSIZE _ _ _ _ [] _ _ _ _ b 100)|].
      intros [] k5 Hi5. exists k2. split; [exact Hi5|].
      pose proof (lg_from _ _ _ _ _ _ (it_lg _ _ _ _ _ _ _ _ _ _ _ Hi5)) as Hf.
      rewrite (lf_out _ _ Hf), (lf_com _ _ Hf), Ek2. cbn. by rewrite El. }
  apply wp_inv in Hwp as ([] & k & _ & k0 & Hrest). by exists k0, k.
Qed.

Lemma demo_header : hd_blocks (disk_block ∅ 2) = [] /\ length (disk_block ∅ 2) = Z.to_nat BSIZE.
Proof. by vm_compute. Qed.

Lemma commit_atomic_witness : exists k k' V' D',
  commit k = Ok tt k' /\ bst 1 k' 3 [] [] V' D' (k_hist k') /\ disk_block D' 100 = demo_data.
Proof.
  destruct demo_tx as (k0 & k & Hi & _).
  destruct (commit_atomic 1 2 LOGSIZE k0 geometry_mkfs k 3 [100] (vset (disk_block ∅) 100 demo_data) ∅ [])
    as (k' & Hrun & _ & nw & od & V' & D' & Hs & _ & _ & _ & _ & Hm).
  - exact (it_lg _ _ _ _ _ _ _ _ _ _ _ Hi).
  - apply (intx_txn 1 2 LOGSIZE geometry_mkfs _ _ _ _ _ _ _ _ Hi); vm_compute; reflexivity.
  - exact (it_bst _ _ _ _ _ _ _ _ _ _ _ Hi).
  - exact (proj1 demo_header).
  - exact (proj2 demo_header).
  - exists k, k', V', D'. split_and!; [exact Hrun|rewrite (bs_hist _ _ _ _ _ _ _ _ Hs); exact Hs|].
    rewrite (proj2 (Hm 100 ltac:(split; vm_compute; intuition congruence))). apply vset_eq.
Defined.

Lemma end_op_commits_witness : exists k k', end_op k = Ok tt k' /\ log_outstanding (k_log k') = 0.
Proof.
  destruct demo_tx as (k0 & k & Hi & Ho & Hc).
  destruct (end_op_commits 1 2 LOGSIZE geometry_mkfs k0 k 3 [100] (vset (disk_block ∅) 100 demo_data) ∅ [] Hi)
    as (k' & Hrun & _ & Hout & _).
  - vm_compute. reflexivity.
  - vm_compute. reflexivity.
  - exact Ho.
  - exact Hc.
  - exact (proj1 demo_header).
  - exact (proj2 demo_header).
  - exact (ex_intro _ k (ex_intro _ k' (conj Hrun Hout))).
Defined.

(** A disk whose header lists block 100 as committed, with log block [demo_data]. *)
Definition crashed_disk : gmap Z (list Z) :=
  <[2 := hd_enc [100] zero_block]> (<[3 := demo_data]> ∅).

Lemma crashed_ready : exists k, bst 1 k 3 [] [] (disk_block crashed_disk) crashed_disk [] /\ lg 1 2 LOGSIZE k k [].
Proof.
  assert (Hb : bss_buf (set_disk crashed_disk booted)) by (destruct booted_buf; by split).
  destruct (binit_built (set_disk crashed_disk booted) Hb) as (k & Hrun & Hbu). exists k.
  pose proof (bu_rest _ _ _ Hbu) as (_ & _ & _ & _ & _ & _ & El & _). split.
  - apply (built_bst 1 (set_disk crashed_disk booted) 3 k Hb); [destruct booted_ctx; by split|done| |done|done].
    exists "virtio_disk". by vm_compute.
  - split; rewrite ?El; try done; [|apply log_frame_refl]. exists "log". rewrite (bu_locks _ _ _ Hbu) by done. by vm_compute.
Qed.

Lemma recover_idempotent_witness : exists k k' V' D',
  recover_from_log k = Ok tt k' /\ bst 1 k' 3 [] [] V' D' (k_hist k') /\ disk_block D' 100 = demo_data.
Proof.
  destruct crashed_ready as (k & Hs & Hg).
  destruct (recover_idempotent 1 2 LOGSIZE k geometry_mkfs k 3 [] (disk_block crashed_disk) crashed_disk [] Hg Hs)
    as (k' & Hrun & _ & imgs & V' & D' & Hs' & _ & _ & _ & Hm).
  - vm_compute. congruence.
  - split_and!; [|vm_compute; congruence|vm_compute; reflexivity].
    replace (hd_blocks (disk_block crashed_disk 2)) with [100] by (by vm_compute).
    constructor; [split; vm_compute; intuition congruence|constructor].
  - apply Nat.leb_le. vm_compute. reflexivity.
  - vm_compute. reflexivity.
  - exists k, k', V', D'. split_and!; [exact Hrun|rewrite (bs_hist _ _ _ _ _ _ _ _ Hs'); exact Hs'|].
    rewrite (proj2 (Hm 100 ltac:(split; vm_compute; intuition congruence))). vm_compute. reflexivity.
Defined.

(** A transaction about to write block 100. *)
Lemma demo_open : exists k b, intx 1 2 LOGSIZE k k 3 [(b, 100)] [] (disk_block ∅) ∅ [].
Proof.
  destruct demo_ready as (k1 & _ & Hs & Hg & El).
  assert (Hwp : wp (begin_op;; bread 1 100)
    (fun b k => intx 1 2 LOGSIZE k k 3 [(b, 100)] [] (disk_block ∅) ∅ []) k1).
  { apply wp_bind. eapply wp_mono; [eapply begin_op_intx; rewrite ?El; first [done|constructor|vm_compute; congruence]|].
    intros [] k2 [Hi Ek2].
    eapply wp_mono; [eapply intx_bread; [done|apply not_elem_of_nil|right; by apply Nat.ltb_lt]|].
    intros b k3 [[G B C E F I] _]. split; try done. by eapply lg_self. }
  apply wp_inv in Hwp as (b & k & _ & Hi). by exists k, b.
Qed.

Lemma log_write_spec_witness : exists k b k', log_write b k = Ok tt k' /\ lg 1 2 LOGSIZE k k' [100].
Proof.
  destruct demo_open as (k & b & [G B C E F I]).
  destruct (log_write_spec 1 2 LOGSIZE k k [] 3 [(b, 100)] (disk_block ∅) ∅ [] b 100 G C B)
    as (k' & Hrun & Hg & _).
  - left.
  - split; vm_compute; intuition congruence.
  - vm_compute. reflexivity.
  - vm_compute. reflexivity.
  - exact I.
  - exact (ex_intro _ k (ex_intro _ b (ex_intro _ k' (conj Hrun Hg)))).
Defined.

Lemma log_write_errors_witness : exists k b, log_write b k = Panic "log_write outside of trans".
Proof.
  destruct demo_ready as (k & _ & _ & Hg & El). exists k, 0%nat.
  apply (proj2 (log_write_errors 1 2 LOGSIZE k k [] 0%nat Hg)).
  - vm_compute. reflexivity.
  - vm_compute. reflexivity.
  - rewrite El. vm_compute. reflexivity.
Defined.

(** The log one block short of full, three operations in progress. *)
Definition full_log : kernel :=
  set_log (mkLog 2 LOGSIZE 3 0 1 (mkLogheader 29 (Z.of_nat <$> seq 100 30))) booted.

