(* ===== verification/BioSpec.v ===== *)
(** * The buffer cache is the disk

    Theorems about bio.c: [binit] starts a cache that shows the disk, [bread]
    returns the block whatever the cache holds, [bwrite] makes it durable, and
    [bget] panics exactly when no buffer is free. *)

From S2P Require Export LogDemo.

Section bio_spec.
Context {TH : Threads} {BD : BlockDev}.

(** From zeroed buffers, [binit] returns with a cache that shows every
    block as it is on disk, with no buffer in use, none pinned and all of
    them in the list. *)
Theorem binit_spec dev k p :
  bss_buf k -> proc_ctx k p -> c_noff (this_cpu k) = 0 -> lock_free Lvdisk k -> dev <> 0 ->
  exists k', binit k = Ok tt k' /\ bst dev k' p [] [] (disk_block (k_disk k)) (k_disk k) (k_hist k).
Proof.
  intros Hb Hp Hn Hl Hd. destruct (binit_built k Hb) as (k' & Hrun & Hbu). exists k'. split; [done|].
  by apply (built_bst dev k p k').
Qed.

(** Reading a block, overwriting the buffer, [bwrite] and [brelse] make
    the new contents durable: the disk changes at this block and nowhere
    else, the cache shows the new block, the other buffers in use are kept,
    and exactly one disk write happened. *)
Theorem bio_write_through dev k p hs pins V D H n d :
  bst dev k p hs pins V D H -> ~ n ∈ hs.*2 -> (length hs + length pins < NBUF)%nat ->
  exists k', (b ← bread dev n; b_set b (set_b_data d);; bwrite b;; brelse b) k = Ok tt k' /\
    bst dev k' p hs pins (vset V n d) (<[n := d]> D) (D :: H).
Proof.
  intros Hs Hn Hr.
  assert (Hwp : wp (b ← bread dev n; b_set b (set_b_data d);; bwrite b;; brelse b)
    (fun _ k' => bst dev k' p hs pins (vset V n d) (<[n := d]> D) (D :: H)) k).
  { apply wp_bind. eapply wp_mono; [apply bst_bread; eauto|]. intros b k1 (Hs1 & _ & _).
    mrun. apply wp_bind, wp_modify, wp_bind.
    eapply wp_mono; [eapply bst_bwrite; [eapply bst_set_data; [exact Hs1|left]|left]|].
    intros [] k2 [Hs2 _]. rewrite vset_eq in Hs2.
    eapply wp_mono; [eapply bst_brelse; [exact Hs2|done|]|by intros [] k3 [Hs3 _]].
    right. by rewrite vset_eq, disk_block_insert, decide_True. }
  apply wp_inv in Hwp as ([] & k' & Hrun & Hs'). by exists k'.
Qed.

(** C24. [bread] of a block that no one holds returns a locked buffer with the
    block's contents, and changes neither the disk nor what any block looks
    like, whether the block was cached or a buffer had to be recycled for it. *)
Theorem bread_spec dev k p hs pins V D H n :
  bst dev k p hs pins V D H -> ~ n ∈ hs.*2 -> n ∈ pins \/ (length hs + length pins < NBUF)%nat ->
  exists b k', bread dev n k = Ok b k' /\ b_data (get_buf k' b) = V n /\ ~ b ∈ hs.*1 /\
    bst dev k' p ((b, n) :: hs) pins V D H.
Proof.
  intros Hs Hn Hr. pose proof (bst_bread dev k p hs pins V D H n Hs Hn Hr) as Hwp.
  apply wp_inv in Hwp as (b & k' & Hrun & Hs' & _ & Hnb). exists b, k'. split_and!; try done.
  eapply bst_data; [done|left].
Qed.

(** With every buffer referenced and the block not among them, [bread]
    panics instead of handing out a buffer in use. *)
Theorem bread_no_buffers dev k p held pins n :
  bc_inv dev k p held pins -> (forall i, (i < NBUF)%nat -> assigned dev k i n = false) ->
  (forall i, (i < NBUF)%nat -> b_refcnt (get_buf k i) <> 0) ->
  bread dev n k = Panic "bget: no buffers".
Proof.
  intros Hi Hn Hr. destruct (bc_list _ _ _ _ _ Hi) as (l & Hl & Hk).
  assert (Hin : forall i, i ∈ l <-> (i < NBUF)%nat) by (intros i; rewrite Hl, elem_of_seq; lia).
  pose proof (pc_irq _ _ (bc_ctx _ _ _ _ _ Hi)) as Hirq. pose proof (bc_lock _ _ _ _ _ Hi) as Hlk.
  unfold bread. apply run_bind_panic. unfold bget. acquire_step. mrun. autorewrite with klocks.
  pose proof (bscan_next (acquired Lbcache k) l (fun x => (b_dev x =? dev) && (b_blockno x =? n)) Hl Hk) as Hs1.
  rewrite (proj2 (first_such_None _ l)) in Hs1 by (intros i Hi'; apply Hn; by apply Hin).
  erewrite run_bind by exact Hs1. mrun. autorewrite with klocks.
  pose proof (bscan_prev (acquired Lbcache k) l (fun x => b_refcnt x =? 0) Hl Hk) as Hs2.
  rewrite (proj2 (first_such_None _ (reverse l))) in Hs2.
  - erewrite run_bind by exact Hs2. done.
  - intros i Hi'. rewrite acquired_get_buf. apply Z.eqb_neq, Hr, Hin. by apply elem_of_reverse.
Qed.
End bio_spec.

#[local] Existing Instance resume_at_once.

Lemma binit_spec_witness : exists k', binit booted = Ok tt k' /\ bst 1 k' 3 [] [] (disk_block ∅) ∅ [].
Proof.
  apply (binit_spec 1 booted 3 booted_buf booted_ctx); [reflexivity| |discriminate].
  exists "virtio_disk". vm_compute. reflexivity.
Defined.

Lemma bread_spec_witness : exists k b k', bread 1 100 k = Ok b k' /\ b_data (get_buf k' b) = zero_block.
Proof.
  destruct demo_ready as (k & _ & Hs & _).
  destruct (bread_spec 1 k 3 [] [] (disk_block ∅) ∅ [] 100 Hs) as (b & k' & Hrun & Hd & _).
  - apply not_elem_of_nil.
  - right. apply Nat.ltb_lt. vm_compute. reflexivity.
  - exact (ex_intro _ k (ex_intro _ b (ex_intro _ k' (conj Hrun Hd)))).
Defined.

Lemma bio_write_through_witness : exists k k',
  (b ← bread 1 100; b_set b (set_b_data demo_data);; bwrite b;; brelse b) k = Ok tt k' /\
  k_disk k' !! 100 = Some demo_data.
Proof.
  destruct demo_ready as (k & _ & Hs & _).
  destruct (bio_write_through 1 k 3 [] [] (disk_block ∅) ∅ [] 100 demo_data Hs) as (k' & Hrun & Hs').
  - apply not_elem_of_nil.
  - apply Nat.ltb_lt. vm_compute. reflexivity.
  - exists k, k'. split; [exact Hrun|]. rewrite (bs_disk _ _ _ _ _ _ _ _ Hs'). apply lookup_insert_eq.
Defined.

(** The cache right after [binit] with every block 200, 201, ... read and held. *)
Fixpoint read_all (ns : list Z) : K unit :=
  match ns with [] => skip | n :: ns => _ ← bread 1 n; read_all ns end.

Lemma read_all_wp ns : forall k hs,
  bst 1 k 3 hs [] (disk_block ∅) ∅ [] -> NoDup (ns ++ hs.*2) -> (length hs + length ns <= NBUF)%nat ->
  wp (read_all ns) (fun _ k' => exists hs', bst 1 k' 3 hs' [] (disk_block ∅) ∅ [] /\
    length hs' = (length ns + length hs)%nat /\ (forall n, n ∈ hs'.*2 -> n ∈ ns ++ hs.*2)) k.
Proof.
  induction ns as [|n ns IH]; intros k hs Hs Hnd Hl; [apply wp_ret; by exists hs|].
  cbn [app] in Hnd. apply NoDup_cons in Hnd as [Hn Hnd]. cbn [length] in Hl. cbn [read_all]. apply wp_bind.
  eapply wp_mono; [eapply bst_bread; [exact Hs|set_solver|right; cbn; lia]|]. intros b k1 (Hs1 & _ & _).
  eapply wp_mono; [apply (IH k1 _ Hs1)|].
  - cbn. rewrite <- Permutation_middle. by apply NoDup_cons.
  - cbn. lia.
  - intros [] k2 (hs' & Hs2 & Hl2 & Hin). exists hs'. split_and!; [done|cbn in *; lia|].
    intros m Hm%Hin. cbn in *. set_solver.
Qed.

Lemma all_held : exists k held, bc_inv 1 k 3 held [] /\ length held = NBUF /\
  forall b, b ∈ held -> b_blockno (get_buf k b) <> 100.
Proof.
  destruct demo_ready as (k & _ & Hs & _).
  assert (Hnd : NoDup ((Z.of_nat <$> seq 200 NBUF) ++ [])).
  { rewrite app_nil_r. apply NoDup_fmap_2; [apply _|apply NoDup_seq]. }
  pose proof (read_all_wp (Z.of_nat <$> seq 200 NBUF) k [] Hs Hnd ltac:(apply Nat.leb_le; done)) as Hwp.
  apply wp_inv in Hwp as ([] & k' & _ & hs & Hs' & Hl & Hin). exists k', hs.*1.
  split_and!; [exact (bs_inv _ _ _ _ _ _ _ _ Hs')|rewrite length_fmap, Hl, length_fmap, length_seq; done|].
  intros b ([b' n] & -> & Hb)%list_elem_of_fmap. cbn [fst]. rewrite (bs_held _ _ _ _ _ _ _ _ Hs' b' n Hb).
  assert (Hn : n ∈ hs.*2) by (apply list_elem_of_fmap; by exists (b', n)). apply Hin in Hn.
  rewrite app_nil_r in Hn. apply list_elem_of_fmap in Hn as (x & -> & Hx%elem_of_seq). lia.
Qed.

Lemma bread_no_buffers_witness : exists k, bread 1 100 k = Panic "bget: no buffers".
Proof.
  destruct all_held as (k & held & Hi & Hl & Hb). exists k.
  assert (Hall : forall i, (i < NBUF)%nat -> i ∈ held).
  { intros i Hlt. assert (Hp : held ≡ₚ seq 0 NBUF).
    { apply submseteq_length_Permutation; [|by rewrite length_seq, Hl].
      apply NoDup_submseteq; [exact (bc_nodup _ _ _ _ _ Hi)|]. intros x Hx. apply elem_of_seq.
      pose proof (proj1 (bc_held _ _ _ _ _ Hi x Hx)). lia. }
    rewrite Hp. apply elem_of_seq. lia. }
  apply (bread_no_buffers 1 k 3 held [] 100 Hi).
  - intros i Hlt. destruct (assigned 1 k i 100) eqn:E; [|reflexivity]. exfalso.
    apply assigned_inv in E as [_ E]. exact (Hb i (Hall i Hlt) E).
  - intros i Hlt. rewrite (bc_ref _ _ _ _ _ Hi i Hlt). unfold refs.
    rewrite bool_decide_eq_true_2 by (by apply Hall). destruct (_ && _); cbn; lia.
Defined.
