(* ===== verification/Copy.v ===== *)
(** * kernel/proc.c: copying to and from user or kernel memory

    The destination of a copy is a user virtual address, a physical address
    the kernel writes directly, or an object of the kernel that is not in the
    byte memory; for the last, the bytes stored are returned to the caller.
    A source is a user virtual address or the reader of a kernel object. *)

From S2P Require Export Vm Sched.

Inductive dest := UserDst (va : Z) | PhysDst (pa : Z) | VarDst.
Inductive source := UserSrc (va : Z) | KernSrc (p : Z -> Z).

(** [dst + n] and [src + n] *)
Definition dest_add (d : dest) (n : Z) : dest :=
  match d with
  | UserDst va => UserDst (u64 (va + n))
  | PhysDst pa => PhysDst (u64 (pa + n))
  | VarDst => VarDst
  end.

Definition source_add (s : source) (n : Z) : source :=
  match s with
  | UserSrc va => UserSrc (u64 (va + n))
  | KernSrc p => KernSrc (ptr_add p n)
  end.

Section copy.
Context {LY : Layout} {TH : Threads}.

Definition either_copyout (dst : dest) (src : Z -> Z) (len : Z) : K (Z * list Z) :=
  p ← this_proc;
  match dst with
  | UserDst va =>
      pagetable ← p_get p p_pagetable;
      r ← copyout pagetable va src len;
      mret (r, [])
  | PhysDst pa =>
      modify (fun k => set_mem (memmove_from pa src len (k_mem k)) k);;
      mret (0, [])
  | VarDst => mret (0, rd_src src (Z.to_nat (u32 len)))
  end.

Definition either_copyin (src : source) (len : Z) : K (Z * list Z) :=
  p ← this_proc;
  match src with
  | UserSrc va =>
      pagetable ← p_get p p_pagetable;
      copyin pagetable va len
  | KernSrc f => mret (0, rd_src f (Z.to_nat (u32 len)))
  end.
End copy.
