(* ===== verification/Fs.v ===== *)
(** * kernel/fs.c: blocks, inodes, directories and path names

    A [struct inode *] is an index into the inode cache; functions that may
    return a null pointer return an option.  The on-disk inode is laid over
    its block at the byte offsets the compiler gives it.  A path is the list
    of its characters. *)

From S2P Require Export Log Copy.

(** ** On-disk layout (kernel/fs.h) *)

Definition sizeof_dinode : Z := 64.
Definition IPB : Z := BSIZE / sizeof_dinode.
Definition IBLOCK (i : Z) (sb : superblock) : Z := u32 (i / IPB + sb_inodestart sb).
Definition BBLOCK (b : Z) (sb : superblock) : Z := u32 (b / BPB + sb_bmapstart sb).

Record dinode := mkDinode {
  d_type : Z;
  d_major : Z;
  d_minor : Z;
  d_nlink : Z;
  d_size : Z;
  d_addrs : list Z
}.

(** The on-disk inode [inum] within its block, as a byte offset: [inum%IPB] entries in. *)
Definition dinode_off (inum : Z) : nat := Z.to_nat (inum mod IPB * sizeof_dinode).

Definition dinode_get (data : list Z) (o : nat) : dinode :=
  mkDinode (s16 (blk_rd16 data o)) (s16 (blk_rd16 data (o + 2))) (s16 (blk_rd16 data (o + 4)))
    (s16 (blk_rd16 data (o + 6))) (blk_rd32 data (o + 8))
    ((fun i => blk_rd32 data (o + 12 + 4 * i)%nat) <$> seq 0 (Z.to_nat NDIRECT + 1)).

Fixpoint put_addrs (addrs : list Z) (o : nat) (data : list Z) : list Z :=
  match addrs with
  | [] => data
  | a :: addrs => put_addrs addrs (o + 4) (blk_wr32 o a data)
  end.

Definition dinode_put (d : dinode) (o : nat) (data : list Z) : list Z :=
  put_addrs (d_addrs d) (o + 12)
    (blk_wr32 (o + 8) (d_size d)
    (blk_wr16 (o + 6) (d_nlink d)
    (blk_wr16 (o + 4) (d_minor d)
    (blk_wr16 (o + 2) (d_major d)
    (blk_wr16 o (d_type d) data))))).

Definition sb_decode (data : list Z) : superblock :=
  mkSuperblock (blk_rd32 data 0) (blk_rd32 data 4) (blk_rd32 data 8) (blk_rd32 data 12)
    (blk_rd32 data 16) (blk_rd32 data 20) (blk_rd32 data 24) (blk_rd32 data 28).

(** ** The in-memory inodes *)

Definition ip_get {A} (ip : nat) (f : inode -> A) : K A := gets (fun k => f (get_inode k ip)).
Definition ip_set (ip : nat) (f : inode -> inode) : K unit := modify (upd_inode ip f).
Definition sb_get : K superblock := gets k_sb.
Definition b_modify (b : nat) (f : list Z -> list Z) : K unit :=
  b_set b (fun x => set_b_data (f (b_data x)) x).

#[export] Hint Unfold ip_get ip_set sb_get b_modify : krun.

(** The fields kept on disk, from and to an in-memory inode. *)
Definition inode_dinode (i : inode) : dinode :=
  mkDinode (i_type i) (i_major i) (i_minor i) (i_nlink i) (i_size i) (i_addrs i).

Definition inode_load (d : dinode) (i : inode) : inode :=
  mkInode (i_dev i) (i_inum i) (i_ref i) (i_valid i)
    (d_type d) (d_major d) (d_minor d) (d_nlink d) (d_size d) (d_addrs d).

Section fs.
Context {LY : Layout} {TH : Threads} {BD : BlockDev}.

Definition readsb (dev : Z) : K unit :=
  bp ← bread (u32 dev) 1;
  data ← b_get bp b_data;
  modify (set_sb (sb_decode data));;
  brelse bp.

Definition fsinit (dev : Z) : K unit :=
  readsb dev;;
  sb ← sb_get;
  if negb (sb_magic sb =? FSMAGIC) then panic "invalid file system" else
  initlog dev sb.

(** ** Blocks *)

Definition bzero (dev bno : Z) : K unit :=
  bp ← bread (u32 dev) (u32 bno);
  b_modify bp (fun _ => zero_block);;
  log_write bp;;
  brelse bp.

Definition bit_mask (bi : nat) : Z := Z.shiftl 1 (Z.of_nat (bi mod 8)).
Definition bit_set (data : list Z) (bi : nat) : bool :=
  negb (Z.land (data !!! (bi / 8)%nat) (bit_mask bi) =? 0).

(** The inner loop of [balloc]: the first free bit. *)
Fixpoint free_bit (n : nat) (bi : nat) (data : list Z) (b size : Z) : option nat :=
  match n with
  | O => None
  | S n =>
      if u32 (b + Z.of_nat bi) <? size then
        if bit_set data bi then free_bit n (S bi) data b size else Some bi
      else None
  end.

Definition mark_used (bi : nat) (data : list Z) : list Z :=
  <[(bi / 8)%nat := u8 (Z.lor (data !!! (bi / 8)%nat) (bit_mask bi))]> data.
Definition mark_free (bi : nat) (data : list Z) : list Z :=
  <[(bi / 8)%nat := u8 (Z.land (data !!! (bi / 8)%nat) (Z.lnot (bit_mask bi)))]> data.

Definition balloc_body (dev : Z) : Z -> K (Z + Z) := fun b =>
  sb ← sb_get;
  if u32 b <? sb_size sb then
    bp ← bread dev (BBLOCK b sb);
    data ← b_get bp b_data;
    match free_bit (Z.to_nat BPB) 0 data b (sb_size sb) with
    | Some bi =>
        b_modify bp (mark_used bi);;      (* Mark block in use. *)
        log_write bp;;
        brelse bp;;
        bzero dev (b + Z.of_nat bi);;
        mret (inr (u32 (b + Z.of_nat bi)))
    | None =>
        brelse bp;;
        mret (inl (b + BPB))
    end
  else panic "balloc: out of blocks".

(** The bitmap of a device of less than [2^32] blocks has less than [2^19 + 1]
    blocks. *)
Definition balloc (dev : Z) : K Z :=
  size ← gets (fun k => sb_size (k_sb k));
  loop_with (S (S (Z.to_nat (size / BPB)))) 0 (balloc_body dev).

Definition bfree (dev b : Z) : K unit :=
  sb ← sb_get;
  bp ← bread (u32 dev) (BBLOCK b sb);
  let bi := Z.to_nat (b mod BPB) in
  data ← b_get bp b_data;
  if negb (bit_set data bi) then panic "freeing free block" else
  b_modify bp (mark_free bi);;
  log_write bp;;
  brelse bp.

(** ** Inodes *)

Definition iinit : K unit :=
  initlock Licache "icache";;
  for_all (seq 0 NINODE) (fun i => initsleeplock (SLinode i) "inode").

(** The scan of [iget]: an entry in use for the inode, and the first empty one. *)
Fixpoint iget_scan (ips : list nat) (dev inum : Z) (empty : option nat) : K (nat + option nat) :=
  match ips with
  | [] => mret (inr empty)
  | ip :: ips =>
      i ← ip_get ip id;
      if (0 <? i_ref i) && (i_dev i =? dev) && (i_inum i =? inum) then mret (inl ip)
      else iget_scan ips dev inum
             (match empty with None => if i_ref i =? 0 then Some ip else None | _ => empty end)
  end.

Definition iget (dev inum : Z) : K nat :=
  acquire Licache;;
  r ← iget_scan (seq 0 NINODE) dev inum None;
  match r with
  | inl ip =>
      ip_set ip (fun i => set_i_ref (i_ref i + 1) i);;
      release Licache;;
      mret ip
  | inr None => panic "iget: no inodes"
  | inr (Some ip) =>
      ip_set ip (set_i_dev dev);;
      ip_set ip (set_i_inum inum);;
      ip_set ip (set_i_ref 1);;
      ip_set ip (set_i_valid 0);;
      release Licache;;
      mret ip
  end.

Definition ialloc (dev type : Z) : K nat :=
  sb ← sb_get;
  r ← for_each (seq 1 (Z.to_nat (sb_ninodes sb) - 1)) (fun inum =>
    sb ← sb_get;
    bp ← bread dev (IBLOCK (Z.of_nat inum) sb);
    data ← b_get bp b_data;
    let o := dinode_off (Z.of_nat inum) in
    if d_type (dinode_get data o) =? 0 then
      b_modify bp (fun data => splice data o (replicate (Z.to_nat sizeof_dinode) 0));;
      b_modify bp (blk_wr16 o type);;
      log_write bp;;
      brelse bp;;
      ip ← iget dev (Z.of_nat inum);
      mret (Some ip)
    else
      brelse bp;;
      mret None);
  match r with
  | Some ip => mret ip
  | None => panic "ialloc: no inodes"
  end.

Definition iupdate (ip : nat) : K unit :=
  i ← ip_get ip id;
  sb ← sb_get;
  bp ← bread (i_dev i) (IBLOCK (i_inum i) sb);
  i ← ip_get ip id;
  b_modify bp (dinode_put (inode_dinode i) (dinode_off (i_inum i)));;
  log_write bp;;
  brelse bp.

Definition idup (ip : nat) : K nat :=
  acquire Licache;;
  ip_set ip (fun i => set_i_ref (i_ref i + 1) i);;
  release Licache;;
  mret ip.

Definition ilock (ip : nat) : K unit :=
  ref ← ip_get ip i_ref;
  if ref <? 1 then panic "ilock" else
  acquiresleep (SLinode ip);;
  valid ← ip_get ip i_valid;
  when (valid =? 0)
    (i ← ip_get ip id;
     sb ← sb_get;
     bp ← bread (i_dev i) (IBLOCK (i_inum i) sb);
     data ← b_get bp b_data;
     ip_set ip (inode_load (dinode_get data (dinode_off (i_inum i))));;
     brelse bp;;
     ip_set ip (set_i_valid 1);;
     type ← ip_get ip i_type;
     if type =? 0 then panic "ilock: no type" else skip).

Definition iunlock (ip : nat) : K unit :=
  h ← holdingsleep (SLinode ip);
  if negb h then panic "iunlock" else
  ref ← ip_get ip i_ref;
  if ref <? 1 then panic "iunlock" else
  releasesleep (SLinode ip).

(** ** Inode content *)

Definition set_addr (j : nat) (a : Z) (i : inode) : inode := set_i_addrs (<[j := a]> (i_addrs i)) i.

Definition bmap (ip : nat) (bn : Z) : K Z :=
  if bn <? NDIRECT then
    addr ← ip_get ip (fun i => i_addrs i !!! Z.to_nat bn);
    if addr =? 0 then
      dev ← ip_get ip i_dev;
      addr ← balloc dev;
      ip_set ip (set_addr (Z.to_nat bn) addr);;
      mret addr
    else mret addr
  else
  let bn := bn - NDIRECT in
  if bn <? NINDIRECT then
    (* Load indirect block, allocating if necessary. *)
    addr ← ip_get ip (fun i => i_addrs i !!! Z.to_nat NDIRECT);
    dev ← ip_get ip i_dev;
    addr ← (if addr =? 0 then
              addr ← balloc dev;
              ip_set ip (set_addr (Z.to_nat NDIRECT) addr);;
              mret addr
            else mret addr);
    bp ← bread dev addr;
    addr ← b_get bp (fun x => blk_rd32 (b_data x) (4 * Z.to_nat bn));
    addr ← (if addr =? 0 then
              addr ← balloc dev;
              b_modify bp (blk_wr32 (4 * Z.to_nat bn) addr);;
              log_write bp;;
              mret addr
            else mret addr);
    brelse bp;;
    mret addr
  else panic "bmap: out of range".

Definition itrunc (ip : nat) : K unit :=
  for_all (seq 0 (Z.to_nat NDIRECT)) (fun i =>
    a ← ip_get ip (fun x => i_addrs x !!! i);
    when (truth a)
      (dev ← ip_get ip i_dev;
       bfree dev a;;
       ip_set ip (set_addr i 0)));;
  a ← ip_get ip (fun x => i_addrs x !!! Z.to_nat NDIRECT);
  when (truth a)
    (dev ← ip_get ip i_dev;
     bp ← bread dev a;
     for_all (seq 0 (Z.to_nat NINDIRECT)) (fun j =>
       aj ← b_get bp (fun x => blk_rd32 (b_data x) (4 * j));
       when (truth aj) (bfree dev aj));;
     brelse bp;;
     bfree dev a;;
     ip_set ip (set_addr (Z.to_nat NDIRECT) 0));;
  ip_set ip (set_i_size 0);;
  iupdate ip.

Definition iput (ip : nat) : K unit :=
  acquire Licache;;
  i ← ip_get ip id;
  when ((i_ref i =? 1) && truth (i_valid i) && (i_nlink i =? 0))
    ( (* inode has no links and no other references: truncate and free. *)
     acquiresleep (SLinode ip);;
     release Licache;;
     itrunc ip;;
     ip_set ip (set_i_type 0);;
     iupdate ip;;
     ip_set ip (set_i_valid 0);;
     releasesleep (SLinode ip);;
     acquire Licache);;
  ip_set ip (fun i => set_i_ref (i_ref i - 1) i);;
  release Licache.

Definition iunlockput (ip : nat) : K unit := iunlock ip;; iput ip.

(** [struct stat] (kernel/stat.h) *)
Record stat := mkStat { st_dev : Z; st_ino : Z; st_type : Z; st_nlink : Z; st_size : Z }.

Definition stati (ip : nat) : K stat :=
  i ← ip_get ip id;
  mret (mkStat (s32 (i_dev i)) (i_inum i) (i_type i) (i_nlink i) (i_size i)).

(** A transfer of [n] bytes touches at most [n / BSIZE + 2] blocks. *)
Definition io_fuel (n : Z) : nat := S (S (S (Z.to_nat (n / BSIZE)))).

(** The loop of [readi]; the bytes stored at a kernel variable are collected. *)
Definition readi_body (ip : nat) (n : Z) :
    Z * Z * dest * list Z -> K (Z * Z * dest * list Z + Z * list Z) := fun '(tot, off, dst, got) =>
  if tot <? n then
    a ← bmap ip (off / BSIZE);
    dev ← ip_get ip i_dev;
    bp ← bread dev a;
    let m := Z.min (n - tot) (BSIZE - off mod BSIZE) in
    data ← b_get bp b_data;
    r ← either_copyout dst (ptr_add (arr data) (off mod BSIZE)) m;
    let '(r, bs) := r in
    if r =? -1 then brelse bp;; mret (inr (u32 (-1), got ++ bs)) else
    brelse bp;;
    mret (inl (tot + m, u32 (off + m), dest_add dst m, got ++ bs))
  else mret (inr (tot, got)).

Definition readi (ip : nat) (dst : dest) (off n : Z) : K (Z * list Z) :=
  size ← ip_get ip i_size;
  if (size <? off) || (u32 (off + n) <? off) then mret (0, []) else
  let n := if size <? u32 (off + n) then size - off else n in
  r ← loop_with (io_fuel n) (0, off, dst, []) (readi_body ip n);
  mret (s32 r.1, r.2).

(** The loop of [writei]: the final [n] and [off]. *)
Definition writei_body (ip : nat) (n : Z) :
    Z * Z * source -> K (Z * Z * source + Z * Z) := fun '(tot, off, src) =>
  if tot <? n then
    a ← bmap ip (off / BSIZE);
    dev ← ip_get ip i_dev;
    bp ← bread dev a;
    let m := Z.min (n - tot) (BSIZE - off mod BSIZE) in
    r ← either_copyin src m;
    let '(r, bs) := r in
    b_modify bp (fun data => splice data (Z.to_nat (off mod BSIZE)) bs);;
    if r =? -1 then brelse bp;; mret (inr (u32 (-1), off)) else
    log_write bp;;
    brelse bp;;
    mret (inl (tot + m, u32 (off + m), source_add src m))
  else mret (inr (n, off)).

Definition writei (ip : nat) (src : source) (off n : Z) : K Z :=
  size ← ip_get ip i_size;
  if (size <? off) || (u32 (off + n) <? off) then mret (-1) else
  if MAXFILE * BSIZE <? u32 (off + n) then mret (-1) else
  r ← loop_with (io_fuel n) (0, off, src) (writei_body ip n);
  let '(n, off) := r in
  when (0 <? n)
    (size ← ip_get ip i_size;
     when (size <? off) (ip_set ip (set_i_size off));;
     (* write the i-node back to disk even if the size didn't change *)
     iupdate ip);;
  mret (s32 n).

(** ** Directories *)

Definition sizeof_dirent : Z := 16.

Definition namecmp (s t : Z -> Z) : Z := strncmp s t DIRSIZ.

Definition de_inum (de : list Z) : Z := blk_rd16 de 0.
Definition de_name (de : list Z) : Z -> Z := ptr_add (arr de) 2.

(** The entry at offset [off]; [msg] is the panic of a short read. *)
Definition read_dirent (dp : nat) (off : Z) (msg : string) : K (list Z) :=
  r ← readi dp VarDst off sizeof_dirent;
  if negb (r.1 =? sizeof_dirent) then panic msg else mret r.2.

(** The number of rounds of [for(off = 0; off < dp->size; off += sizeof(de))]. *)
Definition dir_fuel (size : Z) : nat := S (S (Z.to_nat (size / sizeof_dirent))).

Definition dirlookup_body (dp : nat) (name : Z -> Z) : Z -> K (Z + option (nat * Z)) := fun off =>
  size ← ip_get dp i_size;
  if off <? size then
    de ← read_dirent dp off "dirlookup read";
    if de_inum de =? 0 then mret (inl (u32 (off + sizeof_dirent))) else
    if namecmp name (de_name de) =? 0 then
      (* entry matches path element *)
      dev ← ip_get dp i_dev;
      ip ← iget dev (de_inum de);
      mret (inr (Some (ip, off)))
    else mret (inl (u32 (off + sizeof_dirent)))
  else mret (inr None).

Definition dirlookup (dp : nat) (name : Z -> Z) : K (option (nat * Z)) :=
  type ← ip_get dp i_type;
  if negb (type =? T_DIR) then panic "dirlookup not DIR" else
  size ← ip_get dp i_size;
  loop_with (dir_fuel size) 0 (dirlookup_body dp name).

(** [strncpy(s, t, n)] into an array of [n] bytes: the bytes stored. *)
Fixpoint strncpy_bytes (n : nat) (t : Z -> Z) : list Z :=
  match n with
  | O => []
  | S n => if truth (t 0) then u8 (t 0) :: strncpy_bytes n (ptr_add t 1) else replicate (S n) 0
  end.

(** The offset of the first empty entry, or the end of the directory. *)
Definition dirlink_body (dp : nat) : Z -> K (Z + Z) := fun off =>
  size ← ip_get dp i_size;
  if u32 off <? size then
    de ← read_dirent dp off "dirlink read";
    if de_inum de =? 0 then mret (inr off) else mret (inl (off + sizeof_dirent))
  else mret (inr off).

Definition dirlink (dp : nat) (name : Z -> Z) (inum : Z) : K Z :=
  (* Check that name is not present. *)
  r ← dirlookup dp name;
  match r with
  | Some (ip, _) => iput ip;; mret (-1)
  | None =>
      (* Look for an empty dirent. *)
      size ← ip_get dp i_size;
      off ← loop_with (dir_fuel size) 0 (dirlink_body dp);
      let de := le_encode 2 inum ++ strncpy_bytes (Z.to_nat DIRSIZ) name in
      r ← writei dp (KernSrc (arr de)) (u32 off) sizeof_dirent;
      if negb (r =? sizeof_dirent) then panic "dirlink" else mret 0
  end.

(** ** Paths *)

(** The character [*path]. *)
Definition path_hd (path : list Z) : Z := match path with [] => 0 | c :: _ => c end.

(** The loop that skips slashes. *)
Fixpoint skip_slashes (path : list Z) : list Z :=
  match path with
  | c :: rest => if c =? 47 then skip_slashes rest else path
  | [] => []
  end.

(** The loop that runs to the end of the element: the characters passed over,
    and the rest. *)
Fixpoint elem_span (path : list Z) : list Z * list Z :=
  match path with
  | c :: rest =>
      if (c =? 47) || (c =? 0) then ([], path)
      else let '(s, rest) := elem_span rest in (c :: s, rest)
  | [] => ([], [])
  end.

(** The rest of the path and the new contents of [name], or no element. *)
Definition skipelem (path name : list Z) : option (list Z * list Z) :=
  let path := skip_slashes path in
  if path_hd path =? 0 then None else
  let '(s, path) := elem_span path in
  let len := length s in
  let name := if DIRSIZ <=? Z.of_nat len then splice name 0 (take (Z.to_nat DIRSIZ) s)
              else <[len := 0]> (splice name 0 s) in
  Some (skip_slashes path, name).

Definition namex_body (nameiparent : bool) :
    nat * list Z * list Z -> K (nat * list Z * list Z + option nat * list Z) := fun '(ip, path, name) =>
  match skipelem path name with
  | None =>
      if nameiparent then iput ip;; mret (inr (None, name)) else mret (inr (Some ip, name))
  | Some (path, name) =>
      ilock ip;;
      type ← ip_get ip i_type;
      if negb (type =? T_DIR) then iunlockput ip;; mret (inr (None, name)) else
      if nameiparent && (path_hd path =? 0) then
        (* Stop one level early. *)
        iunlock ip;; mret (inr (Some ip, name))
      else
        next ← dirlookup ip (arr name);
        match next with
        | None => iunlockput ip;; mret (inr (None, name))
        | Some (next, _) => iunlockput ip;; mret (inl (next, path, name))
        end
  end.

(** The inode and the contents of [name]; every round shortens the path. *)
Definition namex (path : list Z) (nameiparent : bool) (name : list Z) : K (option nat * list Z) :=
  ip ← (if path_hd path =? 47 then iget ROOTDEV ROOTINO
        else p ← this_proc;
             cwd ← p_get p p_cwd;
             match cwd with Some ip => idup ip | None => panic "kerneltrap" end);
  loop_with (S (length path)) (ip, path, name) (namex_body nameiparent).

Definition namei (path : list Z) : K (option nat) :=
  r ← namex path false (replicate (Z.to_nat DIRSIZ) 0);
  mret r.1.

Definition nameiparent (path name : list Z) : K (option nat * list Z) := namex path true name.
End fs.
