(* ===== verification/FsBlocks.v ===== *)
(** * fs.c, blocks: the free map

    The bits of the free map, and what [bzero], [balloc] and [bfree] do to the
    blocks as seen inside a transaction. *)

From S2P Require Export Fs BioSpec.

(** ** Bits *)

Lemma bit_set_testbit data bi :
  bit_set data bi = Z.testbit (data !!! (bi / 8)%nat) (Z.of_nat (bi mod 8)).
Proof.
  unfold bit_set, bit_mask. rewrite Z.shiftl_1_l. set (x := data !!! _). set (n := Z.of_nat (bi mod 8)).
  destruct (Z.testbit x n) eqn:E.
  - apply negb_true_iff, Z.eqb_neq. intros H0. apply (f_equal (fun z => Z.testbit z n)) in H0.
    rewrite Z.land_spec, E, Z.pow2_bits_true, Z.bits_0 in H0 by (unfold n; lia). done.
  - apply negb_false_iff, Z.eqb_eq, Z.bits_inj'. intros m Hm. rewrite Z.land_spec, Z.bits_0.
    destruct (decide (m = n)) as [->|Hne]; [by rewrite E|].
    rewrite Z.pow2_bits_false by done. by rewrite andb_false_r.
Qed.

Lemma testbit_u8 z n : 0 <= n < 8 -> Z.testbit (u8 z) n = Z.testbit z n.
Proof. intros H. unfold u8. change 256 with (2 ^ 8). apply Z.mod_pow2_bits_low. lia. Qed.

Lemma bit_update (f : Z -> Z) data bi bj (v : bool) :
  (bi / 8 < length data)%nat ->
  (forall n, 0 <= n < 8 -> Z.testbit (f (data !!! (bi / 8)%nat)) n =
     if decide (n = Z.of_nat (bi mod 8)) then v else Z.testbit (data !!! (bi / 8)%nat) n) ->
  bit_set (<[(bi / 8)%nat := u8 (f (data !!! (bi / 8)%nat))]> data) bj =
    if decide (bj = bi) then v else bit_set data bj.
Proof.
  intros Hl Hf. rewrite !bit_set_testbit. pose proof (Nat.mod_upper_bound bj 8 ltac:(lia)) as Hm.
  destruct (decide (bj / 8 = bi / 8)%nat) as [E|E].
  - rewrite E, list_lookup_total_insert_eq by done. rewrite testbit_u8, Hf by lia.
    assert (Hiff : bj = bi <-> Z.of_nat (bj mod 8) = Z.of_nat (bi mod 8)).
    { split; [by intros ->|]. intros H%Nat2Z.inj. rewrite (Nat.div_mod bj 8), (Nat.div_mod bi 8) by lia.
      by rewrite E, H. }
    repeat case_decide; try done; tauto.
  - rewrite list_lookup_total_insert_ne by done. case_decide; [by subst|done].
Qed.

Lemma bit_mark_used data bi bj :
  (bi / 8 < length data)%nat ->
  bit_set (mark_used bi data) bj = if decide (bj = bi) then true else bit_set data bj.
Proof.
  intros Hl. apply (bit_update (fun x => Z.lor x (bit_mask bi))); [done|]. intros n Hn.
  unfold bit_mask. rewrite Z.lor_spec, Z.shiftl_1_l. case_decide as E.
  - by rewrite E, Z.pow2_bits_true, orb_true_r by lia.
  - by rewrite Z.pow2_bits_false, orb_false_r by done.
Qed.

Lemma bit_mark_free data bi bj :
  (bi / 8 < length data)%nat ->
  bit_set (mark_free bi data) bj = if decide (bj = bi) then false else bit_set data bj.
Proof.
  intros Hl. apply (bit_update (fun x => Z.land x (Z.lnot (bit_mask bi)))); [done|]. intros n Hn.
  unfold bit_mask. rewrite Z.land_spec, Z.lnot_spec, Z.shiftl_1_l by lia. case_decide as E.
  - by rewrite E, Z.pow2_bits_true, andb_false_r by lia.
  - by rewrite Z.pow2_bits_false, andb_true_r by done.
Qed.

Lemma mark_used_length bi data : length (mark_used bi data) = length data.
Proof. apply length_insert. Qed.

Lemma mark_free_length bi data : length (mark_free bi data) = length data.
Proof. apply length_insert. Qed.

(** The inner loop finds the first free bit below the size. *)
Lemma free_bit_spec n : forall bi data b size,
  0 <= b -> b + Z.of_nat (bi + n) < 4294967296 ->
  match free_bit n bi data b size with
  | Some j => (bi <= j < bi + n)%nat /\ bit_set data j = false /\ b + Z.of_nat j < size /\
      forall i, (bi <= i < j)%nat -> bit_set data i = true
  | None => forall i, (bi <= i < bi + n)%nat -> b + Z.of_nat i < size -> bit_set data i = true
  end.
Proof.
  induction n as [|n IH]; intros bi data b size Hb Hl; cbn [free_bit]; [intros i; lia|].
  rewrite u32_id by lia. destruct (b + Z.of_nat bi <? size) eqn:Es.
  - apply Z.ltb_lt in Es. destruct (bit_set data bi) eqn:Eb.
    + specialize (IH (S bi) data b size Hb ltac:(lia)). destruct (free_bit n (S bi) data b size) as [j|].
      * destruct IH as (H1 & H2 & H3 & H4). split_and!; [lia|lia|done|done|]. intros i Hi.
        destruct (decide (i = bi)) as [->|]; [done|]. apply H4. lia.
      * intros i Hi Hs. destruct (decide (i = bi)) as [->|]; [done|]. apply IH; lia.
    + split_and!; [lia|lia|done|done|]. intros i. lia.
  - apply Z.ltb_ge in Es. intros i Hi Hs. lia.
Qed.

(** ** Updates of one block inside a transaction *)

Lemma log_frame_sb k k' : log_frame k k' -> k_sb k' = k_sb k.
Proof. intros Hf. rewrite (lf_rest _ _ Hf). done. Qed.

Lemma log_frame_inode k k' : log_frame k k' -> k_inode k' = k_inode k.
Proof. intros Hf. rewrite (lf_rest _ _ Hf). done. Qed.

Section blocks.
Context {LY : Layout} {TH : Threads} {BD : BlockDev}.
Context (dev s sz : Z).
Context (geo : geometry dev s sz).

(** The buffers and the log have room for one more block. *)
Definition room1 (hs : list (nat * Z)) (bl : list Z) : Prop :=
  room sz bl /\ (length hs + length bl < NBUF)%nat.

(** The modification of a buffer in use. *)
Lemma intx_modify k0 k p hs bl V D H b n f :
  intx dev s sz k0 k p hs bl V D H -> (b, n) ∈ hs ->
  upd_buf b (fun x => set_b_data (f (b_data x)) x) k = upd_buf b (set_b_data (f (V n))) k.
Proof.
  intros Hi Hin. apply upd_buf_ext. by rewrite (bst_data _ _ _ _ _ _ _ _ _ _ (it_bst _ _ _ _ _ _ _ _ _ _ _ Hi) Hin).
Qed.

Lemma tx_modify_wp k0 k p hs hs' bl V D H b n f :
  intx dev s sz k0 k p hs bl V D H -> hs ≡ₚ (b, n) :: hs' -> home s sz n -> room sz bl ->
  wp (b_modify b f;; log_write b;; brelse b)
    (fun _ k' => intx dev s sz k0 k' p hs' (blocks_with bl n) (vset V n (f (V n))) D H) k.
Proof.
  intros Hi Hp Hn Hr. assert (Hin : (b, n) ∈ hs) by (rewrite Hp; left). mrun. apply wp_bind, wp_modify.
  rewrite (intx_modify _ _ _ _ _ _ _ _ _ _ _ Hi Hin). apply wp_bind.
  eapply wp_mono; [eapply (intx_log_write dev s sz geo); done|]. intros [] k' Hi'.
  by eapply (intx_brelse dev s sz).
Qed.

Lemma tx_modify_seq {A} (m : K A) Q k0 k p hs hs' bl V D H b n f :
  intx dev s sz k0 k p hs bl V D H -> hs ≡ₚ (b, n) :: hs' -> home s sz n -> room sz bl ->
  (forall k', intx dev s sz k0 k' p hs' (blocks_with bl n) (vset V n (f (V n))) D H -> wp m Q k') ->
  wp (b_modify b f;; log_write b;; brelse b;; m) Q k.
Proof.
  intros Hi Hp Hn Hr Hm. assert (Hin : (b, n) ∈ hs) by (rewrite Hp; left). mrun. apply wp_bind, wp_modify.
  rewrite (intx_modify _ _ _ _ _ _ _ _ _ _ _ Hi Hin). apply wp_bind.
  eapply wp_mono; [eapply (intx_log_write dev s sz geo); done|]. intros [] k1 Hi1. apply wp_bind.
  eapply wp_mono; [by eapply (intx_brelse dev s sz)|]. intros [] k2 Hi2. by apply Hm.
Qed.

Lemma tx_update_wp k0 k p hs bl V D H n f :
  intx dev s sz k0 k p hs bl V D H -> ~ n ∈ hs.*2 -> home s sz n -> room1 hs bl ->
  wp (b ← bread dev n; b_modify b f;; log_write b;; brelse b)
    (fun _ k' => intx dev s sz k0 k' p hs (blocks_with bl n) (vset V n (f (V n))) D H) k.
Proof.
  intros Hi Hn Hh [Hr Hb]. apply wp_bind. eapply wp_mono; [eapply intx_bread; [done|done|by right]|].
  intros b k1 [Hi1 _]. by eapply tx_modify_wp.
Qed.

Lemma bzero_wp k0 k p hs bl V D H n :
  intx dev s sz k0 k p hs bl V D H -> ~ n ∈ hs.*2 -> home s sz n -> room1 hs bl ->
  wp (bzero dev n) (fun _ k' => intx dev s sz k0 k' p hs (blocks_with bl n) (vset V n zero_block) D H) k.
Proof.
  intros Hi Hn Hh Hr. unfold bzero. rewrite !u32_id by (destruct Hh, geo; lia).
  by apply (tx_update_wp _ _ _ _ _ _ _ _ _ (fun _ => zero_block)).
Qed.

(** ** The free map *)

Context (sb : superblock).

Definition used (V : Z -> list Z) (b : Z) : bool := bit_set (V (BBLOCK b sb)) (Z.to_nat (b mod BPB)).

(** A data block of the file system: below the size, not in the log area. *)
Record fs_map (V : Z -> list Z) : Prop := {
  fm_size : 0 < sb_size sb < 2147483648 - BPB;
  fm_home : forall b, 0 <= b < sb_size sb -> home s sz (BBLOCK b sb);
  fm_len : forall b, 0 <= b < sb_size sb -> length (V (BBLOCK b sb)) = Z.to_nat BSIZE
}.

Lemma BPB_div b j : 0 <= b -> b mod BPB = 0 -> 0 <= j < BPB -> (b + j) / BPB = b / BPB /\ (b + j) mod BPB = j.
Proof.
  intros Hb Hm Hj. assert (E : b = BPB * (b / BPB)) by (rewrite (Z.div_mod b BPB) at 1; [lia|done]).
  rewrite E at 1 3. rewrite !(Z.mul_comm BPB), !(Z.add_comm _ j), Z.div_add, Z.mod_add by done.
  rewrite Z.div_small, Z.mod_small by done. lia.
Qed.

Lemma BBLOCK_same b j : 0 <= b -> b mod BPB = 0 -> 0 <= j < BPB -> BBLOCK (b + j) sb = BBLOCK b sb.
Proof. intros Hb Hm Hj. unfold BBLOCK. by rewrite (proj1 (BPB_div b j Hb Hm Hj)). Qed.

(** The block of the map and the bit in it identify the block. *)
Lemma BBLOCK_inj b c :
  0 <= b < 2147483648 -> 0 <= c < 2147483648 -> BBLOCK c sb = BBLOCK b sb -> c mod BPB = b mod BPB -> c = b.
Proof.
  intros Hb Hc E Em. unfold BBLOCK, u32 in E. change BPB with 8192 in *.
  assert (Hq : (c / 8192 - b / 8192) mod 4294967296 = 0).
  { replace (c / 8192 - b / 8192) with ((c / 8192 + sb_bmapstart sb) - (b / 8192 + sb_bmapstart sb)) by lia.
    rewrite Zminus_mod, E, Z.sub_diag. done. }
  zlia.
Qed.

(** One bit of the map changed. *)
Lemma used_vset (g : nat -> list Z -> list Z) (v : bool) V b c :
  (forall data bi bj, (bi / 8 < length data)%nat ->
     bit_set (g bi data) bj = if decide (bj = bi) then v else bit_set data bj) ->
  fs_map V -> 0 <= b < sb_size sb -> 0 <= c < sb_size sb ->
  used (vset V (BBLOCK b sb) (g (Z.to_nat (b mod BPB)) (V (BBLOCK b sb)))) c =
    if decide (c = b) then v else used V c.
Proof.
  intros Hg [Hs Hh Hl] Hb Hc. unfold used, vset. assert (HB : BPB = 8192) by done.
  pose proof (Z.mod_pos_bound b BPB ltac:(done)) as Mb. pose proof (Z.mod_pos_bound c BPB ltac:(done)) as Mc.
  case_decide as E.
  - rewrite E, Hg.
    + destruct (decide (c = b)) as [->|Hne]; [by rewrite decide_True|]. rewrite decide_False; [done|].
      intros E2. apply Hne, BBLOCK_inj; [lia|lia|done|]. apply Z2Nat.inj in E2; lia.
    + rewrite (Hl b Hb). change (Z.to_nat BSIZE) with 1024%nat. apply Nat.Div0.div_lt_upper_bound. lia.
  - rewrite decide_False; [done|]. by intros ->.
Qed.

(** [bfree] of a block in use clears its bit in the free map, and no
    other; [bfree] of a free block panics. *)
Theorem bfree_spec k0 k p hs bl V D H b :
  intx dev s sz k0 k p hs bl V D H -> k_sb k = sb -> fs_map V -> 0 <= b < sb_size sb ->
  ~ BBLOCK b sb ∈ hs.*2 -> room1 hs bl ->
  if used V b then
    exists k' V', bfree dev b k = Ok tt k' /\
      intx dev s sz k0 k' p hs (blocks_with bl (BBLOCK b sb)) V' D H /\
      (forall c, 0 <= c < sb_size sb -> used V' c = used V c && negb (c =? b)) /\
      (forall n, n <> BBLOCK b sb -> V' n = V n)
  else bfree dev b k = Panic "freeing free block".
Proof.
  intros Hi Hsb Hmap Hb Hn [Hr Hbuf]. pose proof Hmap as [Hs Hh Hl]. unfold bfree. mrun. rewrite Hsb, u32_id by (destruct geo; lia).
  pose proof (wp_inv _ _ _ (intx_bread dev s sz _ _ _ _ _ _ _ _ _ Hi Hn (or_intror Hbuf))) as (bp & k1 & Hrun & Hi1 & _).
  rewrite (run_bind _ _ _ _ _ Hrun). rewrite bind_gets.
  rewrite (bst_data _ _ _ _ _ _ _ _ bp (BBLOCK b sb) (it_bst _ _ _ _ _ _ _ _ _ _ _ Hi1)) by left.
  fold (used V b). destruct (used V b) eqn:Eu; cbn [negb]; [|done].
  pose proof (wp_inv _ _ _ (tx_modify_wp k0 k1 p _ hs bl V D H bp (BBLOCK b sb)
    (mark_free (Z.to_nat (b mod BPB))) Hi1 ltac:(done) (Hh b Hb) Hr)) as ([] & k' & Hrun' & Hi').
  exists k', (vset V (BBLOCK b sb) (mark_free (Z.to_nat (b mod BPB)) (V (BBLOCK b sb)))).
  split_and!; [exact Hrun'|done| |intros n; apply vset_ne].
  intros c Hc. rewrite (used_vset mark_free false) by (done || intros; by apply bit_mark_free).
  case_decide as E; [by rewrite (proj2 (Z.eqb_eq c b)), andb_false_r|].
  by rewrite (proj2 (Z.eqb_neq c b)), andb_true_r.
Qed.

(** ** Allocation *)

Lemma balloc_body_wp k0 k p hs bl V D H b :
  intx dev s sz k0 k p hs bl V D H -> k_sb k0 = sb -> fs_map V ->
  0 <= b < sb_size sb -> b mod BPB = 0 ->
  (forall c, 0 <= c < sb_size sb -> ~ BBLOCK c sb ∈ hs.*2) ->
  (forall c, 0 <= c < sb_size sb -> used V c = false -> home s sz c /\ ~ c ∈ hs.*2) ->
  Z.of_nat (length bl) + 1 < Z.min LOGSIZE sz - 1 -> (length hs + length bl + 1 < NBUF)%nat ->
  wp (balloc_body dev b) (fun r k' => match r with
    | inl b' => b' = b + BPB /\ intx dev s sz k0 k' p hs bl V D H /\
        forall c, b <= c < b + BPB -> c < sb_size sb -> used V c = true
    | inr a => b <= a < sb_size sb /\ a < b + BPB /\ used V a = false /\
        (forall c, b <= c < a -> used V c = true) /\
        intx dev s sz k0 k' p hs (blocks_with (blocks_with bl (BBLOCK a sb)) a)
          (vset (vset V (BBLOCK a sb) (mark_used (Z.to_nat (a mod BPB)) (V (BBLOCK a sb)))) a zero_block) D H
    end) k.
Proof.
  intros Hi Hsb [Hs Hh Hl] Hb Hm Hhs Hfree Hroom Hbuf. assert (HB : BPB = 8192) by done. unfold balloc_body. apply wp_bind, wp_gets.
  rewrite (log_frame_sb k0 k), Hsb by apply (it_lg _ _ _ _ _ _ _ _ _ _ _ Hi).
  rewrite (u32_id b), (proj2 (Z.ltb_lt b _)) by lia. apply wp_bind.
  eapply wp_mono; [eapply intx_bread; [done|by apply Hhs|right; lia]|]. intros bp k1 [Hi1 _].
  apply wp_bind, wp_gets.
  rewrite (bst_data _ _ _ _ _ _ _ _ bp (BBLOCK b sb) (it_bst _ _ _ _ _ _ _ _ _ _ _ Hi1)) by left.
  pose proof (free_bit_spec (Z.to_nat BPB) 0 (V (BBLOCK b sb)) b (sb_size sb)) as Hf.
  specialize (Hf ltac:(lia) ltac:(lia)).
  assert (Hused : forall j, (j < Z.to_nat BPB)%nat -> b + Z.of_nat j < sb_size sb ->
    used V (b + Z.of_nat j) = bit_set (V (BBLOCK b sb)) j).
  { intros j Hj Hjs. unfold used. rewrite BBLOCK_same, (proj2 (BPB_div b (Z.of_nat j) ltac:(lia) Hm ltac:(lia)))
      by (lia || done). by rewrite Nat2Z.id. }
  destruct (free_bit (Z.to_nat BPB) 0 (V (BBLOCK b sb)) b (sb_size sb)) as [j|].
  - destruct Hf as (Hj & Hbit & Hjs & Hbefore). set (a := b + Z.of_nat j).
    assert (Ha : used V a = false) by (unfold a; by rewrite Hused by lia).
    destruct (Hfree a ltac:(unfold a; lia) Ha) as [Hha Hna].
    assert (Hj' : 0 <= Z.of_nat j < BPB) by lia.
    assert (Ea : BBLOCK a sb = BBLOCK b sb) by (apply BBLOCK_same; [lia|done|done]).
    assert (Eam : Z.to_nat (a mod BPB) = j).
    { unfold a. rewrite (proj2 (BPB_div b (Z.of_nat j) ltac:(lia) Hm Hj')). apply Nat2Z.id. }
    pose proof (blocks_with_length bl (BBLOCK a sb)) as Hlen.
    eapply (tx_modify_seq _ _ k0 k1 p _ hs bl V D H bp (BBLOCK b sb) (mark_used j)); [done|done|by apply Hh|split; lia|].
    intros k2 Hi2. rewrite <- Ea in Hi2. apply wp_bind.
    eapply wp_mono; [eapply (bzero_wp _ _ _ _ _ _ _ _ a Hi2 Hna Hha); split; [split|]; lia|].
    intros [] k3 Hi3. apply wp_ret. fold a. rewrite u32_id, Eam by (unfold a; lia).
    split_and!; [unfold a; lia|unfold a; lia|unfold a; lia|done| |done].
    intros c Hc. replace c with (b + Z.of_nat (Z.to_nat (c - b))) by lia.
    rewrite Hused by (unfold a in Hc; lia). apply Hbefore. unfold a in Hc. lia.
  - apply wp_bind. eapply wp_mono; [by eapply (intx_brelse dev s sz)|]. intros [] k2 Hi2. apply wp_ret.
    split_and!; [done|done|]. intros c Hc Hcs. replace c with (b + Z.of_nat (Z.to_nat (c - b))) by lia.
    rewrite Hused by lia. apply Hf; lia.
Qed.

(** What an allocation needs: the map readable, free blocks outside the log
    and not held, and room for two more blocks. *)
Record balloc_ready (hs : list (nat * Z)) (bl : list Z) (V : Z -> list Z) : Prop := {
  br_map : fs_map V;
  br_bitmap : forall c, 0 <= c < sb_size sb -> ~ BBLOCK c sb ∈ hs.*2;
  br_free : forall c, 0 <= c < sb_size sb -> used V c = false ->
    home s sz c /\ ~ c ∈ hs.*2 /\ forall b, 0 <= b < sb_size sb -> BBLOCK b sb <> c;
  br_log : Z.of_nat (length bl) + 1 < Z.min LOGSIZE sz - 1;
  br_buf : (length hs + length bl + 1 < NBUF)%nat
}.

Definition allocated (V : Z -> list Z) (a : Z) : Z -> list Z :=
  vset (vset V (BBLOCK a sb) (mark_used (Z.to_nat (a mod BPB)) (V (BBLOCK a sb)))) a zero_block.

Lemma balloc_ready_body k0 k p hs bl V D H b :
  intx dev s sz k0 k p hs bl V D H -> k_sb k0 = sb -> balloc_ready hs bl V ->
  0 <= b < sb_size sb -> b mod BPB = 0 ->
  wp (balloc_body dev b) (fun r k' => match r with
    | inl b' => b' = b + BPB /\ intx dev s sz k0 k' p hs bl V D H /\
        forall c, b <= c < b + BPB -> c < sb_size sb -> used V c = true
    | inr a => b <= a < sb_size sb /\ a < b + BPB /\ used V a = false /\
        (forall c, b <= c < a -> used V c = true) /\
        intx dev s sz k0 k' p hs (blocks_with (blocks_with bl (BBLOCK a sb)) a) (allocated V a) D H
    end) k.
Proof.
  intros Hi Hsb [R1 R2 R3 R4 R5] Hb Hm. apply balloc_body_wp; try done.
  intros c Hc Hu. by destruct (R3 c Hc Hu) as (? & ? & _).
Qed.

Lemma next_map_block b : b mod BPB = 0 -> (b + BPB) mod BPB = 0.
Proof. intros Hm. rewrite <- Z.add_mod_idemp_l, Hm by done. done. Qed.

(** The loop of [balloc] from block [b] on, when some block is free. *)
Lemma balloc_loop k0 p hs bl V D H : forall fuel k b,
  intx dev s sz k0 k p hs bl V D H -> k_sb k0 = sb -> balloc_ready hs bl V -> 0 <= b -> b mod BPB = 0 ->
  sb_size sb <= b + Z.of_nat fuel * BPB -> (forall c, 0 <= c < b -> c < sb_size sb -> used V c = true) ->
  (exists c, 0 <= c < sb_size sb /\ used V c = false) ->
  wp (loop_with fuel b (balloc_body dev)) (fun a k' =>
    0 <= a < sb_size sb /\ used V a = false /\ (forall c, 0 <= c < a -> used V c = true) /\
    intx dev s sz k0 k' p hs (blocks_with (blocks_with bl (BBLOCK a sb)) a) (allocated V a) D H) k.
Proof.
  induction fuel as [|fuel IH]; intros k b Hi Hsb Hr Hb Hm Hf Hbefore (c & Hc & Hcu).
  { rewrite Hbefore in Hcu by lia. done. }
  assert (HB : BPB = 8192) by done. assert (Hbs : b < sb_size sb).
  { destruct (decide (b < sb_size sb)); [done|]. rewrite Hbefore in Hcu by lia. done. }
  apply wp_loop_S. eapply wp_mono; [by eapply balloc_ready_body|]. intros [b'|a] k'.
  - intros (-> & Hi' & Hall). apply IH; try done; [lia|by apply next_map_block|lia| |by exists c].
    intros x Hx Hxs. destruct (decide (x < b)); [apply Hbefore; lia|apply Hall; lia].
  - intros (Ha & _ & Hau & Hbelow & Hi'). split_and!; [lia|lia|done| |done].
    intros x Hx. destruct (decide (x < b)); [apply Hbefore; lia|apply Hbelow; lia].
Qed.

Lemma balloc_run k0 k p hs bl V D H :
  intx dev s sz k0 k p hs bl V D H -> k_sb k0 = sb -> balloc_ready hs bl V ->
  (exists c, 0 <= c < sb_size sb /\ used V c = false) ->
  exists a k', balloc dev k = Ok a k' /\ 0 <= a < sb_size sb /\ used V a = false /\
    (forall c, 0 <= c < a -> used V c = true) /\
    intx dev s sz k0 k' p hs (blocks_with (blocks_with bl (BBLOCK a sb)) a) (allocated V a) D H.
Proof.
  intros Hi Hsb Hr Hex. apply (wp_inv (balloc dev)). unfold balloc. apply wp_bind, wp_gets.
  rewrite (log_frame_sb k0 k), Hsb by apply (it_lg _ _ _ _ _ _ _ _ _ _ _ Hi).
  apply balloc_loop; try done; [|intros c; lia].
  pose proof (fm_size _ (br_map _ _ _ Hr)). change BPB with 8192 in *. zlia.
Qed.

Lemma allocated_used V a c :
  fs_map V -> 0 <= a < sb_size sb -> (forall b, 0 <= b < sb_size sb -> BBLOCK b sb <> a) ->
  0 <= c < sb_size sb -> used (allocated V a) c = used V c || (c =? a).
Proof.
  intros Hm Ha Hne Hc. unfold allocated, used at 1. rewrite (vset_ne _ a) by (by apply Hne).
  fold (used (vset V (BBLOCK a sb) (mark_used (Z.to_nat (a mod BPB)) (V (BBLOCK a sb)))) c).
  rewrite (used_vset mark_used true) by (done || intros; by apply bit_mark_used).
  case_decide as E; [by rewrite (proj2 (Z.eqb_eq c a)), orb_true_r|].
  by rewrite (proj2 (Z.eqb_neq c a)), orb_false_r.
Qed.

Lemma allocated_other V a n : n <> a -> n <> BBLOCK a sb -> allocated V a n = V n.
Proof. intros. unfold allocated. by rewrite !vset_ne. Qed.

Lemma allocated_map V a :
  fs_map V -> 0 <= a < sb_size sb -> (forall b, 0 <= b < sb_size sb -> BBLOCK b sb <> a) -> fs_map (allocated V a).
Proof.
  intros [M1 M2 M3] Ha Hne. split; [done|done|]. intros b Hb. unfold allocated. rewrite vset_ne by (by apply Hne).
  unfold vset. case_decide as E; [|by apply M3]. rewrite mark_used_length. by apply M3.
Qed.

(** C25. [balloc] returns the lowest free block, marked used in the free map
    and zeroed, both in the transaction; the bits of all other blocks and the
    contents of all other blocks are as before. *)
Theorem balloc_spec k0 k p hs bl V D H :
  intx dev s sz k0 k p hs bl V D H -> k_sb k0 = sb -> balloc_ready hs bl V ->
  (exists c, 0 <= c < sb_size sb /\ used V c = false) ->
  exists a k' V', balloc dev k = Ok a k' /\ 0 <= a < sb_size sb /\ used V a = false /\
    (forall c, 0 <= c < a -> used V c = true) /\
    intx dev s sz k0 k' p hs (blocks_with (blocks_with bl (BBLOCK a sb)) a) V' D H /\
    V' a = zero_block /\ (forall c, 0 <= c < sb_size sb -> used V' c = used V c || (c =? a)) /\
    (forall n, n <> a -> n <> BBLOCK a sb -> V' n = V n).
Proof.
  intros Hi Hsb Hr Hex. destruct (balloc_run k0 k p hs bl V D H Hi Hsb Hr Hex) as (a & k' & Hrun & Ha & Hau & Hlow & Hi').
  exists a, k', (allocated V a). destruct (br_free _ _ _ Hr a Ha Hau) as (_ & _ & Hne).
  split_and!; [done|lia|lia|done|done|exact Hi'|apply vset_eq| |].
  - intros c Hc. apply allocated_used; [apply Hr|done..].
  - intros n. apply allocated_other.
Qed.

(** With every block in use, [balloc] panics. *)
Theorem balloc_full k0 k p hs bl V D H :
  intx dev s sz k0 k p hs bl V D H -> k_sb k0 = sb -> balloc_ready hs bl V ->
  (forall c, 0 <= c < sb_size sb -> used V c = true) ->
  balloc dev k = Panic "balloc: out of blocks".
Proof.
  intros Hi Hsb Hr Hall. unfold balloc. mrun.
  rewrite (log_frame_sb k0 k), Hsb by apply (it_lg _ _ _ _ _ _ _ _ _ _ _ Hi).
  pose proof (fm_size _ (br_map _ _ _ Hr)) as Hs. assert (HB : BPB = 8192) by done.
  assert (Hgen : forall fuel k b, intx dev s sz k0 k p hs bl V D H -> 0 <= b -> b mod BPB = 0 ->
    b < sb_size sb + BPB -> sb_size sb <= b + Z.of_nat fuel * BPB ->
    loop_with (S fuel) b (balloc_body dev) k = Panic "balloc: out of blocks").
  { induction fuel as [|fuel IH]; intros k1 b Hi1 Hb Hm Hbs Hf; cbn [loop_with].
    - apply run_bind_panic. unfold balloc_body. mrun.
      rewrite (log_frame_sb k0 k1), Hsb, u32_id by (lia || apply (it_lg _ _ _ _ _ _ _ _ _ _ _ Hi1)).
      by rewrite (proj2 (Z.ltb_ge b _)) by lia.
    - destruct (decide (b < sb_size sb)) as [Hlt|Hge].
      + pose proof (balloc_ready_body k0 k1 p hs bl V D H b Hi1 Hsb Hr (conj Hb Hlt) Hm) as Hwp.
        apply wp_inv in Hwp as ([b'|a] & k2 & Hrun & Hpost).
        * destruct Hpost as (-> & Hi2 & _). rewrite (run_bind _ _ _ _ _ Hrun).
          apply IH; [done|lia|by apply next_map_block|lia|lia].
        * destruct Hpost as (Ha & _ & Hau & _). rewrite Hall in Hau by lia. done.
      + apply run_bind_panic. unfold balloc_body. mrun.
        rewrite (log_frame_sb k0 k1), Hsb, u32_id by (lia || apply (it_lg _ _ _ _ _ _ _ _ _ _ _ Hi1)).
        by rewrite (proj2 (Z.ltb_ge b _)) by lia. }
  apply Hgen; [done|lia|done|lia|]. zlia.
Qed.
End blocks.
