(* ===== verification/FsDemo.v ===== *)
(** * A small file system

    The file system mkfs lays out on a disk of [FSSIZE] blocks: log from block
    2, inodes from block 32, free map in block 45, data blocks from block 46
    on; the theorems of the block layer are applied to it. *)

From S2P Require Export FsBlocks.

#[local] Existing Instance resume_at_once.

Definition demo_sb : superblock := mkSuperblock FSMAGIC FSSIZE 954 200 LOGSIZE 2 32 45.

(** The free map with the first 46 blocks in use. *)
Definition demo_map : list Z := replicate 5 255 ++ 63 :: replicate 1018 0.
Definition demo_disk : gmap Z (list Z) := <[45 := demo_map]> ∅.

Definition booted_with (d : gmap Z (list Z)) : kernel :=
  set_disk d (set_sb demo_sb (set_inode (replicate NINODE inode0)
    (set_locks (<[Lsleep (SLinode 0) := mkSpinlock 0 "sleep lock" None]>
      (<[Licache := mkSpinlock 0 "icache" None]> (k_locks booted))) booted))).

(** A transaction just begun on a disk with an empty log. *)
Lemma started d : exists k, intx 1 2 LOGSIZE k k 3 [] [] (disk_block d) d [] /\
  k_sb k = demo_sb /\ k_inode k = replicate NINODE inode0 /\ lock_free (Lsleep (SLinode 0)) k /\ lock_free Licache k.
Proof.
  assert (Hb : bss_buf (booted_with d)) by (destruct booted_buf; by split).
  destruct (binit_built (booted_with d) Hb) as (k & Hrun & Hbu).
  pose proof (bu_rest _ _ _ Hbu) as (_ & _ & _ & _ & _ & _ & El & Es & Ei).
  assert (Hctx : proc_ctx (booted_with d) 3).
  { destruct booted_ctx as [C1 C2 C3 C4]. split; try done. intros i Hi. destruct (C3 i Hi) as [name Hn].
    exists name. cbn [k_locks booted_with set_disk set_sb set_inode set_locks]. by rewrite !lookup_insert_ne. }
  assert (Hs : bst 1 k 3 [] [] (disk_block d) d []).
  { apply (built_bst 1 (booted_with d) 3 k Hb Hctx); [done| |done|done]. exists "virtio_disk". by vm_compute. }
  assert (Hg : lg 1 2 LOGSIZE k k []).
  { split; rewrite ?El; try done; [|apply log_frame_refl]. exists "log". rewrite (bu_locks _ _ _ Hbu) by done. by vm_compute. }
  assert (Hwp : wp begin_op (fun _ k' => intx 1 2 LOGSIZE k' k' 3 [] [] (disk_block d) d [] /\
    k_sb k' = demo_sb /\ k_inode k' = replicate NINODE inode0 /\ lock_free (Lsleep (SLinode 0)) k' /\ lock_free Licache k') k).
  { eapply wp_mono; [eapply begin_op_intx; rewrite ?El; first [done|constructor|vm_compute; congruence]|].
    intros [] k' [Hi ->]. split_and!; [done|done|done|exists "sleep lock"|exists "icache"].
    - change (k_locks k !! Lsleep (SLinode 0) = Some (mkSpinlock 0 "sleep lock" None)).
      rewrite (bu_locks _ _ _ Hbu) by done. by vm_compute.
    - change (k_locks k !! Licache = Some (mkSpinlock 0 "icache" None)).
      rewrite (bu_locks _ _ _ Hbu) by done. by vm_compute. }
  apply wp_inv in Hwp as ([] & k' & _ & Hrest). by exists k'.
Qed.

Lemma demo_bblock c : 0 <= c < sb_size demo_sb -> BBLOCK c demo_sb = 45.
Proof.
  intros Hc. unfold BBLOCK. cbn [sb_bmapstart demo_sb]. rewrite Z.div_small; [done|].
  change (sb_size demo_sb) with 1000 in Hc. change BPB with 8192. lia.
Qed.

Lemma demo_fs_map d : length (disk_block d 45) = Z.to_nat BSIZE -> fs_map 2 LOGSIZE demo_sb (disk_block d).
Proof.
  intros Hl. split; [vm_compute; intuition congruence| |].
  - intros b Hb. rewrite demo_bblock by done. split; vm_compute; intuition congruence.
  - intros b Hb. by rewrite demo_bblock.
Qed.

Lemma demo_used_low c : 0 <= c < 46 -> used demo_sb (disk_block demo_disk) c = true.
Proof.
  intros Hc. assert (Hall : forallb (fun n => used demo_sb (disk_block demo_disk) (Z.of_nat n)) (seq 0 46) = true)
    by (by vm_compute).
  rewrite forallb_forall in Hall. specialize (Hall (Z.to_nat c)). rewrite Z2Nat.id in Hall by lia.
  apply Hall, in_seq. lia.
Qed.

Lemma demo_ready_alloc : balloc_ready 2 LOGSIZE demo_sb [] [] (disk_block demo_disk).
Proof.
  split.
  - by apply demo_fs_map.
  - intros c _. apply not_elem_of_nil.
  - intros c Hc Hu. assert (Hge : 46 <= c).
    { destruct (decide (c < 46)); [|lia]. by rewrite demo_used_low in Hu by lia. }
    change (sb_size demo_sb) with 1000 in Hc. split_and!; [split; [lia|right; change LOGSIZE with 30; lia]|apply not_elem_of_nil|].
    intros b Hb. rewrite demo_bblock by done. lia.
  - by vm_compute.
  - by apply Nat.ltb_lt.
Qed.

Lemma balloc_spec_witness : exists k a k', balloc 1 k = Ok a k' /\ used demo_sb (disk_block demo_disk) a = false.
Proof.
  destruct (started demo_disk) as (k & Hi & Hsb & _).
  destruct (balloc_spec 1 2 LOGSIZE geometry_mkfs demo_sb k k 3 [] [] (disk_block demo_disk) demo_disk [] Hi Hsb
    demo_ready_alloc) as (a & k' & V' & Hrun & _ & Hu & _).
  - exists 46. split; [vm_compute; intuition congruence|vm_compute; reflexivity].
  - exact (ex_intro _ k (ex_intro _ a (ex_intro _ k' (conj Hrun Hu)))).
Defined.

Lemma bfree_spec_witness : exists k k', bfree 1 45 k = Ok tt k'.
Proof.
  destruct (started demo_disk) as (k & Hi & Hsb & _).
  pose proof (bfree_spec 1 2 LOGSIZE geometry_mkfs demo_sb k k 3 [] [] (disk_block demo_disk) demo_disk [] 45 Hi Hsb
    (br_map _ _ _ _ _ _ demo_ready_alloc)) as Hf.
  rewrite demo_used_low in Hf by lia.
  destruct Hf as (k' & V' & Hrun & _).
  - vm_compute. intuition congruence.
  - apply not_elem_of_nil.
  - split; [split; vm_compute; reflexivity|apply Nat.ltb_lt; vm_compute; reflexivity].
  - exact (ex_intro _ k (ex_intro _ k' Hrun)).
Defined.

(** The free map with no free block. *)
Definition full_disk : gmap Z (list Z) := <[45 := replicate 1024 255]> ∅.

Lemma full_used c : 0 <= c < sb_size demo_sb -> used demo_sb (disk_block full_disk) c = true.
Proof.
  intros Hc. change (sb_size demo_sb) with 1000 in Hc.
  assert (Hall : forallb (fun n => used demo_sb (disk_block full_disk) (Z.of_nat n)) (seq 0 1000) = true)
    by (by vm_compute).
  rewrite forallb_forall in Hall. specialize (Hall (Z.to_nat c)). rewrite Z2Nat.id in Hall by lia.
  apply Hall, in_seq. lia.
Qed.

Lemma balloc_full_witness : exists k, balloc 1 k = Panic "balloc: out of blocks".
Proof.
  destruct (started full_disk) as (k & Hi & Hsb & _). exists k.
  apply (balloc_full 1 2 LOGSIZE geometry_mkfs demo_sb k k 3 [] [] (disk_block full_disk) full_disk [] Hi Hsb).
  - split.
    + apply demo_fs_map. vm_compute. reflexivity.
    + intros c _. apply not_elem_of_nil.
    + intros c Hc Hu. rewrite full_used in Hu by exact Hc. discriminate Hu.
    + vm_compute. reflexivity.
    + apply Nat.ltb_lt. vm_compute. reflexivity.
  - exact full_used.
Defined.
