(* ===== verification/FsInode.v ===== *)
(** * Inodes on disk and in memory

    The inode blocks of a disk are a table of [dinode]s.  [iupdate] writes an
    in-memory inode to its entry and to no other one, inside a transaction;
    [ilock] reads the entry into the in-memory inode. *)

From S2P Require Export FsBlocks.
From S2P Require Import FsDemo.

(** ** A dinode in a block *)

(** The fields fit their C types. *)
Record dinode_ok (d : dinode) : Prop := {
  do_type : -32768 <= d_type d < 32768;
  do_major : -32768 <= d_major d < 32768;
  do_minor : -32768 <= d_minor d < 32768;
  do_nlink : -32768 <= d_nlink d < 32768;
  do_size : 0 <= d_size d < 4294967296;
  do_addrs : Forall (fun a => 0 <= a < 4294967296) (d_addrs d);
  do_len : length (d_addrs d) = (Z.to_nat NDIRECT + 1)%nat
}.

Lemma s16_u16 z : -32768 <= z < 32768 -> s16 (z mod 256 ^ Z.of_nat 2) = z.
Proof. intros. change (256 ^ Z.of_nat 2) with 65536. unfold s16. zlia. Qed.

(** Offsets in range of a block that has been written to. *)
Ltac blk := repeat (rewrite blk_wr_length by blk); lia.

Lemma put_addrs_length addrs o data :
  (o + 4 * length addrs <= length data)%nat -> length (put_addrs addrs o data) = length data.
Proof.
  revert o data. induction addrs as [|a addrs IH]; intros o data H; cbn [put_addrs length] in *; [done|].
  rewrite IH; rewrite blk_wr_length; lia.
Qed.

Lemma put_addrs_out w o' addrs o data :
  (o + 4 * length addrs <= length data)%nat -> (o' + w <= o \/ o + 4 * length addrs <= o')%nat ->
  blk_rd w (put_addrs addrs o data) o' = blk_rd w data o'.
Proof.
  revert o data. induction addrs as [|a addrs IH]; intros o data H Ho; cbn [put_addrs length] in *; [done|].
  rewrite IH by blk. rewrite blk_rd_wr_ne by lia. done.
Qed.

Lemma put_addrs_in addrs o data i a :
  (o + 4 * length addrs <= length data)%nat -> addrs !! i = Some a -> 0 <= a < 4294967296 ->
  blk_rd32 (put_addrs addrs o data) (o + 4 * i) = a.
Proof.
  revert o data i. induction addrs as [|x addrs IH]; intros o data i H Hi Ha; cbn [put_addrs length] in *; [done|].
  destruct i as [|i].
  - injection Hi as ->. rewrite Nat.add_0_r. rewrite put_addrs_out by blk.
    rewrite blk_rd_wr by lia. by apply Z.mod_small.
  - replace (o + 4 * S i)%nat with (o + 4 + 4 * i)%nat by lia. apply IH; [rewrite blk_wr_length; lia|done|done].
Qed.

Lemma dinode_put_length d o data :
  dinode_ok d -> (o + 64 <= length data)%nat -> length (dinode_put d o data) = length data.
Proof.
  intros [_ _ _ _ _ _ Hl] H. unfold dinode_put. change (Z.to_nat NDIRECT + 1)%nat with 13%nat in Hl.
  rewrite put_addrs_length by blk. repeat (rewrite blk_wr_length by blk). done.
Qed.

Lemma dinode_put_out w o' d o data :
  dinode_ok d -> (o + 64 <= length data)%nat -> (o' + w <= o \/ o + 64 <= o')%nat ->
  blk_rd w (dinode_put d o data) o' = blk_rd w data o'.
Proof.
  intros [_ _ _ _ _ _ Hl] H Ho. unfold dinode_put. change (Z.to_nat NDIRECT + 1)%nat with 13%nat in Hl.
  rewrite put_addrs_out by blk.
  repeat (rewrite blk_rd_wr_ne by blk). done.
Qed.

(** The scalar fields, then the addresses. *)
Lemma dinode_get_put d o data :
  dinode_ok d -> (o + 64 <= length data)%nat -> dinode_get (dinode_put d o data) o = d.
Proof.
  intros [Ht Hma Hmi Hn Hs Ha Hl] H. unfold dinode_get, dinode_put. change (Z.to_nat NDIRECT + 1)%nat with 13%nat in *.
  destruct d as [t ma mi nl si ad]; cbn [d_type d_major d_minor d_nlink d_size d_addrs] in *.
  rewrite !put_addrs_out by blk. f_equal;
    try (repeat (rewrite blk_rd_wr_ne by blk); rewrite blk_rd_wr by blk; by (apply s16_u16 || apply Z.mod_small)).
  apply list_eq_bounded; [by rewrite length_fmap, length_seq|]. intros i Hi. rewrite length_fmap, length_seq in Hi.
  rewrite list_lookup_fmap, lookup_seq_lt by done. cbn [fmap option_fmap option_map Nat.add].
  destruct (lookup_lt_is_Some_2 ad i) as [a Hai]; [lia|]. rewrite Hai. f_equal.
  apply put_addrs_in; [blk|done|]. exact (Forall_lookup_1 _ _ _ _ Ha Hai).
Qed.

Lemma dinode_get_put_ne d o o' data :
  dinode_ok d -> (o + 64 <= length data)%nat -> (o' + 64 <= o \/ o + 64 <= o')%nat ->
  dinode_get (dinode_put d o data) o' = dinode_get data o'.
Proof.
  intros Hd H Ho. unfold dinode_get. rewrite !dinode_put_out by (done || lia). f_equal.
  apply list_fmap_ext. intros i j [-> Hj]%lookup_seq. apply dinode_put_out; [done|done|].
  change (Z.to_nat NDIRECT + 1)%nat with 13%nat in Hj. lia.
Qed.

(** ** The table of inodes *)

Lemma dinode_off_bound inum : (dinode_off inum + 64 <= 1024)%nat.
Proof.
  unfold dinode_off. assert (HI : IPB = 16) by done. rewrite HI. change sizeof_dinode with 64.
  pose proof (Z.mod_pos_bound inum 16 ltac:(lia)). lia.
Qed.

Lemma dinode_off_ne i j : i mod IPB <> j mod IPB ->
  (dinode_off i + 64 <= dinode_off j \/ dinode_off j + 64 <= dinode_off i)%nat.
Proof.
  unfold dinode_off. assert (HI : IPB = 16) by done. rewrite HI. change sizeof_dinode with 64.
  pose proof (Z.mod_pos_bound i 16 ltac:(lia)). pose proof (Z.mod_pos_bound j 16 ltac:(lia)). lia.
Qed.

Section table.
Context {LY : Layout} {TH : Threads} {BD : BlockDev}.
Context (dev s sz : Z) (geo : geometry dev s sz) (sb : superblock).

(** Entry [inum] of the table, as the blocks [V] have it. *)
Definition inode_entry (V : Z -> list Z) (inum : Z) : dinode := dinode_get (V (IBLOCK inum sb)) (dinode_off inum).

(** The inode blocks are whole blocks outside the log area. *)
Record inode_blocks (V : Z -> list Z) : Prop := {
  ib_num : 0 < sb_ninodes sb < 2147483648;
  ib_home : forall i, 0 <= i < sb_ninodes sb -> home s sz (IBLOCK i sb);
  ib_len : forall i, 0 <= i < sb_ninodes sb -> length (V (IBLOCK i sb)) = Z.to_nat BSIZE
}.

Lemma IBLOCK_inj i j :
  0 <= i < 2147483648 -> 0 <= j < 2147483648 -> IBLOCK i sb = IBLOCK j sb -> i mod IPB = j mod IPB -> i = j.
Proof.
  intros Hi Hj E Em. unfold IBLOCK, u32 in E. change IPB with 16 in *.
  assert (Hq : (i / 16 - j / 16) mod 4294967296 = 0).
  { replace (i / 16 - j / 16) with ((i / 16 + sb_inodestart sb) - (j / 16 + sb_inodestart sb)) by lia.
    rewrite Zminus_mod, E, Z.sub_diag. done. }
  zlia.
Qed.

Lemma inode_entry_put V d inum j :
  inode_blocks V -> dinode_ok d -> 0 <= inum < sb_ninodes sb -> 0 <= j < sb_ninodes sb ->
  inode_entry (vset V (IBLOCK inum sb) (dinode_put d (dinode_off inum) (V (IBLOCK inum sb)))) j
  = if decide (j = inum) then d else inode_entry V j.
Proof.
  intros [Hn Hh Hl] Hd Hi Hj. unfold inode_entry, vset.
  pose proof (dinode_off_bound inum) as Hb. change 1024%nat with (Z.to_nat BSIZE) in Hb. rewrite <- (Hl inum Hi) in Hb.
  case_decide as E; case_decide as E'; subst.
  - by apply dinode_get_put.
  - rewrite E. apply dinode_get_put_ne; [done|done|]. apply dinode_off_ne. intros Em. apply E'.
    apply IBLOCK_inj; [lia|lia|done|done].
  - by destruct E.
  - done.
Qed.

(** [iupdate] writes an in-memory inode to disk: inside a transaction, the
    inode's entry of the table becomes the inode's fields, every other entry
    and every other block stay, and the block is part of the transaction. *)
Theorem iupdate_spec k0 k p hs bl V D H ip :
  let i := get_inode k ip in
  intx dev s sz k0 k p hs bl V D H -> k_sb k = sb -> inode_blocks V ->
  i_dev i = dev -> 0 <= i_inum i < sb_ninodes sb -> dinode_ok (inode_dinode i) ->
  ~ IBLOCK (i_inum i) sb ∈ hs.*2 -> room1 sz hs bl ->
  exists k' V', iupdate ip k = Ok tt k' /\
    intx dev s sz k0 k' p hs (blocks_with bl (IBLOCK (i_inum i) sb)) V' D H /\ inode_blocks V' /\
    (forall j, 0 <= j < sb_ninodes sb -> inode_entry V' j = if decide (j = i_inum i) then inode_dinode i else inode_entry V j) /\
    (forall n, n <> IBLOCK (i_inum i) sb -> V' n = V n).
Proof.
  intros i Hi Hsb Hblk Hdev Hin Hok Hn [Hr Hbuf]. pose proof Hblk as [Hnum Hh Hl]. unfold iupdate. mrun. rewrite Hsb.
  change (id (get_inode k ip)) with i. rewrite Hdev.
  pose proof (wp_inv _ _ _ (intx_bread dev s sz _ _ _ _ _ _ _ _ _ Hi Hn (or_intror Hbuf))) as (bp & k1 & Hrun & Hi1 & _).
  rewrite (run_bind _ _ _ _ _ Hrun). rewrite bind_gets.
  assert (Ei : get_inode k1 ip = i).
  { unfold i, get_inode. rewrite (log_frame_inode k0 k1), (log_frame_inode k0 k); [done|..];
      [apply (it_lg _ _ _ _ _ _ _ _ _ _ _ Hi)|apply (it_lg _ _ _ _ _ _ _ _ _ _ _ Hi1)]. }
  change (id (get_inode k1 ip)) with (get_inode k1 ip). rewrite Ei.
  pose proof (wp_inv _ _ _ (tx_modify_wp dev s sz geo k0 k1 p _ hs bl V D H bp (IBLOCK (i_inum i) sb)
    (dinode_put (inode_dinode i) (dinode_off (i_inum i))) Hi1 ltac:(done) (Hh _ Hin) Hr)) as ([] & k' & Hrun' & Hi').
  exists k', (vset V (IBLOCK (i_inum i) sb) (dinode_put (inode_dinode i) (dinode_off (i_inum i)) (V (IBLOCK (i_inum i) sb)))).
  split_and!; [exact Hrun'|done| | |intros n; apply vset_ne].
  - split; [done|done|]. intros j Hj. unfold vset. case_decide; [|by apply Hl].
    rewrite dinode_put_length, Hl by (done || (rewrite Hl by done; apply dinode_off_bound)). done.
  - intros j Hj. by apply inode_entry_put.
Qed.

(** *** Locking an inode *)

Lemma bst_inode_lock k p hs pins V D H ip f :
  bst dev k p hs pins V D H -> bst dev (upd_sleeplock (SLinode ip) f k) p hs pins V D H.
Proof.
  intros [[I1 I2 I3 I4 I5 I6 I7 I8 I9 I10 I11 I12 I13 I14] H2 H3 H4 H5]. split; [|done..].
  split; try done; [by destruct I1|]. intros j Hj. rewrite !get_sleeplock_upd_ne by done. by apply I14.
Qed.

Lemma get_inode_upd ip f k : (ip < length (k_inode k))%nat -> get_inode (upd_inode ip f k) ip = f (get_inode k ip).
Proof. intros. unfold get_inode, upd_inode; cbn. by rewrite list_lookup_total_alter_eq. Qed.

Lemma get_inode_upd_ne ip j f k : j <> ip -> get_inode (upd_inode ip f k) j = get_inode k j.
Proof. intros. unfold get_inode, upd_inode; cbn. rewrite !list_lookup_total_alt. by rewrite list_lookup_alter_ne. Qed.

Lemma bio_frame_inode k k' : bio_frame k k' -> k_inode k' = k_inode k.
Proof. intros [_ E]. by rewrite E. Qed.

Lemma bst_upd_inode k p hs pins V D H ip f :
  bst dev k p hs pins V D H -> bst dev (upd_inode ip f k) p hs pins V D H.
Proof. intros Hs. by eapply bst_frame. Qed.

(** C29. [ilock] on an inode nobody has locked: an inode whose contents were
    not read yet gets the fields of its entry of the table, and panics when
    that entry is free; one whose contents are valid is left as it is. *)
Theorem ilock_spec k p hs pins V D H ip :
  let i := get_inode k ip in let B := IBLOCK (i_inum i) sb in
  bst dev k p hs pins V D H -> k_sb k = sb -> (ip < length (k_inode k))%nat ->
  1 <= i_ref i -> i_dev i = dev ->
  lock_free (Lsleep (SLinode ip)) k -> sl_locked (get_sleeplock k (SLinode ip)) = 0 ->
  ~ B ∈ hs.*2 -> (length hs + length pins < NBUF)%nat -> B ∈ pins \/ V B = disk_block D B ->
  if (i_valid i =? 0) && (d_type (inode_entry V (i_inum i)) =? 0) then ilock ip k = Panic "ilock: no type" else
  exists k', ilock ip k = Ok tt k' /\ bst dev k' p hs pins V D H /\
    get_inode k' ip = (if i_valid i =? 0 then set_i_valid 1 (inode_load (inode_entry V (i_inum i)) i) else i) /\
    forall j, j <> ip -> get_inode k' j = get_inode k j.
Proof.
  intros i B Hs Hsb Hip Href Hdev Hlk Hfree Hn Hbuf Hclean. unfold ilock. mrun. fold i.
  destruct (i_ref i <? 1) eqn:Er; bprop; [lia|].
  pose proof (bc_ctx _ _ _ _ _ (bs_inv _ _ _ _ _ _ _ _ Hs)) as Hctx.
  rewrite (run_bind _ _ _ _ _ (acquiresleep_run (SLinode ip) p k Hctx Hlk Hfree)).
  set (k1 := upd_sleeplock _ _ k). assert (Hs1 : bst dev k1 p hs pins V D H) by (by apply bst_inode_lock).
  mrun. change (get_inode k1 ip) with i. destruct (i_valid i =? 0) eqn:Ev; cbn [andb].
  2:{ mrun. exists k1. done. }
  mrun. change (get_inode k1 ip) with i. cbn [id]. change (k_sb k1) with (k_sb k). rewrite Hsb, Hdev. fold B.
  pose proof (wp_inv _ _ _ (bst_bread dev k1 p hs pins V D H B Hs1 Hn (or_intror Hbuf))) as (bp & k2 & R2 & Hs2 & F2 & _).
  rewrite (run_bind _ _ _ _ _ R2). mrun.
  rewrite (bst_data _ _ _ _ _ _ _ _ bp B Hs2) by left. fold (inode_entry V (i_inum i)).
  assert (Ei2 : k_inode k2 = k_inode k) by (rewrite (bio_frame_inode _ _ F2); done).
  set (k3 := upd_inode ip _ k2). assert (Hs3 : bst dev k3 p ((bp, B) :: hs) pins V D H) by (by apply bst_upd_inode).
  pose proof (wp_inv _ _ _ (bst_brelse dev k3 p ((bp, B) :: hs) hs pins V D H bp B Hs3 ltac:(done) Hclean)) as ([] & k4 & R4 & Hs4 & F4).
  rewrite (run_bind _ _ _ _ _ R4). mrun.
  assert (Ei4 : k_inode k4 = k_inode k3) by (by apply bio_frame_inode).
  assert (Hl4 : (ip < length (k_inode k4))%nat) by (rewrite Ei4; cbn; rewrite length_alter, Ei2; done).
  assert (G4 : get_inode k4 ip = inode_load (inode_entry V (i_inum i)) i).
  { unfold get_inode at 1. rewrite Ei4. fold (get_inode k3 ip). unfold k3. rewrite get_inode_upd by (by rewrite Ei2).
    f_equal. unfold get_inode. by rewrite Ei2. }
  rewrite get_inode_upd, G4 by done. cbn [i_type set_i_valid inode_load].
  destruct (d_type (inode_entry V (i_inum i)) =? 0); [done|]. mrun. eexists. split; [done|].
  split; [by apply bst_upd_inode|]. split; [by rewrite get_inode_upd, G4|].
  intros j Hj. rewrite get_inode_upd_ne by done. unfold get_inode at 1. rewrite Ei4. fold (get_inode k3 j). unfold k3.
  rewrite get_inode_upd_ne by done. unfold get_inode. by rewrite Ei2.
Qed.

(** A change of the inode cache, seen as the new start of the operation. *)
Lemma intx_upd_inode k0 k p hs bl V D H ip f :
  intx dev s sz k0 k p hs bl V D H ->
  intx dev s sz (upd_inode ip f k) (upd_inode ip f k) p hs bl V D H.
Proof.
  intros [[L1 L2 L3 L4 L5 L6 L7 L8] Hb Hh Hn Hc Ho]. split; [|by apply bst_upd_inode|done..].
  by split.
Qed.
End table.

(** ** Paths

    The elements of a path are what stands between its slashes. *)

Fixpoint split_path (cur path : list Z) : list (list Z) :=
  match path with
  | [] => [cur]
  | c :: path => if c =? 47 then cur :: split_path [] path else split_path (cur ++ [c]) path
  end.

Definition elements (path : list Z) : list (list Z) := filter (fun e => e <> []) (split_path [] path).

Definition no_nul (path : list Z) : Prop := Forall (fun c => c <> 0) path.

Lemma elements_slash path : elements (47 :: path) = elements path.
Proof. unfold elements. cbn [split_path Z.eqb Pos.eqb]. by rewrite filter_cons_False by (intros H; by apply H). Qed.

Lemma elements_skip path : elements (skip_slashes path) = elements path.
Proof.
  induction path as [|c path IH]; cbn [skip_slashes]; [done|]. destruct (c =? 47) eqn:E; bprop; [|done].
  subst. by rewrite elements_slash.
Qed.

Lemma skip_hd path : path_hd (skip_slashes path) <> 47.
Proof. induction path as [|c path IH]; cbn [skip_slashes path_hd]; [done|]. destruct (c =? 47) eqn:E; bprop; done. Qed.

Lemma skip_no_nul path : no_nul path -> no_nul (skip_slashes path) /\ (length (skip_slashes path) <= length path)%nat.
Proof.
  induction path as [|c path IH]; intros H; cbn [skip_slashes]; [done|]. destruct (c =? 47); [|done].
  apply Forall_cons in H as [_ H]. destruct (IH H). cbn. split; [done|lia].
Qed.

Lemma skip_bytes path : bytes path -> bytes (skip_slashes path).
Proof.
  induction path as [|c path IH]; intros H; cbn [skip_slashes]; [done|]. destruct (c =? 47); [|done].
  apply Forall_cons in H as [_ H]. auto.
Qed.

(** The element passed over, and what stands behind it. *)
Lemma elem_span_spec path :
  no_nul path ->
  let '(e, rest) := elem_span path in
  path = e ++ rest /\ no_nul rest /\ no_nul e /\ (rest = [] \/ path_hd rest = 47) /\
  (path_hd path <> 47 -> path <> [] -> e <> []) /\
  forall cur, split_path cur path = (cur ++ e) :: match rest with [] => [] | _ :: r => split_path [] r end.
Proof.
  induction path as [|c path IH]; intros H; cbn [elem_span].
  { split_and!; try done; [by left|]. intros cur. cbn. by rewrite app_nil_r. }
  apply Forall_cons in H as [Hc H]. destruct (c =? 47) eqn:E; cbn [orb].
  { bprop. subst. split; [done|]. split; [by apply Forall_cons|]. split; [by apply Forall_nil|]. split; [by right|].
    split; [done|]. intros cur. cbn. by rewrite app_nil_r. }
  destruct (c =? 0) eqn:E0; bprop; [done|]. specialize (IH H). destruct (elem_span path) as [e rest].
  destruct IH as (-> & Hr & He & Hh & _ & Hs). split; [done|]. split; [done|]. split; [by apply Forall_cons|].
  split; [done|]. split; [done|]. intros cur. cbn [split_path]. destruct (c =? 47) eqn:E2; bprop; [done|]. rewrite Hs, <- app_assoc. done.
Qed.

Lemma elements_nil path : no_nul path -> path_hd path <> 47 -> elements path = [] <-> path = [].
Proof.
  intros Hn Hh. split; [|by intros ->]. intros He. destruct path as [|c path]; [done|]. exfalso.
  pose proof (elem_span_spec (c :: path) Hn) as H. destruct (elem_span (c :: path)) as [e rest].
  destruct H as (_ & _ & _ & _ & Hne & Hs). unfold elements in He. rewrite Hs in He. cbn [app] in He.
  rewrite filter_cons_True in He by (by apply Hne). done.
Qed.

(** A reader of an array that begins with [t] and then, if there is room, has a
    NUL. *)
Lemma cstr_prefix n (p : Z -> Z) t :
  (forall i c, t !! i = Some c -> p (Z.of_nat i) = c) -> ((length t < n)%nat -> p (Z.of_nat (length t)) = 0) ->
  no_nul t -> (length t <= n)%nat -> cstr n p = t.
Proof.
  revert p t. induction n as [|n IH]; intros p t Ht He Hn Hl; cbn [cstr].
  - by destruct t; [|cbn in Hl; lia].
  - destruct t as [|c t].
    + specialize (He ltac:(cbn; lia)). change (Z.of_nat (length [])) with 0 in He. by rewrite He.
    + apply Forall_cons in Hn as [Hc Hn]. pose proof (Ht O c eq_refl) as H0. change (Z.of_nat 0) with 0 in H0. rewrite H0. unfold truth. destruct (c =? 0) eqn:E; bprop; [done|].
      cbn [negb]. f_equal. cbn [length] in *. apply IH; try done; [| |lia].
      * intros i d Hi. unfold ptr_add. rewrite <- (Ht (S i) d Hi). f_equal. lia.
      * intros Hlt. unfold ptr_add. rewrite <- He by lia. f_equal. lia.
Qed.

(** The name [skipelem] leaves: the element, cut to [DIRSIZ] characters. *)
Lemma name_cstr e name :
  no_nul e -> bytes e -> length name = Z.to_nat DIRSIZ ->
  let name' := if DIRSIZ <=? Z.of_nat (length e) then splice name 0 (take (Z.to_nat DIRSIZ) e)
               else <[length e := 0]> (splice name 0 e) in
  length name' = Z.to_nat DIRSIZ /\ cstr (Z.to_nat DIRSIZ) (arr name') = take (Z.to_nat DIRSIZ) e.
Proof.
  intros Hn Hb Hl name'. assert (HD : Z.to_nat DIRSIZ = 14%nat) by done.
  assert (Hlook : forall i, (i < length (take 14 e))%nat -> name' !! i = take 14 e !! i).
  { intros i Hi. unfold name'. rewrite length_take in Hi. destruct (DIRSIZ <=? _) eqn:E; bprop.
    - rewrite HD. rewrite lookup_splice_in; rewrite ?length_take; [|lia..]. f_equal. lia.
    - rewrite (take_ge e) by (change DIRSIZ with 14 in E; lia). rewrite list_lookup_insert_ne by lia.
      change DIRSIZ with 14 in E. rewrite lookup_splice_in by lia. f_equal. lia. }
  assert (Hlen : length name' = 14%nat).
  { unfold name'. change DIRSIZ with 14 in *. destruct (14 <=? _) eqn:E; bprop; rewrite ?length_insert, splice_length; rewrite ?length_take; lia. }
  assert (Hend : (length (take 14 e) < 14)%nat -> name' !! length (take 14 e) = Some 0).
  { intros Hi. rewrite length_take in Hi. unfold name'. change DIRSIZ with 14 in *.
    destruct (14 <=? _) eqn:E; bprop; [lia|]. rewrite (take_ge e) by lia. apply list_lookup_insert_eq.
    rewrite splice_length; lia. }
  split; [done|]. rewrite HD. clearbody name'.
  assert (Hle : (length (take 14 e) <= 14)%nat) by (rewrite length_take; lia).
  assert (Hb' : bytes (take 14 e)) by (by apply Forall_take).
  apply cstr_prefix; [| |by apply Forall_take|done].
  - intros i c Hi. pose proof (lookup_lt_Some _ _ _ Hi) as Hlt. unfold arr. rewrite Nat2Z.id.
    rewrite <- (Hlook i Hlt) in Hi. rewrite (list_lookup_total_correct _ _ _ Hi). apply u8_id.
    rewrite (Hlook i Hlt) in Hi. exact (Forall_lookup_1 _ _ _ _ Hb' Hi).
  - intros Hlt. unfold arr. by rewrite Nat2Z.id, (list_lookup_total_correct _ _ _ (Hend Hlt)).
Qed.

(** C30. [skipelem] takes a path apart as its elements: it fails exactly when
    the path has none; otherwise it leaves the first one in [name], cut to
    [DIRSIZ] characters, and returns a shorter path that has the others and
    that is empty exactly when there are none. *)
Theorem skipelem_elements path name :
  no_nul path -> bytes path -> length name = Z.to_nat DIRSIZ ->
  match elements path with
  | [] => skipelem path name = None
  | e :: es => exists path' name', skipelem path name = Some (path', name') /\ elements path' = es /\
      cstr (Z.to_nat DIRSIZ) (arr name') = take (Z.to_nat DIRSIZ) e /\ length name' = Z.to_nat DIRSIZ /\
      (path_hd path' = 0 <-> es = []) /\ (length path' < length path)%nat /\ no_nul path' /\ bytes path'
  end.
Proof.
  intros Hn Hb Hl. rewrite <- elements_skip. unfold skipelem.
  destruct (skip_no_nul path Hn) as [Hn1 Hle]. pose proof (skip_hd path) as Hh.
  assert (Hb1 : bytes (skip_slashes path)) by (by apply skip_bytes).
  set (q := skip_slashes path) in *. clearbody q. cbv zeta.
  destruct (decide (q = [])) as [->|Hq]; [done|].
  assert (H0 : path_hd q =? 0 = false).
  { destruct q as [|c q]; [done|]. apply Forall_cons in Hn1 as [Hc _]. by apply Z.eqb_neq. }
  rewrite H0. pose proof (elem_span_spec q Hn1) as H. destruct (elem_span q) as [e rest].
  destruct H as (-> & Hr & He & Hrh & Hne & Hs). specialize (Hne Hh Hq).
  unfold elements at 1. rewrite Hs. cbn [app]. rewrite filter_cons_True by done.
  apply Forall_app in Hb1 as [Hbe Hbr].
  destruct (name_cstr e name He Hbe Hl) as [Hl' Hc].
  assert (Hes : elements (skip_slashes rest) = filter (fun e => e <> []) (match rest with [] => [] | _ :: r => split_path [] r end)).
  { rewrite elements_skip. destruct rest as [|c r]; [done|]. destruct Hrh as [|Hrh]; [done|]. cbn in Hrh. subst c.
    apply elements_slash. }
  destruct (skip_no_nul rest Hr) as [Hn2 Hle2]. rewrite length_app in Hle.
  eexists _, _. split; [done|]. split_and!; try done.
  - rewrite <- Hes. pose proof (elements_nil _ Hn2 (skip_hd rest)) as [E1 E2]. split.
    + intros Hz. apply E2. destruct (skip_slashes rest) as [|c r]; [done|]. apply Forall_cons in Hn2 as [Hc0 _]. done.
    + intros Hz. by rewrite (E1 Hz).
  - destruct e; [done|]. cbn in Hle. lia.
  - by apply skip_bytes.
Qed.

Definition chars_of (s : string) : list Z := (fun a => Z.of_N (Ascii.N_of_ascii a)) <$> String.list_ascii_of_string s.

Lemma skipelem_elements_witness :
  exists path' name', skipelem (chars_of "//usr/long/x") (replicate 14 0) = Some (path', name') /\
    elements path' = [chars_of "long"; chars_of "x"].
Proof.
  pose proof (skipelem_elements (chars_of "//usr/long/x") (replicate 14 0)) as H.
  assert (E : elements (chars_of "//usr/long/x") = [chars_of "usr"; chars_of "long"; chars_of "x"]) by (by vm_compute).
  rewrite E in H. destruct H as (path' & name' & H1 & H2 & _).
  - apply (bool_decide_unpack _). by vm_compute.
  - apply (bool_decide_unpack _). by vm_compute.
  - done.
  - exists path', name'. split; [exact H1|exact H2].
Defined.

(** ** A file system with inode 1 in use *)

#[local] Existing Instance resume_at_once.

(** The root directory: inode 1 of device 1, referenced once. *)
Definition root_inode (valid : Z) : inode := mkInode 1 1 1 valid 1 0 0 1 1024 (46 :: replicate 12 0).

Lemma root_inode_ok v : dinode_ok (inode_dinode (root_inode v)).
Proof. split; [cbn; lia..| |done]. apply (bool_decide_unpack _). by vm_compute. Qed.

Lemma root_started : exists k, intx 1 2 LOGSIZE k k 3 [] [] (disk_block demo_disk) demo_disk [] /\
  k_sb k = demo_sb /\ get_inode k 0 = root_inode 1 /\ (0 < length (k_inode k))%nat.
Proof.
  destruct (started demo_disk) as (k & Hi & Hsb & Hin & _).
  exists (upd_inode 0 (fun _ => root_inode 1) k). split_and!; [by eapply intx_upd_inode|done| |].
  - rewrite get_inode_upd; [done|]. rewrite Hin. by apply Nat.ltb_lt.
  - cbn. rewrite length_alter, Hin. by apply Nat.ltb_lt.
Qed.

Lemma demo_inode_blocks : inode_blocks 2 LOGSIZE demo_sb (disk_block demo_disk).
Proof.
  assert (HB : forall i, 0 <= i < 200 -> 32 <= IBLOCK i demo_sb < 45).
  { intros i Hi. unfold IBLOCK. change IPB with 16. change (sb_inodestart demo_sb) with 32. rewrite u32_id; zlia. }
  split; [by vm_compute| |]; intros i Hi; change (sb_ninodes demo_sb) with 200 in Hi; specialize (HB i Hi).
  - split; [lia|right; change LOGSIZE with 30; lia].
  - unfold disk_block, demo_disk. rewrite lookup_insert_ne by lia. by rewrite lookup_empty.
Qed.

Lemma iupdate_spec_witness : exists k k', iupdate 0 k = Ok tt k' /\ get_inode k 0 = root_inode 1.
Proof.
  destruct root_started as (k & Hi & Hsb & Hin & _).
  pose proof (iupdate_spec 1 2 LOGSIZE geometry_mkfs demo_sb k k 3 [] [] (disk_block demo_disk) demo_disk [] 0) as H.
  cbv zeta in H. rewrite Hin in H. destruct (H Hi Hsb demo_inode_blocks) as (k' & V' & R & _).
  - done.
  - by vm_compute.
  - by apply root_inode_ok.
  - apply not_elem_of_nil.
  - split; [by vm_compute|by apply Nat.ltb_lt].
  - exists k, k'. split; [exact R|exact Hin].
Defined.

(** The inode has been recycled; its entry of the table is in use. *)
Definition inode_disk : gmap Z (list Z) :=
  <[32 := dinode_put (inode_dinode (root_inode 0)) (dinode_off 1) zero_block]> demo_disk.

Lemma recycled : exists k, bst 1 k 3 [] [] (disk_block inode_disk) inode_disk [] /\ k_sb k = demo_sb /\
  get_inode k 0 = root_inode 0 /\ (0 < length (k_inode k))%nat /\
  lock_free (Lsleep (SLinode 0)) k /\ sl_locked (get_sleeplock k (SLinode 0)) = 0.
Proof.
  destruct (started inode_disk) as (k & Hi & Hsb & Hin & Hlk & _).
  exists (upd_sleeplock (SLinode 0) (fun _ => mkSleeplock 0 "inode" 0) (upd_inode 0 (fun _ => root_inode 0) k)).
  split_and!; [apply bst_inode_lock, bst_upd_inode, (it_bst _ _ _ _ _ _ _ _ _ _ _ Hi)|exact Hsb| | |exact Hlk|].
  - apply (get_inode_upd 0 (fun _ => root_inode 0) k). rewrite Hin. by apply Nat.ltb_lt.
  - change (0 < length (alter (fun _ => root_inode 0) 0%nat (k_inode k)))%nat. rewrite length_alter, Hin. by apply Nat.ltb_lt.
  - rewrite get_sleeplock_upd. done.
Qed.

Lemma ilock_spec_witness : exists k k', ilock 0 k = Ok tt k' /\ i_valid (get_inode k 0) = 0 /\ i_valid (get_inode k' 0) = 1.
Proof.
  destruct recycled as (k & Hs & Hsb & Hin & Hl & Hlk & Hfree).
  pose proof (ilock_spec 1 demo_sb k 3 [] [] (disk_block inode_disk) inode_disk [] 0) as H.
  cbv zeta in H. rewrite Hin in H.
  assert (E : (i_valid (root_inode 0) =? 0) && (d_type (inode_entry demo_sb (disk_block inode_disk) (i_inum (root_inode 0))) =? 0) = false)
    by (by vm_compute).
  rewrite E in H. destruct (H Hs Hsb Hl) as (k' & R & _ & G & _).
  - by vm_compute.
  - done.
  - done.
  - done.
  - apply not_elem_of_nil.
  - by apply Nat.ltb_lt.
  - by right.
  - exists k, k'. split; [exact R|]. rewrite Hin, G. done.
Defined.
