(* ===== verification/FsFile.v ===== *)
(** * Files: the bytes an inode stands for

    The block map of an inode gives, for every block of the file, the disk
    block with its contents; a block that is not allocated stands for zeros.
    [readi] reads the bytes of the file; writing is the subject of FsBmap.v
    and FsWrite.v. *)

From S2P Require Export FsInode.

(** ** The block map *)

Definition fblk (V : Z -> list Z) (addrs : list Z) (bn : Z) : Z :=
  if bn <? NDIRECT then addrs !!! Z.to_nat bn
  else if addrs !!! Z.to_nat NDIRECT =? 0 then 0
  else blk_rd32 (V (addrs !!! Z.to_nat NDIRECT)) (4 * Z.to_nat (bn - NDIRECT)).

Definition cont (V : Z -> list Z) (addrs : list Z) (bn : Z) : list Z :=
  if fblk V addrs bn =? 0 then zero_block else V (fblk V addrs bn).

Definition fbyte (V : Z -> list Z) (addrs : list Z) (x : Z) : Z :=
  u8 (cont V addrs (x / BSIZE) !!! Z.to_nat (x mod BSIZE)).

Definition file_bytes (V : Z -> list Z) (addrs : list Z) (off : Z) (n : nat) : list Z :=
  (fun i => fbyte V addrs (off + Z.of_nat i)) <$> seq 0 n.

Lemma file_bytes_length V addrs off n : length (file_bytes V addrs off n) = n.
Proof. unfold file_bytes. by rewrite length_fmap, length_seq. Qed.

Lemma file_bytes_lookup V addrs off n i :
  (i < n)%nat -> file_bytes V addrs off n !! i = Some (fbyte V addrs (off + Z.of_nat i)).
Proof. intros. unfold file_bytes. by rewrite list_lookup_fmap, lookup_seq_lt. Qed.

Lemma file_bytes_app V addrs off n m :
  file_bytes V addrs off (n + m) = file_bytes V addrs off n ++ file_bytes V addrs (off + Z.of_nat n) m.
Proof.
  apply list_eq_bounded; rewrite ?length_app, !file_bytes_length; [done|]. intros i Hi.
  rewrite file_bytes_lookup by done. destruct (decide (i < n)%nat).
  - by rewrite lookup_app_l, file_bytes_lookup by (rewrite ?file_bytes_length; done).
  - rewrite lookup_app_r, file_bytes_length, file_bytes_lookup by (rewrite ?file_bytes_length; lia). do 2 f_equal. lia.
Qed.

(** The part of one block. *)
Lemma file_bytes_block V addrs off m :
  0 <= off -> (Z.to_nat (off mod BSIZE) + m <= Z.to_nat BSIZE)%nat ->
  file_bytes V addrs off m = rd_src (ptr_add (arr (cont V addrs (off / BSIZE))) (off mod BSIZE)) m.
Proof.
  intros Ho Hm. apply list_eq_bounded; rewrite file_bytes_length, ?rd_src_length; [done|]. intros i Hi.
  rewrite file_bytes_lookup, rd_src_lookup by done. f_equal. unfold fbyte, ptr_add, arr. change BSIZE with 1024 in *.
  assert (E : (off + Z.of_nat i) / 1024 = off / 1024 /\ (off + Z.of_nat i) mod 1024 = off mod 1024 + Z.of_nat i) by zlia.
  destruct E as [-> ->]. by rewrite u8_idem.
Qed.

Lemma filter_in_iff {A} (P Q : A -> Prop) `{forall x, Decision (P x)} `{forall x, Decision (Q x)} (l : list A) :
  (forall x, x ∈ l -> P x <-> Q x) -> filter P l = filter Q l.
Proof.
  induction l as [|x l IH]; intros HPQ; [done|]. rewrite !filter_cons, IH by (intros; apply HPQ; by right).
  pose proof (HPQ x ltac:(left)). destruct (decide (P x)), (decide (Q x)); tauto.
Qed.

Lemma filter_remove {A} `{EqDecision A} (P Q : A -> Prop) `{forall x, Decision (P x)} `{forall x, Decision (Q x)} (l : list A) a :
  NoDup l -> a ∈ l -> P a -> (forall x, x ∈ l -> Q x <-> P x /\ x <> a) ->
  length (filter P l) = S (length (filter Q l)).
Proof.
  intros Hnd Hin Pa HQ. induction l as [|x l IH]; [by apply elem_of_nil in Hin|].
  apply NoDup_cons in Hnd as [Hx Hnd].
  assert (HQ' : forall y, y ∈ l -> Q y <-> P y /\ y <> a) by (intros y Hy; apply HQ; by right).
  pose proof (HQ x ltac:(left)) as Hx'. apply elem_of_cons in Hin as [->|Hin].
  - rewrite filter_cons_True by done. rewrite filter_cons_False by tauto. cbn. f_equal. f_equal.
    apply filter_in_iff. intros y Hy. rewrite HQ' by done. split; [split; [done|by intros ->]|by intros [? _]].
  - assert (x <> a) by (by intros ->). rewrite !filter_cons. destruct (decide (P x)), (decide (Q x)); try tauto; cbn; rewrite IH; done.
Qed.

Section file.
Context {LY : Layout} {TH : Threads} {BD : BlockDev}.
Context (dev s sz : Z) (geo : geometry dev s sz) (sb : superblock).

(** ** Reading *)

(** A block is read and released. *)
Lemma bst_open k p pins V D H n :
  bst dev k p [] pins V D H -> (length pins < NBUF)%nat ->
  exists b k1, bread dev n k = Ok b k1 /\ b_data (get_buf k1 b) = V n /\ bio_frame k k1 /\ bst dev k1 p [(b, n)] pins V D H /\
    exists k2, brelse b k1 = Ok tt k2 /\ bst dev k2 p [] pins V D H /\ bio_frame k k2.
Proof.
  intros Hs Hp.
  pose proof (wp_inv _ _ _ (bst_bread dev k p [] pins V D H n Hs (not_elem_of_nil _) (or_intror Hp))) as (b & k1 & R1 & Hs1 & F1 & _).
  exists b, k1. split; [done|]. split; [by apply (bst_data _ _ _ _ _ _ _ _ b n Hs1); left|]. split; [done|]. split; [done|].
  assert (Hc : n ∈ pins \/ V n = disk_block D n).
  { destruct (decide (n ∈ pins)); [by left|right]. by eapply bst_clean. }
  pose proof (wp_inv _ _ _ (bst_brelse dev k1 p [(b, n)] [] pins V D H b n Hs1 ltac:(done) Hc)) as ([] & k2 & R2 & Hs2 & F2).
  exists k2. split; [done|]. split; [done|]. by eapply bio_frame_trans.
Qed.

Lemma bmap_read k p pins V D H ip bn :
  let i := get_inode k ip in
  bst dev k p [] pins V D H -> (length pins < NBUF)%nat -> i_dev i = dev ->
  0 <= bn < MAXFILE -> fblk V (i_addrs i) bn <> 0 ->
  exists k', bmap ip bn k = Ok (fblk V (i_addrs i) bn) k' /\ bst dev k' p [] pins V D H /\ bio_frame k k'.
Proof.
  intros i Hs Hp Hd Hbn Hne. unfold bmap. unfold fblk in *. destruct (bn <? NDIRECT) eqn:E.
  - mrun. fold i. rewrite (proj2 (Z.eqb_neq _ _) Hne). exists k. split; [done|]. split; [done|apply bio_frame_refl].
  - destruct (bn - NDIRECT <? NINDIRECT) eqn:E2; bprop; [|unfold MAXFILE in Hbn; lia].
    mrun. fold i. rewrite Hd. destruct (i_addrs i !!! Z.to_nat NDIRECT =? 0) eqn:E3; [done|]. mrun.
    destruct (bst_open k p pins V D H (i_addrs i !!! Z.to_nat NDIRECT) Hs Hp) as (b & k1 & R1 & Hdata & _ & _ & k2 & R2 & Hs2 & F2).
    exists k2. split; [|done]. rewrite (run_bind _ _ _ _ _ R1). mrun. rewrite Hdata.
    rewrite (proj2 (Z.eqb_neq _ _) Hne). mrun. by rewrite (run_bind _ _ _ _ _ R2).
Qed.

(** One round of [readi] into a variable of the kernel. *)
Lemma readi_round k p pins V D H ip n tot off got :
  let i := get_inode k ip in let m := Z.min (n - tot) (BSIZE - off mod BSIZE) in
  bst dev k p [] pins V D H -> (length pins < NBUF)%nat -> i_dev i = dev ->
  tot < n -> 0 <= off -> off / BSIZE < MAXFILE -> fblk V (i_addrs i) (off / BSIZE) <> 0 ->
  exists k', readi_body ip n (tot, off, VarDst, got) k =
      Ok (inl (tot + m, u32 (off + m), VarDst, got ++ file_bytes V (i_addrs i) off (Z.to_nat m))) k' /\
    bst dev k' p [] pins V D H /\ bio_frame k k'.
Proof.
  intros i m Hs Hp Hd Hlt Ho Hbn Hne. unfold readi_body. rewrite (proj2 (Z.ltb_lt _ _) Hlt).
  assert (Hmr : 0 < m <= 1024 /\ off mod BSIZE + m <= BSIZE) by (subst m; change BSIZE with 1024; zlia).
  destruct (bmap_read k p pins V D H ip (off / BSIZE) Hs Hp Hd) as (k1 & R1 & Hs1 & F1); [split; [by apply Z.div_pos|done]|done|].
  fold i in R1. rewrite (run_bind _ _ _ _ _ R1). mrun.
  assert (Ei : get_inode k1 ip = i) by (unfold i, get_inode; by rewrite (bio_frame_inode _ _ F1)).
  rewrite Ei, Hd.
  destruct (bst_open k1 p pins V D H (fblk V (i_addrs i) (off / BSIZE)) Hs1 Hp) as (b & k2 & R2 & Hdata & F2 & Hs2 & k3 & R3 & Hs3 & F3).
  rewrite (run_bind _ _ _ _ _ R2). mrun. rewrite Hdata.
  pose proof (bc_ctx _ _ _ _ _ (bs_inv _ _ _ _ _ _ _ _ Hs2)) as Hctx.
  erewrite run_bind by (unfold either_copyout; erewrite run_bind by (apply (this_proc_run p); apply Hctx); reflexivity).
  cbn [Z.eqb]. rewrite (run_bind _ _ _ _ _ R3). exists k3. split; [|split; [done|by eapply bio_frame_trans]].
  fold m. rewrite (u32_id m) by lia. rewrite file_bytes_block by (change BSIZE with 1024 in *; lia).
  unfold cont. by rewrite (proj2 (Z.eqb_neq _ _) Hne).
Qed.

Lemma readi_loop k p pins V D H ip n fuel tot off got :
  let i := get_inode k ip in
  bst dev k p [] pins V D H -> (length pins < NBUF)%nat -> i_dev i = dev ->
  0 <= tot <= n -> 0 <= off -> off + (n - tot) <= MAXFILE * BSIZE ->
  (forall bn, off / BSIZE <= bn -> bn * BSIZE < off + (n - tot) -> fblk V (i_addrs i) bn <> 0) ->
  (1 <= fuel)%nat -> (tot < n -> n - tot + off mod BSIZE <= (Z.of_nat fuel - 1) * BSIZE) ->
  exists k', loop_with fuel (tot, off, VarDst, got) (readi_body ip n) k =
      Ok (n, got ++ file_bytes V (i_addrs i) off (Z.to_nat (n - tot))) k' /\
    bst dev k' p [] pins V D H /\ bio_frame k k'.
Proof.
  revert k tot off got. induction fuel as [|fuel IH]; intros k tot off got i Hs Hp Hd Ht Ho Hmax Hall Hf0 Hf; [lia|].
  cbn [loop_with]. destruct (decide (tot < n)) as [Hlt|Hge].
  - assert (Hbn : off / BSIZE < MAXFILE) by (change BSIZE with 1024 in *; change MAXFILE with 268 in *; zlia).
    assert (Hne : fblk V (i_addrs i) (off / BSIZE) <> 0) by (apply Hall; change BSIZE with 1024 in *; zlia).
    destruct (readi_round k p pins V D H ip n tot off got Hs Hp Hd Hlt Ho Hbn Hne) as (k1 & R1 & Hs1 & F1).
    rewrite (run_bind _ _ _ _ _ R1). cbn match. set (m := Z.min (n - tot) (BSIZE - off mod BSIZE)) in *.
    assert (Ei : get_inode k1 ip = i) by (unfold i, get_inode; by rewrite (bio_frame_inode _ _ F1)).
    assert (Hm : 0 < m <= n - tot) by (subst m; change BSIZE with 1024; zlia).
    assert (Hu : u32 (off + m) = off + m) by (apply u32_id; change (MAXFILE * BSIZE) with 274432 in Hmax; lia).
    rewrite Hu.
    destruct (IH k1 (tot + m) (off + m) (got ++ file_bytes V (i_addrs (get_inode k ip)) off (Z.to_nat m))) as (k' & R' & Hs' & F'); try done.
    + by rewrite Ei.
    + lia.
    + lia.
    + lia.
    + rewrite Ei. intros bn Hb1 Hb2. apply Hall; [change BSIZE with 1024 in *; zlia|lia].
    + specialize (Hf Hlt). change BSIZE with 1024 in *. zlia.
    + specialize (Hf Hlt). subst m. change BSIZE with 1024 in *. zlia.
    + exists k'. split; [|split; [done|by eapply bio_frame_trans]].
      rewrite R', Ei. fold i. rewrite <- app_assoc. do 3 f_equal.
      replace (Z.to_nat (n - tot)) with (Z.to_nat m + Z.to_nat (n - (tot + m)))%nat by lia.
      rewrite file_bytes_app. do 2 f_equal. lia.
  - assert (tot = n) as -> by lia. exists k. unfold readi_body. rewrite Z.ltb_irrefl. rewrite Z.sub_diag.
    split; [|split; [done|apply bio_frame_refl]]. cbn [file_bytes Z.to_nat seq fmap list_fmap]. by rewrite app_nil_r.
Qed.

(** [readi] into a kernel variable returns the bytes of the file: as many
    as there are between [off] and the end of the file, at most [n], and none
    when [off] is behind the end or [off + n] does not fit 32 bits. *)
Lemma readi_run k p pins V D H ip off n :
  let i := get_inode k ip in
  bst dev k p [] pins V D H -> (length pins < NBUF)%nat -> i_dev i = dev ->
  0 <= off < 4294967296 -> 0 <= n < 4294967296 -> 0 <= i_size i <= MAXFILE * BSIZE ->
  (forall bn, 0 <= bn -> bn * BSIZE < i_size i -> fblk V (i_addrs i) bn <> 0) ->
  exists k', bst dev k' p [] pins V D H /\ bio_frame k k' /\
    readi ip VarDst off n k =
      let m := if (i_size i <? off) || (4294967296 <=? off + n) then 0 else Z.min n (i_size i - off) in
      Ok (m, file_bytes V (i_addrs i) off (Z.to_nat m)) k'.
Proof.
  intros i Hs Hp Hd Ho Hn Hsz Hall. unfold readi. mrun. fold i.
  assert (Hov : (u32 (off + n) <? off) = (4294967296 <=? off + n)).
  { unfold u32. destruct (4294967296 <=? off + n) eqn:E; bprop; [apply Z.ltb_lt|apply Z.ltb_ge]; zlia. }
  rewrite Hov. destruct ((i_size i <? off) || (4294967296 <=? off + n)) eqn:E.
  { exists k. split; [done|]. split; [apply bio_frame_refl|done]. }
  apply orb_false_iff in E as [E1 E2]. bprop. rewrite (u32_id (off + n)) by lia.
  set (m := if i_size i <? off + n then i_size i - off else n).
  assert (Hm : m = Z.min n (i_size i - off)) by (subst m; destruct (i_size i <? off + n) eqn:E; bprop; lia).
  destruct (readi_loop k p pins V D H ip m (io_fuel m) 0 off [] Hs Hp Hd) as (k' & R' & Hs' & F'); try lia.
  { intros bn Hb1 Hb2. fold i. apply Hall; [|lia]. change BSIZE with 1024 in *. zlia. }
  { unfold io_fuel. lia. }
  { unfold io_fuel. change BSIZE with 1024 in *. zlia. }
  exists k'. split; [done|]. split; [done|]. rewrite (run_bind _ _ _ _ _ R'). cbn [fst snd app]. fold i.
  rewrite Z.sub_0_r, s32_id by (change (MAXFILE * BSIZE) with 274432 in Hsz; lia). cbn zeta. by rewrite Hm.
Qed.

(** ** The blocks of a file *)

(** A block that holds data: in use, and neither free map nor inode table. *)
Record data_block (V : Z -> list Z) (a : Z) : Prop := {
  db_range : 0 < a < sb_size sb;
  db_used : used sb V a = true;
  db_home : home s sz a;
  db_len : length (V a) = Z.to_nat BSIZE;
  db_map : forall b, 0 <= b < sb_size sb -> BBLOCK b sb <> a;
  db_inode : forall i, 0 <= i < sb_ninodes sb -> IBLOCK i sb <> a
}.

Record fs_ok (V : Z -> list Z) : Prop := {
  fk_map : fs_map s sz sb V;
  fk_inodes : inode_blocks s sz sb V;
  fk_zero : used sb V 0 = true;
  fk_apart : forall b i, 0 <= b < sb_size sb -> 0 <= i < sb_ninodes sb -> BBLOCK b sb <> IBLOCK i sb;
  fk_free : forall c, 0 <= c < sb_size sb -> used sb V c = false ->
    home s sz c /\ (forall b, 0 <= b < sb_size sb -> BBLOCK b sb <> c) /\ (forall i, 0 <= i < sb_ninodes sb -> IBLOCK i sb <> c)
}.

(** How many blocks are free. *)
Definition nfree (V : Z -> list Z) : nat := length (filter (fun c => used sb V c = false) (seqZ 0 (sb_size sb))).

(** No block of the file is used twice. *)
Record file_ok (V : Z -> list Z) (addrs : list Z) : Prop := {
  fo_len : length addrs = S (Z.to_nat NDIRECT);
  fo_data : forall bn, 0 <= bn < MAXFILE -> fblk V addrs bn <> 0 -> data_block V (fblk V addrs bn);
  fo_inj : forall bn bn', 0 <= bn < MAXFILE -> 0 <= bn' < MAXFILE ->
    fblk V addrs bn = fblk V addrs bn' -> fblk V addrs bn <> 0 -> bn = bn';
  fo_root : addrs !!! Z.to_nat NDIRECT <> 0 -> data_block V (addrs !!! Z.to_nat NDIRECT);
  fo_apart : forall bn, 0 <= bn < MAXFILE -> addrs !!! Z.to_nat NDIRECT <> 0 -> fblk V addrs bn <> addrs !!! Z.to_nat NDIRECT
}.

(** A block the file does not have. *)
Definition new_block (V : Z -> list Z) (addrs : list Z) (a : Z) : Prop :=
  (forall bn, 0 <= bn < MAXFILE -> fblk V addrs bn <> a) /\ addrs !!! Z.to_nat NDIRECT <> a.

Lemma nfree_allocated V a :
  fs_ok V -> 0 <= a < sb_size sb -> used sb V a = false -> nfree V = S (nfree (allocated sb V a)).
Proof.
  intros HK Ha Hu. destruct (fk_free _ HK a Ha Hu) as (_ & Hm & _). unfold nfree.
  apply (filter_remove _ _ _ a); [apply NoDup_seqZ|by apply elem_of_seqZ|done|].
  intros c Hc%elem_of_seqZ. rewrite (allocated_used s sz sb) by (done || apply HK || lia).
  rewrite orb_false_iff, Z.eqb_neq. done.
Qed.

Lemma nfree_some V : (1 <= nfree V)%nat -> exists c, 0 <= c < sb_size sb /\ used sb V c = false.
Proof.
  unfold nfree. destruct (filter _ _) as [|c l] eqn:E; cbn; [lia|]. intros _. exists c.
  assert (Hin : c ∈ filter (fun c => used sb V c = false) (seqZ 0 (sb_size sb))) by (rewrite E; left).
  apply list_elem_of_filter in Hin as [Hu Hin%elem_of_seqZ]. split; [lia|done].
Qed.

(** What an allocation leaves alone. *)
Lemma allocated_data V a n :
  fs_ok V -> 0 <= a < sb_size sb -> used sb V a = false -> data_block V n ->
  n <> a /\ allocated sb V a n = V n /\ data_block (allocated sb V a) n.
Proof.
  intros HK Ha Hu [R1 R2 R3 R4 R5 R6]. destruct (fk_free _ HK a Ha Hu) as (_ & Hm & _).
  assert (Hne : n <> a) by (intros ->; congruence).
  assert (HV : allocated sb V a n = V n) by (apply allocated_other; [done|apply not_eq_sym, R5; lia]).
  split; [done|]. split; [done|]. split; try done; [|by rewrite HV].
  rewrite (allocated_used s sz sb) by (done || apply HK || lia). by rewrite R2.
Qed.

Lemma allocated_new V a :
  fs_ok V -> 0 <= a < sb_size sb -> used sb V a = false -> data_block (allocated sb V a) a /\ allocated sb V a a = zero_block.
Proof.
  intros HK Ha Hu. destruct (fk_free _ HK a Ha Hu) as (Hh & Hm & Hi).
  assert (HV : allocated sb V a a = zero_block) by apply vset_eq. split; [|done].
  assert (a <> 0) by (intros ->; rewrite (fk_zero _ HK) in Hu; done).
  split; try done; [lia| |by rewrite HV].
  rewrite (allocated_used s sz sb) by (done || apply HK || lia). by rewrite Z.eqb_refl, orb_true_r.
Qed.

Lemma allocated_ok V a :
  fs_ok V -> 0 <= a < sb_size sb -> used sb V a = false -> fs_ok (allocated sb V a).
Proof.
  intros HK Ha Hu. destruct (fk_free _ HK a Ha Hu) as (Hh & Hm & Hi). pose proof HK as [K1 K2 K3 K4 K5].
  assert (HU : forall c, 0 <= c < sb_size sb -> used sb (allocated sb V a) c = used sb V c || (c =? a)).
  { intros c Hc. by apply (allocated_used s sz). }
  split.
  - by apply allocated_map.
  - destruct K2 as [I1 I2 I3]. split; [done|done|]. intros i Hin. rewrite allocated_other; [by apply I3|by apply Hi|].
    intros E. by apply (K4 a i).
  - rewrite HU, K3; [done|]. pose proof (fm_size _ _ _ _ K1). lia.
  - done.
  - intros c Hc Hcu. rewrite HU in Hcu by done. apply orb_false_iff in Hcu as [Hcu _]. by apply K5.
Qed.

(** Writing to a data block leaves the free map and the inodes alone. *)
Lemma used_data V a x c : data_block V a -> 0 <= c < sb_size sb -> used sb (vset V a x) c = used sb V c.
Proof. intros Ha Hc. unfold used. rewrite vset_ne; [done|]. by apply (db_map _ _ Ha). Qed.

Lemma data_block_vset V a x n :
  data_block V a -> length x = Z.to_nat BSIZE -> data_block V n -> data_block (vset V a x) n.
Proof.
  intros Ha Hx [R1 R2 R3 R4 R5 R6]. split; try done; [rewrite used_data; [done|done|lia]|].
  unfold vset. by case_decide.
Qed.

Lemma fs_ok_vset V a x : data_block V a -> length x = Z.to_nat BSIZE -> fs_ok V -> fs_ok (vset V a x).
Proof.
  intros Ha Hx [[M1 M2 M3] [I1 I2 I3] K3 K4 K5]. split.
  - split; [done|done|]. intros b Hb. unfold vset. case_decide; [done|by apply M3].
  - split; [done|done|]. intros i Hi. unfold vset. case_decide; [done|by apply I3].
  - rewrite used_data; [done|done|lia].
  - done.
  - intros c Hc. rewrite used_data by done. by apply K5.
Qed.

Lemma nfree_vset V a x : data_block V a -> nfree (vset V a x) = nfree V.
Proof.
  intros Ha. unfold nfree. f_equal. apply filter_in_iff. intros c Hc%elem_of_seqZ. rewrite used_data; [done|done|lia].
Qed.

(** *** Changing the block map *)

Lemma fblk_root V V' addrs bn :
  (addrs !!! Z.to_nat NDIRECT <> 0 -> V' (addrs !!! Z.to_nat NDIRECT) = V (addrs !!! Z.to_nat NDIRECT)) ->
  fblk V' addrs bn = fblk V addrs bn.
Proof.
  intros E. unfold fblk. destruct (bn <? NDIRECT); [done|]. destruct (_ =? 0) eqn:Ez; bprop; [done|]. by rewrite E.
Qed.

(** A file keeps its blocks and bytes when only foreign blocks change. *)
Lemma file_ok_same V V' addrs :
  file_ok V addrs -> (forall n, data_block V n -> data_block V' n) -> (forall n, data_block V n -> ~ new_block V addrs n -> V' n = V n) ->
  file_ok V' addrs /\ (forall bn, fblk V' addrs bn = fblk V addrs bn) /\
  forall bn, 0 <= bn < MAXFILE -> cont V' addrs bn = cont V addrs bn.
Proof.
  intros [F1 F2 F3 F4 F5] HD HV.
  assert (HB : forall bn, fblk V' addrs bn = fblk V addrs bn).
  { intros bn. apply fblk_root. intros Hr. apply HV; [by apply F4|]. by intros [_ Hn]. }
  split_and!; [|done|].
  - split; [done|..]; intros; rewrite ?HB in *; auto.
  - intros bn Hbn. unfold cont. rewrite HB. destruct (_ =? 0) eqn:E; bprop; [done|].
    apply HV; [by apply F2|]. intros [Hn _]. by apply (Hn bn).
Qed.

(** A new block, empty, becomes block [bn] of the file. *)
Lemma file_ok_set V V' addrs addrs' bn a :
  file_ok V addrs -> 0 <= bn < MAXFILE -> length addrs' = length addrs ->
  addrs' !!! Z.to_nat NDIRECT = addrs !!! Z.to_nat NDIRECT ->
  (forall n, data_block V n -> data_block V' n) ->
  (forall n, data_block V n -> n <> addrs !!! Z.to_nat NDIRECT -> V' n = V n) ->
  data_block V a -> new_block V addrs a -> V a = zero_block -> fblk V addrs bn = 0 ->
  (forall b, 0 <= b < MAXFILE -> fblk V' addrs' b = if decide (b = bn) then a else fblk V addrs b) ->
  file_ok V' addrs' /\ forall b, 0 <= b < MAXFILE -> cont V' addrs' b = cont V addrs b.
Proof.
  intros [F1 F2 F3 F4 F5] Hbn Hl Hr HD HV Ha [Hn Hnr] Hz H0 HB.
  assert (Ha0 : a <> 0) by (pose proof (db_range _ _ Ha); lia).
  split; [split|].
  - by rewrite Hl.
  - intros b Hb. rewrite HB by done. case_decide; [by intros _; apply HD|]. intros. by apply HD, F2.
  - intros b b' Hb Hb'. rewrite !HB by done. do 2 case_decide; subst; try done.
    + intros E _. by destruct (Hn b').
    + intros E _. by destruct (Hn b).
    + by apply F3.
  - rewrite Hr. intros. by apply HD, F4.
  - intros b Hb. rewrite Hr, HB by done. case_decide; [by intros _ ->|by apply F5].
  - intros b Hb. unfold cont. rewrite HB by done. case_decide as E.
    + subst. rewrite H0. rewrite (proj2 (Z.eqb_neq a 0)) by done. cbn. rewrite <- Hz. by apply HV.
    + destruct (fblk V addrs b =? 0) eqn:E0; bprop; [done|]. apply HV; [by apply F2|].
      intros E'. destruct (decide (addrs !!! Z.to_nat NDIRECT = 0)); [congruence|]. by apply (F5 b).
Qed.
End file.
