(* ===== verification/FsBmap.v ===== *)
(** * Growing a file

    [bmap] for a block that is to be written: it allocates the block, and the
    indirect block, when the file does not have them, inside a transaction.
    The file keeps its bytes, other files keep their blocks, and the blocks
    of the log and the free blocks used are counted. *)

From S2P Require Export FsFile.

(** The log after one more block. *)
Lemma blocks_with_new bl n : n ∈ blocks_with bl n.
Proof. unfold blocks_with. case_decide; set_solver. Qed.

Lemma blocks_with_old bl n m : m ∈ bl -> m ∈ blocks_with bl n.
Proof. intros Hm. unfold blocks_with. case_decide; set_solver. Qed.

Section grow.
Context {LY : Layout} {TH : Threads} {BD : BlockDev}.
Context (dev s sz : Z) (geo : geometry dev s sz) (sb : superblock).

Abbreviation data_block := (data_block s sz sb).
Abbreviation fs_ok := (fs_ok s sz sb).
Abbreviation nfree := (nfree sb).
Abbreviation file_ok := (file_ok s sz sb).

(** ** The block map after an allocation *)

(** What another file sees of a change to this one. *)
Record file_frame (V : Z -> list Z) (addrs : list Z) (V' : Z -> list Z) (addrs' : list Z) : Prop := {
  ff_other : forall n, data_block V n -> new_block V addrs n ->
    data_block V' n /\ new_block V' addrs' n /\ V' n = V n;
  ff_table : forall j, 0 <= j < sb_ninodes sb -> V' (IBLOCK j sb) = V (IBLOCK j sb);
  ff_keep : forall b, 0 <= b < MAXFILE -> fblk V addrs b <> 0 -> fblk V' addrs' b = fblk V addrs b
}.

Lemma file_frame_refl V addrs : file_frame V addrs V addrs.
Proof. by split. Qed.

Lemma file_frame_trans V1 a1 V2 a2 V3 a3 :
  file_frame V1 a1 V2 a2 -> file_frame V2 a2 V3 a3 -> file_frame V1 a1 V3 a3.
Proof.
  intros [O1 T1 K1] [O2 T2 K2]. split.
  - intros n Hd Hn. destruct (O1 n Hd Hn) as (Hd2 & Hn2 & E2). destruct (O2 n Hd2 Hn2) as (Hd3 & Hn3 & E3).
    split_and!; [done|done|congruence].
  - intros j Hj. by rewrite T2, T1.
  - intros b Hb Hne. rewrite K2, K1; [done..|]. by rewrite K1.
Qed.

Record alloc_facts (V V1 : Z -> list Z) (addrs : list Z) (a : Z) : Prop := {
  af_fs : fs_ok V1;
  af_file : file_ok V1 addrs;
  af_fblk : forall bn, fblk V1 addrs bn = fblk V addrs bn;
  af_cont : forall bn, 0 <= bn < MAXFILE -> cont V1 addrs bn = cont V addrs bn;
  af_data : data_block V1 a;
  af_zero : V1 a = zero_block;
  af_new : new_block V1 addrs a;
  af_free : nfree V = S (nfree V1);
  af_other : forall n, data_block V n -> n <> a /\ data_block V1 n /\ V1 n = V n;
  af_table : forall j, 0 <= j < sb_ninodes sb -> V1 (IBLOCK j sb) = V (IBLOCK j sb)
}.

Lemma alloc_ok V addrs a :
  fs_ok V -> file_ok V addrs -> 0 <= a < sb_size sb -> used sb V a = false -> alloc_facts V (allocated sb V a) addrs a.
Proof.
  intros HK HF Ha Hu. pose proof (fk_free _ _ _ _ HK a Ha Hu) as (Hh & Hm & Hi).
  pose proof (allocated_new s sz sb V a HK Ha Hu) as [Hd Hz].
  assert (HO : forall n, data_block V n -> n <> a /\ data_block (allocated sb V a) n /\ allocated sb V a n = V n).
  { intros n Hn. by destruct (allocated_data s sz sb V a n HK Ha Hu Hn) as (? & ? & ?). }
  destruct (file_ok_same s sz sb V (allocated sb V a) addrs HF) as (HF1 & HB & HC); [by intros n Hn; apply HO|by intros n Hn _; apply HO|].
  assert (Ha0 : a <> 0) by (intros ->; by rewrite (fk_zero _ _ _ _ HK) in Hu).
  split; try done.
  - by apply allocated_ok.
  - split.
    + intros bn Hbn E. rewrite HB in E. assert (data_block V a) as []; [|congruence].
      rewrite <- E. apply (fo_data _ _ _ _ _ HF); [done|]. by rewrite E.
    + intros E. assert (data_block V a) as []; [|congruence]. rewrite <- E. apply (fo_root _ _ _ _ _ HF). by rewrite E.
  - by apply (nfree_allocated s sz).
  - intros j Hj. apply allocated_other; [by apply Hi|]. intros E. by apply (fk_apart _ _ _ _ HK a j).
Qed.

Lemma new_block_other V V1 addrs a n :
  alloc_facts V V1 addrs a -> data_block V n -> new_block V addrs n -> data_block V1 n /\ new_block V1 addrs n /\ V1 n = V n /\ n <> a.
Proof.
  intros HA Hd [N1 N2]. destruct (af_other _ _ _ _ HA n Hd) as (? & ? & ?). split_and!; [done| |done|done].
  split; [|done]. intros bn Hbn. rewrite (af_fblk _ _ _ _ HA). by apply N1.
Qed.

(** Block [a] becomes a direct block. *)
Lemma set_direct V V1 addrs a bn :
  alloc_facts V V1 addrs a -> 0 <= bn < NDIRECT -> fblk V addrs bn = 0 ->
  let addrs' := <[Z.to_nat bn := a]> addrs in
  file_ok V1 addrs' /\ (forall b, 0 <= b < MAXFILE -> cont V1 addrs' b = cont V addrs b) /\
  file_frame V addrs V1 addrs' /\ fblk V1 addrs' bn = a.
Proof.
  intros HA Hbn H0 addrs'. pose proof (af_file _ _ _ _ HA) as HF. pose proof (fo_len _ _ _ _ _ HF) as Hl.
  change (Z.to_nat NDIRECT) with 12%nat in *. change NDIRECT with 12 in *. change MAXFILE with 268 in *.
  assert (HR : addrs' !!! 12%nat = addrs !!! 12%nat) by (apply list_lookup_total_insert_ne; lia).
  assert (HB : forall b, 0 <= b < 268 -> fblk V1 addrs' b = if decide (b = bn) then a else fblk V1 addrs b).
  { intros b Hb. unfold fblk. change (Z.to_nat NDIRECT) with 12%nat. change NDIRECT with 12. rewrite HR.
    destruct (b <? 12) eqn:E; bprop; [|rewrite decide_False by lia; done]. case_decide as E1.
    - subst. unfold addrs'. apply list_lookup_total_insert_eq. lia.
    - unfold addrs'. rewrite list_lookup_total_insert_ne; [done|lia]. }
  destruct (file_ok_set s sz sb V1 V1 addrs addrs' bn a HF) as [HF' HC]; try done;
    [change MAXFILE with 268; lia|apply length_insert|apply HA|apply HA|apply HA|by rewrite (af_fblk _ _ _ _ HA)|].
  split_and!; [done| | |].
  - intros b Hb. rewrite HC by done. by apply (af_cont _ _ _ _ HA).
  - split; [|apply HA|].
    + intros n Hd Hn. destruct (new_block_other _ _ _ _ _ HA Hd Hn) as (Hd1 & [N1 N2] & E & Hna). split_and!; [done| |done].
      split; [|change (Z.to_nat NDIRECT) with 12%nat in *; by rewrite HR].
      intros b Hb. rewrite HB by done. case_decide; [by apply not_eq_sym|by apply N1].
    + intros b Hb Hne. rewrite HB by done. rewrite (af_fblk _ _ _ _ HA). case_decide; [by subst|done].
  - rewrite HB by lia. by rewrite decide_True.
Qed.

Lemma zero_block_rd32 i : (4 * i + 4 <= 1024)%nat -> blk_rd32 zero_block (4 * i) = 0.
Proof.
  intros Hi. unfold blk_rd32, blk_rd. assert (E : take 4 (drop (4 * i) zero_block) = replicate 4 0).
  { unfold zero_block. rewrite drop_replicate, take_replicate. f_equal. change (Z.to_nat BSIZE) with 1024%nat. lia. }
  by rewrite E.
Qed.

(** Block [a] becomes the indirect block. *)
Lemma set_root V V1 addrs a :
  alloc_facts V V1 addrs a -> addrs !!! Z.to_nat NDIRECT = 0 ->
  let addrs' := <[Z.to_nat NDIRECT := a]> addrs in
  file_ok V1 addrs' /\ (forall b, 0 <= b < MAXFILE -> cont V1 addrs' b = cont V addrs b) /\
  file_frame V addrs V1 addrs' /\ (forall b, 0 <= b < MAXFILE -> fblk V1 addrs' b = fblk V addrs b) /\
  addrs' !!! Z.to_nat NDIRECT = a.
Proof.
  intros HA H0 addrs'. pose proof (af_file _ _ _ _ HA) as [F1 F2 F3 F4 F5]. pose proof (af_data _ _ _ _ HA) as Hda.
  pose proof (af_new _ _ _ _ HA) as [N1 N2].
  assert (HR : addrs' !!! Z.to_nat NDIRECT = a) by (apply list_lookup_total_insert_eq; lia).
  assert (Ha0 : a <> 0) by (pose proof (db_range _ _ _ _ _ Hda); lia).
  assert (HB : forall b, 0 <= b < MAXFILE -> fblk V1 addrs' b = fblk V1 addrs b).
  { intros b Hb. unfold fblk. rewrite HR, H0, (proj2 (Z.eqb_neq a 0)), (af_zero _ _ _ _ HA) by done.
    change NDIRECT with 12 in *. change MAXFILE with 268 in *.
    destruct (b <? 12) eqn:E; bprop.
    - unfold addrs'. change NDIRECT with 12. rewrite list_lookup_total_insert_ne; [done|lia].
    - cbn [Z.eqb]. apply zero_block_rd32. lia. }
  assert (HC : forall b, 0 <= b < MAXFILE -> cont V1 addrs' b = cont V addrs b).
  { intros b Hb. rewrite <- (af_cont _ _ _ _ HA) by done. unfold cont. by rewrite HB. }
  split_and!; [|done| |intros b Hb; by rewrite HB, (af_fblk _ _ _ _ HA)|done].
  - split; [by unfold addrs'; rewrite length_insert|..].
    + intros b Hb. rewrite HB by done. by apply F2.
    + intros b b' Hb Hb'. rewrite !HB by done. by apply F3.
    + by rewrite HR.
    + intros b Hb _. rewrite HB, HR by done. by apply N1.
  - split; [|apply HA|].
    + intros n Hd Hn. destruct (new_block_other _ _ _ _ _ HA Hd Hn) as (Hd1 & [M1 M2] & E & Hna). split_and!; [done| |done].
      split; [|rewrite HR; by apply not_eq_sym]. intros b Hb. rewrite HB by done. by apply M1.
    + intros b Hb _. by rewrite HB, (af_fblk _ _ _ _ HA).
Qed.

(** Block [a] becomes an entry of the indirect block. *)
Lemma set_entry V V1 addrs a bn :
  alloc_facts V V1 addrs a -> NDIRECT <= bn < MAXFILE -> addrs !!! Z.to_nat NDIRECT <> 0 -> fblk V addrs bn = 0 ->
  let V2 := vset V1 (addrs !!! Z.to_nat NDIRECT) (blk_wr32 (4 * Z.to_nat (bn - NDIRECT)) a (V1 (addrs !!! Z.to_nat NDIRECT))) in
  fs_ok V2 /\ file_ok V2 addrs /\ (forall b, 0 <= b < MAXFILE -> cont V2 addrs b = cont V addrs b) /\
  file_frame V addrs V2 addrs /\ fblk V2 addrs bn = a /\ nfree V2 = nfree V1.
Proof.
  intros HA Hbn Hr H0. set (root := addrs !!! Z.to_nat NDIRECT) in *. intros V2.
  pose proof (af_file _ _ _ _ HA) as HF. pose proof (fo_root _ _ _ _ _ HF Hr) as Hroot. fold root in Hroot.
  pose proof (af_data _ _ _ _ HA) as Hda. pose proof (db_len _ _ _ _ _ Hroot) as Hlen. change (Z.to_nat BSIZE) with 1024%nat in Hlen.
  assert (Hw : length (blk_wr32 (4 * Z.to_nat (bn - NDIRECT)) a (V1 root)) = Z.to_nat BSIZE).
  { rewrite blk_wr_length; [done|]. rewrite Hlen. change NDIRECT with 12 in *. change MAXFILE with 268 in *. lia. }
  assert (HB : forall b, 0 <= b < MAXFILE -> fblk V2 addrs b = if decide (b = bn) then a else fblk V1 addrs b).
  { intros b Hb. unfold fblk. fold root. rewrite (proj2 (Z.eqb_neq root 0)) by done. unfold V2. rewrite vset_eq.
    change NDIRECT with 12 in *. change MAXFILE with 268 in *.
    destruct (b <? 12) eqn:E; bprop; [rewrite decide_False by lia; done|]. case_decide as Eb.
    - subst. rewrite blk_rd_wr by lia. apply Z.mod_small. destruct (db_range _ _ _ _ _ Hda).
      pose proof (fm_size _ _ _ _ (fk_map _ _ _ _ (af_fs _ _ _ _ HA))). change (256 ^ Z.of_nat 4) with 4294967296. change BPB with 8192 in *. lia.
    - apply blk_rd_wr_ne; lia. }
  destruct (file_ok_set s sz sb V1 V2 addrs addrs bn a HF) as [HF' HC]; try done.
  { unfold NDIRECT in *. lia. }
  { intros n. by apply data_block_vset. }
  { intros n _ Hn. by apply vset_ne. }
  { apply HA. }
  { apply HA. }
  { by rewrite (af_fblk _ _ _ _ HA). }
  split_and!; [| |intros b Hb; rewrite HC by done; by apply (af_cont _ _ _ _ HA)| | |].
  - apply fs_ok_vset; [done|done|apply HA].
  - done.
  - split.
    + intros n Hd Hn. destruct (new_block_other _ _ _ _ _ HA Hd Hn) as (Hd1 & [M1 M2] & E & Hna). split_and!.
      * by apply data_block_vset.
      * split; [|done]. intros b Hb. rewrite HB by done. case_decide; [by apply not_eq_sym|by apply M1].
      * unfold V2. by rewrite vset_ne by (by apply not_eq_sym).
    + intros j Hj. unfold V2. rewrite vset_ne; [by apply (af_table _ _ _ _ HA)|]. by apply (db_inode _ _ _ _ _ Hroot).
    + intros b Hb Hne. rewrite HB, (af_fblk _ _ _ _ HA) by done. case_decide; [by subst|done].
  - rewrite HB; [by rewrite decide_True|]. unfold NDIRECT in *. lia.
  - by apply (nfree_vset s sz).
Qed.

(** ** [bmap] *)

(** The log has room for [n] more blocks. *)
Definition roomy (bl : list Z) (n : nat) : Prop := Z.of_nat (length bl + n) <= Z.min LOGSIZE sz - 1.

Lemma intx_rebase k0 k p hs bl V D H : intx dev s sz k0 k p hs bl V D H -> intx dev s sz k k p hs bl V D H.
Proof. intros [[L1 L2 L3 L4 L5 L6 L7 L8] Hb Hh Hn Hc Ho]. split; [split; try done; apply log_frame_refl|done..]. Qed.

Lemma intx_inode k0 k p hs bl V D H j : intx dev s sz k0 k p hs bl V D H -> get_inode k j = get_inode k0 j.
Proof. intros Hi. unfold get_inode. by rewrite (log_frame_inode k0 k) by apply (it_lg _ _ _ _ _ _ _ _ _ _ _ Hi). Qed.

Lemma intx_inodes k0 k p hs bl V D H : intx dev s sz k0 k p hs bl V D H -> k_inode k = k_inode k0 /\ k_sb k = k_sb k0.
Proof. intros Hi. pose proof (lg_from _ _ _ _ _ _ (it_lg _ _ _ _ _ _ _ _ _ _ _ Hi)). split; [by apply log_frame_inode|by apply log_frame_sb]. Qed.

Lemma fs_balloc k0 k p hs bl V D H :
  intx dev s sz k0 k p hs bl V D H -> k_sb k0 = sb -> fs_ok V -> Forall (data_block V) hs.*2 ->
  (1 <= nfree V)%nat -> roomy bl 2 -> (length hs <= 1)%nat ->
  exists a k', balloc dev k = Ok a k' /\ 0 <= a < sb_size sb /\ used sb V a = false /\
    intx dev s sz k0 k' p hs (blocks_with (blocks_with bl (BBLOCK a sb)) a) (allocated sb V a) D H.
Proof.
  intros Hi Hsb HK Hhs Hf Hr Hl. rewrite Forall_forall in Hhs.
  assert (Hready : balloc_ready s sz sb hs bl V).
  { split.
    - apply HK.
    - intros c Hc Hin. by apply (db_map _ _ _ _ _ (Hhs _ Hin) c).
    - intros c Hc Hu. destruct (fk_free _ _ _ _ HK c Hc Hu) as (? & ? & _). split_and!; [done| |done].
      intros Hin. by rewrite (db_used _ _ _ _ _ (Hhs _ Hin)) in Hu.
    - unfold roomy in Hr. change LOGSIZE with 30 in *. lia.
    - unfold roomy in Hr. change LOGSIZE with 30 in *. change NBUF with 30%nat. lia. }
  destruct (balloc_run dev s sz geo sb k0 k p hs bl V D H Hi Hsb Hready (nfree_some _ _ Hf)) as (a & k' & R & Ha & Hu & _ & Hi').
  by exists a, k'.
Qed.

(** The kernel while it changes a file inside a transaction. *)
Record wctx (k : kernel) (p : nat) (bl : list Z) (V : Z -> list Z) (D : gmap Z (list Z)) (H : list (gmap Z (list Z))) (ip : nat) : Prop := {
  wc_tx : intx dev s sz k k p [] bl V D H;
  wc_sb : k_sb k = sb;
  wc_fs : fs_ok V;
  wc_file : file_ok V (i_addrs (get_inode k ip));
  wc_dev : i_dev (get_inode k ip) = dev;
  wc_ip : (ip < length (k_inode k))%nat
}.

(** The indirect block costs two more blocks of the log as long as it is not in
    the log, itself and its bit of the free map, and one more free block as
    long as there is none. *)
Definition slack (addrs bl : list Z) : nat :=
  if decide (addrs !!! Z.to_nat NDIRECT <> 0 /\ addrs !!! Z.to_nat NDIRECT ∈ bl) then 0 else 2.
Definition rootless (addrs : list Z) : nat := if addrs !!! Z.to_nat NDIRECT =? 0 then 1 else 0.

(** Only the file of [ip] changes, by at most [nb] blocks of the log and [nf]
    allocations beside those for the indirect block. *)
Record wstep (ip : nat) (k : kernel) (bl : list Z) (V : Z -> list Z) (k' : kernel) (bl' : list Z) (V' : Z -> list Z) (nb nf : nat) : Prop := {
  ws_frame : file_frame V (i_addrs (get_inode k ip)) V' (i_addrs (get_inode k' ip));
  ws_node : get_inode k' ip = set_i_addrs (i_addrs (get_inode k' ip)) (get_inode k ip);
  ws_nodes : forall j, j <> ip -> get_inode k' j = get_inode k j;
  ws_log : (length bl' + slack (i_addrs (get_inode k' ip)) bl' <= length bl + slack (i_addrs (get_inode k ip)) bl + nb)%nat;
  ws_free : (nfree V + rootless (i_addrs (get_inode k' ip)) <= nfree V' + rootless (i_addrs (get_inode k ip)) + nf)%nat
}.

Lemma wstep_refl ip k bl V : wstep ip k bl V k bl V 0 0.
Proof. split; [apply file_frame_refl|by destruct (get_inode k ip)|done|lia|lia]. Qed.

Lemma wstep_trans ip k1 b1 V1 k2 b2 V2 k3 b3 V3 n1 m1 n2 m2 :
  wstep ip k1 b1 V1 k2 b2 V2 n1 m1 -> wstep ip k2 b2 V2 k3 b3 V3 n2 m2 -> wstep ip k1 b1 V1 k3 b3 V3 (n1 + n2) (m1 + m2).
Proof.
  intros [F1 N1 O1 L1 Z1] [F2 N2 O2 L2 Z2]. split; [by eapply file_frame_trans| | |lia|lia].
  - rewrite N2 at 1. rewrite N1. by destruct (get_inode k1 ip).
  - intros j Hj. by rewrite O2, O1.
Qed.

Lemma wstep_weaken ip k b V k' b' V' n m n' m' :
  wstep ip k b V k' b' V' n m -> (n <= n')%nat -> (m <= m')%nat -> wstep ip k b V k' b' V' n' m'.
Proof. intros [F N O L Z] ? ?. split; [done|done|done|lia|lia]. Qed.

(** The addresses of the inode change, the blocks are those after an allocation. *)
Lemma alloc_step k k1 p bl bl1 V V1 D H ip addrs' nb nf :
  wctx k p bl V D H ip -> intx dev s sz k k1 p [] bl1 V1 D H -> fs_ok V1 -> file_ok V1 addrs' ->
  file_frame V (i_addrs (get_inode k ip)) V1 addrs' ->
  (length bl1 + slack addrs' bl1 <= length bl + slack (i_addrs (get_inode k ip)) bl + nb)%nat ->
  (nfree V + rootless addrs' <= nfree V1 + rootless (i_addrs (get_inode k ip)) + nf)%nat ->
  let k2 := upd_inode ip (set_i_addrs addrs') k1 in
  wctx k2 p bl1 V1 D H ip /\ wstep ip k bl V k2 bl1 V1 nb nf /\ i_addrs (get_inode k2 ip) = addrs'.
Proof.
  intros [W1 W2 W3 W4 W5 W6] Hi1 HK1 HF1 HR Hl Hn k2. destruct (intx_inodes _ _ _ _ _ _ _ _ Hi1) as [En Es].
  assert (Hip : (ip < length (k_inode k1))%nat) by (by rewrite En).
  assert (E : get_inode k2 ip = set_i_addrs addrs' (get_inode k ip)).
  { unfold k2. rewrite get_inode_upd by done. by rewrite (intx_inode _ _ _ _ _ _ _ _ _ Hi1). }
  split_and!; [| |by rewrite E].
  - split; rewrite ?E; [by eapply (intx_upd_inode dev s sz)| |done|done|done|cbn; by rewrite length_alter].
    change (k_sb k2) with (k_sb k1). by rewrite Es.
  - split; rewrite ?E; [done|done| |done|done]. intros j Hj. unfold k2. rewrite get_inode_upd_ne by done.
    by apply (intx_inode _ _ _ _ _ _ _ _ _ Hi1).
Qed.

(** The addresses of the inode stay. *)
Lemma data_step k k1 p bl bl1 V V1 D H ip nb nf :
  wctx k p bl V D H ip -> intx dev s sz k k1 p [] bl1 V1 D H -> fs_ok V1 -> file_ok V1 (i_addrs (get_inode k ip)) ->
  file_frame V (i_addrs (get_inode k ip)) V1 (i_addrs (get_inode k ip)) ->
  (length bl1 + slack (i_addrs (get_inode k ip)) bl1 <= length bl + slack (i_addrs (get_inode k ip)) bl + nb)%nat ->
  (nfree V <= nfree V1 + nf)%nat ->
  wctx k1 p bl1 V1 D H ip /\ wstep ip k bl V k1 bl1 V1 nb nf /\ get_inode k1 ip = get_inode k ip.
Proof.
  intros [W1 W2 W3 W4 W5 W6] Hi1 HK1 HF1 HR Hl Hn. destruct (intx_inodes _ _ _ _ _ _ _ _ Hi1) as [En Es].
  assert (E : forall j, get_inode k1 j = get_inode k j) by (intros j; by apply (intx_inode _ _ _ _ _ _ _ _ _ Hi1)).
  split_and!; [| |done].
  - split; rewrite ?E; [by eapply intx_rebase|by rewrite Es|done..|by rewrite En].
  - split; rewrite ?E; [done|by destruct (get_inode k ip)|done|done|lia].
Qed.

Lemma slack_le addrs addrs' bl bl' :
  addrs' !!! Z.to_nat NDIRECT = addrs !!! Z.to_nat NDIRECT -> (forall n, n ∈ bl -> n ∈ bl') -> (slack addrs' bl' <= slack addrs bl)%nat.
Proof.
  intros E Hin. unfold slack. rewrite E. case_decide as H1; case_decide as H2; try lia. destruct H1. destruct H2. auto.
Qed.

Lemma slack_in addrs bl : addrs !!! Z.to_nat NDIRECT <> 0 -> addrs !!! Z.to_nat NDIRECT ∈ bl -> slack addrs bl = 0%nat.
Proof. intros H0 Hin. unfold slack. by rewrite decide_True. Qed.

Lemma slack_bound addrs bl : (slack addrs bl <= 2)%nat.
Proof. unfold slack. case_decide; lia. Qed.

Definition same_bytes (V : Z -> list Z) (addrs : list Z) (V' : Z -> list Z) (addrs' : list Z) : Prop :=
  forall b, 0 <= b < MAXFILE -> cont V' addrs' b = cont V addrs b.

Lemma blocks_with2 bl m n : (length (blocks_with (blocks_with bl m) n) <= length bl + 2)%nat.
Proof. pose proof (blocks_with_length (blocks_with bl m) n). pose proof (blocks_with_length bl m). lia. Qed.

(** A block is allocated and its number stored in the inode. *)
Lemma bmap_alloc (j : nat) k p bl V D H ip nb nf :
  wctx k p bl V D H ip -> (1 <= nfree V)%nat -> roomy bl 2 ->
  exists a k1 bl1, let addrs := i_addrs (get_inode k ip) in let addrs' := <[j := a]> addrs in
    (addr ← balloc dev; ip_set ip (set_addr j addr);; mret addr) k = Ok a (upd_inode ip (set_i_addrs addrs') k1) /\
    alloc_facts V (allocated sb V a) addrs a /\ a ∈ bl1 /\ (forall n, n ∈ bl -> n ∈ bl1) /\ (length bl1 <= length bl + 2)%nat /\
    (file_ok (allocated sb V a) addrs' -> file_frame V addrs (allocated sb V a) addrs' ->
     (2 + slack addrs' bl1 <= slack addrs bl + nb)%nat -> (1 + rootless addrs' <= rootless addrs + nf)%nat ->
     let k2 := upd_inode ip (set_i_addrs addrs') k1 in
     wctx k2 p bl1 (allocated sb V a) D H ip /\ wstep ip k bl V k2 bl1 (allocated sb V a) nb nf /\ i_addrs (get_inode k2 ip) = addrs').
Proof.
  intros HW Hf Hr. pose proof HW as [W1 W2 W3 W4 W5 W6].
  destruct (fs_balloc k k p [] bl V D H W1 W2 W3 ltac:(constructor) Hf Hr ltac:(cbn; lia)) as (a & k1 & R & Ha & Hu & Hi1).
  pose proof (alloc_ok V _ a W3 W4 Ha Hu) as HA. pose proof (blocks_with2 bl (BBLOCK a sb) a) as Hl.
  exists a, k1, (blocks_with (blocks_with bl (BBLOCK a sb)) a). cbn zeta.
  split_and!; [|done|apply blocks_with_new|intros n Hn; by do 2 apply blocks_with_old|done|].
  - rewrite (run_bind _ _ _ _ _ R). mrun. f_equal. unfold upd_inode. f_equal.
    destruct (intx_inodes _ _ _ _ _ _ _ _ Hi1) as [En _]. rewrite En.
    destruct (lookup_lt_is_Some_2 _ _ W6) as [x Hx].
    assert (Ex : get_inode k ip = x) by (unfold get_inode; by apply list_lookup_total_correct). rewrite Ex.
    apply list_eq. intros q. destruct (decide (q = ip)) as [->|Hq]; [|by rewrite !list_lookup_alter_ne by done].
    by rewrite !list_lookup_alter_eq, Hx.
  - intros HF HR Hs Hro. eapply alloc_step; [done|done|apply HA|done|done|lia|].
    rewrite (af_free _ _ _ _ HA). lia.
Qed.

(** Is block [bn] of the file to be allocated? *)
Definition newb (V : Z -> list Z) (addrs : list Z) (bn : Z) : nat := if fblk V addrs bn =? 0 then 1 else 0.

(** The entry of the indirect block, with a block allocated when it is empty. *)
Definition indirect_entry (root : Z) (i : Z) : K Z :=
  bp ← bread dev root;
  addr ← b_get bp (fun x => blk_rd32 (b_data x) (4 * Z.to_nat i));
  addr ← (if addr =? 0 then
            addr ← balloc dev;
            b_modify bp (blk_wr32 (4 * Z.to_nat i) addr);;
            log_write bp;;
            mret addr
          else mret addr);
  brelse bp;;
  mret addr.

Lemma bmap_entry k p bl V D H ip bn :
  let addrs := i_addrs (get_inode k ip) in
  wctx k p bl V D H ip -> NDIRECT <= bn < MAXFILE -> addrs !!! Z.to_nat NDIRECT <> 0 ->
  (newb V addrs bn <= nfree V)%nat -> roomy bl (1 + 2 * newb V addrs bn) ->
  exists a k' bl' V', indirect_entry (addrs !!! Z.to_nat NDIRECT) (bn - NDIRECT) k = Ok a k' /\
    wctx k' p bl' V' D H ip /\ wstep ip k bl V k' bl' V' (2 * newb V addrs bn) (newb V addrs bn) /\ get_inode k' ip = get_inode k ip /\
    same_bytes V addrs V' addrs /\ fblk V' addrs bn = a /\ a <> 0 /\ (newb V addrs bn = 1%nat -> a ∈ bl').
Proof.
  intros addrs HW Hbn Hr Hf Hroom. pose proof HW as [W1 W2 W3 W4 W5 W6]. unfold indirect_entry.
  set (root := addrs !!! Z.to_nat NDIRECT) in *. pose proof (fo_root _ _ _ _ _ W4 Hr) as Hroot. fold addrs root in Hroot.
  assert (Hbuf : (length (@nil (nat * Z)) + length bl < NBUF)%nat).
  { unfold roomy in Hroom. change LOGSIZE with 30 in *. change NBUF with 30%nat. cbn. lia. }
  pose proof (wp_inv _ _ _ (intx_bread dev s sz _ _ _ _ _ _ _ _ root W1 (not_elem_of_nil _) (or_intror Hbuf))) as (b & k1 & R1 & Hi1 & _).
  rewrite (run_bind _ _ _ _ _ R1). mrun.
  rewrite (bst_data _ _ _ _ _ _ _ _ b root (it_bst _ _ _ _ _ _ _ _ _ _ _ Hi1)) by left.
  assert (EB : fblk V addrs bn = blk_rd32 (V root) (4 * Z.to_nat (bn - NDIRECT))).
  { unfold fblk. fold root. rewrite (proj2 (Z.eqb_neq root 0)) by done. by rewrite (proj2 (Z.ltb_ge _ _)) by lia. }
  rewrite <- EB. unfold newb in *. destruct (fblk V addrs bn =? 0) eqn:E; bprop.
  - destruct (fs_balloc k k1 p [(b, root)] bl V D H Hi1 W2 W3) as (a & k2 & R2 & Ha & Hu & Hi2);
      [apply Forall_singleton, Hroot|done|unfold roomy in *; lia|cbn; lia|].
    pose proof (alloc_ok V _ a W3 W4 Ha Hu) as HA. fold addrs in HA.
    destruct (set_entry V _ addrs a bn HA Hbn Hr E) as (HK2 & HF2 & HC & HR & HB & HN).
    fold root in HK2, HF2, HC, HR, HB, HN.
    pose proof (blocks_with2 bl (BBLOCK a sb) a) as Hl2. set (bl2 := blocks_with (blocks_with bl (BBLOCK a sb)) a) in *.
    set (V1 := allocated sb V a) in *.
    assert (Hlw : wp (log_write b) (fun _ k' => intx dev s sz k k' p [(b, root)] (blocks_with bl2 root)
        (vset V1 root (blk_wr32 (4 * Z.to_nat (bn - NDIRECT)) a (V1 root))) D H)
        (upd_buf b (fun x => set_b_data (blk_wr32 (4 * Z.to_nat (bn - NDIRECT)) a (b_data x)) x) k2)).
    { rewrite (intx_modify dev s sz _ _ _ _ _ _ _ _ b root (blk_wr32 (4 * Z.to_nat (bn - NDIRECT)) a) Hi2) by left.
      apply (intx_log_write dev s sz geo _ _ _ _ _ _ _ _ _ _ _ Hi2); [left|apply Hroot|].
      unfold room, roomy in *. lia. }
    apply wp_inv in Hlw as ([] & k3 & R3 & Hi3).
    pose proof (wp_inv _ _ _ (intx_brelse dev s sz _ _ _ _ [] _ _ _ _ b root Hi3 ltac:(done))) as ([] & k4 & R4 & Hi4).
    pose proof (blocks_with_length bl2 root) as Hl3.
    assert (Hslack : (length (blocks_with bl2 root) + slack addrs (blocks_with bl2 root) <= length bl + slack addrs bl + 2)%nat).
    { rewrite (slack_in addrs (blocks_with bl2 root)) by (done || apply blocks_with_new). unfold slack. fold root. case_decide as Hd; [|lia].
      assert (Hin2 : root ∈ bl2) by (do 2 apply blocks_with_old; apply Hd).
      unfold blocks_with at 1. rewrite decide_True by done. lia. }
    destruct (data_step k k4 p bl _ V _ D H ip 2 1 HW Hi4 HK2 HF2 HR) as (W' & S' & E'); [exact Hslack|rewrite HN, (af_free _ _ _ _ HA); lia|].
    exists a, k4. do 2 eexists. split_and!; [|exact W'|exact S'|exact E'|exact HC|exact HB| |intros _; apply blocks_with_old, blocks_with_new].
    + erewrite run_bind; [|rewrite (run_bind _ _ _ _ _ R2); mrun; rewrite (run_bind _ _ _ _ _ R3); reflexivity].
      by rewrite (run_bind _ _ _ _ _ R4).
    + pose proof (db_range _ _ _ _ _ (af_data _ _ _ _ HA)). lia.
  - mrun. pose proof (wp_inv _ _ _ (intx_brelse dev s sz _ _ _ _ [] _ _ _ _ b root Hi1 ltac:(done))) as ([] & k2 & R2 & Hi2).
    destruct (data_step k k2 p bl bl V V D H ip 0 0 HW Hi2 W3 W4 (file_frame_refl _ _)) as (W' & S' & E'); [lia|lia|].
    exists (fblk V addrs bn), k2, bl, V. split_and!; try done. by rewrite (run_bind _ _ _ _ _ R2).
Qed.

(** The indirect block, allocated when there is none. *)
Lemma bmap_root k p bl V D H ip :
  let addrs := i_addrs (get_inode k ip) in
  wctx k p bl V D H ip -> (rootless addrs <= nfree V)%nat -> roomy bl (2 * rootless addrs) ->
  exists a k1 bl1 V1, (if addrs !!! Z.to_nat NDIRECT =? 0 then
      addr ← balloc dev; ip_set ip (set_addr (Z.to_nat NDIRECT) addr);; mret addr else mret (addrs !!! Z.to_nat NDIRECT)) k = Ok a k1 /\
    wctx k1 p bl1 V1 D H ip /\ wstep ip k bl V k1 bl1 V1 0 0 /\ i_addrs (get_inode k1 ip) !!! Z.to_nat NDIRECT = a /\ a <> 0 /\
    same_bytes V addrs V1 (i_addrs (get_inode k1 ip)) /\
    (forall b, 0 <= b < MAXFILE -> fblk V1 (i_addrs (get_inode k1 ip)) b = fblk V addrs b).
Proof.
  intros addrs HW Hf Hr. unfold rootless in *. destruct (addrs !!! Z.to_nat NDIRECT =? 0) eqn:E0; bprop.
  - destruct (bmap_alloc (Z.to_nat NDIRECT) k p bl V D H ip 0 0 HW) as (a & k1 & bl1 & R & HA & Hin & _ & Hl & Hstep); [lia|done|].
    fold addrs in HA, Hstep, R. destruct (set_root V _ addrs a HA E0) as (HF & HC & HR & HB & HR').
    assert (Ha0 : a <> 0) by (pose proof (db_range _ _ _ _ _ (af_data _ _ _ _ HA)); lia).
    destruct (Hstep HF HR) as (W' & S' & E').
    { rewrite slack_in by (by rewrite HR'). unfold slack. rewrite E0. rewrite decide_False; [lia|by intros [? _]]. }
    { unfold rootless. rewrite HR', E0. by rewrite (proj2 (Z.eqb_neq a 0)). }
    exists a. do 3 eexists. split; [exact R|]. rewrite E'. split_and!; [exact W'|exact S'|exact HR'|done|exact HC|exact HB].
  - exists (addrs !!! Z.to_nat NDIRECT), k, bl, V. split_and!; try done. apply wstep_refl.
Qed.

(** [bmap] for a block of a file that is written: the file keeps its bytes. *)
Lemma bmap_write k p bl V D H ip bn :
  let addrs := i_addrs (get_inode k ip) in let nw := newb V addrs bn in
  wctx k p bl V D H ip -> 0 <= bn < MAXFILE -> (nw * (1 + rootless addrs) <= nfree V)%nat -> roomy bl (1 + 2 * nw + slack addrs bl) ->
  exists a k' bl' V', bmap ip bn k = Ok a k' /\
    wctx k' p bl' V' D H ip /\ wstep ip k bl V k' bl' V' (2 * nw) nw /\
    same_bytes V addrs V' (i_addrs (get_inode k' ip)) /\
    fblk V' (i_addrs (get_inode k' ip)) bn = a /\ a <> 0 /\ (nw = 1%nat -> a ∈ bl').
Proof.
  intros addrs nw HW Hbn Hf Hr. pose proof HW as [W1 W2 W3 W4 W5 W6]. unfold bmap.
  destruct (bn <? NDIRECT) eqn:E; bprop.
  - mrun. fold addrs. assert (EB : fblk V addrs bn = addrs !!! Z.to_nat bn) by (unfold fblk; by rewrite (proj2 (Z.ltb_lt _ _))).
    unfold nw, newb in *. rewrite EB in *. destruct (addrs !!! Z.to_nat bn =? 0) eqn:E0; bprop.
    + mrun. rewrite W5. destruct (bmap_alloc (Z.to_nat bn) k p bl V D H ip 2 1 HW) as (a & k1 & bl1 & R & HA & Hin & Hold & Hl & Hstep);
        [lia|unfold roomy in *; lia|].
      fold addrs in HA, Hstep, R. destruct (set_direct V _ addrs a bn HA) as (HF & HC & HR & HB); [lia|by rewrite EB|].
      assert (HR' : <[Z.to_nat bn:=a]> addrs !!! Z.to_nat NDIRECT = addrs !!! Z.to_nat NDIRECT)
        by (apply list_lookup_total_insert_ne; change NDIRECT with 12 in *; lia).
      destruct (Hstep HF HR) as (W' & S' & E').
      { pose proof (slack_le addrs (<[Z.to_nat bn:=a]> addrs) bl bl1 HR' Hold). lia. }
      { unfold rootless. rewrite HR'. lia. }
      exists a. do 3 eexists. split; [exact R|]. rewrite E'. split_and!; [exact W'|exact S'|exact HC|exact HB| |done].
      pose proof (db_range _ _ _ _ _ (af_data _ _ _ _ HA)). lia.
    + exists (fblk V addrs bn), k, bl, V. rewrite EB. split_and!; try done. apply wstep_refl.
  - rewrite (proj2 (Z.ltb_lt _ _)) by (change MAXFILE with 268 in *; change NDIRECT with 12 in *; change NINDIRECT with 256; lia).
    mrun. fold addrs. rewrite W5.
    change (fun addr => bp ← bread dev addr; _) with (fun addr => indirect_entry addr (bn - NDIRECT)).
    assert (Hnr : (rootless addrs <= nw)%nat).
    { unfold rootless, nw, newb, fblk. rewrite (proj2 (Z.ltb_ge _ _)) by lia. destruct (addrs !!! Z.to_nat NDIRECT =? 0); [done|apply Nat.le_0_l]. }
    assert (Hsl : (2 * rootless addrs <= slack addrs bl)%nat).
    { unfold rootless, slack. destruct (addrs !!! Z.to_nat NDIRECT =? 0) eqn:E0; bprop; [|lia]. rewrite decide_False; [lia|by intros [? _]]. }
    assert (Hn1 : (nw <= 1)%nat) by (unfold nw, newb; destruct (_ =? 0); lia).
    destruct (bmap_root k p bl V D H ip HW) as (r & k1 & bl1 & V1 & R1 & HW1 & S1 & Er & Hr0 & HC1 & HB1);
      [fold addrs; nia|fold addrs; unfold roomy in *; lia|].
    fold addrs in R1, HC1, HB1. rewrite (run_bind _ _ _ _ _ R1).
    assert (En : newb V1 (i_addrs (get_inode k1 ip)) bn = nw) by (unfold newb; by rewrite HB1).
    pose proof (ws_log _ _ _ _ _ _ _ _ _ S1) as L1. pose proof (ws_free _ _ _ _ _ _ _ _ _ S1) as L2. fold addrs in L1, L2.
    destruct (bmap_entry k1 p bl1 V1 D H ip bn HW1) as (a & k' & bl' & V' & R' & HW' & S' & E' & HC' & HB' & Ha0 & Hin);
      [lia|by rewrite Er|rewrite En; nia|rewrite En; unfold roomy in *; lia|].
    rewrite Er in R'. rewrite En in S', Hin. exists a, k', bl', V'. rewrite E'.
    split_and!; [exact R'|done| |intros b Hb; by rewrite HC', HC1|done|done|done].
    by eapply (wstep_trans _ _ _ _ _ _ _ _ _ _ 0 0).
Qed.
End grow.
