(* ===== verification/FsWrite.v ===== *)
(** * Writing to a file

    [writei] inside a transaction: the bytes of the range are the source's, all
    other bytes of the file and all blocks of other files are as before, the
    size grows to the end of the range, and the inode is written to its entry
    of the table.  The blocks of the log it needs are bounded, and a write of
    the size [filewrite] cuts its writes to fits [MAXOPBLOCKS]. *)

From S2P Require Export FsBmap.

(** ** The blocks of a range *)

Definition blocks_of (off n : Z) : list Z :=
  seqZ (off / BSIZE) (if n <=? 0 then 0 else (off mod BSIZE + n - 1) / BSIZE + 1).

Lemma blocks_of_nil off : blocks_of off 0 = [].
Proof. done. Qed.

Lemma blocks_of_cons off n :
  let m := Z.min n (BSIZE - off mod BSIZE) in
  0 <= off -> 0 < n -> blocks_of off n = off / BSIZE :: blocks_of (off + m) (n - m).
Proof.
  intros m Ho Hn. unfold blocks_of. rewrite (proj2 (Z.leb_gt n 0)) by done. change BSIZE with 1024 in *.
  rewrite seqZ_cons by zlia. f_equal. destruct (n - m <=? 0) eqn:E; bprop.
  - replace (Z.pred _) with 0; [done|]. zlia.
  - f_equal; zlia.
Qed.

Lemma blocks_of_bound off n b :
  0 <= off -> off + n <= MAXFILE * BSIZE -> b ∈ blocks_of off n -> 0 <= b < MAXFILE.
Proof.
  intros Ho Hm Hb. unfold blocks_of in Hb. apply elem_of_seqZ in Hb. change BSIZE with 1024 in *. change MAXFILE with 268 in *.
  destruct (n <=? 0) eqn:E; bprop; [lia|]. zlia.
Qed.

Lemma blocks_of_in off n x : 0 <= off -> off <= x < off + n -> x / BSIZE ∈ blocks_of off n.
Proof.
  intros Ho Hx. unfold blocks_of. apply elem_of_seqZ. rewrite (proj2 (Z.leb_gt n 0)) by lia. change BSIZE with 1024 in *. zlia.
Qed.

(** How many of the blocks are to be allocated. *)
Definition news (V : Z -> list Z) (addrs : list Z) (l : list Z) : nat := sum_list_with (newb V addrs) l.

Section write.
Context {LY : Layout} {TH : Threads} {BD : BlockDev}.
Context (dev s sz : Z) (geo : geometry dev s sz) (sb : superblock).

Abbreviation data_block := (data_block s sz sb).
Abbreviation fs_ok := (fs_ok s sz sb).
Abbreviation nfree := (nfree sb).
Abbreviation file_ok := (file_ok s sz sb).
Abbreviation file_frame := (file_frame s sz sb).
Abbreviation wctx := (wctx dev s sz sb).
Abbreviation wstep := (wstep s sz sb).
Abbreviation roomy := (roomy sz).

Lemma news_le V addrs V' addrs' l :
  file_frame V addrs V' addrs' -> Forall (fun b => 0 <= b < MAXFILE) l -> (news V' addrs' l <= news V addrs l)%nat.
Proof.
  intros HF. induction 1 as [|b l Hb Hl IH]; [done|]. unfold news in *. cbn [sum_list_with].
  enough (newb V' addrs' b <= newb V addrs b)%nat by lia. unfold newb.
  destruct (fblk V addrs b =? 0) eqn:E; bprop; [by destruct (_ =? 0); lia|].
  rewrite (ff_keep _ _ _ _ _ _ _ HF b Hb E). by rewrite (proj2 (Z.eqb_neq _ _)).
Qed.

(** ** One block *)

Lemma write_block V addrs bn x :
  fs_ok V -> file_ok V addrs -> 0 <= bn < MAXFILE -> fblk V addrs bn <> 0 -> length x = Z.to_nat BSIZE ->
  let V' := vset V (fblk V addrs bn) x in
  fs_ok V' /\ file_ok V' addrs /\ file_frame V addrs V' addrs /\ nfree V' = nfree V /\
  forall b, 0 <= b < MAXFILE -> cont V' addrs b = if decide (b = bn) then x else cont V addrs b.
Proof.
  intros HK HF Hbn Hne Hx V'. pose proof HF as [F1 F2 F3 F4 F5]. pose proof (F2 bn Hbn Hne) as Hd.
  assert (HB : forall b, fblk V' addrs b = fblk V addrs b).
  { intros b. apply fblk_root. intros Hr. unfold V'. rewrite vset_ne; [done|]. by apply not_eq_sym, F5. }
  assert (HD : forall n, data_block V n -> data_block V' n) by (intros n; by apply data_block_vset).
  split_and!.
  - by apply fs_ok_vset.
  - split; [done|..]; intros; rewrite ?HB in *; auto.
  - split.
    + intros n Hn [N1 N2]. split_and!; [by apply HD|split; [intros b Hb; rewrite HB; by apply N1|done]|].
      unfold V'. rewrite vset_ne; [done|]. by apply not_eq_sym, N1.
    + intros j Hj. unfold V'. rewrite vset_ne; [done|]. by apply (db_inode _ _ _ _ _ Hd).
    + intros b Hb _. apply HB.
  - by apply (nfree_vset s sz).
  - intros b Hb. unfold cont. rewrite HB. case_decide as E.
    + subst. rewrite (proj2 (Z.eqb_neq _ _)) by done. apply vset_eq.
    + destruct (fblk V addrs b =? 0) eqn:E0; bprop; [done|]. unfold V'. rewrite vset_ne; [done|].
      intros E'. apply E. by apply F3.
Qed.

(** The bytes of the file after a part of a block was overwritten. *)
Lemma fbyte_splice V addrs V' addrs' off f m :
  let bn := off / BSIZE in
  0 <= off -> 0 < m -> off mod BSIZE + m <= BSIZE -> length (cont V addrs bn) = Z.to_nat BSIZE ->
  (forall b, 0 <= b < MAXFILE -> cont V' addrs' b =
     if decide (b = bn) then splice (cont V addrs bn) (Z.to_nat (off mod BSIZE)) (rd_src f (Z.to_nat m)) else cont V addrs b) ->
  forall x, 0 <= x < MAXFILE * BSIZE ->
    fbyte V' addrs' x = if decide (off <= x < off + m) then u8 (f (x - off)) else fbyte V addrs x.
Proof.
  intros bn Ho Hm Hb Hl HC x Hx. unfold fbyte. rewrite HC by (change BSIZE with 1024 in *; change MAXFILE with 268 in *; zlia).
  unfold bn in *. change BSIZE with 1024 in *. case_decide as E.
  - rewrite E. case_decide as Er.
    + rewrite list_lookup_total_alt, lookup_splice_in by (rewrite rd_src_length; zlia).
      replace (Z.to_nat (x mod 1024) - Z.to_nat (off mod 1024))%nat with (Z.to_nat (x - off)) by zlia.
      rewrite rd_src_lookup by zlia. cbn [default from_option id]. rewrite u8_idem. do 2 f_equal. lia.
    + rewrite !list_lookup_total_alt, lookup_splice_out; [done|..]; rewrite ?rd_src_length; zlia.
  - rewrite decide_False; [done|]. zlia.
Qed.

(** One round of [writei] from a variable of the kernel. *)
Lemma writei_round k p bl V D H ip n tot off f :
  let addrs := i_addrs (get_inode k ip) in let m := Z.min (n - tot) (BSIZE - off mod BSIZE) in
  let nw := newb V addrs (off / BSIZE) in
  wctx k p bl V D H ip -> tot < n -> 0 <= off -> off / BSIZE < MAXFILE ->
  (nw * (1 + rootless addrs) <= nfree V)%nat -> roomy bl (2 + nw + slack addrs bl) ->
  exists k' bl' V', writei_body ip n (tot, off, KernSrc f) k = Ok (inl (tot + m, u32 (off + m), KernSrc (ptr_add f m))) k' /\
    wctx k' p bl' V' D H ip /\ wstep ip k bl V k' bl' V' (1 + nw) nw /\
    fblk V' (i_addrs (get_inode k' ip)) (off / BSIZE) <> 0 /\
    forall x, 0 <= x < MAXFILE * BSIZE -> fbyte V' (i_addrs (get_inode k' ip)) x =
      if decide (off <= x < off + m) then u8 (f (x - off)) else fbyte V addrs x.
Proof.
  intros addrs m nw HW Hlt Ho Hbn Hf Hr. unfold writei_body. rewrite (proj2 (Z.ltb_lt _ _) Hlt).
  set (bn := off / BSIZE) in *. assert (Hbn' : 0 <= bn < MAXFILE) by (split; [by apply Z.div_pos|done]).
  assert (Hn1 : (nw <= 1)%nat) by (unfold nw, newb; destruct (_ =? 0); lia).
  assert (Hmr : 0 < m <= 1024 /\ off mod BSIZE + m <= BSIZE) by (subst m; change BSIZE with 1024; zlia).
  destruct (bmap_write dev s sz geo sb k p bl V D H ip bn HW Hbn' Hf) as (a & k1 & bl1 & V1 & R1 & HW1 & S1 & HC1 & HB1 & Ha0 & Hin1).
  { fold addrs nw. unfold FsBmap.roomy in *. lia. }
  fold addrs nw in R1, S1, HC1, HB1, Hin1. set (addrs1 := i_addrs (get_inode k1 ip)) in *.
  rewrite (run_bind _ _ _ _ _ R1). mrun. rewrite (wc_dev _ _ _ _ _ _ _ _ _ _ _ HW1).
  pose proof (ws_log _ _ _ _ _ _ _ _ _ _ _ _ S1) as L1. fold addrs addrs1 in L1.
  assert (Hl1 : (length bl1 < NBUF)%nat /\ Z.of_nat (length bl1) + 1 <= Z.min LOGSIZE sz - 1).
  { unfold FsBmap.roomy in Hr. change LOGSIZE with 30 in *. change NBUF with 30%nat. lia. }
  pose proof (wc_tx _ _ _ _ _ _ _ _ _ _ _ HW1) as Hi1.
  pose proof (wp_inv _ _ _ (intx_bread dev s sz _ _ _ _ _ _ _ _ a Hi1 (not_elem_of_nil _) (or_intror (proj1 Hl1)))) as (b & k2 & R2 & Hi2 & _).
  rewrite (run_bind _ _ _ _ _ R2). cbn match.
  pose proof (bc_ctx _ _ _ _ _ (bs_inv _ _ _ _ _ _ _ _ (it_bst _ _ _ _ _ _ _ _ _ _ _ Hi2))) as Hctx.
  erewrite run_bind by (unfold either_copyin; erewrite run_bind by (apply (this_proc_run p); apply Hctx); reflexivity).
  cbn [Z.eqb]. fold m. rewrite (u32_id m) by lia.
  pose proof (wc_file _ _ _ _ _ _ _ _ _ _ _ HW1) as HF1. fold addrs1 in HF1.
  assert (Hda : data_block V1 a) by (rewrite <- HB1; apply (fo_data _ _ _ _ _ HF1); [done|by rewrite HB1]).
  set (g := fun data => splice data (Z.to_nat (off mod BSIZE)) (rd_src f (Z.to_nat m))).
  assert (Hgl : length (g (V1 a)) = Z.to_nat BSIZE).
  { unfold g. rewrite splice_length; [apply Hda|]. rewrite rd_src_length, (db_len _ _ _ _ _ Hda). change BSIZE with 1024 in *. zlia. }
  destruct (write_block V1 addrs1 bn (g (V1 a)) (wc_fs _ _ _ _ _ _ _ _ _ _ _ HW1) HF1 Hbn') as (HK2 & HF2 & HR2 & HN2 & HC2);
    [by rewrite HB1|done|]. rewrite HB1 in HK2, HF2, HR2, HN2, HC2.
  assert (Hrun : wp (b_modify b g;; log_write b;; brelse b;; mret (inl (tot + m, u32 (off + m), KernSrc (ptr_add f m)) : Z * Z * source + Z * Z))
    (fun r k' => r = inl (tot + m, u32 (off + m), KernSrc (ptr_add f m)) /\
       intx dev s sz k1 k' p [] (blocks_with bl1 a) (vset V1 a (g (V1 a))) D H) k2).
  { eapply (tx_modify_seq dev s sz geo _ _ k1 k2 p _ [] bl1 V1 D H b a g); [done|done|apply Hda|unfold room; lia|].
    intros k3 Hi3. apply wp_ret. done. }
  apply wp_inv in Hrun as (r & k3 & R3 & -> & Hi3).
  pose proof (blocks_with_length bl1 a) as Hl2.
  destruct (data_step dev s sz sb k1 k3 p bl1 (blocks_with bl1 a) V1 _ D H ip (1 - nw) 0 HW1 Hi3 HK2 HF2 HR2) as (HW3 & S3 & E3).
  { fold addrs1. pose proof (slack_le addrs1 addrs1 bl1 (blocks_with bl1 a) eq_refl ltac:(intros; by apply blocks_with_old)).
    destruct (decide (nw = 1%nat)) as [En|En]; [|lia]. unfold blocks_with at 1. rewrite decide_True by auto. lia. }
  { rewrite HN2. lia. }
  exists k3, (blocks_with bl1 a), (vset V1 a (g (V1 a))). rewrite E3. fold addrs1.
  split_and!; [exact R3|done| | |].
  - eapply wstep_weaken; [by eapply wstep_trans|lia|lia].
  - rewrite (ff_keep _ _ _ _ _ _ _ HR2); [by rewrite HB1|done|by rewrite HB1].
  - assert (EC : cont V addrs bn = V1 a).
    { rewrite <- HC1 by done. unfold cont. rewrite HB1. by rewrite (proj2 (Z.eqb_neq _ _)). }
    apply fbyte_splice; [done|lia|lia|fold bn; rewrite EC; apply Hda|]. intros b' Hb'. fold bn. rewrite HC2, EC by done.
    case_decide; [done|]. by apply HC1.
Qed.

(** ** All blocks of the range *)

(** What the blocks [l] of the file need: room in the log, and free blocks. *)
Definition enough (k : kernel) (bl : list Z) (V : Z -> list Z) (ip : nat) (l : list Z) : Prop :=
  let addrs := i_addrs (get_inode k ip) in
  roomy bl (1 + length l + news V addrs l + slack addrs bl) /\
  (news V addrs l = 0%nat \/ (news V addrs l + rootless addrs <= nfree V)%nat).

Lemma newb_bound V addrs b : (newb V addrs b <= 1)%nat.
Proof. unfold newb. destruct (_ =? 0); lia. Qed.

Lemma enough_step k bl V k' bl' V' ip b l :
  let nw := newb V (i_addrs (get_inode k ip)) b in
  enough k bl V ip (b :: l) -> wstep ip k bl V k' bl' V' (1 + nw) nw -> Forall (fun b => 0 <= b < MAXFILE) l ->
  (l <> [] -> enough k' bl' V' ip l) /\
  (nw * (1 + rootless (i_addrs (get_inode k ip))) <= nfree V)%nat /\ roomy bl (2 + nw + slack (i_addrs (get_inode k ip)) bl) /\
  forall k'' bl'' V'', wstep ip k' bl' V' k'' bl'' V'' (length l + news V' (i_addrs (get_inode k' ip)) l) (news V' (i_addrs (get_inode k' ip)) l) ->
    wstep ip k bl V k'' bl'' V'' (length (b :: l) + news V (i_addrs (get_inode k ip)) (b :: l)) (news V (i_addrs (get_inode k ip)) (b :: l)).
Proof.
  intros nw [Hr Hf] Hs Hl. pose proof (news_le _ _ _ _ l (ws_frame _ _ _ _ _ _ _ _ _ _ _ _ Hs) Hl) as Hn.
  pose proof (ws_log _ _ _ _ _ _ _ _ _ _ _ _ Hs) as L. pose proof (ws_free _ _ _ _ _ _ _ _ _ _ _ _ Hs) as F.
  change (news V (i_addrs (get_inode k ip)) (b :: l)) with (nw + news V (i_addrs (get_inode k ip)) l)%nat in *.
  pose proof (newb_bound V (i_addrs (get_inode k ip)) b) as Hb. fold nw in Hb. cbn [length] in *. unfold FsBmap.roomy, enough, FsBmap.roomy in *.
  split_and!.
  - intros _. split; [lia|]. destruct (decide (news V' (i_addrs (get_inode k' ip)) l = 0%nat)); [by left|right]. lia.
  - nia.
  - lia.
  - intros k'' bl'' V'' Hs'. eapply wstep_weaken; [eapply wstep_trans; [exact Hs|exact Hs']|lia|lia].
Qed.

Lemma writei_loop k p bl V D H ip n fuel tot off f :
  let l := blocks_of off (n - tot) in let addrs := i_addrs (get_inode k ip) in
  wctx k p bl V D H ip -> 0 <= tot <= n -> 0 <= off -> off + (n - tot) <= MAXFILE * BSIZE ->
  (l <> [] -> enough k bl V ip l) ->
  (1 <= fuel)%nat -> (tot < n -> n - tot + off mod BSIZE <= (Z.of_nat fuel - 1) * BSIZE) ->
  exists k' bl' V', loop_with fuel (tot, off, KernSrc f) (writei_body ip n) k = Ok (n, off + (n - tot)) k' /\
    wctx k' p bl' V' D H ip /\ wstep ip k bl V k' bl' V' (length l + news V addrs l) (news V addrs l) /\
    (forall b, b ∈ l -> fblk V' (i_addrs (get_inode k' ip)) b <> 0) /\
    forall x, 0 <= x < MAXFILE * BSIZE -> fbyte V' (i_addrs (get_inode k' ip)) x =
      if decide (off <= x < off + (n - tot)) then u8 (f (x - off)) else fbyte V addrs x.
Proof.
  revert k bl V tot off f. induction fuel as [|fuel IH]; intros k bl V tot off f l addrs HW Ht Ho Hmax Hen Hf0 Hfu; [lia|].
  cbn [loop_with]. destruct (decide (tot < n)) as [Hlt|Hge].
  - set (m := Z.min (n - tot) (BSIZE - off mod BSIZE)).
    assert (El : l = off / BSIZE :: blocks_of (off + m) (n - (tot + m))).
    { unfold l. rewrite blocks_of_cons by lia. fold m. do 2 f_equal. lia. }
    assert (Hlb : Forall (fun b => 0 <= b < MAXFILE) (off / BSIZE :: blocks_of (off + m) (n - (tot + m)))).
    { rewrite <- El. apply Forall_forall. intros b. by apply blocks_of_bound. }
    apply Forall_cons in Hlb as [Hb0 Hlb]. rewrite El in Hen. specialize (Hen ltac:(done)).
    set (nw := newb V addrs (off / BSIZE)).
    assert (Hpre : (nw * (1 + rootless addrs) <= nfree V)%nat /\ roomy bl (2 + nw + slack addrs bl)).
    { destruct Hen as [Hr Hf]. fold addrs in Hr, Hf. unfold news in Hr, Hf. cbn [sum_list_with length] in Hr, Hf. fold nw in Hr, Hf.
      pose proof (newb_bound V addrs (off / BSIZE)) as Hb. fold nw in Hb. unfold FsBmap.roomy in *. split; [nia|lia]. }
    destruct (writei_round k p bl V D H ip n tot off f HW Hlt Ho (proj2 Hb0) (proj1 Hpre) (proj2 Hpre)) as (k1 & bl1 & V1 & R1 & HW1 & S1 & HB1 & HC1).
    fold m addrs nw in R1, S1, HC1. rewrite (run_bind _ _ _ _ _ R1). cbn match.
    assert (Hm : 0 < m <= n - tot) by (subst m; change BSIZE with 1024; zlia).
    rewrite (u32_id (off + m)) by (change (MAXFILE * BSIZE) with 274432 in Hmax; lia).
    destruct (enough_step k bl V k1 bl1 V1 ip _ _ Hen S1 Hlb) as (Hen1 & _ & _ & Hcomp).
    destruct (IH k1 bl1 V1 (tot + m) (off + m) (ptr_add f m) HW1) as (k' & bl' & V' & R' & HW' & S' & HB' & HC');
      [lia|lia|lia|done|specialize (Hfu Hlt); change BSIZE with 1024 in *; zlia|specialize (Hfu Hlt); subst m; change BSIZE with 1024 in *; zlia|].
    exists k', bl', V'. split_and!; [rewrite R'; do 2 f_equal; lia|done| | |].
    + rewrite El. by apply Hcomp.
    + rewrite El. intros b [->|Hb]%elem_of_cons; [|by apply HB'].
      rewrite (ff_keep _ _ _ _ _ _ _ (ws_frame _ _ _ _ _ _ _ _ _ _ _ _ S')); done.
    + intros x Hx. rewrite HC', HC1 by done. unfold ptr_add. repeat case_decide; try lia; [|done..].
      do 2 f_equal. lia.
  - assert (tot = n) as -> by lia. unfold l. rewrite Z.sub_diag, blocks_of_nil.
    exists k, bl, V. unfold writei_body. rewrite Z.ltb_irrefl. split_and!; [rewrite Z.add_0_r; done|done|apply wstep_refl| |].
    + intros b Hb. by apply elem_of_nil in Hb.
    + intros x Hx. rewrite decide_False by lia. done.
Qed.

(** ** [writei] *)

Lemma file_ok_addrs V addrs : fs_ok V -> file_ok V addrs -> Forall (fun a => 0 <= a < 4294967296) addrs.
Proof.
  intros HK HF. pose proof HF as [F1 F2 F3 F4 F5]. pose proof (fm_size _ _ _ _ (fk_map _ _ _ _ HK)) as Hsz.
  assert (HR : forall a, data_block V a -> 0 <= a < 4294967296).
  { intros a Ha. pose proof (db_range _ _ _ _ _ Ha). change BPB with 8192 in *. lia. }
  apply Forall_lookup_2. intros i a Hi. pose proof (lookup_lt_Some _ _ _ Hi) as Hlt. rewrite F1 in Hlt.
  pose proof (list_lookup_total_correct _ _ _ Hi) as Ea. destruct (decide (a = 0)) as [->|Hne]; [lia|]. apply HR.
  change (Z.to_nat NDIRECT) with 12%nat in *. destruct (decide (i = 12%nat)) as [->|Hi12].
  - rewrite <- Ea. apply F4. by rewrite Ea.
  - assert (E : fblk V addrs (Z.of_nat i) = a).
    { unfold fblk. change NDIRECT with 12. rewrite (proj2 (Z.ltb_lt _ _)) by lia. by rewrite Nat2Z.id. }
    rewrite <- E. apply F2; [change MAXFILE with 268; lia|by rewrite E].
Qed.

(** A change of the size in the inode cache. *)
Lemma wctx_size k p bl V D H ip z :
  wctx k p bl V D H ip -> wctx (upd_inode ip (set_i_size z) k) p bl V D H ip.
Proof.
  intros [W1 W2 W3 W4 W5 W6]. split; rewrite ?get_inode_upd by done; [by eapply (intx_upd_inode dev s sz)|done..|].
  cbn. by rewrite length_alter.
Qed.

(** A change of an inode block. *)
Lemma inode_write_ok V V' inum :
  fs_ok V -> 0 <= inum < sb_ninodes sb -> inode_blocks s sz sb V' -> (forall m, m <> IBLOCK inum sb -> V' m = V m) ->
  fs_ok V' /\ (forall c, 0 <= c < sb_size sb -> used sb V' c = used sb V c) /\ forall n, data_block V n -> data_block V' n.
Proof.
  intros [[M1 M2 M3] K2 K3 K4 K5] Hin Hib HV.
  assert (HU : forall c, 0 <= c < sb_size sb -> used sb V' c = used sb V c).
  { intros c Hc. unfold used. rewrite HV; [done|]. by apply K4. }
  split_and!; [|done|].
  - split; [|done|by rewrite HU by lia|done|].
    + split; [done|done|]. intros b Hb. rewrite HV by (by apply K4). by apply M3.
    + intros c Hc. rewrite HU by done. by apply K5.
  - intros n [R1 R2 R3 R4 R5 R6]. split; try done; [by rewrite HU by lia|]. rewrite HV; [done|]. by apply not_eq_sym, R6.
Qed.

(** The size is updated and the inode written to its entry. *)
Lemma writei_finish k p bl V D H ip off :
  let i := get_inode k ip in let i' := set_i_size (Z.max (i_size i) off) i in
  wctx k p bl V D H ip -> 0 <= i_inum i < sb_ninodes sb -> dinode_ok (inode_dinode i) -> 0 <= off < 4294967296 ->
  roomy bl 1 ->
  exists k' V', (size ← ip_get ip i_size; when (size <? off) (ip_set ip (set_i_size off));; iupdate ip) k = Ok tt k' /\
    wctx k' p (blocks_with bl (IBLOCK (i_inum i) sb)) V' D H ip /\ get_inode k' ip = i' /\
    (forall j, j <> ip -> get_inode k' j = get_inode k j) /\
    (forall j, 0 <= j < sb_ninodes sb -> inode_entry sb V' j = if decide (j = i_inum i) then inode_dinode i' else inode_entry sb V j) /\
    (forall m, m <> IBLOCK (i_inum i) sb -> V' m = V m) /\ (forall n, data_block V n -> data_block V' n).
Proof.
  intros i i' HW Hin Hok Hoff Hr.
  assert (Hset : exists k1, when (i_size i <? off) (ip_set ip (set_i_size off)) k = Ok tt k1 /\
    wctx k1 p bl V D H ip /\ get_inode k1 ip = i' /\ forall j, j <> ip -> get_inode k1 j = get_inode k j).
  { unfold i'. destruct (i_size i <? off) eqn:E; bprop; mrun.
    - eexists. split; [done|]. split; [by apply wctx_size|]. rewrite get_inode_upd by apply HW. fold i.
      rewrite Z.max_r by lia. split; [done|]. intros j Hj. by apply get_inode_upd_ne.
    - exists k. rewrite Z.max_l by lia. split_and!; try done. fold i. by destruct i. }
  destruct Hset as (k1 & R1 & HW1 & Ei1 & Ej1).
  assert (Hd : dinode_ok (inode_dinode i')) by (destruct Hok; split; try done; cbn in *; lia).
  pose proof HW1 as [W1 W2 W3 W4 W5 W6].
  destruct (iupdate_spec dev s sz geo sb k1 k1 p [] bl V D H ip W1 W2 (fk_inodes _ _ _ _ W3) W5) as (k' & V' & R' & Hi' & Hib' & He' & Ho');
    [rewrite Ei1; done|rewrite Ei1; done|apply not_elem_of_nil|unfold FsBmap.roomy in Hr; split; [unfold room; lia|]|].
  { change LOGSIZE with 30 in *. change NBUF with 30%nat. cbn. lia. }
  rewrite Ei1 in Hi', He', Ho'. cbn [i_inum i' set_i_size] in Hi', He', Ho'. exists k', V'.
  destruct (inode_write_ok V V' _ W3 Hin Hib' Ho') as (HK' & _ & HD').
  assert (Ek : forall j, get_inode k' j = get_inode k1 j) by (intros j; by apply (intx_inode dev s sz _ _ _ _ _ _ _ _ _ Hi')).
  destruct (intx_inodes dev s sz _ _ _ _ _ _ _ _ Hi') as [En Es].
  split_and!; [|split|by rewrite Ek|intros j Hj; rewrite Ek; by apply Ej1|done|done|done].
  - unfold ip_get. rewrite bind_gets. fold i. by rewrite (run_bind _ _ _ _ _ R1).
  - by eapply intx_rebase.
  - by rewrite Es.
  - done.
  - rewrite Ek. apply (file_ok_same s sz sb V V' _ W4); [done|]. intros n Hn _. apply Ho'. by apply not_eq_sym, (db_inode _ _ _ _ _ Hn).
  - by rewrite Ek.
  - by rewrite En.
Qed.

(** Every block below the end of the file is allocated. *)
Definition no_holes (V : Z -> list Z) (i : inode) : Prop :=
  0 <= i_size i <= MAXFILE * BSIZE /\ forall b, 0 <= b -> b * BSIZE < i_size i -> fblk V (i_addrs i) b <> 0.

(** The effect of a write of [n] bytes of [f] at [off]. *)
Record file_written (ip : nat) (off n : Z) (f : Z -> Z) (k : kernel) (V : Z -> list Z) (k' : kernel) (V' : Z -> list Z) : Prop := {
  wr_bytes_of : forall x, 0 <= x < MAXFILE * BSIZE -> fbyte V' (i_addrs (get_inode k' ip)) x =
    if decide (off <= x < off + n) then u8 (f (x - off)) else fbyte V (i_addrs (get_inode k ip)) x;
  wr_inode : get_inode k' ip =
    set_i_size (Z.max (i_size (get_inode k ip)) (off + n)) (set_i_addrs (i_addrs (get_inode k' ip)) (get_inode k ip));
  wr_inodes : forall j, j <> ip -> get_inode k' j = get_inode k j;
  wr_entries : forall j, 0 <= j < sb_ninodes sb ->
    inode_entry sb V' j = if decide (j = i_inum (get_inode k ip)) then inode_dinode (get_inode k' ip) else inode_entry sb V j;
  wr_others : forall m, data_block V m -> new_block V (i_addrs (get_inode k ip)) m -> V' m = V m;
  wr_no_holes : no_holes V (get_inode k ip) -> no_holes V' (get_inode k' ip)
}.

Lemma writei_run k p bl V D H ip off n f :
  let i := get_inode k ip in let l := blocks_of off n in
  wctx k p bl V D H ip -> 0 <= i_inum i < sb_ninodes sb -> dinode_ok (inode_dinode i) ->
  0 <= off <= i_size i -> 0 < n -> off + n <= MAXFILE * BSIZE ->
  enough k bl V ip l ->
  exists k' bl' V', writei ip (KernSrc f) off n k = Ok n k' /\ wctx k' p bl' V' D H ip /\
    file_written ip off n f k V k' V' /\ (length bl' <= length bl + (1 + length l + news V (i_addrs i) l + slack (i_addrs i) bl))%nat.
Proof.
  intros i l HW Hin Hok Hoff Hn Hmax Hen. pose proof (do_size _ Hok) as Hsz. change (d_size (inode_dinode i)) with (i_size i) in Hsz.
  assert (Hm2 : MAXFILE * BSIZE = 274432) by done. unfold writei. mrun. fold i.
  rewrite (u32_id (off + n)) by lia.
  rewrite (proj2 (Z.ltb_ge (i_size i) off)), (proj2 (Z.ltb_ge (off + n) off)), (proj2 (Z.ltb_ge (MAXFILE * BSIZE) (off + n))) by lia. cbn [orb].
  destruct (writei_loop k p bl V D H ip n (io_fuel n) 0 off f HW) as (k1 & bl1 & V1 & R1 & HW1 & S1 & HB1 & HC1);
    [lia|lia|lia|by rewrite Z.sub_0_r|unfold io_fuel; lia|unfold io_fuel; change BSIZE with 1024 in *; zlia|].
  rewrite Z.sub_0_r in R1, S1, HB1, HC1. fold l i in S1, HB1, HC1. rewrite (run_bind _ _ _ _ _ R1). cbn match.
  rewrite (proj2 (Z.ltb_lt 0 n)) by lia. set (i1 := get_inode k1 ip) in *. pose proof (ws_node _ _ _ _ _ _ _ _ _ _ _ _ S1) as E1. fold i i1 in E1.
  assert (Hin1 : i_inum i1 = i_inum i) by (by rewrite E1). assert (Hsz1 : i_size i1 = i_size i) by (by rewrite E1).
  pose proof (wc_file _ _ _ _ _ _ _ _ _ _ _ HW1) as HF1. fold i1 in HF1.
  assert (Hok1 : dinode_ok (inode_dinode i1)).
  { destruct Hok as [O1 O2 O3 O4 O5 O6 O7]. rewrite E1. split; try done; cbn -[Z.to_nat].
    - by eapply file_ok_addrs, HF1; apply HW1.
    - rewrite (fo_len _ _ _ _ _ HF1). lia. }
  pose proof (ws_log _ _ _ _ _ _ _ _ _ _ _ _ S1) as L1. fold i i1 in L1. destruct Hen as [Hroom _]. fold i in Hroom.
  destruct (writei_finish k1 p bl1 V1 D H ip (off + n) HW1) as (k2 & V2 & R2 & HW2 & E2 & Ej2 & He2 & Ho2 & HD2);
    [fold i1; by rewrite Hin1|done|lia|unfold FsBmap.roomy in *; lia|]. fold i1 in HW2, E2, He2, Ho2.
  set (bl2 := blocks_with bl1 (IBLOCK (i_inum i1) sb)) in *.
  pose proof (blocks_with_length bl1 (IBLOCK (i_inum i1) sb)) as L2. fold bl2 in L2.
  assert (Ea : i_addrs (get_inode k2 ip) = i_addrs i1) by (by rewrite E2).
  destruct (file_ok_same s sz sb V1 V2 (i_addrs i1) HF1) as (_ & HB2 & HC2); [done| |].
  { intros m Hm _. apply Ho2. apply not_eq_sym, (db_inode _ _ _ _ _ Hm). by rewrite Hin1. }
  pose proof (ws_frame _ _ _ _ _ _ _ _ _ _ _ _ S1) as HR1. fold i i1 in HR1.
  exists k2, bl2, V2. split_and!; [|done|split|lia].
  - erewrite run_bind by exact R2. f_equal. apply s32_id. lia.
  - intros x Hx. rewrite Ea. rewrite <- HC1 by done. unfold fbyte. rewrite HC2; [done|].
    change BSIZE with 1024 in *. change MAXFILE with 268 in *. zlia.
  - rewrite Ea, E2, Hsz1. rewrite E1 at 1. done.
  - intros j Hj. rewrite Ej2 by done. by apply (ws_nodes _ _ _ _ _ _ _ _ _ _ _ _ S1).
  - intros j Hj. fold i. rewrite E2, He2, Hin1 by done. case_decide; [done|]. unfold inode_entry. by rewrite (ff_table _ _ _ _ _ _ _ HR1).
  - intros m Hm Hnew. destruct (ff_other _ _ _ _ _ _ _ HR1 m Hm Hnew) as (Hm1 & _ & E). rewrite Ho2; [done|].
    apply not_eq_sym, (db_inode _ _ _ _ _ Hm1). by rewrite Hin1.
  - intros [Hs0 Hh]. fold i in Hs0, Hh. split; rewrite ?Ea, E2; cbn [i_size set_i_size]; rewrite Hsz1; [lia|].
    intros b Hb Hbs. rewrite HB2. destruct (decide (b * BSIZE < i_size i)) as [Hlt|Hge].
    + rewrite (ff_keep _ _ _ _ _ _ _ HR1); [by apply Hh| |by apply Hh]. split; [done|]. change BSIZE with 1024 in *. change MAXFILE with 268 in *. lia.
    + apply HB1. replace b with ((b * BSIZE) / BSIZE) by (by apply Z.div_mul). apply blocks_of_in; [lia|]. lia.
Qed.
End write.
