(* ===== verification/Virtio.v ===== *)
(** * kernel/virtio_disk.c: the disk driver

    The driver and the device share the descriptor table, the ring of
    available chains and the ring of used chains.  A pointer that goes into a
    descriptor is kept as what it points to: a command header, a buffer's data
    or a status byte of the driver.

    Threads call [virtio_disk_rw] and the interrupt handler runs at any time,
    but all of their code runs under [vdisk_lock], so the code between two
    points where the lock is given up runs as one step: the entry of the call
    up to a [sleep], from the return of [sleep] to the next one or to the
    return of the call, and the whole interrupt handler.  What the device may
    do between those is what the standard allows it: take the next available
    chain, and complete any chain it has taken. *)

From S2P Require Export State.

(** ** virtio.h *)

Definition VIRTIO_MMIO_MAGIC_VALUE : Z := 0x000.
Definition VIRTIO_MMIO_VERSION : Z := 0x004.
Definition VIRTIO_MMIO_DEVICE_ID : Z := 0x008.
Definition VIRTIO_MMIO_VENDOR_ID : Z := 0x00c.
Definition VIRTIO_MMIO_DEVICE_FEATURES : Z := 0x010.
Definition VIRTIO_MMIO_DRIVER_FEATURES : Z := 0x020.
Definition VIRTIO_MMIO_GUEST_PAGE_SIZE : Z := 0x028.
Definition VIRTIO_MMIO_QUEUE_SEL : Z := 0x030.
Definition VIRTIO_MMIO_QUEUE_NUM_MAX : Z := 0x034.
Definition VIRTIO_MMIO_QUEUE_NUM : Z := 0x038.
Definition VIRTIO_MMIO_QUEUE_PFN : Z := 0x040.
Definition VIRTIO_MMIO_QUEUE_NOTIFY : Z := 0x050.
Definition VIRTIO_MMIO_INTERRUPT_STATUS : Z := 0x060.
Definition VIRTIO_MMIO_INTERRUPT_ACK : Z := 0x064.
Definition VIRTIO_MMIO_STATUS : Z := 0x070.

Definition VIRTIO_CONFIG_S_ACKNOWLEDGE : Z := 1.
Definition VIRTIO_CONFIG_S_DRIVER : Z := 2.
Definition VIRTIO_CONFIG_S_DRIVER_OK : Z := 4.
Definition VIRTIO_CONFIG_S_FEATURES_OK : Z := 8.

Definition VIRTIO_BLK_F_RO : Z := 5.
Definition VIRTIO_BLK_F_SCSI : Z := 7.
Definition VIRTIO_BLK_F_CONFIG_WCE : Z := 11.
Definition VIRTIO_BLK_F_MQ : Z := 12.
Definition VIRTIO_F_ANY_LAYOUT : Z := 27.
Definition VIRTIO_RING_F_INDIRECT_DESC : Z := 28.
Definition VIRTIO_RING_F_EVENT_IDX : Z := 29.

Definition NUM : nat := 8.

Definition VRING_DESC_F_NEXT : Z := 1.
Definition VRING_DESC_F_WRITE : Z := 2.
Definition VIRTIO_BLK_T_IN : Z := 0.
Definition VIRTIO_BLK_T_OUT : Z := 1.

(** What an address in a descriptor points to. *)
Inductive vaddr := ANull | AOps (i : nat) | AData (b : nat) | AStatus (i : nat).

Record virtq_desc := mkDesc { q_addr : vaddr; q_len : Z; q_flags : Z; q_next : nat }.
Record virtio_blk_req := mkReq { r_type : Z; r_reserved : Z; r_sector : Z }.
Record dinfo := mkInfo { in_b : option nat; in_status : Z }.

Definition desc0 : virtq_desc := mkDesc ANull 0 0 0.
#[global] Instance virtq_desc_inhabited : Inhabited virtq_desc := populate desc0.
#[global] Instance virtio_blk_req_inhabited : Inhabited virtio_blk_req := populate (mkReq 0 0 0).
#[global] Instance dinfo_inhabited : Inhabited dinfo := populate (mkInfo None 0).

Definition sizeof_blk_req : Z := 16.

(** ** The state *)

(** The fields of a [struct buf] the driver uses. *)
Record vbuf := mkVbuf { vb_blockno : Z; vb_disk : Z; vb_data : list Z }.
#[global] Instance vbuf_inhabited : Inhabited vbuf := populate (mkVbuf 0 0 []).

(** Where a thread is in [virtio_disk_rw(b, write)]: outside, in
    [sleep(&disk.free[0], ...)], or in [sleep(b, ...)] with its descriptors. *)
Inductive vpc :=
  | VIdle
  | VWaitDesc (b : nat) (write : bool)
  | VWaitIO (b : nat) (write : bool) (idx : list nat).

(** A thread in [sleep] runs again after a [wakeup] on its channel. *)
Record vthread := mkVthread { th_pc : vpc; th_asleep : bool }.
#[global] Instance vthread_inhabited : Inhabited vthread := populate (mkVthread VIdle false).

Inductive vchan := ChFree | ChBuf (b : nat).

Definition vchan_of (p : vpc) : option vchan :=
  match p with VIdle => None | VWaitDesc _ _ => Some ChFree | VWaitIO b _ _ => Some (ChBuf b) end.

#[global] Instance vpc_eq_dec : EqDecision vpc.
Proof. solve_decision. Defined.

#[global] Instance vchan_eq_dec : EqDecision vchan.
Proof. solve_decision. Defined.

(** [struct disk]; the buffers, the threads and the writes to the device's
    registers; and the device: how far it has read the ring of available
    chains, the chains it has taken, and the bytes of the disk. *)
Record vdisk := mkVdisk {
  v_desc : list virtq_desc;
  v_avail_idx : Z;
  v_avail_ring : list nat;
  v_used_idx : Z;
  v_used_ring : list nat;
  v_free : list Z;
  v_seen : Z;
  v_info : list dinfo;
  v_ops : list virtio_blk_req;
  v_locked : bool;
  v_buf : list vbuf;
  v_threads : list vthread;
  v_regs : list (Z * Z);
  d_seen : Z;
  d_taken : list nat;
  d_disk : Z -> Z
}.

Definition eta_vdisk (v : vdisk) : vdisk :=
  mkVdisk (v_desc v) (v_avail_idx v) (v_avail_ring v) (v_used_idx v) (v_used_ring v) (v_free v) (v_seen v)
    (v_info v) (v_ops v) (v_locked v) (v_buf v) (v_threads v) (v_regs v) (d_seen v) (d_taken v) (d_disk v).

Definition set_v_desc (x : list virtq_desc) (v : vdisk) : vdisk := ltac:(setter eta_vdisk v_desc).
Definition set_v_avail_idx (x : Z) (v : vdisk) : vdisk := ltac:(setter eta_vdisk v_avail_idx).
Definition set_v_avail_ring (x : list nat) (v : vdisk) : vdisk := ltac:(setter eta_vdisk v_avail_ring).
Definition set_v_used_idx (x : Z) (v : vdisk) : vdisk := ltac:(setter eta_vdisk v_used_idx).
Definition set_v_used_ring (x : list nat) (v : vdisk) : vdisk := ltac:(setter eta_vdisk v_used_ring).
Definition set_v_free (x : list Z) (v : vdisk) : vdisk := ltac:(setter eta_vdisk v_free).
Definition set_v_seen (x : Z) (v : vdisk) : vdisk := ltac:(setter eta_vdisk v_seen).
Definition set_v_info (x : list dinfo) (v : vdisk) : vdisk := ltac:(setter eta_vdisk v_info).
Definition set_v_ops (x : list virtio_blk_req) (v : vdisk) : vdisk := ltac:(setter eta_vdisk v_ops).
Definition set_v_locked (x : bool) (v : vdisk) : vdisk := ltac:(setter eta_vdisk v_locked).
Definition set_v_buf (x : list vbuf) (v : vdisk) : vdisk := ltac:(setter eta_vdisk v_buf).
Definition set_v_threads (x : list vthread) (v : vdisk) : vdisk := ltac:(setter eta_vdisk v_threads).
Definition set_v_regs (x : list (Z * Z)) (v : vdisk) : vdisk := ltac:(setter eta_vdisk v_regs).
Definition set_d_seen (x : Z) (v : vdisk) : vdisk := ltac:(setter eta_vdisk d_seen).
Definition set_d_taken (x : list nat) (v : vdisk) : vdisk := ltac:(setter eta_vdisk d_taken).
Definition set_d_disk (x : Z -> Z) (v : vdisk) : vdisk := ltac:(setter eta_vdisk d_disk).

Abbreviation VD := (M vdisk).

Definition upd_desc (i : nat) (f : virtq_desc -> virtq_desc) (v : vdisk) : vdisk := set_v_desc (alter f i (v_desc v)) v.
Definition upd_info (i : nat) (f : dinfo -> dinfo) (v : vdisk) : vdisk := set_v_info (alter f i (v_info v)) v.
Definition upd_vbuf (b : nat) (f : vbuf -> vbuf) (v : vdisk) : vdisk := set_v_buf (alter f b (v_buf v)) v.
Definition set_vb_disk (x : Z) (b : vbuf) : vbuf := mkVbuf (vb_blockno b) x (vb_data b).
Definition set_vb_data (x : list Z) (b : vbuf) : vbuf := mkVbuf (vb_blockno b) (vb_disk b) x.

(** [*R(r) = x] *)
Definition reg_write (r x : Z) : VD unit := modify (fun v => set_v_regs (v_regs v ++ [(r, x)]) v).

(** [acquire] and [release] of [vdisk_lock] by code that runs to the end. *)
Definition vacquire : VD unit :=
  l ← gets v_locked;
  if (l : bool) then block else modify (set_v_locked true).
Definition vrelease : VD unit :=
  l ← gets v_locked;
  if (l : bool) then modify (set_v_locked false) else panic "release".

Definition vwake (c : vchan) (t : vthread) : vthread :=
  if decide (vchan_of (th_pc t) = Some c) then mkVthread (th_pc t) false else t.

Definition vwakeup (c : vchan) : VD unit := modify (fun v => set_v_threads (vwake c <$> v_threads v) v).

(** [sleep(chan, &disk.vdisk_lock)] of thread [t]: the lock is released and the
    step ends; [p] is where the thread goes on, and gives the channel. *)
Definition vsleep (t : nat) (p : vpc) : VD unit :=
  modify (fun v => set_v_threads (<[t := mkVthread p true]> (v_threads v)) v);;
  vrelease.

#[export] Hint Unfold reg_write vacquire vrelease vwakeup vsleep : krun.

(** ** The driver *)

Section driver.
(** What the device answers to reads of its registers. *)
Context (mmio : Z -> Z).

Definition features_off (f bit : Z) : Z := Z.land f (Z.lnot (Z.shiftl 1 bit)).

Definition virtio_disk_init : VD unit :=
  modify (set_v_locked false);;      (* initlock *)
  if negb (mmio VIRTIO_MMIO_MAGIC_VALUE =? 0x74726976) || negb (mmio VIRTIO_MMIO_VERSION =? 1)
     || negb (mmio VIRTIO_MMIO_DEVICE_ID =? 2) || negb (mmio VIRTIO_MMIO_VENDOR_ID =? 0x554d4551)
  then panic "could not find virtio disk" else
  let status := Z.lor 0 VIRTIO_CONFIG_S_ACKNOWLEDGE in
  reg_write VIRTIO_MMIO_STATUS status;;
  let status := Z.lor status VIRTIO_CONFIG_S_DRIVER in
  reg_write VIRTIO_MMIO_STATUS status;;
  (* negotiate features *)
  let features := u64 (mmio VIRTIO_MMIO_DEVICE_FEATURES) in
  let features := features_off features VIRTIO_BLK_F_RO in
  let features := features_off features VIRTIO_BLK_F_SCSI in
  let features := features_off features VIRTIO_BLK_F_CONFIG_WCE in
  let features := features_off features VIRTIO_BLK_F_MQ in
  let features := features_off features VIRTIO_F_ANY_LAYOUT in
  let features := features_off features VIRTIO_RING_F_EVENT_IDX in
  let features := features_off features VIRTIO_RING_F_INDIRECT_DESC in
  reg_write VIRTIO_MMIO_DRIVER_FEATURES (u32 features);;
  let status := Z.lor status VIRTIO_CONFIG_S_FEATURES_OK in
  reg_write VIRTIO_MMIO_STATUS status;;
  let status := Z.lor status VIRTIO_CONFIG_S_DRIVER_OK in
  reg_write VIRTIO_MMIO_STATUS status;;
  reg_write VIRTIO_MMIO_GUEST_PAGE_SIZE PGSIZE;;
  reg_write VIRTIO_MMIO_QUEUE_SEL 0;;
  let max := u32 (mmio VIRTIO_MMIO_QUEUE_NUM_MAX) in
  if max =? 0 then panic "virtio disk has no queue 0" else
  if max <? Z.of_nat NUM then panic "virtio disk max queue too short" else
  reg_write VIRTIO_MMIO_QUEUE_NUM (Z.of_nat NUM);;
  (* memset(disk.pages, 0, sizeof(disk.pages)) *)
  modify (set_v_desc (replicate NUM desc0));;
  modify (set_v_avail_idx 0);;
  modify (set_v_avail_ring (replicate NUM 0%nat));;
  modify (set_v_used_idx 0);;
  modify (set_v_used_ring (replicate NUM 0%nat));;
  for_all (seq 0 NUM) (fun i => modify (fun v => set_v_free (<[i := 1]> (v_free v)) v)).

Definition alloc_desc : VD (option nat) :=
  for_each (seq 0 NUM) (fun i =>
    free ← gets (fun v => v_free v !!! i);
    if negb (free =? 0) then
      modify (fun v => set_v_free (<[i := 0]> (v_free v)) v);;
      mret (Some i)
    else mret None).

Definition free_desc (i : nat) : VD unit :=
  if (NUM <=? i)%nat then panic "free_desc 1" else
  free ← gets (fun v => v_free v !!! i);
  if negb (free =? 0) then panic "free_desc 2" else
  modify (upd_desc i (fun _ => desc0));;
  modify (fun v => set_v_free (<[i := 1]> (v_free v)) v);;
  vwakeup ChFree.

(** The loop ends at the latest when it would free a descriptor twice. *)
Definition free_chain (i : nat) : VD unit :=
  loop_with (S NUM) i (fun i =>
    d ← gets (fun v => v_desc v !!! i);
    let flag := q_flags d in
    let nxt := q_next d in
    free_desc i;;
    if negb (Z.land flag VRING_DESC_F_NEXT =? 0) then mret (inl nxt) else mret (inr tt)).

(** The rest of [alloc3_desc], with [idx] allocated: [n] more. *)
Fixpoint alloc_more (n : nat) (idx : list nat) : VD (option (list nat)) :=
  match n with
  | O => mret (Some idx)
  | S n =>
      i ← alloc_desc;
      match i with
      | Some i => alloc_more n (idx ++ [i])
      | None => for_all idx free_desc;; mret None
      end
  end.

Definition alloc3_desc : VD (option (list nat)) := alloc_more 3 [].

(** [virtio_disk_rw] from where it has its descriptors to the notification:
    the three descriptors are formatted and the device is told. *)
Definition rw_submit (b : nat) (write : bool) (idx : list nat) : VD unit :=
  blockno ← gets (fun v => vb_blockno (v_buf v !!! b));
  let sector := u32 (blockno * (BSIZE / 512)) in
  let i0 := idx !!! 0%nat in let i1 := idx !!! 1%nat in let i2 := idx !!! 2%nat in
  modify (fun v => set_v_ops (<[i0 := mkReq (if write then VIRTIO_BLK_T_OUT else VIRTIO_BLK_T_IN) 0 sector]> (v_ops v)) v);;
  modify (upd_desc i0 (fun _ => mkDesc (AOps i0) sizeof_blk_req VRING_DESC_F_NEXT i1));;
  modify (upd_desc i1 (fun _ => mkDesc (AData b) BSIZE (Z.lor (if write then 0 else VRING_DESC_F_WRITE) VRING_DESC_F_NEXT) i2));;
  modify (upd_info i0 (fun x => mkInfo (in_b x) 0xff));;
  modify (upd_desc i2 (fun _ => mkDesc (AStatus i0) 1 VRING_DESC_F_WRITE 0));;
  modify (upd_vbuf b (set_vb_disk 1));;
  modify (upd_info i0 (fun x => mkInfo (Some b) (in_status x)));;
  modify (fun v => set_v_avail_ring (<[Z.to_nat (v_avail_idx v mod Z.of_nat NUM) := i0]> (v_avail_ring v)) v);;
  modify (fun v => set_v_avail_idx (u16 (v_avail_idx v + 1)) v);;
  reg_write VIRTIO_MMIO_QUEUE_NOTIFY 0.

(** [while(b->disk == 1) sleep(b, ...)], and the end of the call. *)
Definition rw_wait (t b : nat) (write : bool) (idx : list nat) : VD unit :=
  d ← gets (fun v => vb_disk (v_buf v !!! b));
  if d =? 1 then vsleep t (VWaitIO b write idx) else
  modify (upd_info (idx !!! 0%nat) (fun x => mkInfo None (in_status x)));;
  free_chain (idx !!! 0%nat);;
  modify (fun v => set_v_threads (<[t := mkVthread VIdle false]> (v_threads v)) v);;
  vrelease.

(** One round of [while(1) { if(alloc3_desc(idx) == 0) break; sleep(...); }],
    and what follows the loop. *)
Definition rw_alloc (t b : nat) (write : bool) : VD unit :=
  r ← alloc3_desc;
  match r with
  | None => vsleep t (VWaitDesc b write)
  | Some idx =>
      rw_submit b write idx;;
      rw_wait t b write idx
  end.

Definition rw_begin (t b : nat) (write : bool) : VD unit :=
  vacquire;;
  rw_alloc t b write.

(** [sleep] returns with the lock held, and the thread goes on. *)
Definition rw_resume (t : nat) : VD unit :=
  p ← gets (fun v => th_pc (v_threads v !!! t));
  vacquire;;
  match p with
  | VIdle => vrelease
  | VWaitDesc b write => rw_alloc t b write
  | VWaitIO b write idx => rw_wait t b write idx
  end.

(** The loop over the used ring; at most [2^16 - 1] entries are new. *)
Definition intr_body (_ : unit) : VD (unit + unit) :=
  seen ← gets v_seen;
  used ← gets v_used_idx;
  if negb (seen =? used) then
    id ← gets (fun v => v_used_ring v !!! Z.to_nat (seen mod Z.of_nat NUM));
    status ← gets (fun v => in_status (v_info v !!! id));
    if negb (status =? 0) then panic "virtio_disk_intr status" else
    b ← gets (fun v => in_b (v_info v !!! id));
    match b with
    | None => panic "kerneltrap"      (* b->disk of a null pointer *)
    | Some b =>
        modify (upd_vbuf b (set_vb_disk 0));;
        vwakeup (ChBuf b);;
        modify (fun v => set_v_seen (u16 (v_seen v + 1)) v);;
        mret (inl tt)
    end
  else mret (inr tt).

Definition intr_fuel (v : vdisk) : nat := S (Z.to_nat (u16 (v_used_idx v - v_seen v))).

Definition virtio_disk_intr : VD unit :=
  vacquire;;
  reg_write VIRTIO_MMIO_INTERRUPT_ACK (Z.land (mmio VIRTIO_MMIO_INTERRUPT_STATUS) 0x3);;
  fuel ← gets intr_fuel;
  loop_with fuel tt intr_body;;
  vrelease.
End driver.

(** ** The device

    What section 2.6 of the standard lets the device do with the rings, and
    section 5.2 with a block request. *)

(** The next chain of the available ring is taken. *)
Definition dev_take (v : vdisk) : option vdisk :=
  if d_seen v =? v_avail_idx v then None else
  Some (set_d_taken (d_taken v ++ [v_avail_ring v !!! Z.to_nat (d_seen v mod Z.of_nat NUM)])
         (set_d_seen (u16 (d_seen v + 1)) v)).

(** The bytes of [len] bytes of the disk from [sector] on, and their change. *)
Definition disk_get (d : Z -> Z) (sector len : Z) : list Z :=
  (fun i => d (512 * sector + Z.of_nat i)) <$> seq 0 (Z.to_nat len).
Definition disk_put (sector len : Z) (data : list Z) (d : Z -> Z) : Z -> Z := fun a =>
  if (512 * sector <=? a) && (a <? 512 * sector + len) then data !!! Z.to_nat (a - 512 * sector) else d a.

Definition has_flag (d : virtq_desc) (f : Z) : bool := negb (Z.land (q_flags d) f =? 0).

(** The transfer a chain asks for. *)
Definition dev_transfer (h : nat) (v : vdisk) : option vdisk :=
  let d0 := v_desc v !!! h in
  let d1 := v_desc v !!! q_next d0 in
  match q_addr d0, q_addr d1 with
  | AOps k, AData b =>
      let r := v_ops v !!! k in
      if negb (has_flag d0 VRING_DESC_F_NEXT && has_flag d1 VRING_DESC_F_NEXT) then None else
      if (r_type r =? VIRTIO_BLK_T_OUT) && negb (has_flag d1 VRING_DESC_F_WRITE) then
        Some (set_d_disk (disk_put (r_sector r) (q_len d1) (vb_data (v_buf v !!! b)) (d_disk v)) v)
      else if (r_type r =? VIRTIO_BLK_T_IN) && has_flag d1 VRING_DESC_F_WRITE then
        Some (upd_vbuf b (set_vb_data (disk_get (d_disk v) (r_sector r) (q_len d1))) v)
      else None
  | _, _ => None
  end.

(** The status is written and the chain put into the used ring. *)
Definition dev_finish (h : nat) (v : vdisk) : option vdisk :=
  let d2 := v_desc v !!! q_next (v_desc v !!! q_next (v_desc v !!! h)) in
  match q_addr d2 with
  | AStatus i =>
      if has_flag d2 VRING_DESC_F_WRITE && negb (has_flag d2 VRING_DESC_F_NEXT) then
        Some (set_v_used_idx (u16 (v_used_idx v + 1))
               (set_v_used_ring (<[Z.to_nat (v_used_idx v mod Z.of_nat NUM) := h]> (v_used_ring v))
                 (upd_info i (fun x => mkInfo (in_b x) 0) v)))
      else None
  | _ => None
  end.

(** A taken chain is completed, in any order. *)
Definition dev_complete (h : nat) (v : vdisk) : option vdisk :=
  if decide (h ∈ d_taken v) then
    v ← dev_transfer h v;
    v ← dev_finish h v;
    Some (set_d_taken (filter (fun x => x <> h) (d_taken v)) v)
  else None.

(** ** Steps

    A thread calls with a buffer that is locked for it, so no other call is
    under way with the same buffer. *)

Definition busy_with (b : nat) (t : vthread) : bool :=
  match th_pc t with VIdle => false | VWaitDesc b' _ | VWaitIO b' _ _ => (b =? b')%nat end.

(** A step of a call under way, of the interrupt handler or of the device. *)
Inductive vrun (mmio : Z -> Z) (v : vdisk) : outcome vdisk unit -> Prop :=
  | vrun_resume t p : v_threads v !! t = Some (mkVthread p false) -> p <> VIdle -> vrun mmio v (rw_resume t v)
  | vrun_intr : vrun mmio v (virtio_disk_intr mmio v)
  | vrun_take v' : dev_take v = Some v' -> vrun mmio v (Ok tt v')
  | vrun_complete h v' : dev_complete h v = Some v' -> vrun mmio v (Ok tt v').

Inductive vstep (mmio : Z -> Z) (v : vdisk) : outcome vdisk unit -> Prop :=
  | vstep_call t b write : v_threads v !! t = Some (mkVthread VIdle false) -> (b < length (v_buf v))%nat ->
      forallb (fun th => negb (busy_with b th)) (v_threads v) = true ->
      vstep mmio v (rw_begin t b write v)
  | vstep_run o : vrun mmio v o -> vstep mmio v o.

(** The memory of the driver before [virtio_disk_init], and a device nobody
    has talked to. *)
Record vbss (v : vdisk) : Prop := {
  vb_lens : length (v_free v) = NUM /\ length (v_info v) = NUM /\ length (v_ops v) = NUM;
  vb_idle : Forall (fun th => th = mkVthread VIdle false) (v_threads v);
  vb_zero : v_seen v = 0 /\ d_seen v = 0 /\ d_taken v = []
}.

Definition vreach (mmio : Z -> Z) (v : vdisk) : Prop := exists v0 v1,
  vbss v0 /\ virtio_disk_init mmio v0 = Ok tt v1 /\ rtc (fun v v' => vstep mmio v (Ok tt v')) v1 v.
