(* ===== verification/VirtioSpec.v ===== *)
(** * The disk driver: invariant, refinement and progress

    The driver and the device of Virtio.v, under any interleaving of calls of
    any number of threads, interrupts and steps of the device.  No code of the
    driver panics; the calls are those of a disk that transfers a block in one
    step, somewhere between call and return; and every call returns. *)

From S2P Require Export Virtio.

(** ** Rings *)

Definition ring_at (ring : list nat) (i : Z) : nat := ring !!! Z.to_nat (i mod Z.of_nat NUM).

(** The entries from index [s] up to [e], two 16-bit counters. *)
Definition ring_list (ring : list nat) (s e : Z) : list nat :=
  (fun k => ring_at ring (u16 (s + Z.of_nat k))) <$> seq 0 (Z.to_nat (u16 (e - s))).

Definition is_u16 (z : Z) : Prop := 0 <= z < 65536.

Lemma u16_is z : is_u16 (u16 z).
Proof. unfold u16, is_u16. zlia. Qed.

Lemma u16_id z : is_u16 z -> u16 z = z.
Proof. intros [? ?]. unfold u16. by apply Z.mod_small. Qed.

Lemma ring_list_nil ring s : ring_list ring s s = [].
Proof. unfold ring_list. by rewrite Z.sub_diag. Qed.

Lemma ring_list_cons ring s e :
  is_u16 s -> is_u16 e -> s <> e -> ring_list ring s e = ring_at ring s :: ring_list ring (u16 (s + 1)) e.
Proof.
  intros Hs He Hne. unfold ring_list.
  assert (E : Z.to_nat (u16 (e - s)) = S (Z.to_nat (u16 (e - u16 (s + 1))))) by (unfold u16, is_u16 in *; zlia).
  rewrite E. cbn [seq fmap list_fmap]. f_equal.
  - rewrite Z.add_0_r. by rewrite u16_id.
  - rewrite <- fmap_S_seq, <- list_fmap_compose. apply list_fmap_ext. intros i j _. unfold compose. f_equal.
    unfold u16, is_u16 in *. zlia.
Qed.

Lemma ring_list_length ring s e : length (ring_list ring s e) = Z.to_nat (u16 (e - s)).
Proof. unfold ring_list. by rewrite length_fmap, length_seq. Qed.

Lemma ring_list_push ring s e h :
  length ring = NUM -> is_u16 s -> is_u16 e -> (length (ring_list ring s e) < NUM)%nat ->
  ring_list (<[Z.to_nat (e mod Z.of_nat NUM) := h]> ring) s (u16 (e + 1)) = ring_list ring s e ++ [h].
Proof.
  rewrite ring_list_length. intros Hl Hs He Hn. unfold ring_list. change NUM with 8%nat in *.
  assert (E : Z.to_nat (u16 (u16 (e + 1) - s)) = S (Z.to_nat (u16 (e - s)))) by (unfold u16, is_u16 in *; zlia).
  rewrite E, seq_S, fmap_app. cbn [fmap list_fmap]. f_equal.
  - apply list_fmap_ext. intros i j Hj%lookup_seq. unfold ring_at. apply list_lookup_total_insert_ne.
    change (Z.of_nat NUM) with 8. change (Z.of_nat 8) with 8. unfold u16, is_u16 in *. zlia.
  - f_equal. unfold ring_at. change (Z.of_nat NUM) with 8. change (Z.of_nat 8) with 8.
    replace (u16 (s + Z.of_nat (0 + Z.to_nat (u16 (e - s))))) with e by (unfold u16, is_u16 in *; zlia).
    apply list_lookup_total_insert_eq. rewrite Hl. unfold is_u16 in *. zlia.
Qed.

(** ** The invariant *)

Definition vqueue (v : vdisk) : list nat := ring_list (v_avail_ring v) (d_seen v) (v_avail_idx v).
Definition vused (v : vdisk) : list nat := ring_list (v_used_ring v) (v_seen v) (v_used_idx v).

(** The chains the device has not completed, and those in flight. *)
Definition vpending (v : vdisk) : list nat := vqueue v ++ d_taken v.
Definition vflight (v : vdisk) : list nat := vpending v ++ vused v.

Definition chain_of (th : vthread) : list nat :=
  match th_pc th with VWaitIO _ _ idx => idx | _ => [] end.

Definition sector_of (v : vdisk) (b : nat) : Z := u32 (vb_blockno (v_buf v !!! b) * (BSIZE / 512)).

(** The three descriptors of a request, its header and its book-keeping. *)
Record chain_ok (v : vdisk) (b : nat) (w : bool) (i0 i1 i2 : nat) : Prop := {
  co_nodup : NoDup [i0; i1; i2];
  co_num : (i0 < NUM /\ i1 < NUM /\ i2 < NUM)%nat;
  co_d0 : v_desc v !!! i0 = mkDesc (AOps i0) sizeof_blk_req VRING_DESC_F_NEXT i1;
  co_d1 : v_desc v !!! i1 = mkDesc (AData b) BSIZE (Z.lor (if w then 0 else VRING_DESC_F_WRITE) VRING_DESC_F_NEXT) i2;
  co_d2 : v_desc v !!! i2 = mkDesc (AStatus i0) 1 VRING_DESC_F_WRITE 0;
  co_ops : v_ops v !!! i0 = mkReq (if w then VIRTIO_BLK_T_OUT else VIRTIO_BLK_T_IN) 0 (sector_of v b);
  co_info : in_b (v_info v !!! i0) = Some b;
  co_status : i0 ∈ vused v -> in_status (v_info v !!! i0) = 0
}.

Record vinv (v : vdisk) : Prop := {
  vi_lens : length (v_desc v) = NUM /\ length (v_avail_ring v) = NUM /\ length (v_used_ring v) = NUM /\
    length (v_free v) = NUM /\ length (v_info v) = NUM /\ length (v_ops v) = NUM;
  vi_u16 : is_u16 (v_avail_idx v) /\ is_u16 (v_used_idx v) /\ is_u16 (v_seen v) /\ is_u16 (d_seen v);
  (* each request has its chain, and its buffer is marked as long as it is in flight *)
  vi_chain : forall t b w idx s, v_threads v !! t = Some (mkVthread (VWaitIO b w idx) s) ->
    exists i0 i1 i2, idx = [i0; i1; i2] /\ chain_ok v b w i0 i1 i2 /\
      vb_disk (v_buf v !!! b) = (if decide (i0 ∈ vflight v) then 1 else 0) /\ (s = true -> i0 ∈ vflight v);
  vi_busy : forall t th b, v_threads v !! t = Some th -> busy_with b th = true -> (b < length (v_buf v))%nat;
  (* no two requests share a buffer or a descriptor *)
  vi_bufs : forall t t' th th' b, v_threads v !! t = Some th -> v_threads v !! t' = Some th' ->
    busy_with b th = true -> busy_with b th' = true -> t = t';
  vi_apart : forall t t' th th' i, v_threads v !! t = Some th -> v_threads v !! t' = Some th' ->
    i ∈ chain_of th -> i ∈ chain_of th' -> t = t';
  vi_free : forall i, (i < NUM)%nat ->
    (v_free v !!! i = 0 /\ exists t th, v_threads v !! t = Some th /\ i ∈ chain_of th) \/
    (v_free v !!! i = 1 /\ forall t th, v_threads v !! t = Some th -> ~ i ∈ chain_of th);
  (* what is in flight are heads of requests, each once *)
  vi_nodup : NoDup (vflight v);
  vi_heads : forall h, h ∈ vflight v -> exists t b w i1 i2 s, v_threads v !! t = Some (mkVthread (VWaitIO b w [h; i1; i2]) s);
  (* who sleeps for descriptors sleeps because two requests have them *)
  vi_sleep : forall t b w, v_threads v !! t = Some (mkVthread (VWaitDesc b w) true) ->
    exists t1 t2 th1 th2, v_threads v !! t1 = Some th1 /\ v_threads v !! t2 = Some th2 /\ t1 <> t2 /\
      chain_of th1 <> [] /\ chain_of th2 <> [];
  vi_idle : forall t s, v_threads v !! t = Some (mkVthread VIdle s) -> s = false
}.

(** ** Allocation of descriptors *)

Definition first_free (free : list Z) : option nat := List.find (fun i => negb (free !!! i =? 0)) (seq 0 NUM).

Lemma alloc_desc_run v :
  alloc_desc v = match first_free (v_free v) with
    | Some i => Ok (Some i) (set_v_free (<[i := 0]> (v_free v)) v)
    | None => Ok None v
    end.
Proof.
  unfold alloc_desc, first_free. induction (seq 0 NUM) as [|i l IH]; [done|]. cbn [for_each List.find]. rewrite bind_assoc. mrun.
  destruct (negb (v_free v !!! i =? 0)); [done|]. mrun. exact IH.
Qed.

Lemma first_free_some free i : first_free free = Some i -> (i < NUM)%nat /\ free !!! i <> 0.
Proof. intros [Hin H]%List.find_some. apply in_seq in Hin. apply negb_true_iff, Z.eqb_neq in H. split; [lia|done]. Qed.

Lemma first_free_none free i : first_free free = None -> (i < NUM)%nat -> free !!! i = 0.
Proof. intros H Hi. pose proof (List.find_none _ _ H i ltac:(apply in_seq; lia)) as E. by apply negb_false_iff, Z.eqb_eq in E. Qed.

Definition vwoken (c : vchan) (v : vdisk) : vdisk := set_v_threads (vwake c <$> v_threads v) v.

Lemma free_desc_run v i :
  (i < NUM)%nat -> v_free v !!! i = 0 ->
  free_desc i v = Ok tt (vwoken ChFree (set_v_free (<[i := 1]> (v_free v)) (upd_desc i (fun _ => desc0) v))).
Proof. intros Hi Hf. unfold free_desc. rewrite (proj2 (Nat.leb_gt _ _) Hi). mrun. rewrite Hf. done. Qed.

(** A scan that fails gives back what it took: [ds] and [ts] differ from the
    table and the threads by cleared free descriptors and wakeups. *)
Definition alloc_failed (v : vdisk) (J : list nat) (ds : list virtq_desc) (ts : list vthread) : Prop :=
  (length J <= 2)%nat /\ (forall i, (i < NUM)%nat -> v_free v !!! i <> 0 -> i ∈ J) /\ (forall i, i ∈ J -> v_free v !!! i <> 0) /\
  length ds = length (v_desc v) /\ (forall i, ~ i ∈ J -> ds !!! i = v_desc v !!! i) /\
  (ts = v_threads v \/ ts = vwake ChFree <$> v_threads v \/ ts = vwake ChFree <$> (vwake ChFree <$> v_threads v)).

Lemma alter_ne_total (ds : list virtq_desc) i j f : j <> i -> alter f i ds !!! j = ds !!! j.
Proof. intros H. rewrite !list_lookup_total_alt. by rewrite list_lookup_alter_ne. Qed.

Lemma insert_ne_total {A} `{Inhabited A} (l : list A) i j x : i <> j -> <[i := x]> l !!! j = l !!! j.
Proof. intros H'. by apply list_lookup_total_insert_ne. Qed.

Lemma insert_eq_total {A} `{Inhabited A} (l : list A) i x : (i < length l)%nat -> <[i := x]> l !!! i = x.
Proof. intros H'. by apply list_lookup_total_insert_eq. Qed.

Lemma alloc_step_some {B} v i (f : option nat -> VD B) :
  first_free (v_free v) = Some i -> (alloc_desc ≫= f) v = f (Some i) (set_v_free (<[i := 0]> (v_free v)) v).
Proof. intros E. apply run_bind. by rewrite alloc_desc_run, E. Qed.

Lemma alloc_step_none {B} v (f : option nat -> VD B) :
  first_free (v_free v) = None -> (alloc_desc ≫= f) v = f None v.
Proof. intros E. apply run_bind. by rewrite alloc_desc_run, E. Qed.

Lemma alloc3_run v :
  length (v_free v) = NUM -> (forall i, (i < NUM)%nat -> v_free v !!! i = 0 \/ v_free v !!! i = 1) ->
  (exists i0 i1 i2, NoDup [i0; i1; i2] /\ (i0 < NUM /\ i1 < NUM /\ i2 < NUM)%nat /\
     (v_free v !!! i0 <> 0 /\ v_free v !!! i1 <> 0 /\ v_free v !!! i2 <> 0) /\
     alloc3_desc v = Ok (Some [i0; i1; i2]) (set_v_free (<[i2 := 0]> (<[i1 := 0]> (<[i0 := 0]> (v_free v)))) v)) \/
  (exists J ds ts, alloc_failed v J ds ts /\ alloc3_desc v = Ok None (set_v_threads ts (set_v_desc ds v))).
Proof.
  intros Hl H01. unfold alloc3_desc. cbn [alloc_more].
  destruct (first_free (v_free v)) as [i0|] eqn:E0; cycle 1.
  { right. exists [], (v_desc v), (v_threads v). rewrite (alloc_step_none v) by done. split; [|cbn [for_all]; mrun; by destruct v].
    split_and!; try done; [cbn; lia| |by intros ? ?%elem_of_nil|by left]. intros i Hi Hne. by rewrite (first_free_none _ _ E0) in Hne. }
  pose proof (first_free_some _ _ E0) as [N0 F0]. rewrite (alloc_step_some v i0) by done. cbn [app].
  assert (G0 : v_free v !!! i0 = 1) by (destruct (H01 i0); [done|by destruct F0|done]).
  set (fr0 := <[i0 := 0]> (v_free v)). assert (L0 : length fr0 = NUM) by (unfold fr0; by rewrite length_insert).
  destruct (first_free fr0) as [i1|] eqn:E1; cycle 1.
  { right. exists [i0], (alter (fun _ => desc0) i0 (v_desc v)), (vwake ChFree <$> v_threads v).
    rewrite (alloc_step_none (set_v_free fr0 v)) by done. split.
    - split_and!; [cbn; lia| |intros i ->%list_elem_of_singleton; done|by rewrite length_alter| |by right; left].
      + intros i Hi Hne. destruct (decide (i = i0)) as [->|Hn]; [left|]. pose proof (first_free_none _ _ E1 Hi) as Ez.
        unfold fr0 in Ez. rewrite insert_ne_total in Ez by done. done.
      + intros i Hi. apply alter_ne_total. intros ->. apply Hi. left.
    - cbn [for_all]. rewrite bind_assoc. erewrite run_bind by (apply free_desc_run; [done|by apply insert_eq_total; rewrite Hl]).
      mrun. unfold vwoken, upd_desc. cbn. f_equal. unfold fr0. rewrite list_insert_insert_eq, <- G0.
      rewrite list_insert_id by (apply list_lookup_lookup_total_lt; lia). by destruct v. }
  pose proof (first_free_some _ _ E1) as [N1 F1]. rewrite (alloc_step_some (set_v_free fr0 v) i1) by done. cbn [app].
  assert (Hne1 : i1 <> i0) by (intros ->; unfold fr0 in F1; by rewrite insert_eq_total in F1 by lia).
  assert (F1' : v_free v !!! i1 <> 0) by (unfold fr0 in F1; by rewrite insert_ne_total in F1).
  assert (G1 : v_free v !!! i1 = 1) by (destruct (H01 i1); [done|by destruct F1'|done]).
  set (fr1 := <[i1 := 0]> fr0). assert (L1 : length fr1 = NUM) by (unfold fr1; by rewrite length_insert).
  change (v_free (set_v_free fr0 v)) with fr0. change (set_v_free (<[i1 := 0]> fr0) (set_v_free fr0 v)) with (set_v_free fr1 v).
  destruct (first_free fr1) as [i2|] eqn:E2; cycle 1.
  { right. exists [i0; i1], (alter (fun _ => desc0) i1 (alter (fun _ => desc0) i0 (v_desc v))), (vwake ChFree <$> (vwake ChFree <$> v_threads v)).
    rewrite (alloc_step_none (set_v_free fr1 v)) by done. split.
    - split_and!; [cbn; lia| | |by rewrite !length_alter| |by right; right].
      + intros i Hi Hne. destruct (decide (i = i0)) as [->|Hn0]; [left|]. destruct (decide (i = i1)) as [->|Hn1]; [by right; left|].
        pose proof (first_free_none _ _ E2 Hi) as Ez. unfold fr1, fr0 in Ez. by rewrite !insert_ne_total in Ez by done.
      + intros i Hi. apply elem_of_cons in Hi as [->|Hi%list_elem_of_singleton]; [done|by subst].
      + intros i Hi. rewrite !alter_ne_total; [done|set_solver..].
    - cbn [for_all]. rewrite bind_assoc.
      erewrite run_bind by (apply free_desc_run; [done|cbn; unfold fr1; rewrite insert_ne_total by done; by apply insert_eq_total; rewrite Hl]).
      rewrite bind_assoc.
      erewrite run_bind by (apply free_desc_run; [done|cbn; rewrite insert_ne_total by done; unfold fr1; by apply insert_eq_total; rewrite L0]).
      mrun. unfold vwoken, upd_desc. cbn. f_equal.
      assert (Efr : <[i1:=1]> (<[i0:=1]> fr1) = v_free v); [|rewrite Efr; by destruct v].
      unfold fr1, fr0. rewrite (list_insert_insert_ne _ i0 i1) by done. rewrite !list_insert_insert_eq.
      rewrite (list_insert_id (v_free v) i0 1) by (rewrite <- G0; apply list_lookup_lookup_total_lt; lia).
      apply list_insert_id. rewrite <- G1. apply list_lookup_lookup_total_lt. lia. }
  pose proof (first_free_some _ _ E2) as [N2 F2]. rewrite (alloc_step_some (set_v_free fr1 v) i2) by done.
  assert (Hne2 : i2 <> i1) by (intros ->; unfold fr1 in F2; by rewrite insert_eq_total in F2 by lia).
  assert (Hne2' : i2 <> i0) by (intros ->; unfold fr1, fr0 in F2; rewrite insert_ne_total in F2 by done; by rewrite insert_eq_total in F2 by lia).
  assert (F2' : v_free v !!! i2 <> 0) by (unfold fr1, fr0 in F2; by rewrite !insert_ne_total in F2).
  left. exists i0, i1, i2. split_and!; try done. apply NoDup_cons; split; [set_solver|]. apply NoDup_cons; split; [set_solver|]. apply NoDup_singleton.
Qed.

(** ** Changes that keep the invariant *)

(** A thread that may have been woken. *)
Definition th_le (th th' : vthread) : Prop := th_pc th' = th_pc th /\ (th_asleep th' = true -> th_asleep th = true).

Lemma th_le_wake c ts : Forall2 th_le ts (vwake c <$> ts).
Proof.
  apply Forall2_fmap_r, Forall_Forall2_diag, Forall_forall. intros th _. unfold th_le, vwake, compose. by case_decide.
Qed.

Lemma th_le_refl ts : Forall2 th_le ts ts.
Proof. by apply Forall_Forall2_diag, Forall_forall. Qed.

Lemma th_le_trans ts1 ts2 ts3 : Forall2 th_le ts1 ts2 -> Forall2 th_le ts2 ts3 -> Forall2 th_le ts1 ts3.
Proof.
  intros H1. revert ts3. induction H1 as [|a b ts1 ts2 [E1 A1] _ IH]; intros ts3 H2; inversion_clear H2 as [|? c ? ? [E2 A2]]; constructor; [|auto].
  split; [congruence|auto].
Qed.

Lemma alloc_failed_le v J ds ts : alloc_failed v J ds ts -> Forall2 th_le (v_threads v) ts.
Proof.
  intros (_ & _ & _ & _ & _ & [->|[->| ->]]); [apply th_le_refl|apply th_le_wake|].
  eapply th_le_trans; apply th_le_wake.
Qed.

Lemma chain_of_le th th' : th_le th th' -> chain_of th' = chain_of th.
Proof. intros [E _]. unfold chain_of. by rewrite E. Qed.

Lemma busy_with_le b th th' : th_le th th' -> busy_with b th' = busy_with b th.
Proof. intros [E _]. unfold busy_with. by rewrite E. Qed.

(** Or that may sleep (again) for a request in flight. *)
Definition th_ok (v : vdisk) (th th' : vthread) : Prop := th_pc th' = th_pc th /\
  (th_asleep th' = true -> th_asleep th = true \/ exists b w idx, th_pc th = VWaitIO b w idx /\ idx !!! 0%nat ∈ vflight v).

Lemma chain_of_pc th th' : th_pc th' = th_pc th -> chain_of th' = chain_of th.
Proof. intros E. unfold chain_of. by rewrite E. Qed.

Lemma busy_with_pc b th th' : th_pc th' = th_pc th -> busy_with b th' = busy_with b th.
Proof. intros E. unfold busy_with. by rewrite E. Qed.

Lemma vinv_threads_ok v ts : vinv v -> Forall2 (th_ok v) (v_threads v) ts -> vinv (set_v_threads ts v).
Proof.
  intros [I2 I3 I4 I5 I6 I7 I8 I9 I10 I11 I12] Hle.
  assert (HF : forall t th', ts !! t = Some th' -> exists th, v_threads v !! t = Some th /\ th_ok v th th').
  { intros t th' Ht. by destruct (Forall2_lookup_r _ _ _ _ _ Hle Ht) as (th & ? & ?); exists th. }
  assert (HB : forall t th, v_threads v !! t = Some th -> exists th', ts !! t = Some th' /\ th_ok v th th').
  { intros t th Ht. by destruct (Forall2_lookup_l _ _ _ _ _ Hle Ht) as (th' & ? & ?); exists th'. }
  split; cbn [v_threads set_v_threads]; try done.
  - intros t b w idx s Ht. destruct (HF _ _ Ht) as ([p s0] & Ht0 & [E A]). cbn in E, A. subst p.
    destruct (I4 _ _ _ _ _ Ht0) as (i0 & i1 & i2 & -> & Hc & Hd & Hs). exists i0, i1, i2. split_and!; [done|by destruct Hc|done|].
    intros Es. destruct (A Es) as [?|(? & ? & ? & [= <- <- <-] & Hin)]; [auto|exact Hin].
  - intros t th b Ht Hb. destruct (HF _ _ Ht) as (th0 & Ht0 & Hle0). rewrite (busy_with_pc _ _ _ (proj1 Hle0)) in Hb. by eapply I5.
  - intros t t' th th' b Ht Ht' Hb Hb'. destruct (HF _ _ Ht) as (th0 & Ht0 & Hl0), (HF _ _ Ht') as (th1 & Ht1 & Hl1).
    rewrite (busy_with_pc _ _ _ (proj1 Hl0)) in Hb. rewrite (busy_with_pc _ _ _ (proj1 Hl1)) in Hb'. by eapply I6.
  - intros t t' th th' i Ht Ht' Hi Hi'. destruct (HF _ _ Ht) as (th0 & Ht0 & Hl0), (HF _ _ Ht') as (th1 & Ht1 & Hl1).
    rewrite (chain_of_pc _ _ (proj1 Hl0)) in Hi. rewrite (chain_of_pc _ _ (proj1 Hl1)) in Hi'. by eapply I7.
  - intros i Hi. destruct (I8 i Hi) as [(E & t & th & Ht & Hc)|(E & Hn)]; [left|right]; split; try done.
    + destruct (HB _ _ Ht) as (th' & Ht' & Hl). exists t, th'. split; [done|]. by rewrite (chain_of_pc _ _ (proj1 Hl)).
    + intros t th Ht. destruct (HF _ _ Ht) as (th0 & Ht0 & Hl). rewrite (chain_of_pc _ _ (proj1 Hl)). by eapply Hn.
  - intros h Hh. destruct (I10 h Hh) as (t & b & w & i1 & i2 & s & Ht). destruct (HB _ _ Ht) as ([p s'] & Ht' & [E _]).
    cbn in E. subst p. eauto 10.
  - intros t b w Ht. destruct (HF _ _ Ht) as ([p s0] & Ht0 & [E A]). cbn in E, A. subst p.
    assert (s0 = true) as -> by (by destruct (A eq_refl) as [?|(? & ? & ? & [=] & _)]). destruct (I11 _ _ _ Ht0) as (t1 & t2 & th1 & th2 & H1 & H2 & Hne & C1 & C2).
    destruct (HB _ _ H1) as (th1' & H1' & L1), (HB _ _ H2) as (th2' & H2' & L2). exists t1, t2, th1', th2'.
    by rewrite (chain_of_pc _ _ (proj1 L1)), (chain_of_pc _ _ (proj1 L2)).
  - intros t s Ht. destruct (HF _ _ Ht) as ([p s0] & Ht0 & [E A]). cbn in E, A. subst p. destruct s; [|done].
    assert (s0 = true) as -> by (by destruct (A eq_refl) as [?|(? & ? & ? & [=] & _)]). by apply I12 in Ht0.
Qed.

Lemma vinv_threads v ts : vinv v -> Forall2 th_le (v_threads v) ts -> vinv (set_v_threads ts v).
Proof.
  intros HI Hle. apply vinv_threads_ok; [done|]. eapply Forall2_impl; [exact Hle|]. intros th th' [E A]. split; auto.
Qed.

(** Descriptors no request has may change. *)
Lemma vinv_desc v ds :
  vinv v -> length ds = NUM -> (forall t th i, v_threads v !! t = Some th -> i ∈ chain_of th -> ds !!! i = v_desc v !!! i) ->
  vinv (set_v_desc ds v).
Proof.
  intros [I2 I3 I4 I5 I6 I7 I8 I9 I10 I11 I12] Hl Hds. split; try done; [by destruct I2 as (_ & ?)|].
  intros t b w idx s Ht. destruct (I4 _ _ _ _ _ Ht) as (i0 & i1 & i2 & -> & [C1 C2 C3 C4 C5 C6 C7 C8] & Hd & Hs).
  exists i0, i1, i2. split_and!; [done| |done|done]. split; try done; cbn [v_desc set_v_desc]; rewrite (Hds t _ _ Ht); try done;
    cbn; set_solver.
Qed.

Lemma vinv_lock v x : vinv v -> vinv (set_v_locked x v).
Proof. intros [I2 I3 I4 I5 I6 I7 I8 I9 I10 I11 I12]. split; try done. intros t b w idx s Ht.
  destruct (I4 _ _ _ _ _ Ht) as (i0 & i1 & i2 & -> & [] & Hd & Hs). by exists i0, i1, i2. Qed.

Lemma vinv_regs v x : vinv v -> vinv (set_v_regs x v).
Proof. intros [I2 I3 I4 I5 I6 I7 I8 I9 I10 I11 I12]. split; try done. intros t b w idx s Ht.
  destruct (I4 _ _ _ _ _ Ht) as (i0 & i1 & i2 & -> & [] & Hd & Hs). by exists i0, i1, i2. Qed.

(** ** The device *)

Lemma vused_status v h : vinv v -> h ∈ vused v -> in_status (v_info v !!! h) = 0.
Proof.
  intros HI Hh. destruct (vi_heads _ HI h) as (t & b & w & i1 & i2 & s & Ht); [unfold vflight; set_solver|].
  destruct (vi_chain _ HI _ _ _ _ _ Ht) as (? & ? & ? & [= <- <- <-] & Hc & _). by apply (co_status _ _ _ _ _ _ Hc).
Qed.

Lemma flight_chain v h : vinv v -> h ∈ vflight v -> exists t b w i1 i2 s, v_threads v !! t = Some (mkVthread (VWaitIO b w [h; i1; i2]) s) /\
  chain_ok v b w h i1 i2 /\ (b < length (v_buf v))%nat /\ vb_disk (v_buf v !!! b) = 1.
Proof.
  intros HI Hh. destruct (vi_heads _ HI h Hh) as (t & b & w & i1 & i2 & s & Ht). exists t, b, w, i1, i2, s.
  destruct (vi_chain _ HI _ _ _ _ _ Ht) as (? & ? & ? & [= <- <- <-] & Hc & Hd & _). rewrite decide_True in Hd by done.
  split_and!; try done. apply (vi_busy _ HI _ _ b Ht). cbn. apply Nat.eqb_refl.
Qed.

(** At most one chain per descriptor is in flight. *)
Lemma nodup_bound (l : list nat) : NoDup l -> Forall (fun i => (i < NUM)%nat) l -> (length l <= NUM)%nat.
Proof.
  intros Hnd Hl. transitivity (length (seq 0 NUM)); [|by rewrite length_seq]. apply submseteq_length, NoDup_submseteq; [done|].
  intros i Hi. rewrite Forall_forall in Hl. apply elem_of_seq. specialize (Hl i Hi). lia.
Qed.

Lemma flight_num v h : vinv v -> h ∈ vflight v -> (h < NUM)%nat.
Proof. intros HI Hh. destruct (flight_chain v h HI Hh) as (? & ? & ? & ? & ? & ? & _ & Hc & _). apply (co_num _ _ _ _ _ _ Hc). Qed.

(** The device changes data, the disk and statuses, and what is in flight
    stays in flight. *)
Lemma vinv_device v v' :
  vinv v -> v_desc v' = v_desc v -> v_free v' = v_free v -> v_threads v' = v_threads v -> v_ops v' = v_ops v ->
  length (v_avail_ring v') = NUM /\ length (v_used_ring v') = NUM /\ length (v_info v') = NUM ->
  is_u16 (v_avail_idx v') /\ is_u16 (v_used_idx v') /\ is_u16 (v_seen v') /\ is_u16 (d_seen v') ->
  length (v_buf v') = length (v_buf v) ->
  (forall b, vb_disk (v_buf v' !!! b) = vb_disk (v_buf v !!! b) /\ vb_blockno (v_buf v' !!! b) = vb_blockno (v_buf v !!! b)) ->
  (forall i, in_b (v_info v' !!! i) = in_b (v_info v !!! i)) ->
  (forall i, i ∈ vused v' -> in_status (v_info v' !!! i) = 0) -> vflight v' ≡ₚ vflight v -> vinv v'.
Proof.
  intros [I2 I3 I4 I5 I6 I7 I8 I9 I10 I11 I12] Ed Ef Et Eo (L1 & L2 & L3) Hu Lb Hb Hinfo Hst Hp.
  split; rewrite ?Ed, ?Ef, ?Et, ?Eo; try done.
  - destruct I2 as (? & ? & ? & ? & ? & ?). by split_and!.
  - intros t b w idx s Ht. destruct (I4 _ _ _ _ _ Ht) as (i0 & i1 & i2 & -> & [C1 C2 C3 C4 C5 C6 C7 C8] & Hd & Hs).
    exists i0, i1, i2. split_and!; [done| | |intros E; rewrite Hp; auto].
    + split; rewrite ?Ed, ?Eo; try done; [by unfold sector_of; rewrite (proj2 (Hb b))|by rewrite Hinfo|apply Hst].
    + rewrite (proj1 (Hb b)), Hd. destruct (decide (i0 ∈ vflight v)) as [Hi|Hi]; [by rewrite decide_True by (by rewrite Hp)|].
      by rewrite decide_False by (by rewrite Hp).
  - intros t th b. rewrite Lb. apply I5.
  - by rewrite Hp.
  - intros h. rewrite Hp. apply I10.
Qed.

Lemma dev_take_inv v v' : vinv v -> dev_take v = Some v' ->
  vinv v' /\ exists h, vqueue v = h :: vqueue v' /\ d_taken v' = d_taken v ++ [h] /\ vused v' = vused v.
Proof.
  intros HI. unfold dev_take. destruct (d_seen v =? v_avail_idx v) eqn:E; [done|]. intros [= <-]. bprop.
  pose proof (vi_lens _ HI) as (L1 & L2 & L3 & L4 & L5 & L6). pose proof (vi_u16 _ HI) as (U1 & U2 & U3 & U4).
  set (h := v_avail_ring v !!! Z.to_nat (d_seen v mod Z.of_nat NUM)).
  assert (EQ : vqueue v = h :: ring_list (v_avail_ring v) (u16 (d_seen v + 1)) (v_avail_idx v)).
  { unfold vqueue. by rewrite ring_list_cons. }
  split; [|by exists h]. apply (vinv_device v); try done.
  - cbn. split_and!; try done; apply u16_is.
  - intros i Hi. by apply (vused_status v).
  - unfold vflight, vpending. rewrite EQ. unfold vqueue. cbn [v_avail_ring d_seen v_avail_idx d_taken set_d_taken set_d_seen].
    fold h. change (vused (set_d_taken _ _)) with (vused v). solve_Permutation.
Qed.

(** The transfer of a request, as the driver means it. *)
Definition transferred (b : nat) (w : bool) (v : vdisk) : vdisk :=
  if w then set_d_disk (disk_put (sector_of v b) BSIZE (vb_data (v_buf v !!! b)) (d_disk v)) v
  else upd_vbuf b (set_vb_data (disk_get (d_disk v) (sector_of v b) BSIZE)) v.

Definition completed (h : nat) (v : vdisk) : vdisk :=
  set_d_taken (filter (fun x => x <> h) (d_taken v))
    (set_v_used_idx (u16 (v_used_idx v + 1))
      (set_v_used_ring (<[Z.to_nat (v_used_idx v mod Z.of_nat NUM) := h]> (v_used_ring v))
        (upd_info h (fun x => mkInfo (in_b x) 0) v))).

Lemma dev_complete_run v b w h i1 i2 :
  chain_ok v b w h i1 i2 -> h ∈ d_taken v -> dev_complete h v = Some (completed h (transferred b w v)).
Proof.
  intros [C1 C2 C3 C4 C5 C6 C7 C8] Hh. unfold dev_complete. rewrite decide_True by done.
  assert (Ht : dev_transfer h v = Some (transferred b w v)).
  { unfold dev_transfer. rewrite C3. cbn [q_next q_addr]. rewrite C4. cbn [q_addr]. rewrite C6. by destruct w. }
  assert (Ed : v_desc (transferred b w v) = v_desc v) by (by destruct w).
  assert (Et : d_taken (transferred b w v) = d_taken v) by (by destruct w).
  rewrite Ht. unfold mbind, option_bind. cbv iota. unfold dev_finish. rewrite Ed, C3. cbn [q_next]. rewrite C4. cbn [q_next]. rewrite C5.
  cbn [q_addr]. by destruct w.
Qed.

Lemma upd_vbuf_total b f v c : (b < length (v_buf v))%nat ->
  v_buf (upd_vbuf b f v) !!! c = if decide (c = b) then f (v_buf v !!! b) else v_buf v !!! c.
Proof.
  intros Hb. unfold upd_vbuf; cbn. case_decide as E; [subst; by apply list_lookup_total_alter_eq|].
  rewrite !list_lookup_total_alt. by rewrite list_lookup_alter_ne.
Qed.

Lemma upd_info_total i f v j : (i < length (v_info v))%nat ->
  v_info (upd_info i f v) !!! j = if decide (j = i) then f (v_info v !!! i) else v_info v !!! j.
Proof.
  intros Hb. unfold upd_info; cbn. case_decide as E; [subst; by apply list_lookup_total_alter_eq|].
  rewrite !list_lookup_total_alt. by rewrite list_lookup_alter_ne.
Qed.

Lemma transferred_buf v b w c : (b < length (v_buf v))%nat ->
  vb_disk (v_buf (transferred b w v) !!! c) = vb_disk (v_buf v !!! c) /\
  vb_blockno (v_buf (transferred b w v) !!! c) = vb_blockno (v_buf v !!! c).
Proof.
  intros Hb. unfold transferred. destruct w; [done|]. rewrite upd_vbuf_total by done. case_decide; by subst.
Qed.

Lemma transferred_inv v b w : vinv v -> (b < length (v_buf v))%nat -> vinv (transferred b w v).
Proof.
  intros HI Hb. pose proof (vi_lens _ HI) as (L1 & L2 & L3 & L4 & L5 & L6).
  apply (vinv_device v); try (by destruct w).
  - destruct w; apply HI.
  - unfold transferred, upd_vbuf. destruct w; [done|]. cbn. by rewrite length_alter.
  - intros c. by apply transferred_buf.
  - intros i Hi. assert (E : vused (transferred b w v) = vused v) by (by destruct w). rewrite E in Hi.
    assert (Ei : v_info (transferred b w v) = v_info v) by (by destruct w). rewrite Ei. by apply vused_status.
Qed.

Lemma nodup_app_apart {A} (l k : list A) x : NoDup (l ++ k) -> x ∈ l -> ~ x ∈ k.
Proof. intros (_ & H & _)%NoDup_app. by apply H. Qed.

Lemma taken_filter v h : vinv v -> h ∈ d_taken v -> h :: filter (fun x => x <> h) (d_taken v) ≡ₚ d_taken v.
Proof.
  intros HI Hh. pose proof (vi_nodup _ HI) as Hnd. unfold vflight, vpending in Hnd.
  apply NoDup_app in Hnd as (Hnd & _ & _). apply NoDup_app in Hnd as (_ & _ & Hnd).
  apply NoDup_Permutation; [|done|].
  - apply NoDup_cons. split; [by intros [? _]%list_elem_of_filter|]. by apply NoDup_filter.
  - intros x. rewrite elem_of_cons, list_elem_of_filter. destruct (decide (x = h)); naive_solver.
Qed.

Lemma completed_inv v h : vinv v -> h ∈ d_taken v ->
  vinv (completed h v) /\ vused (completed h v) = vused v ++ [h] /\ vflight (completed h v) ≡ₚ vflight v.
Proof.
  intros HI Hh. pose proof (vi_lens _ HI) as (L1 & L2 & L3 & L4 & L5 & L6). pose proof (vi_u16 _ HI) as (U1 & U2 & U3 & U4).
  assert (Hfl : h ∈ vflight v) by (unfold vflight, vpending; set_solver).
  assert (Hn : (length (vused v) < NUM)%nat).
  { assert (Hnd : NoDup (h :: vused v)).
    { pose proof (vi_nodup _ HI) as Hnd. apply NoDup_cons. split; [|by apply NoDup_app in Hnd as (_ & _ & ?)].
      apply (nodup_app_apart (vpending v)); [done|]. unfold vpending. set_solver. }
    apply nodup_bound in Hnd; [cbn in Hnd; lia|]. apply Forall_forall. intros i Hi. apply (flight_num v); [done|].
    unfold vflight. set_solver. }
  assert (EU : vused (completed h v) = vused v ++ [h]).
  { unfold vused, completed. cbn -[NUM Z.of_nat]. by rewrite ring_list_push. }
  assert (EP : vflight (completed h v) ≡ₚ vflight v).
  { unfold vflight, vpending at 1. rewrite EU. cbn [d_taken completed set_d_taken]. change (vqueue (completed h v)) with (vqueue v).
    unfold vpending. rewrite <- (taken_filter v h HI Hh) at 2. solve_Permutation. }
  split; [|done]. apply (vinv_device v); try done.
  - unfold completed, upd_info. cbn. by rewrite length_insert, length_alter.
  - cbn. split_and!; try done. apply u16_is.
  - intros i. unfold completed. cbn [v_info set_d_taken set_v_used_idx set_v_used_ring].
    rewrite upd_info_total by (rewrite L5; by apply (flight_num v)). case_decide; by subst.
  - intros i. rewrite EU. unfold completed. cbn [v_info set_d_taken set_v_used_idx set_v_used_ring].
    rewrite upd_info_total by (rewrite L5; by apply (flight_num v)). intros Hi. case_decide; [done|].
    apply vused_status; [done|]. set_solver.
Qed.

Lemma dev_complete_inv v v' h : vinv v -> dev_complete h v = Some v' ->
  vinv v' /\ h ∈ d_taken v /\ exists t b w i1 i2 s, v_threads v !! t = Some (mkVthread (VWaitIO b w [h; i1; i2]) s) /\
    v' = completed h (transferred b w v).
Proof.
  intros HI H. destruct (decide (h ∈ d_taken v)) as [Hh|Hn]; [|unfold dev_complete in H; by rewrite decide_False in H].
  destruct (flight_chain v h HI) as (t & b & w & i1 & i2 & s & Ht & Hc & Hb & _); [unfold vflight, vpending; set_solver|].
  rewrite (dev_complete_run v b w h i1 i2 Hc Hh) in H. injection H as <-.
  pose proof (transferred_inv v b w HI Hb) as HI1. split; [apply completed_inv; [done|by destruct w]|]. split; [done|].
  exists t, b, w, i1, i2, s. done.
Qed.

(** ** The interrupt handler *)

(** The completion of the request at the head of the used ring is noted. *)
Lemma vinv_drop v t b w h i1 i2 rest :
  vinv v -> vused v = h :: rest -> v_threads v !! t = Some (mkVthread (VWaitIO b w [h; i1; i2]) false) ->
  let v' := set_v_seen (u16 (v_seen v + 1)) (upd_vbuf b (set_vb_disk 0) v) in vinv v' /\ vused v' = rest.
Proof.
  intros HI EU Ht v'. pose proof HI as [I2 I3 I4 I5 I6 I7 I8 I9 I10 I11 I12].
  assert (Hb : (b < length (v_buf v))%nat) by (apply (I5 _ _ b Ht); cbn; apply Nat.eqb_refl).
  assert (EU' : vused v' = rest).
  { unfold vused in EU |- *. destruct (decide (v_seen v = v_used_idx v)) as [E|E]; [by rewrite E, ring_list_nil in EU|].
    rewrite ring_list_cons in EU by (done || apply I3). by injection EU as _ <-. }
  assert (EF : forall x, x ∈ vflight v' <-> x ∈ vflight v /\ x <> h).
  { intros x. assert (EP : vpending v' = vpending v) by done. unfold vflight at 1 2. rewrite EU', EU, EP.
    unfold vflight in I9. rewrite EU in I9.
    assert (Hh : ~ h ∈ vpending v ++ rest).
    { intros Hin. rewrite <- Permutation_middle in I9. by apply NoDup_cons in I9 as [? _]. }
    rewrite !elem_of_app, elem_of_cons in *. destruct (decide (x = h)); naive_solver. }
  assert (EN : forall c, vb_blockno (v_buf v' !!! c) = vb_blockno (v_buf v !!! c)).
  { intros c. change (v_buf v') with (v_buf (upd_vbuf b (set_vb_disk 0) v)). rewrite upd_vbuf_total by done. case_decide; by subst. }
  assert (EB : forall c, vb_disk (v_buf v' !!! c) = if decide (c = b) then 0 else vb_disk (v_buf v !!! c)).
  { intros c. unfold v'. cbn [v_buf set_v_seen]. rewrite upd_vbuf_total by done. by case_decide. }
  split; [|done]. split; try done.
  - destruct I3 as (? & ? & _ & ?). split_and!; try done. apply u16_is.
  - intros t' b' w' idx s Ht'. change (v_threads v') with (v_threads v) in Ht'. destruct (I4 _ _ _ _ _ Ht') as (i0 & j1 & j2 & -> & [C1 C2 C3 C4 C5 C6 C7 C8] & Hd & Hs).
    exists i0, j1, j2. split_and!; [done| | |].
    + split; try done.
      * change (v_ops v') with (v_ops v). rewrite C6. unfold sector_of. by rewrite EN.
      * rewrite EU'. intros Hi. apply C8. rewrite EU. by right.
    + rewrite EB, Hd. destruct (decide (i0 = h)) as [->|Hne].
      * assert (t' = t) as -> by (eapply (I7 t' t _ _ h Ht' Ht); cbn; left). rewrite Ht in Ht'. injection Ht' as <- <- _ _ _.
        rewrite decide_True by done. rewrite decide_False; [done|]. rewrite EF. naive_solver.
      * assert (Hbb : b' <> b).
        { intros ->. assert (t' = t) as ->; [|rewrite Ht in Ht'; by injection Ht'].
          eapply (I6 t' t _ _ b Ht' Ht); cbn; apply Nat.eqb_refl. }
        rewrite (decide_False (P := b' = b)) by done.
        destruct (decide (i0 ∈ vflight v)) as [Hi|Hi]; [rewrite decide_True; [done|by rewrite EF]|rewrite decide_False; [done|by rewrite EF; naive_solver]].
    + intros ->. rewrite EF. split; [by apply Hs|]. intros ->.
      assert (t' = t) as -> by (eapply (I7 t' t _ _ h Ht' Ht); cbn; left). by rewrite Ht in Ht'.
  - intros t' th b'. unfold v', upd_vbuf. cbn. rewrite length_alter. apply I5.
  - unfold vflight. rewrite EU'. change (vpending v') with (vpending v). unfold vflight in I9. rewrite EU, <- Permutation_middle in I9.
    by apply NoDup_cons in I9 as [_ ?].
  - intros x Hx%EF. apply I10, Hx.
Qed.

Lemma intr_body_run v : vinv v ->
  match vused v with
  | [] => intr_body tt v = Ok (inr tt) v
  | h :: rest => exists b v', intr_body tt v = Ok (inl tt) v' /\
      v' = set_v_seen (u16 (v_seen v + 1)) (vwoken (ChBuf b) (upd_vbuf b (set_vb_disk 0) v)) /\ vinv v' /\ vused v' = rest /\
      exists t w i1 i2 s, v_threads v !! t = Some (mkVthread (VWaitIO b w [h; i1; i2]) s)
  end.
Proof.
  intros HI. unfold intr_body. mrun. destruct (vused v) as [|h rest] eqn:EU.
  - assert (E : v_seen v = v_used_idx v).
    { pose proof (vi_u16 _ HI) as (U1 & U2 & U3 & U4). destruct (decide (v_seen v = v_used_idx v)); [done|].
      unfold vused in EU. by rewrite ring_list_cons in EU. }
    by rewrite E, Z.eqb_refl.
  - pose proof (vi_u16 _ HI) as (U1 & U2 & U3 & U4).
    assert (Hne : v_seen v <> v_used_idx v) by (intros E; unfold vused in EU; by rewrite E, ring_list_nil in EU).
    rewrite (proj2 (Z.eqb_neq _ _)) by done. cbn [negb]. mrun.
    assert (Eh : v_used_ring v !!! Z.to_nat (v_seen v mod Z.of_nat NUM) = h).
    { unfold vused in EU. rewrite ring_list_cons in EU by done. by injection EU. }
    rewrite Eh. assert (Hh : h ∈ vused v) by (rewrite EU; left). rewrite (vused_status v h HI Hh). cbn [negb Z.eqb]. mrun.
    destruct (flight_chain v h HI) as (t & b & w & i1 & i2 & s & Ht & Hc & Hb & _); [unfold vflight; set_solver|].
    rewrite (co_info _ _ _ _ _ _ Hc). mrun. eexists b, _. split; [done|]. split; [done|].
    pose proof (vinv_threads v _ HI (th_le_wake (ChBuf b) _)) as HI1.
    destruct (vinv_drop (vwoken (ChBuf b) v) t b w h i1 i2 rest HI1 EU) as [HI2 EU2].
    { cbn. rewrite list_lookup_fmap, Ht. cbn. unfold vwake. cbn. by rewrite decide_True. }
    split; [exact HI2|]. split; [exact EU2|]. exists t, w, i1, i2, s. done.
Qed.

(** ** The end of a call *)

Definition no_sleeper (v : vdisk) : Prop := forall t b w, v_threads v !! t <> Some (mkVthread (VWaitDesc b w) true).

Lemma vinv_finish v t b w i0 i1 i2 s ds fr :
  vinv v -> v_threads v !! t = Some (mkVthread (VWaitIO b w [i0; i1; i2]) s) -> ~ i0 ∈ vflight v -> no_sleeper v ->
  length ds = NUM -> (forall i, ~ i ∈ [i0; i1; i2] -> ds !!! i = v_desc v !!! i) ->
  length fr = NUM -> (forall i, (i < NUM)%nat -> fr !!! i = if decide (i ∈ [i0; i1; i2]) then 1 else v_free v !!! i) ->
  vinv (set_v_threads (<[t := mkVthread VIdle false]> (v_threads v))
    (set_v_free fr (set_v_desc ds (upd_info i0 (fun x => mkInfo None (in_status x)) v)))).
Proof.
  intros HI Ht Hi0 Hns Ld Hds Lf Hfr. set (v' := set_v_threads _ _).
  pose proof HI as [I2 I3 I4 I5 I6 I7 I8 I9 I10 I11 I12]. destruct I2 as (L1 & L2 & L3 & L4 & L5 & L6).
  destruct (I4 _ _ _ _ _ Ht) as (? & ? & ? & [= <- <- <-] & Hc & _). destruct (co_num _ _ _ _ _ _ Hc) as (N0 & N1 & N2).
  assert (HF : forall t' th, v_threads v' !! t' = Some th -> (t' = t /\ th = mkVthread VIdle false) \/ (t' <> t /\ v_threads v !! t' = Some th)).
  { intros t' th. unfold v'. cbn. rewrite list_lookup_insert_Some. naive_solver. }
  assert (HB : forall t' th, t' <> t -> v_threads v !! t' = Some th -> v_threads v' !! t' = Some th).
  { intros t' th Hne Ht'. unfold v'. cbn. by rewrite list_lookup_insert_ne. }
  assert (Hap : forall t' th i, t' <> t -> v_threads v !! t' = Some th -> i ∈ chain_of th -> ~ i ∈ [i0; i1; i2]).
  { intros t' th i Hne Ht' Hi Hi'. apply Hne. by eapply (I7 t' t _ _ i Ht' Ht). }
  split.
  - unfold v', upd_info. cbn. rewrite length_alter. by split_and!.
  - done.
  - intros t' b' w' idx s' [[_ [=]]|[Hne Ht']]%HF. destruct (I4 _ _ _ _ _ Ht') as (j0 & j1 & j2 & -> & [C1 C2 C3 C4 C5 C6 C7 C8] & Hd & Hs).
    exists j0, j1, j2. split_and!; [done| |done|done].
    assert (HD : forall i, i ∈ [j0; j1; j2] -> v_desc v' !!! i = v_desc v !!! i).
    { intros i Hi. unfold v'. cbn [v_desc set_v_threads set_v_free set_v_desc]. apply Hds. by eapply (Hap t' _ i Hne Ht'). }
    assert (HIn : v_info v' !!! j0 = v_info v !!! j0).
    { unfold v'. cbn [v_info set_v_threads set_v_free set_v_desc]. rewrite upd_info_total by (by rewrite L5).
      rewrite decide_False; [done|]. intros ->. apply (Hap t' _ i0 Hne Ht'); cbn; set_solver. }
    split; try done; try (rewrite HD by set_solver; done); by rewrite HIn.
  - intros t' th b' [[_ ->]|[Hne Ht']]%HF Hb; [done|]. by eapply I5.
  - intros t' t'' th th' b' [[-> ->]|[Hne Ht']]%HF [[-> ->]|[Hne' Ht'']]%HF; try done. by eapply I6.
  - intros t' t'' th th' i [[-> ->]|[Hne Ht']]%HF [[-> ->]|[Hne' Ht'']]%HF Hi Hi'; try done; try (by apply elem_of_nil in Hi); try (by apply elem_of_nil in Hi').
    by eapply I7.
  - intros i Hi. unfold v'. cbn [v_free set_v_threads set_v_free]. rewrite Hfr by done. fold v'. case_decide as E.
    + right. split; [done|]. intros t' th [[_ ->]|[Hne Ht']]%HF Hi'; [by apply elem_of_nil in Hi'|]. by eapply Hap.
    + destruct (I8 i Hi) as [(E0 & t' & th & Ht' & Hi')|(E1 & Hn)]; [left|right]; split; try done.
      * assert (t' <> t) by (intros ->; rewrite Ht in Ht'; by injection Ht' as <-). exists t', th. auto.
      * intros t' th [[_ ->]|[Hne Ht']]%HF Hi'; [by apply elem_of_nil in Hi'|]. by eapply Hn.
  - done.
  - intros h Hh. destruct (I10 h Hh) as (t' & b' & w' & j1 & j2 & s' & Ht'). assert (t' <> t).
    { intros ->. rewrite Ht in Ht'. injection Ht' as <- <- <- <- <- <-. done. }
    exists t', b', w', j1, j2, s'. auto.
  - intros t' b' w' [[_ [=]]|[Hne Ht']]%HF. by apply Hns in Ht'.
  - intros t' s' [[_ [= ->]]|[Hne Ht']]%HF; [done|]. by eapply I12.
Qed.

Definition cleared (ds : list virtq_desc) (idx : list nat) : list virtq_desc := foldl (fun ds i => alter (fun _ => desc0) i ds) ds idx.
Definition freed (fr : list Z) (idx : list nat) : list Z := foldl (fun fr i => <[i := 1]> fr) fr idx.

Lemma cleared_length ds idx : length (cleared ds idx) = length ds.
Proof. revert ds. induction idx as [|i idx IH]; intros ds; [done|]. cbn. fold (cleared (alter (fun _ => desc0) i ds) idx). by rewrite IH, length_alter. Qed.

Lemma cleared_ne ds idx i : ~ i ∈ idx -> cleared ds idx !!! i = ds !!! i.
Proof.
  revert ds. induction idx as [|j idx IH]; intros ds Hi; [done|]. cbn. fold (cleared (alter (fun _ => desc0) j ds) idx).
  rewrite IH by set_solver. apply alter_ne_total. set_solver.
Qed.

Lemma freed_length fr idx : length (freed fr idx) = length fr.
Proof. revert fr. induction idx as [|i idx IH]; intros fr; [done|]. cbn. fold (freed (<[i := 1]> fr) idx). by rewrite IH, length_insert. Qed.

Lemma freed_lookup fr idx i : (i < length fr)%nat -> freed fr idx !!! i = if decide (i ∈ idx) then 1 else fr !!! i.
Proof.
  revert fr. induction idx as [|j idx IH]; intros fr Hi; [done|]. cbn. fold (freed (<[j := 1]> fr) idx).
  rewrite IH by (by rewrite length_insert). destruct (decide (i ∈ idx)) as [Hin|Hn].
  - rewrite decide_True; [done|]. by right.
  - destruct (decide (i = j)) as [->|Hne]; [rewrite decide_True by left; by apply insert_eq_total|].
    rewrite decide_False by set_solver. by apply insert_ne_total.
Qed.

Definition wake3 (ts : list vthread) : list vthread := vwake ChFree <$> (vwake ChFree <$> (vwake ChFree <$> ts)).

Definition free_round (i : nat) : VD (nat + unit) :=
  d ← gets (fun v => v_desc v !!! i);
  let flag := q_flags d in
  let nxt := q_next d in
  free_desc i;;
  if negb (Z.land flag VRING_DESC_F_NEXT =? 0) then mret (inl nxt) else mret (inr tt).

Lemma free_round_run v i d :
  (i < NUM)%nat -> v_desc v !!! i = d -> v_free v !!! i = 0 ->
  free_round i v = Ok (if has_flag d VRING_DESC_F_NEXT then inl (q_next d) else inr tt)
    (vwoken ChFree (set_v_free (<[i := 1]> (v_free v)) (upd_desc i (fun _ => desc0) v))).
Proof.
  intros Hi Hd Hf. unfold free_round. mrun. rewrite (run_bind _ _ _ _ _ (free_desc_run v i Hi Hf)), Hd.
  unfold has_flag. by destruct (negb _).
Qed.

Lemma free_chain_run v v' b w i0 i1 i2 :
  chain_ok v' b w i0 i1 i2 -> v_desc v = v_desc v' -> length (v_desc v) = NUM -> length (v_free v) = NUM ->
  (forall i, i ∈ [i0; i1; i2] -> v_free v !!! i = 0) ->
  free_chain i0 v = Ok tt (set_v_threads (wake3 (v_threads v))
    (set_v_free (freed (v_free v) [i0; i1; i2]) (set_v_desc (cleared (v_desc v) [i0; i1; i2]) v))).
Proof.
  intros [Hnd (N0 & N1 & N2) C3 C4 C5 _ _ _] Ev Ld Lf Hf. rewrite <- Ev in C3, C4, C5. clear v' Ev.
  assert (H01 : i0 <> i1 /\ i0 <> i2 /\ i1 <> i2).
  { apply NoDup_cons in Hnd as [H1 Hnd]. apply NoDup_cons in Hnd as [H2 _]. set_solver. }
  destruct H01 as (H01 & H02 & H12). unfold free_chain. fold free_round. change (S NUM) with (S (S (S 6))).
  cbn [loop_with]. rewrite (run_bind _ _ _ _ _ (free_round_run v i0 _ N0 C3 (Hf i0 ltac:(set_solver)))).
  set (v1 := vwoken ChFree _). change (has_flag (mkDesc (AOps i0) sizeof_blk_req VRING_DESC_F_NEXT i1) VRING_DESC_F_NEXT) with true. cbv iota. cbn [q_next].
  assert (C4' : v_desc v1 !!! i1 = mkDesc (AData b) BSIZE (Z.lor (if w then 0 else VRING_DESC_F_WRITE) VRING_DESC_F_NEXT) i2).
  { rewrite <- C4. unfold v1. cbn. by apply alter_ne_total. }
  assert (F1 : v_free v1 !!! i1 = 0) by (unfold v1; cbn; rewrite insert_ne_total by done; apply Hf; set_solver).
  rewrite (run_bind _ _ _ _ _ (free_round_run v1 i1 _ N1 C4' F1)). set (v2 := vwoken ChFree _).
  assert (Eh : has_flag (mkDesc (AData b) BSIZE (Z.lor (if w then 0 else VRING_DESC_F_WRITE) VRING_DESC_F_NEXT) i2) VRING_DESC_F_NEXT = true) by (by destruct w).
  rewrite Eh. cbv iota. cbn [q_next].
  assert (C5' : v_desc v2 !!! i2 = mkDesc (AStatus i0) 1 VRING_DESC_F_WRITE 0).
  { rewrite <- C5. unfold v2, v1. cbn. by rewrite !alter_ne_total. }
  assert (F2 : v_free v2 !!! i2 = 0) by (unfold v2, v1; cbn; rewrite !insert_ne_total by done; apply Hf; set_solver).
  rewrite (run_bind _ _ _ _ _ (free_round_run v2 i2 _ N2 C5' F2)). done.
Qed.

(** [rw_wait] when the buffer is not marked any more: the call returns. *)
Definition returned (t b : nat) (idx : list nat) (v : vdisk) : vdisk :=
  set_v_threads (<[t := mkVthread VIdle false]> (wake3 (v_threads v)))
    (set_v_free (freed (v_free v) idx) (set_v_desc (cleared (v_desc v) idx)
      (upd_info (idx !!! 0%nat) (fun x => mkInfo None (in_status x)) v))).

Lemma wake3_le ts : Forall2 th_le ts (wake3 ts).
Proof. eapply th_le_trans; [apply th_le_wake|]. eapply th_le_trans; apply th_le_wake. Qed.

Lemma vwake_free_awake b w th : vwake ChFree th <> mkVthread (VWaitDesc b w) true.
Proof. unfold vwake. case_decide as E; [done|]. intros ->. by cbn in E. Qed.

Lemma wake3_no_sleeper ts t b w : wake3 ts !! t <> Some (mkVthread (VWaitDesc b w) true).
Proof.
  unfold wake3. rewrite list_lookup_fmap. destruct (_ !! t); [|done]. cbn. intros [= E]. by apply vwake_free_awake in E.
Qed.

Lemma rw_wait_done v t b w i0 i1 i2 s :
  vinv v -> v_threads v !! t = Some (mkVthread (VWaitIO b w [i0; i1; i2]) s) -> ~ i0 ∈ vflight v ->
  rw_wait t b w [i0; i1; i2] (set_v_locked true v) = Ok tt (set_v_locked false (returned t b [i0; i1; i2] v)) /\
  vinv (returned t b [i0; i1; i2] v).
Proof.
  intros HI Ht Hn. destruct (vi_chain _ HI _ _ _ _ _ Ht) as (? & ? & ? & [= <- <- <-] & Hc & Hd & _).
  pose proof (vi_lens _ HI) as (L1 & L2 & L3 & L4 & L5 & L6). rewrite decide_False in Hd by done. split.
  - unfold rw_wait. mrun. change (v_buf (set_v_locked true v)) with (v_buf v). rewrite Hd. cbn [Z.eqb]. mrun.
    erewrite run_bind; [|apply (free_chain_run _ v b w i0 i1 i2)].
    + unfold vrelease. mrun. reflexivity.
    + done.
    + done.
    + done.
    + done.
    + intros i Hi. destruct (vi_free _ HI i) as [[E _]|[_ Hno]]; [|exact E|by destruct (Hno _ _ Ht)].
      destruct (co_num _ _ _ _ _ _ Hc) as (N0 & N1 & N2). apply elem_of_cons in Hi as [->|Hi]; [done|].
      apply elem_of_cons in Hi as [->|Hi%list_elem_of_singleton]; [done|by subst].
  - apply (vinv_finish (set_v_threads (wake3 (v_threads v)) v) t b w i0 i1 i2 (th_asleep (vwake ChFree (vwake ChFree (vwake ChFree (mkVthread (VWaitIO b w [i0; i1; i2]) s)))))
      (cleared (v_desc v) [i0; i1; i2]) (freed (v_free v) [i0; i1; i2])).
    + apply vinv_threads; [done|apply wake3_le].
    + cbn [v_threads set_v_threads]. unfold wake3. by rewrite !list_lookup_fmap, Ht.
    + done.
    + intros t' b' w'. apply wake3_no_sleeper.
    + by rewrite cleared_length.
    + intros i Hi. by apply cleared_ne.
    + by rewrite freed_length.
    + intros i Hi. rewrite freed_lookup by (by rewrite L4). done.
Qed.

(** ** The start of a request *)

Definition submit (b : nat) (w : bool) (i0 i1 i2 : nat) (v : vdisk) : vdisk :=
  let v := set_v_ops (<[i0 := mkReq (if w then VIRTIO_BLK_T_OUT else VIRTIO_BLK_T_IN) 0 (sector_of v b)]> (v_ops v)) v in
  let v := upd_desc i0 (fun _ => mkDesc (AOps i0) sizeof_blk_req VRING_DESC_F_NEXT i1) v in
  let v := upd_desc i1 (fun _ => mkDesc (AData b) BSIZE (Z.lor (if w then 0 else VRING_DESC_F_WRITE) VRING_DESC_F_NEXT) i2) v in
  let v := upd_info i0 (fun x => mkInfo (in_b x) 0xff) v in
  let v := upd_desc i2 (fun _ => mkDesc (AStatus i0) 1 VRING_DESC_F_WRITE 0) v in
  let v := upd_vbuf b (set_vb_disk 1) v in
  let v := upd_info i0 (fun x => mkInfo (Some b) (in_status x)) v in
  let v := set_v_avail_ring (<[Z.to_nat (v_avail_idx v mod Z.of_nat NUM) := i0]> (v_avail_ring v)) v in
  let v := set_v_avail_idx (u16 (v_avail_idx v + 1)) v in
  set_v_regs (v_regs v ++ [(VIRTIO_MMIO_QUEUE_NOTIFY, 0)]) v.

Lemma rw_submit_run b w i0 i1 i2 v : rw_submit b w [i0; i1; i2] v = Ok tt (submit b w i0 i1 i2 v).
Proof. reflexivity. Qed.

(** The state in which a call sleeps for its request. *)
Definition waiting (t b : nat) (w : bool) (i0 i1 i2 : nat) (v : vdisk) : vdisk :=
  set_v_threads (<[t := mkVthread (VWaitIO b w [i0; i1; i2]) true]> (v_threads v))
    (submit b w i0 i1 i2 (set_v_free (<[i2 := 0]> (<[i1 := 0]> (<[i0 := 0]> (v_free v)))) v)).

Lemma upd_desc_total i f v j : (i < length (v_desc v))%nat ->
  v_desc (upd_desc i f v) !!! j = if decide (j = i) then f (v_desc v !!! i) else v_desc v !!! j.
Proof.
  intros Hb. unfold upd_desc; cbn. case_decide as E; [subst; by apply list_lookup_total_alter_eq|]. by apply alter_ne_total.
Qed.

Lemma idx_apart (i0 i1 i2 : nat) : NoDup [i0; i1; i2] -> i0 <> i1 /\ i0 <> i2 /\ i1 <> i2.
Proof. intros Hnd. apply NoDup_cons in Hnd as [H1 H']. apply NoDup_cons in H' as [H2 _]. set_solver. Qed.

(** The fields of [waiting]. *)
Definition waiting_pre (v : vdisk) (b i0 i1 i2 : nat) : Prop :=
  (i0 < NUM /\ i1 < NUM /\ i2 < NUM)%nat /\ (b < length (v_buf v))%nat /\
  length (v_desc v) = NUM /\ length (v_avail_ring v) = NUM /\ length (v_used_ring v) = NUM /\
  length (v_free v) = NUM /\ length (v_info v) = NUM /\ length (v_ops v) = NUM.

Section waiting_fields.
Context (v : vdisk) (t b : nat) (w : bool) (i0 i1 i2 : nat).
Context (Hpre : waiting_pre v b i0 i1 i2).
Let v' := waiting t b w i0 i1 i2 v.

Lemma waiting_desc i : v_desc v' !!! i =
  if decide (i = i2) then mkDesc (AStatus i0) 1 VRING_DESC_F_WRITE 0
  else if decide (i = i1) then mkDesc (AData b) BSIZE (Z.lor (if w then 0 else VRING_DESC_F_WRITE) VRING_DESC_F_NEXT) i2
  else if decide (i = i0) then mkDesc (AOps i0) sizeof_blk_req VRING_DESC_F_NEXT i1 else v_desc v !!! i.
Proof.
  destruct Hpre as ((N0 & N1 & N2) & Hb & L1 & L2 & L3 & L4 & L5 & L6). unfold v', waiting, submit.
  cbn [v_desc set_v_threads set_v_regs set_v_avail_idx set_v_avail_ring set_v_info upd_info upd_vbuf set_v_buf].
  rewrite upd_desc_total by (cbn; by rewrite !length_alter, L1). case_decide; [done|].
  cbn [v_desc set_v_info upd_info]. rewrite upd_desc_total by (cbn; by rewrite !length_alter, L1). case_decide; [done|].
  rewrite upd_desc_total by (cbn; by rewrite L1). case_decide; done.
Qed.

Lemma waiting_info i : v_info v' !!! i = if decide (i = i0) then mkInfo (Some b) 0xff else v_info v !!! i.
Proof.
  destruct Hpre as ((N0 & N1 & N2) & Hb & L1 & L2 & L3 & L4 & L5 & L6). unfold v', waiting, submit.
  cbn [v_info set_v_threads set_v_regs set_v_avail_idx set_v_avail_ring].
  rewrite upd_info_total by (cbn; by rewrite !length_alter, L5). cbn [v_info upd_vbuf set_v_buf upd_desc set_v_desc].
  rewrite !upd_info_total by (cbn; by rewrite L5). rewrite (decide_True (P := i0 = i0)) by done. by case_decide.
Qed.

Lemma waiting_ops i : v_ops v' !!! i =
  if decide (i = i0) then mkReq (if w then VIRTIO_BLK_T_OUT else VIRTIO_BLK_T_IN) 0 (sector_of v b) else v_ops v !!! i.
Proof.
  destruct Hpre as ((N0 & N1 & N2) & Hb & L1 & L2 & L3 & L4 & L5 & L6). unfold v', waiting, submit. cbn.
  case_decide; [subst; apply insert_eq_total; by rewrite L6|by apply insert_ne_total].
Qed.

Lemma waiting_buf c : v_buf v' !!! c = if decide (c = b) then set_vb_disk 1 (v_buf v !!! b) else v_buf v !!! c.
Proof.
  destruct Hpre as ((N0 & N1 & N2) & Hb & L1 & L2 & L3 & L4 & L5 & L6). unfold v', waiting, submit. cbn [v_buf set_v_threads set_v_regs set_v_avail_idx set_v_avail_ring upd_info set_v_info].
  by rewrite upd_vbuf_total.
Qed.

Lemma waiting_free i : (i < NUM)%nat -> v_free v' !!! i = if decide (i ∈ [i0; i1; i2]) then 0 else v_free v !!! i.
Proof.
  intros Hi. destruct Hpre as ((N0 & N1 & N2) & Hb & L1 & L2 & L3 & L4 & L5 & L6). unfold v', waiting, submit. cbn [v_free set_v_threads set_v_regs
    set_v_avail_idx set_v_avail_ring upd_info set_v_info upd_vbuf set_v_buf upd_desc set_v_desc set_v_ops set_v_free].
  destruct (decide (i = i2)) as [->|H2]; [rewrite insert_eq_total by (by rewrite !length_insert, L4); by rewrite decide_True by set_solver|].
  rewrite insert_ne_total by done.
  destruct (decide (i = i1)) as [->|H1]; [rewrite insert_eq_total by (by rewrite !length_insert, L4); by rewrite decide_True by set_solver|].
  rewrite insert_ne_total by done.
  destruct (decide (i = i0)) as [->|H0]; [rewrite insert_eq_total by (by rewrite L4); by rewrite decide_True by set_solver|].
  rewrite insert_ne_total by done. rewrite decide_False; [done|]. set_solver.
Qed.

Lemma waiting_queue : is_u16 (v_avail_idx v) -> is_u16 (d_seen v) -> (length (vqueue v) < NUM)%nat ->
  vqueue v' = vqueue v ++ [i0].
Proof. intros U1 U2 Hq. destruct Hpre as ((N0 & N1 & N2) & Hb & L1 & L2 & L3 & L4 & L5 & L6). unfold vqueue, v', waiting, submit. cbn -[NUM Z.of_nat]. by apply ring_list_push. Qed.

Lemma waiting_same : vused v' = vused v /\ d_taken v' = d_taken v /\ d_disk v' = d_disk v /\ length (v_buf v') = length (v_buf v) /\
  v_threads v' = <[t := mkVthread (VWaitIO b w [i0; i1; i2]) true]> (v_threads v).
Proof. clear Hpre. split_and!; try done. unfold v', waiting, submit, upd_vbuf. cbn. by rewrite length_alter. Qed.

Lemma waiting_lens : length (v_desc v') = NUM /\ length (v_avail_ring v') = NUM /\ length (v_used_ring v') = NUM /\
    length (v_free v') = NUM /\ length (v_info v') = NUM /\ length (v_ops v') = NUM.
Proof.
  destruct Hpre as ((N0 & N1 & N2) & Hb & L1 & L2 & L3 & L4 & L5 & L6). unfold v', waiting, submit, upd_desc, upd_info, upd_vbuf. cbn -[NUM].
  rewrite !length_alter, !length_insert. by split_and!.
Qed.
End waiting_fields.

(** A thread without descriptors gets a request that is in flight. *)
Lemma vinv_joined (v v' : vdisk) (t b : nat) (w : bool) (i0 i1 i2 : nat) (p : vpc) (s : bool) :
  vinv v -> v_threads v !! t = Some (mkVthread p s) -> chain_of (mkVthread p s) = [] -> (b < length (v_buf v))%nat ->
  (forall t' th, t' <> t -> v_threads v !! t' = Some th -> busy_with b th = false) ->
  NoDup [i0; i1; i2] -> (i0 < NUM /\ i1 < NUM /\ i2 < NUM)%nat ->
  (forall i, i ∈ [i0; i1; i2] -> forall t' th, v_threads v !! t' = Some th -> ~ i ∈ chain_of th) -> ~ i0 ∈ vflight v ->
  (forall i, v_desc v' !!! i =
    if decide (i = i2) then mkDesc (AStatus i0) 1 VRING_DESC_F_WRITE 0
    else if decide (i = i1) then mkDesc (AData b) BSIZE (Z.lor (if w then 0 else VRING_DESC_F_WRITE) VRING_DESC_F_NEXT) i2
    else if decide (i = i0) then mkDesc (AOps i0) sizeof_blk_req VRING_DESC_F_NEXT i1 else v_desc v !!! i) ->
  (forall i, v_info v' !!! i = if decide (i = i0) then mkInfo (Some b) 0xff else v_info v !!! i) ->
  (forall i, v_ops v' !!! i = if decide (i = i0) then mkReq (if w then VIRTIO_BLK_T_OUT else VIRTIO_BLK_T_IN) 0 (sector_of v b) else v_ops v !!! i) ->
  (forall c, vb_disk (v_buf v' !!! c) = if decide (c = b) then 1 else vb_disk (v_buf v !!! c)) ->
  (forall c, vb_blockno (v_buf v' !!! c) = vb_blockno (v_buf v !!! c)) ->
  (forall i, (i < NUM)%nat -> v_free v' !!! i = if decide (i ∈ [i0; i1; i2]) then 0 else v_free v !!! i) ->
  vused v' = vused v -> length (v_buf v') = length (v_buf v) ->
  v_threads v' = <[t := mkVthread (VWaitIO b w [i0; i1; i2]) true]> (v_threads v) ->
  length (v_desc v') = NUM /\ length (v_avail_ring v') = NUM /\ length (v_used_ring v') = NUM /\
    length (v_free v') = NUM /\ length (v_info v') = NUM /\ length (v_ops v') = NUM ->
  vflight v' ≡ₚ i0 :: vflight v -> is_u16 (v_avail_idx v') /\ is_u16 (v_used_idx v') /\ is_u16 (v_seen v') /\ is_u16 (d_seen v') ->
  vinv v'.
Proof.
  intros HI Ht Hc0 Hb Hother Hnd HN Hfresh Hi0 WD WI WO WB WN WF WU WL WTh WLen EF HU.
  pose proof HI as [L I3 I4 I5 I6 I7 I8 I9 I10 I11 I12]. destruct (idx_apart i0 i1 i2 Hnd) as (H01 & H02 & H12).
  assert (HF : forall t' th, v_threads v' !! t' = Some th ->
    (t' = t /\ th = mkVthread (VWaitIO b w [i0; i1; i2]) true) \/ (t' <> t /\ v_threads v !! t' = Some th)).
  { intros t' th. rewrite WTh, list_lookup_insert_Some. naive_solver. }
  assert (HB : forall t' th, t' <> t -> v_threads v !! t' = Some th -> v_threads v' !! t' = Some th).
  { intros t' th Hne Ht'. by rewrite WTh, list_lookup_insert_ne. }
  assert (Htt : v_threads v' !! t = Some (mkVthread (VWaitIO b w [i0; i1; i2]) true)).
  { rewrite WTh. apply list_lookup_insert_eq. by eapply lookup_lt_Some. }
  assert (HD : forall i, ~ i ∈ [i0; i1; i2] -> v_desc v' !!! i = v_desc v !!! i).
  { intros i Hi. rewrite WD, !decide_False by set_solver. done. }
  assert (ES : forall c, sector_of v' c = sector_of v c) by (intros c; unfold sector_of; by rewrite WN).
  split; [done|done| | | | | | | | |].
  - intros t' b' w' idx s' [[-> [= -> -> -> ->]]|[Hne Ht']]%HF.
    + exists i0, i1, i2. split_and!; [done| |by rewrite WB, !decide_True by (done || (rewrite EF; left))|intros _; rewrite EF; left].
      split; try done.
      * rewrite WD, !decide_False, decide_True by done. done.
      * rewrite WD, decide_False, decide_True by done. done.
      * rewrite WD, decide_True by done. done.
      * rewrite WO, decide_True, ES by done. done.
      * by rewrite WI, decide_True.
      * rewrite WU. intros Hin. destruct Hi0. unfold vflight. set_solver.
    + destruct (I4 _ _ _ _ _ Ht') as (j0 & j1 & j2 & -> & [C1 C2 C3 C4 C5 C6 C7 C8] & Hd & Hs).
      assert (Hj : forall i, i ∈ [j0; j1; j2] -> ~ i ∈ [i0; i1; i2]) by (intros i Hi Hi'; by apply (Hfresh i Hi' _ _ Ht')).
      assert (Hj0 : j0 <> i0) by (intros ->; by apply (Hj i0 ltac:(left)); left).
      assert (Hbb : b' <> b) by (intros ->; specialize (Hother _ _ Hne Ht'); cbn in Hother; by rewrite Nat.eqb_refl in Hother).
      exists j0, j1, j2. split_and!; [done| | |].
      * split; try done; try (rewrite HD by (apply Hj; set_solver); done).
        -- by rewrite WO, decide_False, ES.
        -- by rewrite WI, decide_False.
        -- rewrite WU, WI, decide_False by done. done.
      * rewrite WB, (decide_False (P := b' = b)), Hd by done. destruct (decide (j0 ∈ vflight v)) as [Hin|Hin].
        -- rewrite decide_True; [done|]. rewrite EF. by right.
        -- rewrite decide_False; [done|]. rewrite EF. set_solver.
      * intros Hs'. rewrite EF. right. by apply Hs.
  - intros t' th b' [[-> ->]|[Hne Ht']]%HF Hb'; rewrite WL; [|by eapply I5]. cbn in Hb'. apply Nat.eqb_eq in Hb'. by subst.
  - intros t' t'' th th' b' [[-> ->]|[Hne Ht']]%HF [[-> ->]|[Hne' Ht'']]%HF Hb1 Hb2; [done| | |by eapply I6].
    + cbn in Hb1. apply Nat.eqb_eq in Hb1 as ->. by rewrite (Hother _ _ Hne' Ht'') in Hb2.
    + cbn in Hb2. apply Nat.eqb_eq in Hb2 as ->. by rewrite (Hother _ _ Hne Ht') in Hb1.
  - intros t' t'' th th' i [[-> ->]|[Hne Ht']]%HF [[-> ->]|[Hne' Ht'']]%HF Hb1 Hb2; [done| | |by eapply I7].
    + by destruct (Hfresh i Hb1 _ _ Ht'').
    + by destruct (Hfresh i Hb2 _ _ Ht').
  - intros i Hi. rewrite WF by done. case_decide as E.
    + left. split; [done|]. exists t, (mkVthread (VWaitIO b w [i0; i1; i2]) true). done.
    + destruct (I8 i Hi) as [(E0 & t' & th & Ht' & Hin)|(E1 & Hn)]; [left|right]; split; try done.
      * exists t', th. split; [|done]. apply HB; [|done]. intros ->. rewrite Ht in Ht'. injection Ht' as <-. by rewrite Hc0 in Hin; apply elem_of_nil in Hin.
      * intros t' th [[_ ->]|[Hne Ht']]%HF; [done|by eapply Hn].
  - rewrite EF. by apply NoDup_cons.
  - intros h Hh. rewrite EF in Hh. apply elem_of_cons in Hh as [->|Hh]; [by exists t, b, w, i1, i2, true|].
    destruct (I10 h Hh) as (t' & b' & w' & j1 & j2 & s' & Ht'). exists t', b', w', j1, j2, s'. apply HB; [|done].
    intros ->. rewrite Ht in Ht'. injection Ht' as -> ->. by apply (f_equal length) in Hc0.
  - intros t' b' w' [[_ [=]]|[Hne Ht']]%HF. destruct (I11 _ _ _ Ht') as (t1 & t2 & th1 & th2 & H1 & H2 & Hn12 & C1 & C2).
    assert (Hnt : forall x th, v_threads v !! x = Some th -> chain_of th <> [] -> x <> t).
    { intros x th Hx Hcx ->. rewrite Ht in Hx. by injection Hx as <-. }
    exists t1, t2, th1, th2. split_and!; [apply HB; [by eapply Hnt|done]|apply HB; [by eapply Hnt|done]|done|done|done].
  - intros t' s' [[_ [=]]|[Hne Ht']]%HF. by eapply I12.
Qed.

Lemma vinv_waiting v t b w i0 i1 i2 s p :
  vinv v -> v_threads v !! t = Some (mkVthread p s) -> p = VIdle \/ p = VWaitDesc b w ->
  (b < length (v_buf v))%nat -> (forall t' th, t' <> t -> v_threads v !! t' = Some th -> busy_with b th = false) ->
  NoDup [i0; i1; i2] -> (i0 < NUM /\ i1 < NUM /\ i2 < NUM)%nat ->
  v_free v !!! i0 <> 0 /\ v_free v !!! i1 <> 0 /\ v_free v !!! i2 <> 0 ->
  vinv (waiting t b w i0 i1 i2 v) /\ vqueue (waiting t b w i0 i1 i2 v) = vqueue v ++ [i0].
Proof.
  intros HI Ht Hp Hb Hother Hnd HN (F0 & F1 & F2). pose proof HI as [L I3 I4 I5 I6 I7 I8 I9 I10 I11 I12].
  assert (Hpre : waiting_pre v b i0 i1 i2) by (by split).
  pose proof (waiting_desc v t b w i0 i1 i2 Hpre) as WD. pose proof (waiting_info v t b w i0 i1 i2 Hpre) as WI.
  pose proof (waiting_ops v t b w i0 i1 i2 Hpre) as WO. pose proof (waiting_buf v t b w i0 i1 i2 Hpre) as WB.
  pose proof (waiting_free v t b w i0 i1 i2 Hpre) as WF. pose proof (waiting_same v t b w i0 i1 i2) as (WU & WT & _ & WL & WTh).
  pose proof (waiting_queue v t b w i0 i1 i2 Hpre) as WQ. pose proof (waiting_lens v t b w i0 i1 i2 Hpre) as WLen.
  destruct (idx_apart i0 i1 i2 Hnd) as (H01 & H02 & H12).
  assert (Hc0 : chain_of (mkVthread p s) = []) by (destruct Hp as [->| ->]; done).
  assert (Hfresh : forall i, i ∈ [i0; i1; i2] -> (forall t' th, v_threads v !! t' = Some th -> ~ i ∈ chain_of th)).
  { intros i Hi. assert (Hin : (i < NUM)%nat /\ v_free v !!! i <> 0).
    { apply elem_of_cons in Hi as [->|Hi]; [split; [lia|done]|]. apply elem_of_cons in Hi as [->|Hi%list_elem_of_singleton]; [split; [lia|done]|].
      subst. split; [lia|done]. }
    destruct (I8 i (proj1 Hin)) as [[E _]|[_ Hno]]; [by destruct Hin|done]. }
  assert (Hi0 : ~ i0 ∈ vflight v).
  { intros Hin. destruct (I10 i0 Hin) as (t' & b' & w' & j1 & j2 & s' & Ht'). apply (Hfresh i0 ltac:(left) _ _ Ht'). cbn. left. }
  destruct I3 as (U1 & U2 & U3 & U4).
  assert (Hq : vqueue (waiting t b w i0 i1 i2 v) = vqueue v ++ [i0]).
  { apply WQ; [done|done|]. assert (Hl : (length (i0 :: vqueue v) <= NUM)%nat); [|cbn in Hl; lia]. apply nodup_bound.
    - apply NoDup_cons. split; [unfold vflight, vpending in Hi0; set_solver|]. unfold vflight, vpending in I9.
      apply NoDup_app in I9 as (I9 & _ & _). by apply NoDup_app in I9 as (? & _ & _).
    - apply Forall_cons. split; [lia|]. apply Forall_forall. intros i Hi. apply (flight_num v); [done|]. unfold vflight, vpending. set_solver. }
  split; [|done]. set (v' := waiting t b w i0 i1 i2 v) in *.
  assert (EF : vflight v' ≡ₚ i0 :: vflight v).
  { unfold vflight, vpending. rewrite Hq, WU, WT. solve_Permutation. }
  assert (HF : forall t' th, v_threads v' !! t' = Some th ->
    (t' = t /\ th = mkVthread (VWaitIO b w [i0; i1; i2]) true) \/ (t' <> t /\ v_threads v !! t' = Some th)).
  { intros t' th. rewrite WTh, list_lookup_insert_Some. naive_solver. }
  assert (HB : forall t' th, t' <> t -> v_threads v !! t' = Some th -> v_threads v' !! t' = Some th).
  { intros t' th Hne Ht'. by rewrite WTh, list_lookup_insert_ne. }
  assert (Htt : v_threads v' !! t = Some (mkVthread (VWaitIO b w [i0; i1; i2]) true)).
  { rewrite WTh. apply list_lookup_insert_eq. by eapply lookup_lt_Some. }
  assert (HU : is_u16 (v_avail_idx v') /\ is_u16 (v_used_idx v') /\ is_u16 (v_seen v') /\ is_u16 (d_seen v')) by (split_and!; try done; apply u16_is).
  clearbody v'. apply (vinv_joined v v' t b w i0 i1 i2 p s); try done.
  - intros c. rewrite WB. by case_decide; subst.
  - intros c. rewrite WB. case_decide; by subst.
Qed.
