(* ===== verification/VirtioRun.v ===== *)
(** * The disk driver: every step

    The driver's code never panics and keeps the invariant of VirtioSpec.v; a
    step of the driver or of the device is one of a disk that transfers whole
    blocks at once, or none; and the calls under way end. *)

From S2P Require Export VirtioSpec.

Lemma pick_num (K : list nat) : (length K < NUM)%nat -> exists i, (i < NUM)%nat /\ ~ i ∈ K.
Proof.
  intros HK. destruct (decide (Forall (fun i => i ∈ K) (seq 0 NUM))) as [Hall|Hn].
  - assert (NUM <= length K)%nat; [|lia]. transitivity (length (seq 0 NUM)); [by rewrite length_seq|].
    apply submseteq_length, NoDup_submseteq; [apply NoDup_seq|]. intros i Hi. rewrite Forall_forall in Hall. auto.
  - apply not_Forall_Exists in Hn; [|apply _]. apply Exists_exists in Hn as (i & Hi & Hni). apply elem_of_seq in Hi.
    exists i. split; [lia|done].
Qed.

Lemma chain_length v t th : vinv v -> v_threads v !! t = Some th -> (length (chain_of th) <= 3)%nat.
Proof.
  intros HI Ht. destruct th as [p s]. unfold chain_of; cbn. destruct p as [|b w|b w idx]; cbn; [lia..|].
  destruct (vi_chain _ HI _ _ _ _ _ Ht) as (? & ? & ? & -> & _). done.
Qed.

(** Where at most two descriptors are free, two requests have some. *)
Lemma two_chains v J :
  vinv v -> (length J <= 2)%nat -> (forall i, (i < NUM)%nat -> v_free v !!! i <> 0 -> i ∈ J) ->
  exists t1 t2 th1 th2, v_threads v !! t1 = Some th1 /\ v_threads v !! t2 = Some th2 /\ t1 <> t2 /\
    chain_of th1 <> [] /\ chain_of th2 <> [].
Proof.
  intros HI HJ Hf.
  assert (Hheld : forall i, (i < NUM)%nat -> ~ i ∈ J -> exists t th, v_threads v !! t = Some th /\ i ∈ chain_of th).
  { intros i Hi Hn. destruct (vi_free _ HI i Hi) as [[_ H]|[E _]]; [done|]. destruct Hn. apply Hf; [done|]. by rewrite E. }
  destruct (pick_num J) as (i & Hi & Hni); [change NUM with 8%nat; lia|]. destruct (Hheld i Hi Hni) as (t1 & th1 & H1 & C1).
  pose proof (chain_length v t1 th1 HI H1) as Hl.
  destruct (pick_num (J ++ chain_of th1)) as (j & Hj & Hnj); [rewrite length_app; change NUM with 8%nat; lia|].
  destruct (Hheld j Hj) as (t2 & th2 & H2 & C2); [set_solver|].
  exists t1, t2, th1, th2. split_and!; [done|done| |by intros E; rewrite E in C1; apply elem_of_nil in C1|by intros E; rewrite E in C2; apply elem_of_nil in C2].
  intros ->. rewrite H1 in H2. injection H2 as <-. set_solver.
Qed.

(** A thread without descriptors goes to sleep for them. *)
Lemma vinv_sleep_desc v t b w p s :
  vinv v -> v_threads v !! t = Some (mkVthread p s) -> chain_of (mkVthread p s) = [] -> (b < length (v_buf v))%nat ->
  (forall t' th, t' <> t -> v_threads v !! t' = Some th -> busy_with b th = false) ->
  (exists t1 t2 th1 th2, v_threads v !! t1 = Some th1 /\ v_threads v !! t2 = Some th2 /\ t1 <> t2 /\
    chain_of th1 <> [] /\ chain_of th2 <> []) ->
  vinv (set_v_threads (<[t := mkVthread (VWaitDesc b w) true]> (v_threads v)) v).
Proof.
  intros HI Ht Hc0 Hb Hother Htwo. set (v' := set_v_threads _ v).
  pose proof HI as [L I3 I4 I5 I6 I7 I8 I9 I10 I11 I12].
  assert (HF : forall t' th, v_threads v' !! t' = Some th ->
    (t' = t /\ th = mkVthread (VWaitDesc b w) true) \/ (t' <> t /\ v_threads v !! t' = Some th)).
  { intros t' th. unfold v'. cbn. rewrite list_lookup_insert_Some. naive_solver. }
  assert (HB : forall t' th, v_threads v !! t' = Some th -> chain_of th <> [] -> v_threads v' !! t' = Some th).
  { intros t' th Ht' Hne. unfold v'. cbn. rewrite list_lookup_insert_ne; [done|]. intros ->. rewrite Ht in Ht'. by injection Ht' as <-. }
  split; [done|done| | | | | |done| | |].
  - intros t' b' w' idx s' [[_ [=]]|[Hne Ht']]%HF. destruct (I4 _ _ _ _ _ Ht') as (i0 & i1 & i2 & -> & [] & Hd & Hs).
    exists i0, i1, i2. split_and!; done.
  - intros t' th b' [[_ ->]|[Hne Ht']]%HF Hb'; [|by eapply I5]. cbn in Hb'. apply Nat.eqb_eq in Hb' as ->. done.
  - intros t' t'' th th' b' [[-> ->]|[Hne Ht']]%HF [[-> ->]|[Hne' Ht'']]%HF Hb1 Hb2; [done| | |by eapply I6].
    + cbn in Hb1. apply Nat.eqb_eq in Hb1 as ->. by rewrite (Hother _ _ Hne' Ht'') in Hb2.
    + cbn in Hb2. apply Nat.eqb_eq in Hb2 as ->. by rewrite (Hother _ _ Hne Ht') in Hb1.
  - intros t' t'' th th' i [[-> ->]|[Hne Ht']]%HF [[-> ->]|[Hne' Ht'']]%HF Hb1 Hb2; try done; try (by apply elem_of_nil in Hb1); try (by apply elem_of_nil in Hb2).
    by eapply I7.
  - intros i Hi. destruct (I8 i Hi) as [(E0 & t' & th & Ht' & Hin)|(E1 & Hn)]; [left|right]; split; try done.
    + exists t', th. split; [|done]. apply HB; [done|]. intros E. rewrite E in Hin. by apply elem_of_nil in Hin.
    + intros t' th [[_ ->]|[Hne Ht']]%HF; [by intros ?%elem_of_nil|by eapply Hn].
  - intros h Hh. destruct (I10 h Hh) as (t' & b' & w' & j1 & j2 & s' & Ht'). exists t', b', w', j1, j2, s'. by apply HB.
  - intros t' b' w' _. destruct Htwo as (t1 & t2 & th1 & th2 & H1 & H2 & Hne & C1 & C2). exists t1, t2, th1, th2.
    split_and!; [by apply HB|by apply HB|done..].
  - intros t' s' [[_ [=]]|[Hne Ht']]%HF. by eapply I12.
Qed.

(** ** The code of a call *)

(** What [rw_alloc] needs of the thread that runs it. *)
Record allocating (v : vdisk) (t b : nat) (w : bool) : Prop := {
  al_thread : exists p s, v_threads v !! t = Some (mkVthread p s) /\ (p = VIdle \/ p = VWaitDesc b w);
  al_buf : (b < length (v_buf v))%nat;
  al_other : forall t' th, t' <> t -> v_threads v !! t' = Some th -> busy_with b th = false
}.

Lemma submit_disk b w i0 i1 i2 v : (b < length (v_buf v))%nat -> vb_disk (v_buf (submit b w i0 i1 i2 v) !!! b) = 1.
Proof.
  intros Hb. unfold submit. cbn [v_buf set_v_regs set_v_avail_idx set_v_avail_ring upd_info set_v_info].
  rewrite upd_vbuf_total by done. by rewrite decide_True.
Qed.

Lemma submit_locked b w i0 i1 i2 v : v_locked (submit b w i0 i1 i2 v) = v_locked v.
Proof. done. Qed.

Lemma submit_threads b w i0 i1 i2 v : v_threads (submit b w i0 i1 i2 v) = v_threads v.
Proof. done. Qed.

Lemma vsleep_run t p v : v_locked v = true ->
  vsleep t p v = Ok tt (set_v_locked false (set_v_threads (<[t := mkVthread p true]> (v_threads v)) v)).
Proof. intros Hl. unfold vsleep, vrelease. mrun. change (v_locked (set_v_threads _ v)) with (v_locked v). by rewrite Hl. Qed.

Lemma two_chains_le ts ts' :
  Forall2 th_le ts ts' ->
  (exists t1 t2 th1 th2, ts !! t1 = Some th1 /\ ts !! t2 = Some th2 /\ t1 <> t2 /\ chain_of th1 <> [] /\ chain_of th2 <> []) ->
  exists t1 t2 th1 th2, ts' !! t1 = Some th1 /\ ts' !! t2 = Some th2 /\ t1 <> t2 /\ chain_of th1 <> [] /\ chain_of th2 <> [].
Proof.
  intros Hle (t1 & t2 & th1 & th2 & H1 & H2 & Hne & C1 & C2).
  destruct (Forall2_lookup_l _ _ _ _ _ Hle H1) as (th1' & H1' & L1), (Forall2_lookup_l _ _ _ _ _ Hle H2) as (th2' & H2' & L2).
  exists t1, t2, th1', th2'. by rewrite (chain_of_le _ _ L1), (chain_of_le _ _ L2).
Qed.

(** The state in which a call sleeps for descriptors. *)
Definition refused (t b : nat) (w : bool) (ds : list virtq_desc) (ts : list vthread) (v : vdisk) : vdisk :=
  set_v_threads (<[t := mkVthread (VWaitDesc b w) true]> ts) (set_v_desc ds v).

Lemma vinv_refused v t b w J ds ts :
  vinv v -> allocating v t b w -> alloc_failed v J ds ts -> vinv (refused t b w ds ts v).
Proof.
  intros HI [(p & s & Ht & Hp) Hb Ho] HA. pose proof (alloc_failed_le _ _ _ _ HA) as Hle.
  destruct HA as (HJ & Hf & Hf' & Ld & Hds & _). pose proof (vi_lens _ HI) as (L1 & _).
  assert (Hc0 : forall s', chain_of (mkVthread p s') = []) by (intros s'; destruct Hp as [->| ->]; done).
  assert (HI1 : vinv (set_v_desc ds v)).
  { apply vinv_desc; [done|by rewrite Ld|]. intros t' th i Ht' Hi. apply Hds. intros Hin.
    pose proof (Hf' i Hin) as Hfr. assert (Hi8 : (i < NUM)%nat).
    { destruct th as [[|b' w'|b' w' idx] s']; cbn in Hi; [by apply elem_of_nil in Hi|by apply elem_of_nil in Hi|].
      destruct (vi_chain _ HI _ _ _ _ _ Ht') as (i0 & i1 & i2 & -> & Hc & _). destruct (co_num _ _ _ _ _ _ Hc) as (N0 & N1 & N2).
      apply elem_of_cons in Hi as [->|Hi]; [done|]. apply elem_of_cons in Hi as [->|Hi%list_elem_of_singleton]; [done|by subst]. }
    destruct (vi_free _ HI i Hi8) as [[E _]|[_ Hn]]; [done|by apply (Hn _ _ Ht')]. }
  pose proof (vinv_threads (set_v_desc ds v) ts HI1 Hle) as HI2.
  destruct (Forall2_lookup_l _ _ _ _ _ Hle Ht) as ([p' s'] & Ht' & [Ep _]). cbn in Ep. subst p'.
  apply (vinv_sleep_desc (set_v_threads ts (set_v_desc ds v)) t b w p s'); [done|done|apply Hc0|done| |].
  - intros t' th' Hne Hth. destruct (Forall2_lookup_r _ _ _ _ _ Hle Hth) as (th & Hth0 & L). rewrite (busy_with_le _ _ _ L). by eapply Ho.
  - apply (two_chains_le (v_threads v) ts Hle). by apply (two_chains v J HI HJ).
Qed.

(** [rw_alloc] with the lock held: the request is submitted, or there are not
    three free descriptors. *)
Lemma rw_alloc_run v t b w :
  vinv v -> v_locked v = true -> allocating v t b w ->
  (exists i0 i1 i2, rw_alloc t b w v = Ok tt (set_v_locked false (waiting t b w i0 i1 i2 v)) /\
     vinv (waiting t b w i0 i1 i2 v) /\ vqueue (waiting t b w i0 i1 i2 v) = vqueue v ++ [i0]) \/
  (exists J ds ts, rw_alloc t b w v = Ok tt (set_v_locked false (refused t b w ds ts v)) /\ vinv (refused t b w ds ts v) /\
     alloc_failed v J ds ts).
Proof.
  intros HI Hl HA. pose proof HA as [(p & s & Ht & Hp) Hb Ho]. pose proof (vi_lens _ HI) as (L1 & L2 & L3 & L4 & L5 & L6).
  destruct (alloc3_run v L4) as [(i0 & i1 & i2 & Hnd & HN & HF & R)|(J & ds & ts & Hfail & R)].
  - intros i Hi. destruct (vi_free _ HI i Hi) as [[E _]|[E _]]; auto.
  - left. exists i0, i1, i2. destruct (vinv_waiting v t b w i0 i1 i2 s p HI Ht Hp Hb Ho Hnd HN HF) as [HI' HQ]. split; [|done].
    unfold rw_alloc. rewrite (run_bind _ _ _ _ _ R). cbv iota. set (v1 := set_v_free _ v).
    rewrite (run_bind _ _ _ _ _ (rw_submit_run b w i0 i1 i2 v1)). unfold rw_wait. rewrite bind_gets, submit_disk by done.
    change (1 =? 1) with true. cbv iota. rewrite vsleep_run by (by rewrite submit_locked). by rewrite submit_threads.
  - right. exists J, ds, ts. split; [|split; [by eapply vinv_refused|done]].
    unfold rw_alloc. rewrite (run_bind _ _ _ _ _ R). cbv iota. rewrite vsleep_run by done. done.
Qed.

(** ** The disk the callers see

    A call is pending until its block is transferred, in one step, and done
    until it returns. *)

Inductive acall := AIdle | APending (b : nat) (w : bool) | ADone (b : nat) (w : bool).

Record adisk := mkAdisk { a_calls : list acall; a_bufs : list (Z * list Z); a_disk : Z -> Z }.

(** Block [n] of the disk. *)
Definition block_get (d : Z -> Z) (n : Z) : list Z := (fun i => d (BSIZE * n + Z.of_nat i)) <$> seq 0 (Z.to_nat BSIZE).
Definition block_put (n : Z) (data : list Z) (d : Z -> Z) : Z -> Z := fun a =>
  if (BSIZE * n <=? a) && (a <? BSIZE * (n + 1)) then data !!! Z.to_nat (a - BSIZE * n) else d a.

Definition a_transfer (b : nat) (w : bool) (a : adisk) : adisk :=
  let '(n, data) := a_bufs a !!! b in
  if w then mkAdisk (a_calls a) (a_bufs a) (block_put n data (a_disk a))
  else mkAdisk (a_calls a) (<[b := (n, block_get (a_disk a) n)]> (a_bufs a)) (a_disk a).

Definition a_goto (t : nat) (c : acall) (a : adisk) : adisk := mkAdisk (<[t := c]> (a_calls a)) (a_bufs a) (a_disk a).

Inductive astep (a : adisk) : adisk -> Prop :=
  | astep_start t b w : a_calls a !! t = Some AIdle -> astep a (a_goto t (APending b w) a)
  | astep_transfer t b w : a_calls a !! t = Some (APending b w) -> astep a (a_goto t (ADone b w) (a_transfer b w a))
  | astep_return t b w : a_calls a !! t = Some (ADone b w) -> astep a (a_goto t AIdle a).

Definition abs_call (pending : list nat) (th : vthread) : acall :=
  match th_pc th with
  | VIdle => AIdle
  | VWaitDesc b w => APending b w
  | VWaitIO b w idx => if decide (idx !!! 0%nat ∈ pending) then APending b w else ADone b w
  end.

Definition abs_buf (x : vbuf) : Z * list Z := (vb_blockno x, vb_data x).

Definition abs (v : vdisk) : adisk := mkAdisk (abs_call (vpending v) <$> v_threads v) (abs_buf <$> v_buf v) (d_disk v).

(** ** What the steps do *)

(** [th] is a call of block [b]: its descriptors are not in [P]. *)
Lemma abs_call_le P th th' : th_le th th' -> abs_call P th' = abs_call P th.
Proof. intros [E _]. unfold abs_call. by rewrite E. Qed.

Lemma abs_calls_le P ts ts' : Forall2 th_le ts ts' -> abs_call P <$> ts' = abs_call P <$> ts.
Proof. induction 1 as [|th th' ts ts' Hle _ IH]; [done|]. cbn. f_equal; [by apply abs_call_le|exact IH]. Qed.

(** Membership of the heads decides. *)
Lemma abs_calls_ext v P P' t :
  vinv v -> (forall t' th i, t' <> t -> v_threads v !! t' = Some th -> i ∈ chain_of th -> i ∈ P' <-> i ∈ P) ->
  forall t' th, t' <> t -> v_threads v !! t' = Some th -> abs_call P' th = abs_call P th.
Proof.
  intros HI HP t' [p s] Hne Ht'. unfold abs_call. cbn. destruct p as [| |b w idx]; [done|done|].
  destruct (vi_chain _ HI _ _ _ _ _ Ht') as (i0 & i1 & i2 & -> & _). specialize (HP t' _ i0 Hne Ht' ltac:(left)).
  cbn. destruct (decide (i0 ∈ P)), (decide (i0 ∈ P')); tauto.
Qed.

(** A step that concerns thread [t]: the other calls stay. *)
Lemma abs_calls_insert v P P' ts t th0 :
  vinv v -> (t < length (v_threads v))%nat -> Forall2 th_le (v_threads v) ts ->
  (forall t' th i, t' <> t -> v_threads v !! t' = Some th -> i ∈ chain_of th -> i ∈ P' <-> i ∈ P) ->
  abs_call P' <$> (<[t := th0]> ts) = <[t := abs_call P' th0]> (abs_call P <$> v_threads v).
Proof.
  intros HI Hl Hle HP. rewrite list_fmap_insert. pose proof (Forall2_length _ _ _ Hle) as El.
  apply list_eq. intros t'. destruct (decide (t' = t)) as [->|Hne].
  - rewrite !list_lookup_insert_eq by (rewrite length_fmap; lia). done.
  - rewrite !list_lookup_insert_ne by done. rewrite !list_lookup_fmap.
    destruct (v_threads v !! t') as [th|] eqn:Et.
    + destruct (Forall2_lookup_l _ _ _ _ _ Hle Et) as (th' & -> & L). cbn. f_equal. rewrite (abs_call_le _ _ _ L).
      by apply (abs_calls_ext v P P' t HI HP t').
    + rewrite (lookup_ge_None_2 ts t'); [done|]. apply lookup_ge_None_1 in Et. lia.
Qed.

Lemma pending_flight v i : i ∈ vpending v -> i ∈ vflight v.
Proof. unfold vflight. set_solver. Qed.

(** *** A request is queued, or refused *)

Lemma abs_waiting v t b w i0 i1 i2 :
  vinv v -> vinv (waiting t b w i0 i1 i2 v) -> vqueue (waiting t b w i0 i1 i2 v) = vqueue v ++ [i0] -> (t < length (v_threads v))%nat ->
  (b < length (v_buf v))%nat -> abs (waiting t b w i0 i1 i2 v) = a_goto t (APending b w) (abs v).
Proof.
  intros HI HI' HQ Hl Hb. set (v' := waiting t b w i0 i1 i2 v) in *. pose proof (waiting_same v t b w i0 i1 i2) as (WU & WT & WD & WL & WTh).
  fold v' in WU, WT, WD, WL, WTh.
  assert (EP : vpending v' = vqueue v ++ [i0] ++ d_taken v) by (unfold vpending; rewrite HQ, WT; by rewrite <- (assoc_L (++))).
  assert (Htt : v_threads v' !! t = Some (mkVthread (VWaitIO b w [i0; i1; i2]) true)) by (rewrite WTh; by apply list_lookup_insert_eq).
  unfold abs, a_goto. cbn [a_calls a_bufs a_disk]. f_equal; [|clear - Hb].
  - rewrite WTh, (abs_calls_insert v (vpending v) (vpending v') _ t _ HI Hl (th_le_refl _)).
    + do 2 f_equal. unfold abs_call. cbn. rewrite decide_True; [done|]. rewrite EP. set_solver.
    + intros t' th i Hne Ht' Hi. rewrite EP. unfold vpending. assert (i <> i0); [|set_solver]. intros ->. apply Hne.
      assert (Ht'' : v_threads v' !! t' = Some th) by (by rewrite WTh, list_lookup_insert_ne). by eapply (vi_apart _ HI' _ _ _ _ i0 Ht'' Htt); [|left].
  - unfold v', waiting, submit. cbn [v_buf set_v_threads set_v_regs set_v_avail_idx set_v_avail_ring upd_info set_v_info upd_vbuf set_v_buf upd_desc set_v_desc set_v_ops set_v_free].
    apply list_eq. intros c. rewrite !list_lookup_fmap. destruct (decide (c = b)) as [->|Hne]; [rewrite list_lookup_alter_eq|by rewrite list_lookup_alter_ne].
    by destruct (v_buf v !! b).
Qed.

Lemma abs_refused v t b w J ds ts :
  vinv v -> (t < length (v_threads v))%nat -> alloc_failed v J ds ts -> abs (refused t b w ds ts v) = a_goto t (APending b w) (abs v).
Proof.
  intros HI Hl HA. unfold abs, a_goto. cbn [a_calls a_bufs a_disk refused]. f_equal. cbn [v_threads set_v_threads].
  change (vpending (refused t b w ds ts v)) with (vpending v).
  apply (abs_calls_insert v _ _ ts t); [done|done|by eapply alloc_failed_le|done].
Qed.

(** *** A call returns *)

Lemma abs_returned v t b w i0 i1 i2 s :
  vinv v -> v_threads v !! t = Some (mkVthread (VWaitIO b w [i0; i1; i2]) s) -> ~ i0 ∈ vflight v ->
  abs (returned t b [i0; i1; i2] v) = a_goto t AIdle (abs v) /\ a_calls (abs v) !! t = Some (ADone b w).
Proof.
  intros HI Ht Hn. split.
  - unfold abs, a_goto. cbn [a_calls a_bufs a_disk]. f_equal.
    change (vpending (returned t b [i0; i1; i2] v)) with (vpending v). change (v_threads (returned t b [i0; i1; i2] v)) with (<[t := mkVthread VIdle false]> (wake3 (v_threads v))).
    apply (abs_calls_insert v _ _ _ t (mkVthread VIdle false)); [done|by eapply lookup_lt_Some|apply wake3_le|done].
  - cbn. rewrite list_lookup_fmap, Ht. cbn. unfold abs_call. cbn. rewrite decide_False; [done|]. intros Hp%pending_flight. done.
Qed.

(** *** The device and the interrupt handler *)

Lemma abs_calls_same v P' : vinv v -> (forall i, i ∈ P' <-> i ∈ vpending v) ->
  abs_call P' <$> v_threads v = abs_call (vpending v) <$> v_threads v.
Proof.
  intros HI HP. apply list_eq. intros t. rewrite !list_lookup_fmap. destruct (v_threads v !! t) as [th|] eqn:Et; [|done].
  cbn. f_equal. by apply (abs_calls_ext v _ _ (S t) HI (fun _ _ i _ _ _ => HP i) t th (Nat.neq_succ_diag_r t) Et).
Qed.

Lemma abs_take v v' : vinv v -> dev_take v = Some v' -> abs v' = abs v.
Proof.
  intros HI H. destruct (dev_take_inv v v' HI H) as (_ & h & EQ & ET & _).
  unfold dev_take in H. destruct (_ =? _); [done|]. injection H as <-. set (v' := set_d_taken _ _) in *.
  unfold abs. f_equal; [|done..]. change (v_threads v') with (v_threads v). apply abs_calls_same; [done|].
  intros i. unfold vpending. rewrite ET, EQ. set_solver.
Qed.

Lemma completed_pending v h i : vinv v -> h ∈ d_taken v -> i ∈ vpending (completed h v) <-> i ∈ vpending v /\ i <> h.
Proof.
  intros HI Hh. pose proof (vi_nodup _ HI) as Hnd. unfold vflight, vpending in *. change (vqueue (completed h v)) with (vqueue v).
  cbn [d_taken completed set_d_taken]. rewrite !elem_of_app, list_elem_of_filter.
  apply NoDup_app in Hnd as (Hnd & _ & _). apply NoDup_app in Hnd as (_ & Hap & _). naive_solver.
Qed.

Lemma sector_block n : 0 <= n < 2147483648 -> 512 * u32 (n * (BSIZE / 512)) = BSIZE * n.
Proof. intros Hn. change (BSIZE / 512) with 2. change BSIZE with 1024. unfold u32. rewrite Z.mod_small; lia. Qed.

Lemma disk_get_block d n : 0 <= n < 2147483648 -> disk_get d (u32 (n * (BSIZE / 512))) BSIZE = block_get d n.
Proof. intros Hn. unfold disk_get, block_get. by rewrite sector_block. Qed.

Lemma disk_put_block d n data : 0 <= n < 2147483648 -> disk_put (u32 (n * (BSIZE / 512))) BSIZE data d = block_put n data d.
Proof. intros Hn. unfold disk_put, block_put. rewrite sector_block by done. replace (BSIZE * (n + 1)) with (BSIZE * n + BSIZE) by lia. done. Qed.

(** The blocks the buffers are for are blocks of the disk. *)
Definition blocks_fit (v : vdisk) : Prop := Forall (fun x => 0 <= vb_blockno x < 2147483648) (v_buf v).

Lemma abs_complete v t b w h i1 i2 s :
  vinv v -> blocks_fit v -> v_threads v !! t = Some (mkVthread (VWaitIO b w [h; i1; i2]) s) -> h ∈ d_taken v -> (b < length (v_buf v))%nat ->
  abs (completed h (transferred b w v)) = a_goto t (ADone b w) (a_transfer b w (abs v)) /\ a_calls (abs v) !! t = Some (APending b w).
Proof.
  intros HI Hfit Ht Hh Hb. set (v1 := transferred b w v).
  assert (HI1 : vinv v1) by (by apply transferred_inv).
  assert (ET : v_threads v1 = v_threads v) by (unfold v1; by destruct w).
  assert (EP : vpending v1 = vpending v) by (unfold v1; by destruct w).
  assert (Hh1 : h ∈ d_taken v1) by (unfold v1; by destruct w).
  destruct (lookup_lt_is_Some_2 _ _ Hb) as [x Hx]. pose proof (list_lookup_total_correct _ _ _ Hx) as Ex.
  assert (Hn : 0 <= vb_blockno x < 2147483648) by exact (Forall_lookup_1 _ _ _ _ Hfit Hx).
  assert (Eb : a_bufs (abs v) !!! b = (vb_blockno x, vb_data x)).
  { cbn. apply list_lookup_total_correct. by rewrite list_lookup_fmap, Hx. }
  split.
  - assert (EC : abs_call (vpending (completed h v1)) <$> v_threads v1 = <[t := ADone b w]> (abs_call (vpending v) <$> v_threads v)).
    { rewrite ET. rewrite <- (list_insert_id (v_threads v) t (mkVthread (VWaitIO b w [h; i1; i2]) s)) at 1 by done.
      rewrite (abs_calls_insert v (vpending v) _ _ t _ HI ltac:(by eapply lookup_lt_Some) (th_le_refl _)).
      - f_equal. unfold abs_call. cbn. rewrite decide_False; [done|]. rewrite completed_pending by done. naive_solver.
      - intros t' th i Hne Ht' Hi. rewrite completed_pending, EP by done. split; [by intros [? _]|]. intros Hp. split; [done|]. intros ->.
        apply Hne. eapply (vi_apart _ HI t' t _ _ h Ht' Ht); [done|left]. }
    unfold a_transfer. rewrite Eb. unfold abs at 1. change (v_threads (completed h v1)) with (v_threads v1). rewrite EC.
    change (v_buf (completed h v1)) with (v_buf v1). change (d_disk (completed h v1)) with (d_disk v1).
    unfold v1, transferred, sector_of, a_goto. destruct w; cbn [a_calls a_bufs a_disk abs].
    + f_equal. rewrite Ex. cbn. by apply disk_put_block.
    + f_equal. rewrite Ex, disk_get_block by done. cbn [v_buf upd_vbuf set_v_buf]. apply list_eq. intros c. rewrite list_lookup_fmap.
      destruct (decide (c = b)) as [->|Hne]; [rewrite list_lookup_alter_eq, Hx|rewrite list_lookup_alter_ne by done].
      * cbn. rewrite list_lookup_insert_eq; [done|]. by rewrite length_fmap.
      * rewrite list_lookup_insert_ne by done. by rewrite list_lookup_fmap.
  - cbn. rewrite list_lookup_fmap, Ht. cbn. unfold abs_call. cbn. rewrite decide_True; [done|]. unfold vpending. set_solver.
Qed.

(** ** The work that is left *)

Definition stage (th : vthread) : nat := match th_pc th with VIdle => 0 | VWaitDesc _ _ => 5 | VWaitIO _ _ _ => 1 end.

Definition work (v : vdisk) : nat :=
  sum_list_with stage (v_threads v) + 3 * length (vqueue v) + 2 * length (d_taken v) + length (vused v).

Lemma stages_le ts ts' : Forall2 th_le ts ts' -> sum_list_with stage ts' = sum_list_with stage ts.
Proof. induction 1 as [|th th' ts ts' [E _] _ IH]; [done|]. cbn. rewrite IH. unfold stage. by rewrite E. Qed.

Lemma stages_insert ts t th th' : ts !! t = Some th ->
  (sum_list_with stage (<[t := th']> ts) + stage th = sum_list_with stage ts + stage th')%nat.
Proof.
  revert t. induction ts as [|x ts IH]; intros t Ht; [done|]. destruct t as [|t].
  - injection Ht as ->. cbn [insert list_insert sum_list_with]. lia.
  - specialize (IH t Ht). change (<[S t := th']> (x :: ts)) with (x :: <[t := th']> ts). cbn [sum_list_with]. lia.
Qed.

Lemma abs_buf_disk (b : nat) x (bs : list vbuf) : abs_buf <$> alter (set_vb_disk x) b bs = abs_buf <$> bs.
Proof.
  apply list_eq. intros c. rewrite !list_lookup_fmap. destruct (decide (c = b)) as [->|Hne];
    [rewrite list_lookup_alter_eq|by rewrite list_lookup_alter_ne]. by destruct (bs !! b).
Qed.

(** The handler notes every completion there is. *)
Lemma intr_loop fuel v :
  vinv v -> (length (vused v) < fuel)%nat ->
  exists v', loop_with fuel tt intr_body v = Ok tt v' /\ vinv v' /\ vused v' = [] /\ abs v' = abs v /\
    v_locked v' = v_locked v /\ (work v' + length (vused v) = work v)%nat.
Proof.
  revert v. induction fuel as [|fuel IH]; intros v HI Hf; [lia|]. cbn [loop_with].
  pose proof (intr_body_run v HI) as HB. destruct (vused v) as [|h rest] eqn:EU.
  - rewrite (run_bind _ _ _ _ _ HB). exists v. split_and!; try done.
  - destruct HB as (b & v1 & R & E1 & HI1 & EU1 & _). rewrite (run_bind _ _ _ _ _ R). cbv iota. cbn [length] in Hf.
    destruct (IH v1 HI1) as (v' & R' & HI' & EU' & EA & EL & EW); [rewrite EU1; lia|].
    assert (ET : v_threads v1 = vwake (ChBuf b) <$> v_threads v) by (by rewrite E1).
    assert (EQ : vpending v1 = vpending v /\ vqueue v1 = vqueue v /\ d_taken v1 = d_taken v) by (by rewrite E1).
    destruct EQ as (EP & EQ & Etk).
    exists v'. split_and!; [done|done|done| | |].
    + rewrite EA. unfold abs. rewrite EP, ET, (abs_calls_le _ _ _ (th_le_wake (ChBuf b) (v_threads v))). f_equal; [|by rewrite E1].
      rewrite E1. apply abs_buf_disk.
    + by rewrite EL, E1.
    + unfold work in *. rewrite EU1, ET, EQ, Etk in EW. rewrite (stages_le _ _ (th_le_wake (ChBuf b) (v_threads v))) in EW. rewrite EU. cbn [length]. lia.
Qed.

Definition vok (v : vdisk) : Prop := v_locked v = false /\ vinv v.

Lemma vacquire_run {A} (m : unit -> VD A) v : v_locked v = false -> (vacquire ≫= m) v = m tt (set_v_locked true v).
Proof. intros Hl. unfold vacquire. rewrite bind_assoc, bind_gets, Hl. done. Qed.

Lemma vrelease_run v : v_locked v = true -> vrelease v = Ok tt (set_v_locked false v).
Proof. intros Hl. unfold vrelease. by rewrite bind_gets, Hl. Qed.

Lemma vok_unlock v : vinv v -> vok (set_v_locked false v).
Proof. intros HI. split; [done|by apply vinv_lock]. Qed.

Lemma intr_run mmio v : vok v ->
  exists v', virtio_disk_intr mmio v = Ok tt v' /\ vok v' /\ abs v' = abs v /\ (work v' + length (vused v) = work v)%nat.
Proof.
  intros [Hl HI]. unfold virtio_disk_intr. rewrite vacquire_run by done. unfold reg_write. rewrite bind_modify, bind_gets.
  set (v1 := set_v_regs _ _). assert (HI1 : vinv v1) by (by apply vinv_regs, vinv_lock).
  destruct (intr_loop (intr_fuel v1) v1 HI1) as (v' & R & HI' & _ & EA & EL & EW).
  { unfold intr_fuel. change (vused v1) with (vused v). unfold vused. rewrite ring_list_length. change (v_used_idx v1) with (v_used_idx v).
    change (v_seen v1) with (v_seen v). lia. }
  rewrite (run_bind _ _ _ _ _ R), vrelease_run by (by rewrite EL). exists (set_v_locked false v').
  split_and!; [done|by apply vok_unlock|exact EA|exact EW].
Qed.

(** ** The steps of the threads *)

(** What a step of a call did: [p] is where the thread was. *)
Definition call_step (v : vdisk) (t b : nat) (w : bool) (v' : vdisk) : Prop :=
  vok v' /\ abs v' = a_goto t (APending b w) (abs v) /\
  forall th, v_threads v !! t = Some th ->
    ((work v' + stage th = work v + 4)%nat \/
     (work v' + stage th = work v + 5)%nat /\ exists J, (length J <= 2)%nat /\ forall i, (i < NUM)%nat -> v_free v !!! i <> 0 -> i ∈ J).

Lemma rw_alloc_step v t b w :
  vinv v -> allocating v t b w -> exists v', (vacquire;; rw_alloc t b w) v = (if v_locked v then Blocked else Ok tt v') /\
  (v_locked v = false -> call_step v t b w v').
Proof.
  intros HI HA. destruct (v_locked v) eqn:Hl.
  { exists v. split; [|done]. unfold vacquire. by rewrite bind_assoc, bind_gets, Hl. }
  rewrite vacquire_run by done. set (vl := set_v_locked true v). assert (HIl : vinv vl) by (by apply vinv_lock).
  assert (HAl : allocating vl t b w) by (by destruct HA). pose proof HA as [(p & s & Ht & Hp) Hb Ho].
  assert (Hlt : (t < length (v_threads vl))%nat) by (by eapply lookup_lt_Some).
  destruct (rw_alloc_run vl t b w HIl eq_refl HAl) as [(i0 & i1 & i2 & R & HI' & HQ)|(J & ds & ts & R & HI' & HF)].
  - eexists. split; [exact R|]. intros _. split; [by apply vok_unlock|]. split.
    + exact (abs_waiting vl t b w i0 i1 i2 HIl HI' HQ Hlt Hb).
    + intros th Hth. left. pose proof (waiting_same vl t b w i0 i1 i2) as (WU & WT & _ & _ & WTh).
      change (work (set_v_locked false (waiting t b w i0 i1 i2 vl))) with (work (waiting t b w i0 i1 i2 vl)).
      unfold work. rewrite WU, WT, WTh, HQ, length_app. change (vqueue vl) with (vqueue v). change (vused vl) with (vused v).
      change (d_taken vl) with (d_taken v). pose proof (stages_insert (v_threads vl) t th (mkVthread (VWaitIO b w [i0; i1; i2]) true) Hth) as E.
      change (stage (mkVthread (VWaitIO b w [i0; i1; i2]) true)) with 1%nat in E. change (v_threads vl) with (v_threads v) in *. cbn [length]. lia.
  - eexists. split; [exact R|]. intros _. split; [by apply vok_unlock|]. split.
    + exact (abs_refused vl t b w J ds ts HIl Hlt HF).
    + intros th Hth. right. split; [|exists J; destruct HF as (HJ & HJ' & _); done].
      change (work (set_v_locked false (refused t b w ds ts vl))) with (work (refused t b w ds ts vl)).
      pose proof (alloc_failed_le _ _ _ _ HF) as Hle. destruct (Forall2_lookup_l _ _ _ _ _ Hle Hth) as (th' & Hth' & [Ep _]).
      pose proof (stages_insert ts t th' (mkVthread (VWaitDesc b w) true) Hth') as E. rewrite (stages_le _ _ Hle) in E.
      change (stage (mkVthread (VWaitDesc b w) true)) with 5%nat in E. assert (Es : stage th' = stage th) by (unfold stage; by rewrite Ep).
      unfold work. change (vqueue (refused t b w ds ts vl)) with (vqueue v). change (vused (refused t b w ds ts vl)) with (vused v).
      change (d_taken (refused t b w ds ts vl)) with (d_taken v). change (v_threads (refused t b w ds ts vl)) with (<[t := mkVthread (VWaitDesc b w) true]> ts).
      change (v_threads vl) with (v_threads v) in E. lia.
Qed.

(** A thread that waits for its request runs. *)
Lemma rw_wait_step v t b w i0 i1 i2 s :
  vok v -> v_threads v !! t = Some (mkVthread (VWaitIO b w [i0; i1; i2]) s) ->
  exists v', (vacquire;; rw_wait t b w [i0; i1; i2]) v = Ok tt v' /\ vok v' /\
    if decide (i0 ∈ vflight v) then abs v' = abs v /\ work v' = work v
    else abs v' = a_goto t AIdle (abs v) /\ a_calls (abs v) !! t = Some (ADone b w) /\ (work v' + 1 = work v)%nat.
Proof.
  intros [Hl HI] Ht. rewrite vacquire_run by done. set (vl := set_v_locked true v). assert (HIl : vinv vl) by (by apply vinv_lock).
  destruct (vi_chain _ HI _ _ _ _ _ Ht) as (? & ? & ? & [= <- <- <-] & Hc & Hd & _). case_decide as Hf.
  - eexists. split; [unfold rw_wait; rewrite bind_gets; change (v_buf vl) with (v_buf v); rewrite Hd; change (1 =? 1) with true; cbv iota; by apply vsleep_run|].
    assert (Hok : Forall2 (th_ok v) (v_threads v) (<[t := mkVthread (VWaitIO b w [i0; i1; i2]) true]> (v_threads v))).
    { rewrite <- (list_insert_id _ _ _ Ht) at 1. apply Forall2_insert.
      - apply Forall_Forall2_diag, Forall_forall. intros th _. split; auto.
      - split; [done|]. intros _. right. by exists b, w, [i0; i1; i2]. }
    split; [by apply vok_unlock, (vinv_threads_ok vl)|]. split.
    + unfold abs. change (vpending (set_v_locked false _)) with (vpending v). cbn [v_threads set_v_locked set_v_threads]. f_equal.
      rewrite list_fmap_insert. apply list_insert_id. rewrite list_lookup_fmap. change (v_threads vl) with (v_threads v). by rewrite Ht.
    + unfold work. cbn [v_threads set_v_locked set_v_threads]. pose proof (stages_insert _ _ _ (mkVthread (VWaitIO b w [i0; i1; i2]) true) Ht) as E.
      change (stage (mkVthread (VWaitIO b w [i0; i1; i2]) true)) with 1%nat in E. change (stage (mkVthread (VWaitIO b w [i0; i1; i2]) s)) with 1%nat in E.
      change (v_threads vl) with (v_threads v). change (vqueue (set_v_locked _ _)) with (vqueue v). change (vused (set_v_locked _ _)) with (vused v).
      change (d_taken (set_v_locked _ _)) with (d_taken v). lia.
  - destruct (rw_wait_done v t b w i0 i1 i2 s HI Ht Hf) as [R HI']. eexists. split; [exact R|]. split; [by apply vok_unlock|].
    destruct (abs_returned v t b w i0 i1 i2 s HI Ht Hf) as [EA EC]. split; [exact EA|]. split; [exact EC|].
    change (work (set_v_locked false (returned t b [i0; i1; i2] v))) with (work (returned t b [i0; i1; i2] v)).
    unfold work. change (v_threads (returned t b [i0; i1; i2] v)) with (<[t := mkVthread VIdle false]> (wake3 (v_threads v))).
    change (vqueue (returned t b [i0; i1; i2] v)) with (vqueue v). change (vused (returned t b [i0; i1; i2] v)) with (vused v).
    change (d_taken (returned t b [i0; i1; i2] v)) with (d_taken v). pose proof (wake3_le (v_threads v)) as Hle.
    destruct (Forall2_lookup_l _ _ _ _ _ Hle Ht) as (th' & Ht' & [Ep _]).
    pose proof (stages_insert _ _ _ (mkVthread VIdle false) Ht') as E. rewrite (stages_le _ _ Hle) in E.
    assert (Es : stage th' = 1%nat) by (unfold stage; by rewrite Ep). change (stage (mkVthread VIdle false)) with 0%nat in E. lia.
Qed.

(** ** Reachable states *)

Lemma bind_if_panic {S A B} (b : bool) msg (m : M S A) (f : A -> M S B) s :
  ((if b then panic msg else m) ≫= f) s = if b then Panic msg else (m ≫= f) s.
Proof. by destruct b. Qed.

Lemma init_free v : length (v_free v) = NUM ->
  for_all (seq 0 NUM) (fun i => modify (fun v => set_v_free (<[i := 1]> (v_free v)) v)) v = Ok tt (set_v_free (replicate NUM 1) v).
Proof.
  intros Hl. change (seq 0 NUM) with [0; 1; 2; 3; 4; 5; 6; 7]%nat. cbn [for_all]. mrun. unfold skip. cbn [v_free set_v_free].
  assert (E : forall l : list Z, length l = NUM -> <[7%nat:=1]> (<[6%nat:=1]> (<[5%nat:=1]> (<[4%nat:=1]> (<[3%nat:=1]> (<[2%nat:=1]> (<[1%nat:=1]> (<[0%nat:=1]> l))))))) = replicate NUM 1).
  { intros l Hl'. do 8 (destruct l as [|? l]; [done|]). by destruct l. }
  unfold mret, M_ret. by rewrite E.
Qed.

(** The state [virtio_disk_init] leaves. *)
Definition vready (v v' : vdisk) : Prop :=
  v_desc v' = replicate NUM desc0 /\ v_avail_idx v' = 0 /\ v_avail_ring v' = replicate NUM 0%nat /\ v_used_idx v' = 0 /\
  v_used_ring v' = replicate NUM 0%nat /\ v_free v' = replicate NUM 1 /\ v_seen v' = v_seen v /\ v_info v' = v_info v /\
  v_ops v' = v_ops v /\ v_locked v' = false /\ v_buf v' = v_buf v /\ v_threads v' = v_threads v /\ d_seen v' = d_seen v /\
  d_taken v' = d_taken v /\ d_disk v' = d_disk v.

Lemma init_ready mmio v v' : length (v_free v) = NUM -> virtio_disk_init mmio v = Ok tt v' -> vready v v'.
Proof.
  intros Hl. unfold virtio_disk_init. rewrite bind_modify. destruct (_ || _); [done|]. cbv zeta. mrun.
  destruct (_ =? 0); [done|]. destruct (_ <? Z.of_nat NUM); [done|]. mrun.
  rewrite init_free by done. intros [= <-]. done.
Qed.

Lemma ready_ok v v' : vbss v -> vready v v' -> vok v'.
Proof.
  intros [(L1 & L2 & L3) Hidle (Z1 & Z2 & Z3)] (E1 & E2 & E3 & E4 & E5 & E6 & E7 & E8 & E9 & E10 & E11 & E12 & E13 & E14 & E15).
  split; [done|]. rewrite Forall_forall in Hidle.
  assert (HT : forall t th, v_threads v' !! t = Some th -> th = mkVthread VIdle false).
  { intros t th Ht. apply Hidle. rewrite <- E12. by apply list_elem_of_lookup_2 in Ht. }
  assert (EF : vflight v' = []).
  { unfold vflight, vpending, vqueue, vused. rewrite E2, E4, E7, E13, E14, Z1, Z2, Z3, !ring_list_nil. done. }
  split.
  - rewrite E1, E3, E5, E6, E8, E9. by split_and!.
  - rewrite E2, E4, E7, E13, Z1, Z2. done.
  - by intros t b w idx s Ht%HT.
  - by intros t th b ->%HT.
  - by intros t t' th th' b ->%HT.
  - intros t t' th th' i ->%HT _ Hi. by apply elem_of_nil in Hi.
  - intros i Hi. right. rewrite E6. split; [|by intros t th ->%HT ?%elem_of_nil].
    by apply lookup_total_replicate_2.
  - rewrite EF. constructor.
  - rewrite EF. by intros h ?%elem_of_nil.
  - by intros t b w Ht%HT.
  - intros t s Ht%HT. by injection Ht.
Qed.

(** A thread that waits for descriptors may allocate again. *)
Lemma waiting_allocating v t b w s : vinv v -> v_threads v !! t = Some (mkVthread (VWaitDesc b w) s) -> allocating v t b w.
Proof.
  intros HI Ht. assert (Eb : busy_with b (mkVthread (VWaitDesc b w) s) = true) by (cbn; apply Nat.eqb_refl).
  split; [exists (VWaitDesc b w), s; auto|by apply (vi_busy _ HI _ _ b Ht)|].
  intros t' th Hne Ht'. destruct (busy_with b th) eqn:Eb'; [|done]. destruct Hne. by eapply (vi_bufs _ HI _ _ _ _ b Ht' Ht).
Qed.

Lemma complete_work v b w h : vinv v -> h ∈ d_taken v -> (b < length (v_buf v))%nat ->
  (work (completed h (transferred b w v)) < work v)%nat.
Proof.
  intros HI Hh Hb. pose proof (transferred_inv v b w HI Hb) as HI1. set (v1 := transferred b w v) in *.
  assert (E1 : vqueue v1 = vqueue v /\ d_taken v1 = d_taken v /\ v_threads v1 = v_threads v /\ vused v1 = vused v) by (unfold v1; by destruct w).
  destruct E1 as (E1 & E2 & E3 & E4). assert (Hh1 : h ∈ d_taken v1) by (by rewrite E2).
  destruct (completed_inv v1 h HI1 Hh1) as (_ & EU & _).
  unfold work. change (vqueue (completed h v1)) with (vqueue v1). change (v_threads (completed h v1)) with (v_threads v1).
  rewrite EU, E1, E3, E4, length_app. pose proof (Permutation_length (taken_filter v1 h HI1 Hh1)) as EL. rewrite E2 in EL.
  cbn [d_taken completed set_d_taken length] in *. rewrite E2. lia.
Qed.

(** What a step other than a call does. *)
Lemma vrun_ok mmio v o : vok v -> vrun mmio v o ->
  exists v', o = Ok tt v' /\ vok v' /\ (work v' <= work v)%nat /\ (blocks_fit v -> abs v' = abs v \/ astep (abs v) (abs v')).
Proof.
  intros Hok Hr. pose proof Hok as [Hl HI]. destruct Hr as [t p Ht Hp| |v' Hv'|h v' Hv'].
  - unfold rw_resume. rewrite bind_gets. rewrite (list_lookup_total_correct _ _ _ Ht). cbn [th_pc].
    destruct p as [|b w|b w idx]; [done| |].
    + destruct (rw_alloc_step v t b w HI (waiting_allocating v t b w _ HI Ht)) as (v' & R & Hc). rewrite Hl in R. destruct (Hc Hl) as (Hok' & EA & EW).
      exists v'. split_and!; [done|done| |].
      * destruct (EW _ Ht) as [E|[E _]]; change (stage (mkVthread (VWaitDesc b w) false)) with 5%nat in E; lia.
      * intros _. left. rewrite EA. unfold abs, a_goto. cbn [a_calls a_bufs a_disk]. f_equal. apply list_insert_id.
        by rewrite list_lookup_fmap, Ht.
    + destruct (vi_chain _ HI _ _ _ _ _ Ht) as (i0 & i1 & i2 & -> & _).
      destruct (rw_wait_step v t b w i0 i1 i2 false Hok Ht) as (v' & R & Hok' & Hv'). exists v'. split; [done|]. split; [done|].
      case_decide; [destruct Hv' as [EA EW]; split; [lia|by left]|]. destruct Hv' as (EA & EC & EW). split; [lia|].
      intros _. right. rewrite EA. by apply (astep_return _ t b w).
  - destruct (intr_run mmio v Hok) as (v' & R & Hok' & EA & EW). exists v'. split_and!; [done|done|lia|by left].
  - destruct (dev_take_inv v v' HI Hv') as (HI' & h & EQ & ET & EU). exists v'.
    assert (Hl' : v_locked v' = v_locked v /\ v_threads v' = v_threads v).
    { unfold dev_take in Hv'. destruct (_ =? _); [done|]. by injection Hv' as <-. }
    split_and!; [done|split; [by rewrite (proj1 Hl')|done]| |intros _; left; by apply abs_take].
    unfold work. rewrite EQ, ET, EU, (proj2 Hl'), length_app. cbn [length]. lia.
  - destruct (dev_complete_inv v v' h HI Hv') as (HI' & Hh & t & b & w & i1 & i2 & s & Ht & ->).
    assert (Hb : (b < length (v_buf v))%nat) by (apply (vi_busy _ HI _ _ b Ht); cbn; apply Nat.eqb_refl).
    eexists. split; [done|]. split; [split; [by destruct w|done]|]. split.
    + apply Nat.lt_le_incl. by apply complete_work.
    + intros Hfit. right. destruct (abs_complete v t b w h i1 i2 s HI Hfit Ht Hh Hb) as [EA EC]. rewrite EA. by apply astep_transfer.
Qed.

Lemma call_ok v t b w : vok v -> v_threads v !! t = Some (mkVthread VIdle false) -> (b < length (v_buf v))%nat ->
  forallb (fun th => negb (busy_with b th)) (v_threads v) = true ->
  exists v', rw_begin t b w v = Ok tt v' /\ vok v' /\ astep (abs v) (abs v').
Proof.
  intros [Hl HI] Ht Hb Hn. rewrite forallb_forall in Hn.
  assert (HA : allocating v t b w).
  { split; [exists VIdle, false; auto|done|]. intros t' th _ Ht'. specialize (Hn th).
    apply negb_true_iff, Hn, list_elem_of_In. by apply list_elem_of_lookup_2 in Ht'. }
  destruct (rw_alloc_step v t b w HI HA) as (v' & R & Hc). rewrite Hl in R. destruct (Hc Hl) as (Hok' & EA & _).
  exists v'. split_and!; [done|done|]. rewrite EA. apply astep_start. cbn. by rewrite list_lookup_fmap, Ht.
Qed.

Lemma vstep_ok mmio v o : vok v -> vstep mmio v o ->
  exists v', o = Ok tt v' /\ vok v' /\ (blocks_fit v -> abs v' = abs v \/ astep (abs v) (abs v')).
Proof.
  intros Hok [t b w Ht Hb Hn|o' Hr].
  - destruct (call_ok v t b w Hok Ht Hb Hn) as (v' & R & Hok' & HA). exists v'. auto.
  - destruct (vrun_ok mmio v o' Hok Hr) as (v' & E & Hok' & _ & HA). exists v'. auto.
Qed.

Lemma vreach_ok mmio v : vreach mmio v -> vok v.
Proof.
  intros (v0 & v1 & H0 & H1 & Hr). assert (Hok : vok v1).
  { eapply ready_ok; [done|]. eapply init_ready; [apply H0|done]. }
  clear H0 H1. induction Hr as [v|v v' v'' Hs _ IH]; [done|]. apply IH.
  destruct (vstep_ok mmio v _ Hok Hs) as (x & [= <-] & Hx & _). done.
Qed.

(** ** Progress *)

Definition busy (v : vdisk) : Prop := exists t th, v_threads v !! t = Some th /\ th_pc th <> VIdle.

(** Each stage of a request has the step that ends it. *)
Lemma progress_queue mmio v : vok v -> vqueue v <> [] -> exists v', vrun mmio v (Ok tt v') /\ (work v' < work v)%nat.
Proof.
  intros [Hl HI] Hq. destruct (dev_take v) as [v'|] eqn:E.
  - exists v'. split; [by apply vrun_take|]. destruct (dev_take_inv v v' HI E) as (_ & h & EQ & ET & EU).
    assert (Eth : v_threads v' = v_threads v) by (unfold dev_take in E; destruct (_ =? _); [done|]; by injection E as <-).
    unfold work. rewrite EQ, ET, EU, Eth, length_app. cbn [length]. lia.
  - unfold dev_take in E. destruct (d_seen v =? v_avail_idx v) eqn:Es; [|done]. bprop. destruct Hq. unfold vqueue. by rewrite Es, ring_list_nil.
Qed.

Lemma progress_taken mmio v h : vok v -> h ∈ d_taken v -> exists v', vrun mmio v (Ok tt v') /\ (work v' < work v)%nat.
Proof.
  intros [Hl HI] Hh. destruct (flight_chain v h HI) as (t & b & w & i1 & i2 & s & Ht & Hc & Hb & _); [unfold vflight, vpending; set_solver|].
  exists (completed h (transferred b w v)). split; [|by apply complete_work].
  apply (vrun_complete _ _ h). by apply (dev_complete_run v b w h i1 i2).
Qed.

Lemma progress_used mmio v : vok v -> vused v <> [] -> exists v', vrun mmio v (Ok tt v') /\ (work v' < work v)%nat.
Proof.
  intros Hok Hu. destruct (intr_run mmio v Hok) as (v' & R & _ & _ & EW). exists v'. split; [rewrite <- R; apply vrun_intr|].
  destruct (vused v); [done|]. cbn [length] in EW. lia.
Qed.

Lemma progress_done mmio v t b w idx s : vok v -> vflight v = [] -> v_threads v !! t = Some (mkVthread (VWaitIO b w idx) s) ->
  exists v', vrun mmio v (Ok tt v') /\ (work v' < work v)%nat.
Proof.
  intros Hok Hf Ht. pose proof Hok as [Hl HI]. destruct (vi_chain _ HI _ _ _ _ _ Ht) as (i0 & i1 & i2 & -> & _ & _ & Hs).
  rewrite Hf in Hs. assert (s = false) as -> by (destruct s; [by apply elem_of_nil in Hs|done]).
  destruct (rw_wait_step v t b w i0 i1 i2 false Hok Ht) as (v' & R & _ & Hv'). rewrite Hf, decide_False in Hv' by apply not_elem_of_nil.
  destruct Hv' as (_ & _ & EW). exists v'. split; [|lia]. rewrite <- R.
  pose proof (vrun_resume mmio v t _ Ht ltac:(done)) as Hr. unfold rw_resume in Hr. rewrite bind_gets, (list_lookup_total_correct _ _ _ Ht) in Hr. exact Hr.
Qed.

Lemma progress_desc mmio v t b w s : vok v -> (forall t th, v_threads v !! t = Some th -> chain_of th = []) ->
  v_threads v !! t = Some (mkVthread (VWaitDesc b w) s) -> exists v', vrun mmio v (Ok tt v') /\ (work v' < work v)%nat.
Proof.
  intros Hok Hnone Ht. pose proof Hok as [Hl HI].
  assert (s = false) as ->.
  { destruct s; [|done]. destruct (vi_sleep _ HI _ _ _ Ht) as (t1 & t2 & th1 & th2 & H1 & _ & _ & C1 & _). by destruct C1; eapply Hnone. }
  pose proof (vrun_resume mmio v t _ Ht ltac:(done)) as Hr. unfold rw_resume in Hr. rewrite bind_gets, (list_lookup_total_correct _ _ _ Ht) in Hr.
  cbn [th_pc] in Hr. destruct (rw_alloc_step v t b w HI (waiting_allocating v t b w _ HI Ht)) as (v' & R & Hc). rewrite Hl in R. destruct (Hc Hl) as (_ & _ & EW).
  rewrite R in Hr. exists v'. split; [done|]. destruct (EW _ Ht) as [E|[_ (J & HJ & Hf)]].
  - change (stage (mkVthread (VWaitDesc b w) false)) with 5%nat in E. lia.
  - destruct (pick_num J) as (i & Hi & Hni); [change NUM with 8%nat; lia|]. destruct Hni. apply Hf; [done|].
    destruct (vi_free _ HI i Hi) as [(_ & t' & th & Ht' & Hin)|[-> _]]; [|done]. rewrite (Hnone _ _ Ht') in Hin. by apply elem_of_nil in Hin.
Qed.

(** As long as a call is under way some step does a part of its work. *)
Lemma vrun_progress mmio v : vok v -> busy v -> exists v', vrun mmio v (Ok tt v') /\ (work v' < work v)%nat.
Proof.
  intros Hok (t & th & Ht & Hp). destruct (vqueue v) as [|h q] eqn:EQ; [|by apply progress_queue; rewrite ?EQ].
  destruct (d_taken v) as [|h q] eqn:ET; [|apply (progress_taken mmio v h); [done|rewrite ET; left]].
  destruct (vused v) as [|h q] eqn:EU; [|by apply progress_used; rewrite ?EU].
  assert (Hf : vflight v = []) by (unfold vflight, vpending; by rewrite EQ, ET, EU).
  destruct (decide (Exists (fun th => chain_of th <> []) (v_threads v))) as [He|Hn].
  - apply Exists_exists in He as ([p s] & Hin & Hc). apply list_elem_of_lookup in Hin as (t' & Ht').
    destruct p as [| |b w idx]; [done|done|]. by eapply progress_done.
  - destruct th as [[|b w|b w idx] s]; [done| |by eapply progress_done]. eapply progress_desc; [done| |exact Ht].
    intros t' th Ht'. destruct (decide (chain_of th = [])) as [E|E]; [done|]. destruct Hn. apply Exists_exists. exists th.
    split; [by eapply list_elem_of_lookup_2|done].
Qed.

(** ** The theorems *)


(** C6. The driver and its device are a disk: every step of a reachable state
    is invisible or a step of a disk where a call transfers its whole block at
    once, after it was made and before it returns, whatever other calls do. *)
Theorem virtio_refines mmio v v' :
  vreach mmio v -> blocks_fit v -> vstep mmio v (Ok tt v') -> abs v' = abs v \/ astep (abs v) (abs v').
Proof.
  intros Hr Hfit Hs. destruct (vstep_ok mmio v _ (vreach_ok _ _ Hr) Hs) as (x & [= <-] & _ & HA). by apply HA.
Qed.

(** C8. No request is lost and no caller sleeps for ever: the work left never
    grows unless a call is made, while a call is under way some step does a
    part of it, and so from every reachable state all calls can return. *)
Theorem virtio_calls_return mmio v : vreach mmio v ->
  (forall v', vrun mmio v (Ok tt v') -> (work v' <= work v)%nat) /\
  (busy v -> exists v', vrun mmio v (Ok tt v') /\ (work v' < work v)%nat) /\
  exists v', rtc (fun v v' => vrun mmio v (Ok tt v')) v v' /\ ~ busy v'.
Proof.
  intros Hr. pose proof (vreach_ok _ _ Hr) as Hok. clear Hr. split_and!.
  - intros v' Hs. by destruct (vrun_ok mmio v _ Hok Hs) as (x & [= <-] & _ & Hw & _).
  - by apply vrun_progress.
  - remember (work v) as n eqn:En. revert v Hok En. induction n as [n IH] using lt_wf_ind. intros v Hok ->.
    destruct (decide (Exists (fun th => th_pc th <> VIdle) (v_threads v))) as [He|Hn].
    + assert (Hb : busy v) by (apply Exists_exists in He as (th & Hin & Hp); apply list_elem_of_lookup in Hin as (t & Ht); by exists t, th).
      destruct (vrun_progress mmio v Hok Hb) as (v1 & Hs & Hw). destruct (vrun_ok mmio v _ Hok Hs) as (x & [= <-] & Hok1 & _).
      destruct (IH (work v1) Hw v1 Hok1 eq_refl) as (v' & Hr & Hi). exists v'. split; [by eapply rtc_l|done].
    + exists v. split; [apply rtc_refl|]. intros (t & th & Ht & Hp). apply Hn, Exists_exists. exists th.
      split; [by eapply list_elem_of_lookup_2|done].
Qed.

(** ** A machine with four threads *)

Definition qemu_mmio (r : Z) : Z :=
  if r =? VIRTIO_MMIO_MAGIC_VALUE then 0x74726976 else if r =? VIRTIO_MMIO_VERSION then 1
  else if r =? VIRTIO_MMIO_DEVICE_ID then 2 else if r =? VIRTIO_MMIO_VENDOR_ID then 0x554d4551
  else if r =? VIRTIO_MMIO_QUEUE_NUM_MAX then 1024 else 0.

Definition four_bss : vdisk :=
  mkVdisk [] 0 [] 0 [] (replicate NUM 0) 0 (replicate NUM (mkInfo None 0)) (replicate NUM (mkReq 0 0 0)) false
    ((fun n => mkVbuf n 0 [7; 8]) <$> [5; 6; 7; 8]) (replicate 4 (mkVthread VIdle false)) [] 0 [] (fun _ => 0).

Definition run1 (m : VD unit) (v : vdisk) : vdisk := match m v with Ok _ v' => v' | _ => v end.

Definition four_ready : vdisk := run1 (virtio_disk_init qemu_mmio) four_bss.

Lemma four_ready_reach : vreach qemu_mmio four_ready.
Proof.
  exists four_bss, four_ready. split; [|split; [by vm_compute|apply rtc_refl]].
  split; [by split_and!| |by split_and!]. by repeat constructor.
Qed.

Lemma vreach_step mmio v v' : vreach mmio v -> vstep mmio v (Ok tt v') -> vreach mmio v'.
Proof. intros (v0 & v1 & H0 & H1 & Hr) Hs. exists v0, v1. split_and!; [done|done|by eapply rtc_r]. Qed.

Definition four_call (t : nat) (w : bool) (v : vdisk) : vdisk := run1 (rw_begin t t w) v.

Lemma four_call_reach t w v : vreach qemu_mmio v -> v_threads v !! t = Some (mkVthread VIdle false) -> (t < length (v_buf v))%nat ->
  forallb (fun th => negb (busy_with t th)) (v_threads v) = true -> vreach qemu_mmio (four_call t w v).
Proof.
  intros Hr Ht Hb Hn. destruct (call_ok v t t w (vreach_ok _ _ Hr) Ht Hb Hn) as (v' & R & _).
  unfold four_call, run1. rewrite R. eapply vreach_step; [done|]. rewrite <- R. by constructor.
Qed.

Definition four_one : vdisk := four_call 0 true four_ready.

Lemma four_one_reach : vreach qemu_mmio four_one.
Proof. apply four_call_reach; [exact four_ready_reach|vm_compute..]; [done|lia|done]. Qed.


(** The device has taken the request. *)
Definition four_taken : vdisk := default four_one (dev_take four_one).

Lemma virtio_refines_witness : exists v', dev_complete 0 four_taken = Some v' /\ (abs v' = abs four_taken \/ astep (abs four_taken) (abs v')).
Proof.
  assert (Ht : dev_take four_one = Some four_taken) by (by vm_compute).
  assert (Hr : vreach qemu_mmio four_taken).
  { eapply vreach_step; [exact four_one_reach|]. by apply vstep_run, vrun_take. }
  destruct (dev_complete 0 four_taken) as [v'|] eqn:E; [|by vm_compute in E].
  exists v'. split; [done|]. apply (virtio_refines qemu_mmio four_taken v' Hr).
  - repeat constructor; by vm_compute.
  - by apply vstep_run, (vrun_complete _ _ 0).
Defined.

Lemma virtio_calls_return_witness : busy four_one /\ exists v', rtc (fun v v' => vrun qemu_mmio v (Ok tt v')) four_one v' /\ ~ busy v'.
Proof.
  split; [by exists 0%nat, (mkVthread (VWaitIO 0 true [0; 1; 2]%nat) true)|].
  apply (virtio_calls_return qemu_mmio four_one four_one_reach).
Defined.

(** With two requests under way, two more threads wait for descriptors. *)
Definition four_all : vdisk := four_call 3 true (four_call 2 true (four_call 1 true four_one)).

Lemma four_all_reach : vreach qemu_mmio four_all.
Proof. do 3 (apply four_call_reach; [|by vm_compute|apply Nat.ltb_lt; by vm_compute|by vm_compute]). exact four_one_reach. Qed.

(** The threads that wait for descriptors wake each other: each failed
    attempt gives back what it had taken, which wakes the other one, for as
    long as no request ends. *)
Theorem virtio_waiters_spin : vreach qemu_mmio four_all /\ exists v',
  v_threads four_all !! 2%nat = Some (mkVthread (VWaitDesc 2 true) false) /\ rw_resume 2 four_all = Ok tt v' /\
  v_threads v' !! 3%nat = Some (mkVthread (VWaitDesc 3 true) false) /\ rw_resume 3 v' = Ok tt four_all.
Proof.
  split; [exact four_all_reach|]. exists (run1 (rw_resume 2) four_all). split_and!; by vm_compute.
Qed.
