(* ===== verification/Uart.v ===== *)
(** * kernel/uart.c: the 16550 UART

    Device registers are memory-mapped: a read takes the device's next answer
    from [k_script], and every access is recorded in [k_trace].  A device
    that gives no more answers reads as 0. *)

From S2P Require Export Sched.

(** ** Device registers *)

Definition mmio_read (a : Z) : K Z := fun k =>
  let v := match k_script k with [] => 0 | v :: _ => v end in
  Ok v (set_trace (IoRead a v :: k_trace k) (set_script (tail (k_script k)) k)).

Definition mmio_write (a v : Z) : K unit :=
  modify (fun k => set_trace (IoWrite a v :: k_trace k) k).

(** What the kernel wrote to a register, oldest first. *)
Fixpoint written (a : Z) (tr : list ioevent) : list Z :=
  match tr with
  | [] => []
  | IoWrite a' v :: tr => if a' =? a then written a tr ++ [v] else written a tr
  | IoRead _ _ :: tr => written a tr
  end.

Definition RHR : Z := 0.
Definition THR : Z := 0.
Definition IER : Z := 1.
Definition FCR : Z := 2.
Definition LCR : Z := 3.
Definition LSR : Z := 5.
Definition IER_RX_ENABLE : Z := 1.
Definition IER_TX_ENABLE : Z := 2.
Definition FCR_FIFO_ENABLE : Z := 1.
Definition FCR_FIFO_CLEAR : Z := 6.
Definition LCR_EIGHT_BITS : Z := 3.
Definition LCR_BAUD_LATCH : Z := 128.
Definition LSR_TX_IDLE : Z := 32.
Definition UART_TX_BUF_SIZE : Z := 32.

Definition Reg (reg : Z) : Z := UART0 + reg.
Definition ReadReg (reg : Z) : K Z := v ← mmio_read (Reg reg); mret (u8 v).
Definition WriteReg (reg v : Z) : K unit := mmio_write (Reg reg) (u8 v).

Definition u_get {A} (f : uartbuf -> A) : K A := gets (fun k => f (k_uart k)).
Definition u_set (f : uartbuf -> uartbuf) : K unit := modify (fun k => set_uart (f (k_uart k)) k).

#[export] Hint Unfold u_get u_set : krun.

Section uart.
Context {TH : Threads}.

Definition uartinit : K unit :=
  WriteReg IER 0;;                    (* disable interrupts. *)
  WriteReg LCR LCR_BAUD_LATCH;;       (* special mode to set baud rate. *)
  WriteReg 0 3;;
  WriteReg 1 0;;
  WriteReg LCR LCR_EIGHT_BITS;;       (* leave set-baud mode, 8 bits, no parity. *)
  WriteReg FCR (Z.lor FCR_FIFO_ENABLE FCR_FIFO_CLEAR);;
  WriteReg IER (Z.lor IER_TX_ENABLE IER_RX_ENABLE);;
  initlock Luart "uart".

(** The buffer holds less than [UART_TX_BUF_SIZE] characters, and every round
    but the last sends one. *)
Definition uartstart_body : K (option unit) :=
  w ← u_get uart_tx_w;
  r ← u_get uart_tx_r;
  if w =? r then mret (Some tt) else            (* transmit buffer is empty. *)
  lsr ← ReadReg LSR;
  if Z.land lsr LSR_TX_IDLE =? 0 then mret (Some tt) else
  c ← u_get (fun u => uart_tx_buf u !!! Z.to_nat (uart_tx_r u));
  u_set (fun u => set_uart_tx_r ((uart_tx_r u + 1) mod UART_TX_BUF_SIZE) u);;
  (* maybe uartputc() is waiting for space in the buffer. *)
  wakeup ChUart;;
  WriteReg THR c;;
  mret None.

Definition uartstart : K unit := loop (S (Z.to_nat UART_TX_BUF_SIZE)) uartstart_body.

Definition uartputc (c : Z) : K unit :=
  acquire Luart;;
  panicked ← gets k_panicked;
  if truth panicked then block else
  loop (S patience) (
    w ← u_get uart_tx_w;
    r ← u_get uart_tx_r;
    if (w + 1) mod UART_TX_BUF_SIZE =? r then
      (* buffer is full: wait for uartstart() to open up space. *)
      sleep ChUart Luart;; mret None
    else
      u_set (fun u => set_uart_tx_buf (<[Z.to_nat (uart_tx_w u) := u8 c]> (uart_tx_buf u)) u);;
      u_set (fun u => set_uart_tx_w ((uart_tx_w u + 1) mod UART_TX_BUF_SIZE) u);;
      uartstart;;
      release Luart;;
      mret (Some tt)).

(** Spin until Transmit Holding Empty is set; when the device's answers are
    used up the spin does not end. *)
Definition wait_tx_idle : K unit :=
  n ← gets (fun k => length (k_script k));
  loop (S n) (lsr ← ReadReg LSR;
              if Z.land lsr LSR_TX_IDLE =? 0 then mret None else mret (Some tt)).

Definition uartputc_sync (c : Z) : K unit :=
  push_off;;
  panicked ← gets k_panicked;
  if truth panicked then block else
  wait_tx_idle;;
  WriteReg THR c;;
  pop_off.

Definition uartgetc : K Z :=
  lsr ← ReadReg LSR;
  if truth (Z.land lsr 1) then ReadReg RHR else mret (-1).

(** ** kernel/console.c: [consputc] *)

Definition BACKSPACE : Z := 256.

Definition consputc (c : Z) : K unit :=
  if c =? BACKSPACE then
    uartputc_sync 8;; uartputc_sync 32;; uartputc_sync 8
  else uartputc_sync c.
End uart.
