(* ===== verification/Printf.v ===== *)
(** * kernel/printf.c: formatted output

    The variable arguments are a list.  [pr.locking] is set once, together
    with the initialisation of the lock, and cleared only by [panic], which
    does not return: it is on exactly when the lock has been initialised. *)

From S2P Require Export Uart Kstring.
From Stdlib Require Import Ascii.

Inductive parg := AInt (z : Z) | APtr (z : Z) | AStr (s : option (list Z)).

(** The characters of a literal. *)
Fixpoint chars (s : string) : list Z :=
  match s with
  | EmptyString => []
  | String a s => Z.of_nat (nat_of_ascii a) :: chars s
  end.

Definition digits : list Z := chars "0123456789abcdef".

(** The digits of [x], least significant first; a [uint] has at most ten in
    base 10. *)
Fixpoint digits_loop (n : nat) (x base : Z) : list Z :=
  match n with
  | O => []
  | S n => digits !!! Z.to_nat (x mod base) ::
             (if x / base =? 0 then [] else digits_loop n (x / base) base)
  end.

(** The contents of [buf] in [printint], from index 0. *)
Definition printint_buf (xx base : Z) (sign : bool) : list Z :=
  let sign := sign && (xx <? 0) in
  let x := if sign then u32 (- xx) else u32 xx in
  digits_loop 16 x base ++ (if sign then [45] else []).

Section printf.
Context {TH : Threads}.

Definition printint (xx base : Z) (sign : bool) : K unit :=
  for_all (reverse (printint_buf xx base sign)) consputc.

Definition printptr (x : Z) : K unit :=
  consputc 48;;
  consputc 120;;
  for_all (seq 0 16) (fun i =>
    consputc (digits !!! Z.to_nat (Z.shiftr (u64 (Z.shiftl x (4 * Z.of_nat i))) 60))).

Definition pop_int (ap : list parg) : Z * list parg :=
  match ap with
  | AInt z :: ap => (s32 z, ap)
  | APtr z :: ap => (s32 z, ap)
  | _ :: ap => (0, ap)
  | [] => (0, [])
  end.
Definition pop_ptr (ap : list parg) : Z * list parg :=
  match ap with
  | AInt z :: ap => (u64 z, ap)
  | APtr z :: ap => (u64 z, ap)
  | _ :: ap => (0, ap)
  | [] => (0, [])
  end.
Definition pop_str (ap : list parg) : list Z * list parg :=
  match ap with
  | AStr (Some s) :: ap => (s, ap)
  | _ :: ap => (chars "(null)", ap)
  | [] => (chars "(null)", [])
  end.

Fixpoint printf_loop (fmt : list Z) (ap : list parg) : K unit :=
  match fmt with
  | [] => skip
  | c :: fmt =>
      if negb (c =? 37) then consputc c;; printf_loop fmt ap else
      match fmt with
      | [] => skip
      | c :: fmt =>
          if c =? 100 then let '(x, ap) := pop_int ap in printint x 10 true;; printf_loop fmt ap
          else if c =? 120 then let '(x, ap) := pop_int ap in printint x 16 true;; printf_loop fmt ap
          else if c =? 112 then let '(x, ap) := pop_ptr ap in printptr x;; printf_loop fmt ap
          else if c =? 115 then let '(s, ap) := pop_str ap in for_all s consputc;; printf_loop fmt ap
          else if c =? 37 then consputc 37;; printf_loop fmt ap
          else consputc 37;; consputc c;; printf_loop fmt ap
      end
  end.

Definition pr_locking (k : kernel) : bool := bool_decide (is_Some (k_locks k !! Lpr)).

Definition printf (fmt : list Z) (ap : list parg) : K unit :=
  locking ← gets pr_locking;
  when locking (acquire Lpr);;
  printf_loop fmt ap;;
  when locking (release Lpr).

Definition printfinit : K unit := initlock Lpr "pr".

(** ** kernel/proc.c: [procdump] *)

Definition state_name (st : procstate) : list Z :=
  match st with
  | UNUSED => chars "unused"
  | SLEEPING => chars "sleep "
  | RUNNABLE => chars "runble"
  | RUNNING => chars "run   "
  | ZOMBIE => chars "zombie"
  end.

Definition procdump : K unit :=
  printf [10] [];;
  for_all (seq 0 NPROC) (fun p =>
    st ← p_get p p_state;
    if bool_decide (st = UNUSED) then skip else
    pid ← p_get p p_pid;
    name ← p_get p (fun x => cstr 16 (arr (p_name x)));
    printf (chars "%d %s %s") [AInt pid; AStr (Some (state_name st)); AStr (Some name)];;
    printf [10] []).
End printf.
