(* ===== verification/Console.v ===== *)
(** * kernel/console.c: console input and output *)

From S2P Require Export Printf Copy.

Definition INPUT_BUF : Z := 128.
(** [C(x)]: control-x *)
Definition ctrl (x : Z) : Z := x - 64.

Definition cons_get {A} (f : consbuf -> A) : K A := gets (fun k => f (k_cons k)).
Definition cons_set (f : consbuf -> consbuf) : K unit := modify (fun k => set_cons (f (k_cons k)) k).

#[export] Hint Unfold cons_get cons_set : krun.

(** [cons.buf[i % INPUT_BUF]] *)
Definition cons_at (c : consbuf) (i : Z) : Z := cons_buf c !!! Z.to_nat (i mod INPUT_BUF).

Section console.
Context {LY : Layout} {TH : Threads}.

Definition consolewrite (src : source) (n : Z) : K Z :=
  acquire Lcons;;
  i ← loop_with (S (Z.to_nat n)) 0 (fun i =>
    if i <? n then
      r ← either_copyin (source_add src i) 1;
      if r.1 =? -1 then mret (inr i) else
      uartputc (default 0 (r.2 !! 0%nat));;
      mret (inl (i + 1))
    else mret (inr i));
  release Lcons;;
  mret i.

(** Wait until the interrupt handler has put some input into the buffer;
    false when the process was killed. *)
Definition console_wait : K bool :=
  loop (S patience) (
    r ← cons_get cons_r;
    w ← cons_get cons_w;
    if r =? w then
      p ← this_proc;
      killed ← p_get p p_killed;
      if truth killed then mret (Some false) else
      sleep ChCons Lcons;; mret None
    else mret (Some true)).

Definition consoleread_body (target : Z) : dest * Z -> K (dest * Z + option Z) := fun '(dst, n) =>
  if 0 <? n then
    ok ← console_wait;
    if negb ok then mret (inr None) else
    c ← cons_get (fun c => cons_at c (cons_r c));
    cons_set (fun c => set_cons_r (u32 (cons_r c + 1)) c);;
    if c =? ctrl 68 then                         (* end-of-file *)
      (* Save ^D for next time, to make sure caller gets a 0-byte result. *)
      when (u32 n <? target) (cons_set (fun c => set_cons_r (u32 (cons_r c - 1)) c));;
      mret (inr (Some n))
    else
      r ← either_copyout dst (fun _ => c) 1;
      if r.1 =? -1 then mret (inr (Some n)) else
      let dst := dest_add dst 1 in
      let n := n - 1 in
      if c =? 10 then mret (inr (Some n)) else mret (inl (dst, n))
  else mret (inr (Some n)).

Definition consoleread (dst : dest) (n : Z) : K Z :=
  let target := u32 n in
  acquire Lcons;;
  r ← loop_with (S (Z.to_nat n)) (dst, n) (consoleread_body target);
  match r with
  | None => release Lcons;; mret (-1)
  | Some n => release Lcons;; mret (s32 (target - n))
  end.

(** The loop of the kill-line character; at most [INPUT_BUF] characters are
    being edited. *)
Definition kill_line : K unit :=
  loop (S (Z.to_nat INPUT_BUF)) (
    c ← cons_get id;
    if negb (cons_e c =? cons_w c) && negb (cons_at c (u32 (cons_e c - 1)) =? 10) then
      cons_set (fun c => set_cons_e (u32 (cons_e c - 1)) c);;
      consputc BACKSPACE;;
      mret None
    else mret (Some tt)).

Definition consoleintr (c : Z) : K unit :=
  acquire Lcons;;
  (if c =? ctrl 80 then procdump                   (* Print process list. *)
   else if c =? ctrl 85 then kill_line             (* Kill line. *)
   else if (c =? ctrl 72) || (c =? 127) then       (* Backspace *)
     x ← cons_get id;
     when (negb (cons_e x =? cons_w x))
       (cons_set (fun c => set_cons_e (u32 (cons_e c - 1)) c);;
        consputc BACKSPACE)
   else
     x ← cons_get id;
     when (truth c && (u32 (cons_e x - cons_r x) <? INPUT_BUF))
       (let c := if c =? 13 then 10 else c in
        (* echo back to the user. *)
        consputc c;;
        (* store for consumption by consoleread(). *)
        cons_set (fun x => set_cons_buf (<[Z.to_nat (cons_e x mod INPUT_BUF) := u8 c]> (cons_buf x)) x);;
        cons_set (fun x => set_cons_e (u32 (cons_e x + 1)) x);;
        x ← cons_get id;
        when ((c =? 10) || (c =? ctrl 68) || (cons_e x =? u32 (cons_r x + INPUT_BUF)))
          ( (* wake up consoleread() if a whole line (or end-of-file) has arrived. *)
           cons_set (fun x => set_cons_w (cons_e x) x);;
           wakeup ChCons)));;
  release Lcons.

(** ** kernel/uart.c: the interrupt handler *)

(** The loop ends when the device reports no more input. *)
Definition uartintr : K unit :=
  n ← gets (fun k => length (k_script k));
  loop (S n) (
    c ← uartgetc;
    if c =? -1 then mret (Some tt) else
    consoleintr c;;
    mret None);;
  acquire Luart;;
  uartstart;;
  release Luart.

Definition consoleinit : K unit :=
  initlock Lcons "cons";;
  uartinit.
End console.
