(* ===== verification/ConsoleSpec.v ===== *)
(** * The UART's transmit buffer, and writing to the console

    Characters leave the UART in the order in which they were handed to
    [uartputc], whatever the device answers.  [consolewrite] holds the console
    lock when it waits for room in that buffer, and the kernel panics. *)

From S2P Require Export Console UserMem Sleeplock.
From S2P Require Import VmSpec.

(** ** The transmit buffer *)

Definition tx_len (u : uartbuf) : Z := (uart_tx_w u - uart_tx_r u) mod UART_TX_BUF_SIZE.
Definition tx_char (u : uartbuf) (i : nat) : Z :=
  uart_tx_buf u !!! Z.to_nat ((uart_tx_r u + Z.of_nat i) mod UART_TX_BUF_SIZE).
Definition tx_queue (u : uartbuf) : list Z := tx_char u <$> seq 0 (Z.to_nat (tx_len u)).

Record tx_wf (u : uartbuf) : Prop := {
  tx_buf : length (uart_tx_buf u) = Z.to_nat UART_TX_BUF_SIZE;
  tx_w : 0 <= uart_tx_w u < UART_TX_BUF_SIZE;
  tx_r : 0 <= uart_tx_r u < UART_TX_BUF_SIZE;
  tx_bytes : bytes (uart_tx_buf u)
}.

Definition tx_put (c : Z) (u : uartbuf) : uartbuf :=
  set_uart_tx_w ((uart_tx_w u + 1) mod UART_TX_BUF_SIZE)
    (set_uart_tx_buf (<[Z.to_nat (uart_tx_w u) := u8 c]> (uart_tx_buf u)) u).
Definition tx_take (u : uartbuf) : uartbuf := set_uart_tx_r ((uart_tx_r u + 1) mod UART_TX_BUF_SIZE) u.

Ltac txlia := assert (HTX : UART_TX_BUF_SIZE = 32) by done; rewrite ?HTX in *; zlia.

Lemma tx_len_range u : 0 <= tx_len u < UART_TX_BUF_SIZE.
Proof. unfold tx_len. txlia. Qed.

Lemma tx_put_len u c : tx_wf u -> tx_len u < UART_TX_BUF_SIZE - 1 -> tx_len (tx_put c u) = tx_len u + 1.
Proof. intros [_ Hw Hr _] Hl. unfold tx_len, tx_put in *. cbn in *. txlia. Qed.

Lemma tx_take_len u : tx_wf u -> 0 < tx_len u -> tx_len (tx_take u) = tx_len u - 1.
Proof. intros [_ Hw Hr _] Hl. unfold tx_len, tx_take in *. cbn in *. txlia. Qed.

Lemma tx_put_wf u c : tx_wf u -> tx_wf (tx_put c u).
Proof.
  intros [Hb Hw Hr Hy]. split; cbn; [by rewrite length_insert|txlia|done|].
  apply Forall_insert; [done|apply u8_range].
Qed.

Lemma tx_take_wf u : tx_wf u -> tx_wf (tx_take u).
Proof. intros [Hb Hw Hr Hy]. split; cbn; try done. txlia. Qed.

Lemma tx_put_queue u c :
  tx_wf u -> tx_len u < UART_TX_BUF_SIZE - 1 -> tx_queue (tx_put c u) = tx_queue u ++ [u8 c].
Proof.
  intros Hu Hl. pose proof (tx_len_range u). unfold tx_queue. rewrite tx_put_len by done. destruct Hu as [Hb Hw Hr _].
  replace (Z.to_nat (tx_len u + 1)) with (Z.to_nat (tx_len u) + 1)%nat by lia.
  rewrite seq_app, fmap_app. f_equal.
  - apply list_fmap_ext. intros i j [-> Hj]%lookup_seq. unfold tx_char, tx_put, tx_len in *. cbn in *.
    apply list_lookup_total_insert_ne. txlia.
  - cbn. f_equal. unfold tx_char, tx_put. cbn.
    replace ((uart_tx_r u + Z.of_nat (Z.to_nat (tx_len u))) mod UART_TX_BUF_SIZE) with (uart_tx_w u).
    + apply list_lookup_total_insert_eq. rewrite Hb. lia.
    + rewrite Z2Nat.id by lia. unfold tx_len. txlia.
Qed.

Lemma tx_take_queue u :
  tx_wf u -> 0 < tx_len u -> tx_queue u = uart_tx_buf u !!! Z.to_nat (uart_tx_r u) :: tx_queue (tx_take u).
Proof.
  intros Hu Hl. unfold tx_queue. rewrite tx_take_len by done.
  replace (Z.to_nat (tx_len u)) with (S (Z.to_nat (tx_len u - 1))) by lia.
  rewrite <- cons_seq. cbn [fmap list_fmap]. f_equal.
  - unfold tx_char. destruct Hu as [_ _ Hr _]. do 2 f_equal. txlia.
  - rewrite <- fmap_S_seq, <- list_fmap_compose. apply list_fmap_ext. intros i j _. cbn.
    unfold tx_char, tx_take. cbn. do 2 f_equal. txlia.
Qed.

(** ** What has been handed to the UART and is out, or waits *)

Definition sent (k : kernel) : list Z := written (Reg THR) (k_trace k).
Definition handed (k : kernel) : list Z := sent k ++ tx_queue (k_uart k).

Section spec.
Context {LY : Layout} {TH : Threads}.

(** What the loop of [uartstart] leaves as it found it. *)
Record uart_frame (k k' : kernel) : Prop := {
  uf_locks : same_locks k k';
  uf_len : length (k_proc k') = length (k_proc k);
  uf_wf : tx_wf (k_uart k');
  uf_handed : handed k' = handed k
}.

Lemma written_read a b v tr : written a (IoRead b v :: tr) = written a tr.
Proof. done. Qed.

(** The device's answer to a read, and the state behind it. *)
Definition mmio_answer (k : kernel) : Z := match k_script k with [] => 0 | v :: _ => v end.
Definition after_read (a : Z) (k : kernel) : kernel :=
  set_trace (IoRead a (mmio_answer k) :: k_trace k) (set_script (tail (k_script k)) k).

Lemma ReadReg_run reg k : ReadReg reg k = Ok (u8 (mmio_answer k)) (after_read (Reg reg) k).
Proof. done. Qed.

(** One round: it stops, or sends the oldest character. *)
Lemma uartstart_round k :
  irq_ok k -> proc_locks_free k -> length (k_proc k) = NPROC -> tx_wf (k_uart k) ->
  exists r k', uartstart_body k = Ok r k' /\ uart_frame k k' /\
    (r = Some tt /\ tx_len (k_uart k') = tx_len (k_uart k) \/
     r = None /\ 0 < tx_len (k_uart k) /\ tx_len (k_uart k') = tx_len (k_uart k) - 1).
Proof.
  intros Hi Hl Hlen Hw. unfold uartstart_body. mrun.
  assert (HE : (uart_tx_w (k_uart k) =? uart_tx_r (k_uart k)) = (tx_len (k_uart k) =? 0)).
  { destruct Hw as [_ H1 H2 _]. unfold tx_len. apply eq_bool_prop_intro. rewrite !Is_true_true, !Z.eqb_eq. txlia. }
  rewrite HE. destruct (_ =? 0) eqn:E; bprop.
  { mrun. exists (Some tt), k. split; [done|]. split; [by split|]. by left. }
  pose proof (tx_len_range (k_uart k)) as Hr.
  rewrite (run_bind _ _ _ _ _ (ReadReg_run LSR k)). set (k1 := after_read (Reg LSR) k).
  destruct (Z.land _ LSR_TX_IDLE =? 0).
  { exists (Some tt), k1. split; [done|]. split; [by split|]. by left. }
  mrun. set (c := uart_tx_buf _ !!! _). set (k2 := set_uart _ k1).
  erewrite run_bind by (by apply wakeup_run).
  unfold WriteReg, mmio_write. mrun. eexists None, _. split; [done|].
  change (k_uart (set_trace _ (woken ChUart k2))) with (tx_take (k_uart k)). rewrite tx_take_len by (done || lia).
  split; [|right; split_and!; [done|lia|done]]. split; cbn [k_uart set_trace].
  - done.
  - cbn. by rewrite length_fmap.
  - by apply tx_take_wf.
  - unfold handed, sent. change (k_uart (set_trace _ (woken ChUart k2))) with (tx_take (k_uart k)).
    rewrite (tx_take_queue (k_uart k)) by (done || lia). cbn [k_trace set_trace].
    change (k_trace (woken ChUart k2)) with (IoRead (Reg LSR) (mmio_answer k) :: k_trace k).
    cbn [written]. rewrite Z.eqb_refl, <- app_assoc. cbn [app]. do 2 f_equal. apply u8_id.
    assert (Hin : uart_tx_buf (k_uart k) !! Z.to_nat (uart_tx_r (k_uart k)) = Some c).
    { apply (list_lookup_lookup_total_lt (uart_tx_buf (k_uart k))). destruct Hw as [Hb _ H2 _]. rewrite Hb. change (k_uart k1) with (k_uart k). lia. }
    destruct Hw as [_ _ _ Hy]. exact (Forall_lookup_1 _ _ _ _ Hy Hin).
Qed.

Lemma uart_frame_trans k1 k2 k3 : uart_frame k1 k2 -> uart_frame k2 k3 -> uart_frame k1 k3.
Proof.
  intros [(A1 & A2 & A3 & A4) A5 A6 A7] [(B1 & B2 & B3 & B4) B5 B6 B7].
  split; [split_and!; congruence|congruence|done|congruence].
Qed.

Lemma uartstart_loop fuel k :
  irq_ok k -> proc_locks_free k -> length (k_proc k) = NPROC -> tx_wf (k_uart k) -> tx_len (k_uart k) < Z.of_nat fuel ->
  exists k', loop fuel uartstart_body k = Ok tt k' /\ uart_frame k k'.
Proof.
  revert k. induction fuel as [|fuel IH]; intros k Hi Hl Hlen Hw Hf; [pose proof (tx_len_range (k_uart k)); lia|].
  cbn [loop]. destruct (uartstart_round k Hi Hl Hlen Hw) as (r & k1 & Hrun & HF & Hr).
  rewrite (run_bind _ _ _ _ _ Hrun). destruct Hr as [[-> _]|(-> & H0 & Hd)]; [by exists k1|].
  pose proof HF as [Hs Hn Hw1 _].
  destruct (IH k1) as (k2 & Hrun2 & HF2); [by eapply irq_ok_same| |congruence|done|lia|].
  - intros i Hi'. eapply lock_free_same; [exact Hs|by apply Hl].
  - exists k2. split; [done|]. by eapply uart_frame_trans.
Qed.

(** The process that runs may take the UART's lock. *)
Record uart_ctx (k : kernel) (p : nat) : Prop := {
  ux_proc : proc_ctx k p;
  ux_lock : lock_free Luart k;
  ux_wf : tx_wf (k_uart k);
  ux_alive : k_panicked k = 0
}.

(** C31. The UART is a first-in first-out queue: with room in its buffer,
    [uartputc] returns, whatever the device answers meanwhile, and the
    characters sent so far followed by those in the buffer are those from
    before with the new one behind them: none is lost, repeated or reordered. *)
Theorem uartputc_spec k p c :
  uart_ctx k p -> tx_len (k_uart k) < UART_TX_BUF_SIZE - 1 ->
  exists k', uartputc c k = Ok tt k' /\ handed k' = handed k ++ [u8 c] /\
    tx_wf (k_uart k') /\ same_locks k k' /\ length (k_proc k') = NPROC.
Proof.
  intros [[Hi Hp Hl Hlen] Hlk Hw Hal] Hroom. unfold uartputc. acquire_step. mrun. autorewrite with klocks.
  rewrite Hal. cbn [truth Z.eqb negb loop]. mrun. autorewrite with klocks.
  assert (HE : ((uart_tx_w (k_uart k) + 1) mod UART_TX_BUF_SIZE =? uart_tx_r (k_uart k)) = false).
  { apply Z.eqb_neq. destruct Hw as [_ H1 H2 _]. unfold tx_len in Hroom. txlia. }
  rewrite HE. mrun. set (k1 := set_uart _ _).
  assert (Hu : k_uart k1 = tx_put c (k_uart k)) by done.
  destruct (uartstart_loop (S (Z.to_nat UART_TX_BUF_SIZE)) k1) as (k2 & Hrun & [Hs Hn Hw2 Hh]).
  - by apply irq_ok_acquired.
  - intros i Hlt. apply lock_free_acquired; [done|]. by apply Hl.
  - done.
  - rewrite Hu. by apply tx_put_wf.
  - pose proof (tx_len_range (k_uart k1)). lia.
  - unfold uartstart. rewrite (run_bind _ _ _ _ _ Hrun).
    assert (Hs' : same_locks (acquired Luart k) k2) by exact Hs.
    mrun. rewrite (run_bind _ _ _ _ _ (release_run Luart k k2 Hi Hlk Hs')). mrun. eexists. split; [done|].
    split_and!; [|done|done|].
    + transitivity (handed k2); [done|]. rewrite Hh. unfold handed. rewrite Hu, tx_put_queue by done.
      by rewrite app_assoc.
    + exact (eq_trans Hn Hlen).
Qed.

(** Sleeping with a second spin lock held ends in sched's panic. *)
Lemma sleep_nested_panics p chan lk k :
  irq_ok k -> cur_proc k = Some p -> 0 < c_noff (this_cpu k) ->
  lock_free lk k -> lock_free (Lproc p) k -> lk <> Lproc p ->
  sleep chan lk (acquired lk k) = Panic "sched locks".
Proof.
  intros Hi Hp Hn Hlk Hlp Hne. unfold sleep.
  erewrite run_bind by (apply (this_proc_run p); [by apply irq_ok_acquired|by rewrite cur_proc_acquired]).
  rewrite bool_decide_eq_false_2 by done. cbn [negb when]. cbv zeta.
  rewrite bind_assoc. acquire_step. rewrite acquired_comm by done.
  erewrite run_bind by (apply (release_run lk (acquired (Lproc p) k)); eauto with krun).
  rewrite with_locks_acquired. mrun. set (k1 := upd_proc p _ (upd_proc p _ _)).
  assert (Hs : same_locks (acquired (Lproc p) k) k1) by done.
  assert (Hcur : this_cpu k1 = this_cpu (acquired (Lproc p) k)) by done.
  apply run_bind_panic. unfold sched.
  erewrite run_bind by (apply (this_proc_run p); [eapply irq_ok_same; [exact Hs|by apply irq_ok_acquired]
    |unfold cur_proc; rewrite Hcur; by rewrite <- Hp, <- (cur_proc_acquired (Lproc p) k)]).
  erewrite run_bind by exact (holding_acquired (Lproc p) k k1 Hs). cbn [negb]. mrun.
  change (get_cpu k1 (k_tp k1)) with (this_cpu k1). rewrite Hcur, noff_acquired by done.
  destruct (c_noff (this_cpu k) + 1 =? 1) eqn:E; bprop; [lia|]. done.
Qed.

(** [consolewrite] cannot wait for the UART: it holds the console's lock,
    and when the transmit buffer is full [uartputc] puts the process to sleep
    with that lock held, so that [sched] panics, as soon as there is a byte to
    write. *)
Theorem consolewrite_full_panics k p T va n b :
  uart_ctx k p -> lock_free Lcons k -> 0 < n ->
  pt_wf (k_mem k) T -> T !! [] = Some (p_pagetable (get_proc k p)) ->
  0 <= va < 18446744073709551615 -> uread (k_mem k) T va = Some b ->
  tx_len (k_uart k) = UART_TX_BUF_SIZE - 1 -> (p < NPROC)%nat ->
  consolewrite (UserSrc va) n k = Panic "sched locks".
Proof.
  intros [[Hi Hp Hl Hlen] Hlk Hw Hal] Hlc Hn Hwf Hroot Hva Hb Hfull Hpn. unfold consolewrite. acquire_step.
  apply run_bind_panic. cbn [loop_with]. destruct (0 <? n) eqn:E; bprop; [|lia]. cbn [source_add].
  unfold either_copyin. rewrite ?bind_assoc.
  erewrite run_bind by (apply (this_proc_run p); [by apply irq_ok_acquired|by rewrite cur_proc_acquired]). mrun.
  autorewrite with klocks. rewrite Z.add_0_r, u64_id by lia.
  destruct (copyin_run (acquired Lcons k) T _ va 1 Hwf Hroot) as (r & bs & Hin & Hbs & Hr); [lia..|].
  destruct Hr as [[-> Hlb]|(-> & Hlb & Hnone)].
  2:{ destruct bs; [|cbn in Hlb; lia]. cbn in Hnone. rewrite Z.add_0_r in Hnone. congruence. }
  rewrite (run_bind _ _ _ _ _ Hin). cbn [fst snd Z.eqb]. mrun. apply run_bind_panic.
  unfold uartputc. acquire_step. mrun. autorewrite with klocks. rewrite Hal. cbn [truth Z.eqb negb loop].
  rewrite ?bind_assoc. mrun. autorewrite with klocks.
  assert (HE : ((uart_tx_w (k_uart k) + 1) mod UART_TX_BUF_SIZE =? uart_tx_r (k_uart k)) = true).
  { apply Z.eqb_eq. destruct Hw as [_ H1 H2 _]. unfold tx_len in Hfull. txlia. }
  rewrite HE. mrun. apply run_bind_panic, (sleep_nested_panics p).
  - by apply irq_ok_acquired.
  - by rewrite cur_proc_acquired.
  - rewrite noff_acquired by done. destruct Hi as (_ & H0 & _). lia.
  - by apply lock_free_acquired.
  - apply lock_free_acquired; [done|by apply Hl].
  - done.
Qed.
End spec.

(** ** Concrete states *)

#[local] Existing Instance kernel_sym.
#[local] Existing Instance resume_at_once.

(** Process 3 with one page of memory; the transmit buffer has [w] characters. *)
Definition demo_console (w : Z) : kernel :=
  set_uart (mkUart (replicate 32 65) w 0)
    (set_mem user_mem
      (set_locks (<[Lcons := mkSpinlock 0 "cons" None]> (<[Luart := mkSpinlock 0 "uart" None]> (k_locks one_proc)))
        (upd_proc 3 (set_p_pagetable (pg 0)) one_proc))).

Lemma demo_console_ctx w : 0 <= w < 32 -> uart_ctx (demo_console w) 3.
Proof.
  intros Hw. split; [|exists "uart"; by vm_compute| |done].
  - split; [exact one_proc_irq|done| |by vm_compute]. intros i Hi. destruct (one_proc_locks i Hi) as [name Hn].
    exists name. cbn [k_locks demo_console set_uart set_mem set_locks]. by rewrite !lookup_insert_ne.
  - split; cbn [k_uart demo_console set_uart uart_tx_buf uart_tx_w uart_tx_r]; [done|txlia|txlia|].
    by apply Forall_replicate.
Qed.

Lemma uartputc_spec_witness :
  exists k', uartputc 66 (demo_console 2) = Ok tt k' /\ handed k' = [65; 65; 66].
Proof.
  destruct (uartputc_spec (demo_console 2) 3 66 (demo_console_ctx 2 ltac:(lia)) ltac:(by vm_compute)) as (k' & R & H & _).
  exists k'. split; [exact R|exact H].
Defined.

Lemma consolewrite_full_panics_witness :
  consolewrite (UserSrc 100) 5 (demo_console 31) = Panic "sched locks".
Proof.
  apply (consolewrite_full_panics (demo_console 31) 3 user_tree 100 5 (rd8 user_mem (pg 3 + 100 mod 4096)));
    [by apply demo_console_ctx|exists "cons"; by vm_compute|lia|exact user_wf|by vm_compute|lia| |by vm_compute|by vm_compute; lia].
  change (k_mem (demo_console 31)) with user_mem. unfold uread. rewrite user_upage, decide_True by lia. done.
Defined.
