(* ===== verification/Pipe.v ===== *)
(** * kernel/file.c, allocation of file structures, and kernel/pipe.c

    A [struct file *] is an index into the file table.  A pipe lives in a page
    from [kalloc] and is named by the page's address; its fields are kept in
    [k_pipe] instead of in the bytes of the page. *)

From S2P Require Export Fs.

Definition f_get {A} (f : nat) (g : file -> A) : K A := gets (fun k => g (get_file k f)).
Definition f_set (f : nat) (g : file -> file) : K unit := modify (upd_file f g).
Definition pipe_get {A} (pi : Z) (g : pipe -> A) : K A := gets (fun k => g (get_pipe k pi)).
Definition pipe_set (pi : Z) (g : pipe -> pipe) : K unit := modify (upd_pipe pi g).

#[export] Hint Unfold f_get f_set pipe_get pipe_set : krun.

Definition PIPESIZE : Z := 512.

Section pipe.
Context {LY : Layout} {TH : Threads} {BD : BlockDev}.

(** ** kernel/file.c *)

Definition fileinit : K unit := initlock Lftable "ftable".

Definition filealloc : K (option nat) :=
  acquire Lftable;;
  r ← for_each (seq 0 NFILE) (fun f =>
    ref ← f_get f f_ref;
    if ref =? 0 then
      f_set f (set_f_ref 1);;
      release Lftable;;
      mret (Some f)
    else mret None);
  match r with
  | Some f => mret (Some f)
  | None => release Lftable;; mret None
  end.

Definition filedup (f : nat) : K nat :=
  acquire Lftable;;
  ref ← f_get f f_ref;
  if ref <? 1 then panic "filedup" else
  f_set f (fun x => set_f_ref (f_ref x + 1) x);;
  release Lftable;;
  mret f.

(** ** kernel/pipe.c *)

Definition pipeclose (pi : Z) (writable : bool) : K unit :=
  acquire (Lpipe pi);;
  (if writable then
     pipe_set pi (set_pi_writeopen 0);;
     wakeup (ChPipeRead pi)
   else
     pipe_set pi (set_pi_readopen 0);;
     wakeup (ChPipeWrite pi));;
  x ← pipe_get pi id;
  if (pi_readopen x =? 0) && (pi_writeopen x =? 0) then
    release (Lpipe pi);;
    kfree pi
  else release (Lpipe pi).

(** [while(pi->nwrite == pi->nread + PIPESIZE)]: false when the write has to
    be given up. *)
Definition pipewrite_wait (pr : nat) (pi : Z) : K bool :=
  loop (S patience) (
    x ← pipe_get pi id;
    if pi_nwrite x =? u32 (pi_nread x + PIPESIZE) then
      killed ← p_get pr p_killed;
      if (pi_readopen x =? 0) || truth killed then
        release (Lpipe pi);; mret (Some false)
      else
        wakeup (ChPipeRead pi);;
        sleep (ChPipeWrite pi) (Lpipe pi);;
        mret None
    else mret (Some true)).

(** [pi->data[pi->nwrite++ % PIPESIZE] = ch;] *)
Definition pipe_push (ch : Z) (x : pipe) : pipe :=
  set_pi_nwrite (u32 (pi_nwrite x + 1))
    (set_pi_data (<[Z.to_nat (pi_nwrite x mod PIPESIZE) := ch]> (pi_data x)) x).

Definition pipewrite_body (pr : nat) (pi addr n : Z) : Z -> K (Z + option Z) := fun i =>
  if i <? n then
    ok ← pipewrite_wait pr pi;
    if negb ok then mret (inr None) else
    pagetable ← p_get pr p_pagetable;
    r ← copyin pagetable (u64 (addr + i)) 1;
    if r.1 =? -1 then mret (inr (Some i)) else
    pipe_set pi (pipe_push (default 0 (r.2 !! 0%nat)));;
    mret (inl (i + 1))
  else mret (inr (Some i)).

Definition pipewrite (pi addr n : Z) : K Z :=
  pr ← this_proc;
  acquire (Lpipe pi);;
  r ← loop_with (S (Z.to_nat n)) 0 (pipewrite_body pr pi addr n);
  match r with
  | None => mret (-1)
  | Some i =>
      wakeup (ChPipeRead pi);;
      release (Lpipe pi);;
      mret i
  end.

(** [while(pi->nread == pi->nwrite && pi->writeopen)]: false when the process
    was killed. *)
Definition piperead_wait (pr : nat) (pi : Z) : K bool :=
  loop (S patience) (
    x ← pipe_get pi id;
    if (pi_nread x =? pi_nwrite x) && truth (pi_writeopen x) then
      killed ← p_get pr p_killed;
      if truth killed then release (Lpipe pi);; mret (Some false)
      else sleep (ChPipeRead pi) (Lpipe pi);; mret None
    else mret (Some true)).

(** [ch = pi->data[pi->nread++ % PIPESIZE];] *)
Definition pipe_top (x : pipe) : Z := pi_data x !!! Z.to_nat (pi_nread x mod PIPESIZE).
Definition pipe_pop (x : pipe) : pipe := set_pi_nread (u32 (pi_nread x + 1)) x.

Definition piperead_body (pr : nat) (pi addr n : Z) : Z -> K (Z + Z) := fun i =>
  if i <? n then
    x ← pipe_get pi id;
    if pi_nread x =? pi_nwrite x then mret (inr i) else
    pipe_set pi pipe_pop;;
    pagetable ← p_get pr p_pagetable;
    r ← copyout pagetable (u64 (addr + i)) (fun _ => pipe_top x) 1;
    if r =? -1 then mret (inr i) else mret (inl (i + 1))
  else mret (inr i).

Definition piperead (pi addr n : Z) : K Z :=
  pr ← this_proc;
  acquire (Lpipe pi);;
  ok ← piperead_wait pr pi;
  if negb ok then mret (-1) else
  i ← loop_with (S (Z.to_nat n)) 0 (piperead_body pr pi addr n);
  wakeup (ChPipeWrite pi);;
  release (Lpipe pi);;
  mret i.

(** ** kernel/file.c: closing *)

Definition fileclose (f : nat) : K unit :=
  acquire Lftable;;
  ref ← f_get f f_ref;
  if ref <? 1 then panic "fileclose" else
  f_set f (fun x => set_f_ref (f_ref x - 1) x);;
  ref ← f_get f f_ref;
  if 0 <? ref then release Lftable else
  ff ← f_get f id;
  f_set f (set_f_ref 0);;
  f_set f (set_f_type FD_NONE);;
  release Lftable;;
  match f_type ff with
  | FD_PIPE => pipeclose (f_pipe ff) (truth (f_writable ff))
  | FD_INODE | FD_DEVICE =>
      begin_op;;
      match f_ip ff with Some ip => iput ip | None => panic "kerneltrap" end;;
      end_op
  | FD_NONE => skip
  end.

(** [goto bad] of [pipealloc]. *)
Definition pipealloc_bad (f0 f1 : option nat) : K (option (nat * nat)) :=
  match f0 with Some f => fileclose f | None => skip end;;
  match f1 with Some f => fileclose f | None => skip end;;
  mret None.

Definition new_pipe (x : pipe) : pipe :=
  set_pi_nread 0 (set_pi_nwrite 0 (set_pi_writeopen 1 (set_pi_readopen 1 x))).

Definition pipe_end (readable writable pi : Z) (x : file) : file :=
  set_f_pipe pi (set_f_writable writable (set_f_readable readable (set_f_type FD_PIPE x))).

(** The two files, or none where the C code returns -1. *)
Definition pipealloc : K (option (nat * nat)) :=
  f0 ← filealloc;
  match f0 with
  | None => pipealloc_bad None None
  | Some f0 =>
      f1 ← filealloc;
      match f1 with
      | None => pipealloc_bad (Some f0) None
      | Some f1 =>
          pi ← kalloc;
          if pi =? 0 then pipealloc_bad (Some f0) (Some f1) else
          pipe_set pi new_pipe;;
          initlock (Lpipe pi) "pipe";;
          f_set f0 (pipe_end 1 0 pi);;
          f_set f1 (pipe_end 0 1 pi);;
          mret (Some (f0, f1))
      end
  end.
End pipe.
