(* ===== verification/PipeSpec.v ===== *)
(** * What a pipe promises

    The ring buffer of a pipe holds a queue of bytes.  [pipewrite] appends the
    bytes of the caller's memory, [piperead] takes bytes from the front, and
    a read after a write gives back what was written, also when the counters
    wrap around. *)

From S2P Require Export Pipe UserMem Sleeplock.
From S2P Require Import VmSpec.

(** ** The queue in the ring buffer *)

Definition pipe_len (x : pipe) : Z := u32 (pi_nwrite x - pi_nread x).

(** The byte [i] places behind the next one to be read. *)
Definition pipe_byte (x : pipe) (i : nat) : Z := pi_data x !!! Z.to_nat ((pi_nread x + Z.of_nat i) mod PIPESIZE).

Definition pipe_queue (x : pipe) : list Z := pipe_byte x <$> seq 0 (Z.to_nat (pipe_len x)).

Record pipe_wf (x : pipe) : Prop := {
  pw_data : length (pi_data x) = Z.to_nat PIPESIZE;
  pw_read : 0 <= pi_nread x < 4294967296;
  pw_write : 0 <= pi_nwrite x < 4294967296;
  pw_len : pipe_len x <= PIPESIZE
}.

Lemma queue_length x : length (pipe_queue x) = Z.to_nat (pipe_len x).
Proof. unfold pipe_queue. by rewrite length_fmap, length_seq. Qed.

Lemma pipe_len_range x : 0 <= pipe_len x.
Proof. apply u32_range. Qed.

(** The tests of the code. *)
Lemma full_test x : pipe_wf x -> (pi_nwrite x =? u32 (pi_nread x + PIPESIZE)) = (pipe_len x =? PIPESIZE).
Proof.
  intros [_ Hr Hw _]. unfold pipe_len. assert (HP : PIPESIZE = 512) by done. unfold u32 in *.
  apply eq_bool_prop_intro. rewrite !Is_true_true, !Z.eqb_eq. rewrite HP. zlia.
Qed.

Lemma empty_test x : pipe_wf x -> (pi_nread x =? pi_nwrite x) = (pipe_len x =? 0).
Proof.
  intros [_ Hr Hw _]. unfold pipe_len, u32 in *. apply eq_bool_prop_intro. rewrite !Is_true_true, !Z.eqb_eq. zlia.
Qed.

Lemma push_len x ch : pipe_wf x -> pipe_len x < PIPESIZE -> pipe_len (pipe_push ch x) = pipe_len x + 1.
Proof.
  intros [_ Hr Hw _] Hl. unfold pipe_len, pipe_push in *. cbn in *.
  assert (HP : PIPESIZE = 512) by done. unfold u32 in *. zlia.
Qed.

Lemma pop_len x : pipe_wf x -> 0 < pipe_len x -> pipe_len (pipe_pop x) = pipe_len x - 1.
Proof.
  intros [_ Hr Hw HL] Hl. unfold pipe_len, pipe_pop in *. cbn in *.
  assert (HP : PIPESIZE = 512) by done. unfold u32 in *. zlia.
Qed.

Lemma push_wf x ch : pipe_wf x -> pipe_len x < PIPESIZE -> pipe_wf (pipe_push ch x).
Proof.
  intros Hx Hl. pose proof (push_len x ch Hx Hl). destruct Hx. split; cbn; try done; [by rewrite length_insert|apply u32_range|lia].
Qed.

Lemma pop_wf x : pipe_wf x -> 0 < pipe_len x -> pipe_wf (pipe_pop x).
Proof. intros Hx Hl. pose proof (pop_len x Hx Hl). destruct Hx. split; cbn; try done; [apply u32_range|lia]. Qed.

(** The slots of the queue differ from the one written next. *)
Lemma push_byte_old x ch i :
  pipe_wf x -> Z.of_nat i < pipe_len x -> pipe_len x < PIPESIZE -> pipe_byte (pipe_push ch x) i = pipe_byte x i.
Proof.
  intros [_ Hr Hw _] Hi Hl. unfold pipe_byte, pipe_push, pipe_len in *. cbn in *.
  assert (HP : PIPESIZE = 512) by done. unfold u32 in *. rewrite HP in *.
  apply list_lookup_total_insert_ne. zlia.
Qed.

Lemma push_byte_new x ch :
  pipe_wf x -> pipe_len x < PIPESIZE -> pipe_byte (pipe_push ch x) (Z.to_nat (pipe_len x)) = ch.
Proof.
  intros [Hd Hr Hw _] Hl. pose proof (pipe_len_range x). unfold pipe_byte, pipe_push in *. cbn in *.
  replace ((pi_nread x + Z.of_nat (Z.to_nat (pipe_len x))) mod PIPESIZE) with (pi_nwrite x mod PIPESIZE).
  - apply list_lookup_total_insert_eq. assert (HP : PIPESIZE = 512) by done. rewrite Hd, HP. zlia.
  - rewrite Z2Nat.id by done. unfold pipe_len. assert (HP : PIPESIZE = 512) by done. unfold u32. rewrite HP. zlia.
Qed.

Lemma push_queue x ch :
  pipe_wf x -> pipe_len x < PIPESIZE -> pipe_queue (pipe_push ch x) = pipe_queue x ++ [ch].
Proof.
  intros Hx Hl. pose proof (pipe_len_range x). unfold pipe_queue. rewrite push_len by done.
  replace (Z.to_nat (pipe_len x + 1)) with (Z.to_nat (pipe_len x) + 1)%nat by lia.
  rewrite seq_app, fmap_app. f_equal.
  - apply list_fmap_ext. intros i j Hj%lookup_seq. apply push_byte_old; [done|lia|done].
  - cbn. f_equal. by apply push_byte_new.
Qed.

Lemma pop_queue x :
  pipe_wf x -> 0 < pipe_len x -> pipe_queue x = pipe_top x :: pipe_queue (pipe_pop x).
Proof.
  intros Hx Hl. unfold pipe_queue. rewrite pop_len by done.
  replace (Z.to_nat (pipe_len x)) with (S (Z.to_nat (pipe_len x - 1))) by lia.
  rewrite <- cons_seq. cbn [fmap list_fmap]. f_equal.
  - unfold pipe_byte, pipe_top. by rewrite Z.add_0_r.
  - rewrite <- fmap_S_seq, <- list_fmap_compose. apply list_fmap_ext. intros i j _. cbn.
    unfold pipe_byte, pipe_pop. cbn. do 2 f_equal.
    assert (HP : PIPESIZE = 512) by done. destruct Hx as [_ Hr _ _]. unfold u32. rewrite HP. zlia.
Qed.

(** ** The operations *)

Definition pushes (bs : list Z) (x : pipe) : pipe := foldl (fun x b => pipe_push b x) x bs.
Definition pops (n : nat) (x : pipe) : pipe := Nat.iter n pipe_pop x.

Lemma pushes_spec bs x :
  pipe_wf x -> pipe_len x + Z.of_nat (length bs) <= PIPESIZE ->
  pipe_wf (pushes bs x) /\ pipe_queue (pushes bs x) = pipe_queue x ++ bs.
Proof.
  revert x. induction bs as [|b bs IH]; intros x Hx Hl; cbn [pushes foldl length] in *.
  - by rewrite app_nil_r.
  - assert (Hl' : pipe_len x < PIPESIZE) by lia.
    destruct (IH (pipe_push b x)) as [H1 H2]; [by apply push_wf|rewrite push_len by done; lia|].
    split; [done|]. fold (pushes bs (pipe_push b x)). rewrite H2, push_queue by done. by rewrite <- app_assoc.
Qed.

Lemma pops_spec n x :
  pipe_wf x -> Z.of_nat n <= pipe_len x ->
  pipe_wf (pops n x) /\ pipe_queue x = take n (pipe_queue x) ++ pipe_queue (pops n x).
Proof.
  revert x. induction n as [|n IH]; intros x Hx Hl; [done|]. unfold pops. rewrite Nat.iter_succ_r.
  fold (pops n (pipe_pop x)). destruct (IH (pipe_pop x)) as [H1 H2]; [apply pop_wf; [done|lia]|rewrite pop_len by (done || lia); lia|].
  split; [done|]. rewrite (pop_queue x) by (done || lia). cbn [take app]. by rewrite <- H2.
Qed.

Lemma get_pipe_upd pi f k : get_pipe (upd_pipe pi f k) pi = f (get_pipe k pi).
Proof. unfold get_pipe at 1. unfold upd_pipe; cbn. by rewrite lookup_insert_eq. Qed.

Lemma upd_pipe_upd pi f g k : upd_pipe pi g (upd_pipe pi f k) = upd_pipe pi (fun x => g (f x)) k.
Proof. unfold upd_pipe at 1. rewrite get_pipe_upd. unfold upd_pipe; cbn. by rewrite insert_insert_eq. Qed.

Section spec.
Context {LY : Layout} {TH : Threads}.

(** Process [p] runs with the user memory [T], and the pipe's lock is free. *)
Record pipe_ctx (k : kernel) (p : nat) (T : ptree) (pi : Z) : Prop := {
  px_proc : proc_ctx k p;
  px_lock : lock_free (Lpipe pi) k;
  px_tree : pt_wf (k_mem k) T;
  px_root : T !! [] = Some (p_pagetable (get_proc k p));
  px_user : user_ok (k_mem k) T;
  px_wf : pipe_wf (get_pipe k pi)
}.

(** [wakeup] and [release] at the end of an operation that holds [l]. *)
Lemma wakeup_release_run l chan k k1 p :
  proc_ctx k p -> lock_free l k -> (forall i, l <> Lproc i) -> same_locks (acquired l k) k1 ->
  length (k_proc k1) = NPROC ->
  (wakeup chan;; release l) k1 = Ok tt (woken chan (with_locks k k1)).
Proof.
  intros [Hi Hp Hl _] Hf Hne Hs Hlen.
  erewrite run_bind by (apply wakeup_run;
    [apply (irq_ok_same (acquired l k)); eauto with krun
    |intros i Hlt; apply (lock_free_same _ (acquired l k)); [done|]; apply lock_free_acquired; [done|by apply Hl]
    |done]).
  by rewrite (release_run _ k).
Qed.

(** A write to a pipe that is not full goes straight on. *)
Lemma pipewrite_wait_run p pi k :
  pipe_wf (get_pipe k pi) -> pipe_len (get_pipe k pi) < PIPESIZE -> pipewrite_wait p pi k = Ok true k.
Proof.
  intros Hw Hl. unfold pipewrite_wait. cbn [loop]. mrun. cbn [id]. rewrite full_test by done.
  destruct (_ =? PIPESIZE) eqn:E; bprop; [lia|]. by mrun.
Qed.

(** [P] is the pipe table of [k] with the pipe [pi] changed by [f]. *)
Definition pipe_changed (k : kernel) (pi : Z) (f : pipe -> pipe) (P : gmap Z pipe) : Prop :=
  default pipe0 (P !! pi) = f (get_pipe k pi) /\ forall pi', pi' <> pi -> P !! pi' = k_pipe k !! pi'.

Lemma pipe_changed_refl k pi : pipe_changed k pi id (k_pipe k).
Proof. done. Qed.

Lemma pipe_changed_upd k pi f g P :
  pipe_changed (upd_pipe pi f k) pi g P -> pipe_changed k pi (fun x => g (f x)) P.
Proof.
  intros [H1 H2]. split; [by rewrite H1, get_pipe_upd|]. intros pi' Hne. rewrite H2 by done. cbn. by apply lookup_insert_ne.
Qed.

Lemma set_pipe_upd P pi f k : set_pipe P (upd_pipe pi f k) = set_pipe P k.
Proof. done. Qed.
Lemma set_pipe_self k : set_pipe (k_pipe k) k = k.
Proof. by destruct k. Qed.

(** One round of the loop: a byte goes into the pipe, or the address is bad. *)
Lemma pipewrite_round p T pi addr n i k :
  0 <= addr -> addr + n <= 18446744073709551616 -> 0 <= i < n ->
  pt_wf (k_mem k) T -> T !! [] = Some (p_pagetable (get_proc k p)) ->
  pipe_wf (get_pipe k pi) -> pipe_len (get_pipe k pi) < PIPESIZE ->
  match uread (k_mem k) T (addr + i) with
  | Some b => pipewrite_body p pi addr n i k = Ok (inl (i + 1)) (upd_pipe pi (pipe_push b) k)
  | None => pipewrite_body p pi addr n i k = Ok (inr (Some i)) k
  end.
Proof.
  intros Ha Han Hi Hwf Hroot Hw Hl. unfold pipewrite_body. destruct (i <? n) eqn:E; bprop; [|lia].
  rewrite ?bind_assoc. erewrite run_bind by (by apply pipewrite_wait_run). cbn [negb]. mrun. rewrite u64_id by lia.
  destruct (copyin_run k T _ (addr + i) 1 Hwf Hroot) as (r & bs & Hin & Hbs & Hr); [lia..|].
  destruct Hr as [[-> Hlen]|(-> & Hlen & Hn)].
  - destruct bs as [|b [|]]; [cbn in Hlen; lia| |cbn in Hlen; lia].
    pose proof (Hbs O b eq_refl) as Hb. rewrite Z.add_0_r in Hb. rewrite Hb, (run_bind _ _ _ _ _ Hin). by mrun.
  - destruct bs; [|cbn in Hlen; lia]. cbn in Hn. rewrite Z.add_0_r in Hn. rewrite Hn, (run_bind _ _ _ _ _ Hin). by mrun.
Qed.

Lemma pipewrite_loop p T pi addr n fuel :
  0 <= addr -> addr + n <= 18446744073709551616 ->
  forall i k, 0 <= i <= n -> n - i < Z.of_nat fuel ->
  pt_wf (k_mem k) T -> T !! [] = Some (p_pagetable (get_proc k p)) ->
  pipe_wf (get_pipe k pi) -> pipe_len (get_pipe k pi) + (n - i) <= PIPESIZE ->
  exists bs P, loop_with fuel i (pipewrite_body p pi addr n) k
      = Ok (Some (i + Z.of_nat (length bs))) (set_pipe P k) /\ pipe_changed k pi (pushes bs) P /\
    (forall j b, bs !! j = Some b -> uread (k_mem k) T (addr + i + Z.of_nat j) = Some b) /\
    (i + Z.of_nat (length bs) = n \/
     i + Z.of_nat (length bs) < n /\ uread (k_mem k) T (addr + i + Z.of_nat (length bs)) = None).
Proof.
  intros Ha Han. induction fuel as [|fuel IH]; intros i k Hi Hf Hwf Hroot Hw Hl; [lia|]. cbn [loop_with].
  destruct (decide (i = n)) as [->|Hne].
  { assert (Hb : pipewrite_body p pi addr n n k = Ok (inr (Some n)) k).
    { unfold pipewrite_body. destruct (n <? n) eqn:E; bprop; [lia|]. by mrun. }
    rewrite (run_bind _ _ _ _ _ Hb). exists [], (k_pipe k). rewrite set_pipe_self. cbn [length]. rewrite Z.add_0_r.
    split_and!; [done|apply pipe_changed_refl|done|by left]. }
  pose proof (pipewrite_round p T pi addr n i k Ha Han ltac:(lia) Hwf Hroot Hw ltac:(lia)) as Hround.
  destruct (uread (k_mem k) T (addr + i)) as [b|] eqn:Hu; rewrite (run_bind _ _ _ _ _ Hround).
  - destruct (IH (i + 1) (upd_pipe pi (pipe_push b) k)) as (bs & P & Hrun & Hc & Hb' & He); try done; [lia|lia|..].
    + rewrite get_pipe_upd. apply push_wf; [done|lia].
    + rewrite get_pipe_upd, push_len by (done || lia). lia.
    + exists (b :: bs), P. rewrite set_pipe_upd in Hrun. cbn [length].
      replace (i + Z.of_nat (S (length bs))) with (i + 1 + Z.of_nat (length bs)) by lia.
      split_and!; [done|exact (pipe_changed_upd k pi (pipe_push b) (pushes bs) P Hc)| |].
      * intros [|j] c; cbn.
        -- intros [= <-]. by rewrite Z.add_0_r.
        -- intros Hj. rewrite <- (Hb' j c Hj). f_equal. lia.
      * replace (addr + i + Z.of_nat (S (length bs))) with (addr + (i + 1) + Z.of_nat (length bs)) by lia. done.
  - exists [], (k_pipe k). rewrite set_pipe_self. cbn [length]. rewrite !Z.add_0_r.
    split_and!; [done|apply pipe_changed_refl|done|right; split; [lia|done]].
Qed.

(** [pipewrite] on a pipe with room for the bytes. *)
Lemma pipewrite_run k p T pi addr n :
  pipe_ctx k p T pi -> 0 <= addr -> 0 <= n -> addr + n <= 18446744073709551616 ->
  pipe_len (get_pipe k pi) + n <= PIPESIZE ->
  exists bs P, pipewrite pi addr n k = Ok (Z.of_nat (length bs)) (woken (ChPipeRead pi) (set_pipe P k)) /\
    pipe_changed k pi (pushes bs) P /\
    (forall j b, bs !! j = Some b -> uread (k_mem k) T (addr + Z.of_nat j) = Some b) /\
    (Z.of_nat (length bs) = n \/ Z.of_nat (length bs) < n /\ uread (k_mem k) T (addr + Z.of_nat (length bs)) = None).
Proof.
  intros [HP Hlk Hwf Hroot Hu Hw] Ha Hn Han Hl. pose proof HP as [Hi Hp Hpl Hlen]. unfold pipewrite.
  erewrite run_bind by (by apply this_proc_run). acquire_step.
  destruct (pipewrite_loop p T pi addr n (S (Z.to_nat n)) Ha Han 0 (acquired (Lpipe pi) k))
    as (bs & P & Hrun & Hc & Hb & He); autorewrite with klocks; try done; [lia..|].
  rewrite (run_bind _ _ _ _ _ Hrun). exists bs, P. autorewrite with klocks in *. rewrite !Z.add_0_l, ?Z.add_0_r in *.
  rewrite <- bind_assoc. rewrite (run_bind _ _ _ _ _
    (wakeup_release_run (Lpipe pi) (ChPipeRead pi) k (set_pipe P (acquired (Lpipe pi) k)) p HP Hlk ltac:(done) ltac:(done) Hlen)).
  autorewrite with klocks. split_and!; [done|done|done|done].
Qed.

(** *** Reading *)

(** User memory after the first [d] bytes of [q] were stored at [va]. *)
Definition delivered (m m' : gmap Z Z) (T : ptree) (va : Z) (q : list Z) (d : Z) : Prop :=
  (forall x, uread m' T x = ustored m T va (fun j => q !!! Z.to_nat j) d x) /\
  pt_wf m' T /\ user_ok m' T.

Lemma delivered_none m T va q : pt_wf m T -> user_ok m T -> delivered m m T va q 0.
Proof.
  intros. split; [|done]. intros x. unfold ustored. destruct (_ && _) eqn:E; [bprop; lia|done].
Qed.

Lemma delivered_cons m m1 m' T va b q d :
  0 <= d -> delivered m m1 T va [b] 1 -> delivered m1 m' T (va + 1) q d -> delivered m m' T va (b :: q) (d + 1).
Proof.
  intros Hd [H1 _] [H2 H3]. split; [|done]. intros x. rewrite H2. unfold ustored. rewrite H1. unfold ustored.
  destruct (decide (x = va)) as [->|Hx].
  - destruct ((va + 1 <=? va) && _) eqn:E; [bprop; lia|].
    destruct ((va <=? va) && (va <? va + 1)) eqn:E1; [|apply andb_false_iff in E1 as [E1|E1]; bprop; lia].
    destruct ((va <=? va) && (va <? va + (d + 1))) eqn:E2; [|apply andb_false_iff in E2 as [E2|E2]; bprop; lia].
    by replace (va - va) with 0 by lia.
  - destruct ((va + 1 <=? x) && (x <? va + 1 + d)) eqn:E.
    + destruct ((va <=? x) && (x <? va + (d + 1))) eqn:E2; [|apply andb_false_iff in E2 as [E2|E2]; bprop; lia].
      bprop. do 2 f_equal. replace (Z.to_nat (x - va)) with (S (Z.to_nat (x - (va + 1)))) by lia. done.
    + destruct ((va <=? x) && (x <? va + 1)) eqn:E1; [bprop; lia|].
      destruct ((va <=? x) && (x <? va + (d + 1))) eqn:E2; [|done].
      bprop. apply andb_false_iff in E as [E|E]; bprop; lia.
Qed.

(** One round: the byte leaves the pipe, and then the process may not have the
    memory for it. *)
Lemma piperead_round p T pi addr n i k :
  0 <= addr -> addr + n <= 18446744073709551616 -> 0 <= i < n ->
  pt_wf (k_mem k) T -> user_ok (k_mem k) T -> T !! [] = Some (p_pagetable (get_proc k p)) ->
  pipe_wf (get_pipe k pi) -> 0 < pipe_len (get_pipe k pi) ->
  exists m', 
    (piperead_body p pi addr n i k = Ok (inl (i + 1)) (set_mem m' (upd_pipe pi pipe_pop k)) /\
     delivered (k_mem k) m' T (addr + i) [pipe_top (get_pipe k pi)] 1) \/
    (piperead_body p pi addr n i k = Ok (inr i) (set_mem m' (upd_pipe pi pipe_pop k)) /\
     delivered (k_mem k) m' T (addr + i) [pipe_top (get_pipe k pi)] 0 /\ uread (k_mem k) T (addr + i) = None).
Proof.
  intros Ha Han Hi Hwf Hu Hroot Hw Hl. unfold piperead_body. destruct (i <? n) eqn:E; bprop; [|lia].
  mrun. cbn [id]. rewrite empty_test by done. destruct (_ =? 0) eqn:E0; bprop; [lia|]. mrun. rewrite u64_id by lia.
  destruct (copyout_run (upd_pipe pi pipe_pop k) T (p_pagetable (get_proc k p)) (addr + i)
    (fun _ => pipe_top (get_pipe k pi)) 1 Hwf Hroot Hu) as (r & m' & d & Hrun & Hr & Hst & Hwf' & Hu' & _ & _); [lia..|].
  exists m'. change (p_pagetable (get_proc (upd_pipe pi pipe_pop k) p)) with (p_pagetable (get_proc k p)).
  assert (HD : delivered (k_mem k) m' T (addr + i) [pipe_top (get_pipe k pi)] d).
  { split; [|done]. intros x. rewrite Hst. unfold ustored. destruct (_ && _) eqn:Ex; [|done]. bprop.
    do 2 f_equal. assert (x = addr + i) as -> by lia. by replace (addr + i - (addr + i)) with 0 by lia. }
  rewrite (run_bind _ _ _ _ _ Hrun). destruct Hr as [[-> ->]|(-> & Hd & Hn)]; [left|right].
  - split; [by mrun|done].
  - assert (d = 0) as -> by lia. rewrite Z.add_0_r in Hn. split; [by mrun|done].
Qed.

Lemma piperead_loop p T pi addr n fuel :
  0 <= addr -> addr + n <= 18446744073709551616 ->
  forall i k, 0 <= i <= n -> n - i < Z.of_nat fuel ->
  pt_wf (k_mem k) T -> user_ok (k_mem k) T -> T !! [] = Some (p_pagetable (get_proc k p)) ->
  pipe_wf (get_pipe k pi) ->
  exists d c m' P, loop_with fuel i (piperead_body p pi addr n) k = Ok (i + Z.of_nat d) (set_mem m' (set_pipe P k)) /\
    pipe_changed k pi (pops c) P /\ Z.of_nat c <= pipe_len (get_pipe k pi) /\
    delivered (k_mem k) m' T (addr + i) (pipe_queue (get_pipe k pi)) (Z.of_nat d) /\
    (c = d /\ Z.of_nat d = Z.min (n - i) (pipe_len (get_pipe k pi)) \/
     c = S d /\ Z.of_nat d < n - i /\ uread (k_mem k) T (addr + i + Z.of_nat d) = None).
Proof.
  intros Ha Han. induction fuel as [|fuel IH]; intros i k Hi Hf Hwf Hu Hroot Hw; [lia|]. cbn [loop_with].
  pose proof (pipe_len_range (get_pipe k pi)) as Hl0.
  assert (Hstop : i = n \/ pipe_len (get_pipe k pi) = 0 -> piperead_body p pi addr n i k = Ok (inr i) k).
  { intros Hs. unfold piperead_body. destruct (i <? n) eqn:E; bprop; [|by mrun]. mrun. cbn [id].
    rewrite empty_test by done. destruct (_ =? 0) eqn:E0; bprop; [by mrun|lia]. }
  destruct (decide (i = n \/ pipe_len (get_pipe k pi) = 0)) as [Hs|Hs].
  { rewrite (run_bind _ _ _ _ _ (Hstop Hs)). exists O, O, (k_mem k), (k_pipe k).
    rewrite set_pipe_self, Z.add_0_r. split_and!; [by destruct k|done|lia|by apply delivered_none|left; split; [done|lia]]. }
  destruct (piperead_round p T pi addr n i k Ha Han ltac:(lia) Hwf Hu Hroot Hw ltac:(lia)) as (m1 & [[Hr HD]|(Hr & HD & Hn)]);
    rewrite (run_bind _ _ _ _ _ Hr); rewrite (pop_queue (get_pipe k pi)) by (done || lia).
  - pose proof HD as (HD1 & Hwf1 & Hu1).
    destruct (IH (i + 1) (set_mem m1 (upd_pipe pi pipe_pop k))) as (d & c & m' & P & Hrun & Hc & Hcl & Hdel & He); try done; [lia|lia|..].
    { change (get_pipe (set_mem m1 (upd_pipe pi pipe_pop k)) pi) with (get_pipe (upd_pipe pi pipe_pop k) pi).
      rewrite get_pipe_upd. apply pop_wf; [done|lia]. }
    change (get_pipe (set_mem m1 (upd_pipe pi pipe_pop k)) pi) with (get_pipe (upd_pipe pi pipe_pop k) pi) in *.
    rewrite get_pipe_upd in *. rewrite pop_len in * by (done || lia). cbn [k_mem set_mem] in *.
    exists (S d), (S c), m', P. split_and!.
    + rewrite Hrun. replace (i + Z.of_nat (S d)) with (i + 1 + Z.of_nat d) by lia. done.
    + assert (Hc' : pipe_changed (upd_pipe pi pipe_pop k) pi (pops c) P) by exact Hc.
      apply pipe_changed_upd in Hc' as [H1 H2]. split; [|done]. rewrite H1. unfold pops. by rewrite Nat.iter_succ_r.
    + lia.
    + replace (Z.of_nat (S d)) with (Z.of_nat d + 1) by lia. eapply delivered_cons; [lia|exact HD|].
      by replace (addr + i + 1) with (addr + (i + 1)) by lia.
    + destruct He as [[-> He]|(-> & He & Hn)]; [left; split; [done|lia]|right]. split_and!; [done|lia|].
      rewrite HD1 in Hn. unfold ustored in Hn. destruct (_ && _) eqn:E; [done|].
      by replace (addr + i + Z.of_nat (S d)) with (addr + (i + 1) + Z.of_nat d) by lia.
  - exists O, 1%nat, m1, (k_pipe (upd_pipe pi pipe_pop k)). split_and!.
    + rewrite Z.add_0_r. done.
    + split; [exact (get_pipe_upd pi pipe_pop k)|]. intros pi' Hne. cbn. by apply lookup_insert_ne.
    + lia.
    + split; [|apply HD]. intros x. destruct HD as [HD _]. rewrite HD. unfold ustored.
      by destruct (_ && _) eqn:E; [bprop; lia|].
    + right. rewrite Z.add_0_r. split_and!; [done|lia|done].
Qed.

Lemma piperead_wait_run p pi k :
  pipe_wf (get_pipe k pi) -> 0 < pipe_len (get_pipe k pi) \/ pi_writeopen (get_pipe k pi) = 0 ->
  piperead_wait p pi k = Ok true k.
Proof.
  intros Hw Hl. unfold piperead_wait. cbn [loop]. mrun. cbn [id]. rewrite empty_test by done.
  destruct (_ =? 0) eqn:E; bprop; [|by mrun]. destruct Hl as [Hl|Hl]; [lia|]. rewrite Hl. by mrun.
Qed.

(** [piperead] on a pipe that is not empty or has no writer. *)
Lemma piperead_run k p T pi addr n :
  pipe_ctx k p T pi -> 0 <= addr -> 0 <= n -> addr + n <= 18446744073709551616 ->
  0 < pipe_len (get_pipe k pi) \/ pi_writeopen (get_pipe k pi) = 0 ->
  exists d c m' P, piperead pi addr n k
      = Ok (Z.of_nat d) (woken (ChPipeWrite pi) (set_mem m' (set_pipe P k))) /\
    pipe_changed k pi (pops c) P /\ Z.of_nat c <= pipe_len (get_pipe k pi) /\
    delivered (k_mem k) m' T addr (pipe_queue (get_pipe k pi)) (Z.of_nat d) /\
    (c = d /\ Z.of_nat d = Z.min n (pipe_len (get_pipe k pi)) \/
     c = S d /\ Z.of_nat d < n /\ uread (k_mem k) T (addr + Z.of_nat d) = None).
Proof.
  intros [HP Hlk Hwf Hroot Hu Hw] Ha Hn Han Hl. pose proof HP as [Hi Hp Hpl Hlen]. unfold piperead.
  erewrite run_bind by (by apply this_proc_run). acquire_step.
  erewrite run_bind by (apply piperead_wait_run; autorewrite with klocks; done). cbn [negb].
  destruct (piperead_loop p T pi addr n (S (Z.to_nat n)) Ha Han 0 (acquired (Lpipe pi) k))
    as (d & c & m' & P & Hrun & Hc & Hcl & Hdel & He); autorewrite with klocks; try done; [lia..|].
  rewrite (run_bind _ _ _ _ _ Hrun). exists d, c, m', P. autorewrite with klocks in *. rewrite ?Z.add_0_l, ?Z.add_0_r, ?Z.sub_0_r in *.
  rewrite <- bind_assoc. rewrite (run_bind _ _ _ _ _
    (wakeup_release_run (Lpipe pi) (ChPipeWrite pi) k (set_mem m' (set_pipe P (acquired (Lpipe pi) k))) p HP Hlk ltac:(done) ltac:(done) Hlen)).
  autorewrite with klocks. done.
Qed.

Lemma woken_pagetable chan k p : p_pagetable (get_proc (woken chan k) p) = p_pagetable (get_proc k p).
Proof.
  unfold get_proc, woken; cbn. rewrite !list_lookup_total_alt, list_lookup_fmap.
  destruct (k_proc k !! p) as [x|]; [cbn|done]. unfold wake. by destruct (_ && _).
Qed.

Lemma pipe_ctx_woken k p T pi chan P :
  pipe_ctx k p T pi -> pipe_wf (default pipe0 (P !! pi)) -> pipe_ctx (woken chan (set_pipe P k)) p T pi.
Proof.
  intros [HP Hlk Hwf Hroot Hu Hw] Hw'.
  assert (HC : same_ctx k (woken chan (set_pipe P k))) by (apply (same_ctx_trans _ (set_pipe P k)); [done|apply same_ctx_woken]).
  split; try done; [by eapply same_ctx_proc|by rewrite woken_pagetable].
Qed.

(** C28. A pipe is a first-in first-out queue of bytes, counters wrapping
    around included: when there is room for [n] bytes, a write of [n] bytes
    followed by a read of [n'] bytes returns [n'], or as many as there are,
    puts the oldest bytes of the pipe at the reader's address and leaves the
    rest of the old contents and the bytes written in the pipe. *)
Theorem pipe_fifo k p T pi a n b n' :
  pipe_ctx k p T pi ->
  0 <= a -> 0 <= n -> a + n <= 18446744073709551616 ->
  0 <= b -> 0 <= n' -> b + n' <= 18446744073709551616 ->
  0 < pipe_len (get_pipe k pi) + n <= PIPESIZE ->
  (forall j, 0 <= j < n -> uread (k_mem k) T (a + j) <> None) ->
  (forall j, 0 <= j < n' -> uread (k_mem k) T (b + j) <> None) ->
  exists bs k1 k2 r, let q := pipe_queue (get_pipe k pi) ++ bs in
    pipewrite pi a n k = Ok n k1 /\ piperead pi b n' k1 = Ok r k2 /\
    (forall j, 0 <= j < n -> uread (k_mem k) T (a + j) = bs !! Z.to_nat j) /\ Z.of_nat (length bs) = n /\
    r = Z.min n' (Z.of_nat (length q)) /\
    (forall x, uread (k_mem k2) T x = ustored (k_mem k) T b (fun j => q !!! Z.to_nat j) r x) /\
    pipe_wf (get_pipe k2 pi) /\ pipe_queue (get_pipe k2 pi) = drop (Z.to_nat r) q.
Proof.
  intros Hx Ha Hn Han Hb Hn' Hbn Hl Hra Hrb.
  destruct (pipewrite_run k p T pi a n Hx Ha Hn Han) as (bs & P & W & [Hc _] & Hbs & He); [lia|].
  destruct He as [He|[He1 He2]]; [|by destruct (Hra (Z.of_nat (length bs)) ltac:(lia))].
  destruct (pushes_spec bs (get_pipe k pi) (px_wf _ _ _ _ Hx)) as [Hw1 Hq1]; [lia|].
  set (k1 := woken (ChPipeRead pi) (set_pipe P k)) in *.
  assert (Hg : get_pipe k1 pi = pushes bs (get_pipe k pi)) by exact Hc.
  assert (Hx1 : pipe_ctx k1 p T pi) by (apply pipe_ctx_woken; [done|by rewrite Hc]).
  assert (Hq : pipe_queue (get_pipe k1 pi) = pipe_queue (get_pipe k pi) ++ bs) by (by rewrite Hg).
  pose proof (queue_length (get_pipe k1 pi)) as Hlq. pose proof (pipe_len_range (get_pipe k1 pi)).
  assert (Hl1 : pipe_len (get_pipe k1 pi) = pipe_len (get_pipe k pi) + n).
  { pose proof (pipe_len_range (get_pipe k pi)). rewrite Hq, length_app, queue_length in Hlq. lia. }
  destruct (piperead_run k1 p T pi b n' Hx1 Hb Hn' Hbn) as (d & c & m' & P2 & R & [Hc2 _] & Hcl & [Hdel _] & He2); [lia|].
  destruct He2 as [[-> Hd]|(_ & Hd & Hn2)]; [|by destruct (Hrb (Z.of_nat d) ltac:(lia))].
  destruct (pops_spec d (get_pipe k1 pi) (px_wf _ _ _ _ Hx1) Hcl) as [Hw2 Hq2].
  exists bs, k1, (woken (ChPipeWrite pi) (set_mem m' (set_pipe P2 k1))), (Z.of_nat d).
  rewrite He in W. split_and!; [done|exact R| |done| | |..].
  - intros j Hj. destruct (lookup_lt_is_Some_2 bs (Z.to_nat j)) as [x Hxj]; [lia|].
    rewrite Hxj. rewrite <- (Hbs _ _ Hxj). f_equal. lia.
  - rewrite Hd, <- Hq, Hlq, Z2Nat.id by done. done.
  - intros x. rewrite <- Hq. exact (Hdel x).
  - assert (E2 : get_pipe (woken (ChPipeWrite pi) (set_mem m' (set_pipe P2 k1))) pi = pops d (get_pipe k1 pi)) by exact Hc2.
    by rewrite E2.
  - assert (E2 : get_pipe (woken (ChPipeWrite pi) (set_mem m' (set_pipe P2 k1))) pi = pops d (get_pipe k1 pi)) by exact Hc2.
    rewrite E2, <- Hq, Nat2Z.id. rewrite Hq2. rewrite drop_app_length'; [done|].
    rewrite length_take. lia.
Qed.
End spec.

(** ** A pipe whose counters are about to wrap *)

#[local] Existing Instance kernel_sym.
#[local] Existing Instance resume_at_once.

Definition demo_pipe : kernel :=
  set_pipe {[ 4096 := mkPipe (replicate 512 0) 4294967292 4294967292 1 1 ]}
    (set_mem user_mem
      (set_locks (<[Lpipe 4096 := mkSpinlock 0 "pipe" None]> (k_locks one_proc))
        (upd_proc 3 (set_p_pagetable (pg 0)) one_proc))).

Lemma demo_pipe_ctx : pipe_ctx demo_pipe 3 user_tree 4096.
Proof.
  split.
  - split; [exact one_proc_irq|done| |by vm_compute]. intros i Hi. destruct (one_proc_locks i Hi) as [name Hn].
    exists name. cbn [k_locks demo_pipe set_pipe set_mem set_locks]. by rewrite lookup_insert_ne.
  - exists "pipe". by vm_compute.
  - exact user_wf.
  - by vm_compute.
  - exact user_mem_ok.
  - split; vm_compute; try done; intuition congruence.
Qed.

Lemma demo_readable x : 0 <= x < 4096 -> uread (k_mem demo_pipe) user_tree x <> None.
Proof.
  intros Hx. change (k_mem demo_pipe) with user_mem. unfold uread. rewrite user_upage, decide_True by done. done.
Qed.

Lemma pipe_fifo_witness :
  exists k1 k2, pipewrite 4096 100 8 demo_pipe = Ok 8 k1 /\ piperead 4096 200 6 k1 = Ok 6 k2 /\
    length (pipe_queue (get_pipe k2 4096)) = 2%nat.
Proof.
  destruct (pipe_fifo demo_pipe 3 user_tree 4096 100 8 200 6 demo_pipe_ctx) as (bs & k1 & k2 & r & H);
    [lia..|by vm_compute|intros j Hj; apply demo_readable; lia|intros j Hj; apply demo_readable; lia|].
  cbv zeta in H. change (pipe_queue (get_pipe demo_pipe 4096)) with (@nil Z) in H. cbn [app] in H.
  destruct H as (W & R & _ & L & E & _ & _ & Q). assert (r = 6) as -> by lia.
  exists k1, k2. split; [exact W|]. split; [exact R|]. rewrite Q, length_drop. lia.
Defined.
