(* ===== verification/File.v ===== *)
(** * kernel/file.c: reading and writing through file structures

    The device switch has one entry, the console, which [consoleinit] installs
    at [devsw[CONSOLE]] during boot. *)

From S2P Require Export Pipe Console.

Definition CONSOLE : Z := 1.

Section file.
Context {LY : Layout} {TH : Threads} {BD : BlockDev}.

(** [devsw[major]]: whether it has the operations. *)
Definition devsw_set (major : Z) : bool := major =? CONSOLE.

(** [struct stat] as it lies in memory; the four bytes between [nlink] and
    [size] are padding. *)
Definition stat_bytes (st : stat) : list Z :=
  le_encode 4 (st_dev st) ++ le_encode 4 (st_ino st) ++ le_encode 2 (st_type st) ++
  le_encode 2 (st_nlink st) ++ replicate 4 0 ++ le_encode 8 (st_size st).

Definition file_ip (f : nat) : K nat :=
  ip ← f_get f f_ip;
  match ip with Some ip => mret ip | None => panic "kerneltrap" end.

Definition filestat (f : nat) (addr : Z) : K Z :=
  p ← this_proc;
  type ← f_get f f_type;
  match type with
  | FD_INODE | FD_DEVICE =>
      ip ← file_ip f;
      ilock ip;;
      st ← stati ip;
      iunlock ip;;
      pagetable ← p_get p p_pagetable;
      r ← copyout pagetable addr (arr (stat_bytes st)) 24;
      mret (if r <? 0 then -1 else 0)
  | _ => mret (-1)
  end.

Definition fileread (f : nat) (addr n : Z) : K Z :=
  readable ← f_get f f_readable;
  if readable =? 0 then mret (-1) else
  type ← f_get f f_type;
  match type with
  | FD_PIPE => pi ← f_get f f_pipe; piperead pi addr n
  | FD_DEVICE =>
      major ← f_get f f_major;
      if (major <? 0) || (Z.of_nat NDEV <=? major) || negb (devsw_set major) then mret (-1)
      else consoleread (UserDst addr) n
  | FD_INODE =>
      ip ← file_ip f;
      ilock ip;;
      off ← f_get f f_off;
      r ← readi ip (UserDst addr) off (u32 n);
      when (0 <? r.1) (f_set f (fun x => set_f_off (u32 (f_off x + r.1)) x));;
      iunlock ip;;
      mret r.1
  | FD_NONE => panic "fileread"
  end.

(** [int max = ((MAXOPBLOCKS-1-1-2) / 2) * BSIZE;] *)
Definition filewrite_max : Z := (MAXOPBLOCKS - 1 - 1 - 2) / 2 * BSIZE.

Definition filewrite_body (f ip : nat) (addr n : Z) : Z -> K (Z + Z) := fun i =>
  if i <? n then
    let n1 := n - i in
    let n1 := if filewrite_max <? n1 then filewrite_max else n1 in
    begin_op;;
    ilock ip;;
    off ← f_get f f_off;
    r ← writei ip (UserSrc (u64 (addr + i))) off (u32 n1);
    when (0 <? r) (f_set f (fun x => set_f_off (u32 (f_off x + r)) x));;
    iunlock ip;;
    end_op;;
    if r <? 0 then mret (inr i) else
    if negb (r =? n1) then panic "short filewrite" else
    mret (inl (i + r))
  else mret (inr i).

Definition filewrite (f : nat) (addr n : Z) : K Z :=
  writable ← f_get f f_writable;
  if writable =? 0 then mret (-1) else
  type ← f_get f f_type;
  match type with
  | FD_PIPE => pi ← f_get f f_pipe; pipewrite pi addr n
  | FD_DEVICE =>
      major ← f_get f f_major;
      if (major <? 0) || (Z.of_nat NDEV <=? major) || negb (devsw_set major) then mret (-1)
      else consolewrite (UserSrc addr) n
  | FD_INODE =>
      (* write a few blocks at a time to avoid exceeding the maximum log
         transaction size *)
      ip ← file_ip f;
      i ← loop_with (S (S (Z.to_nat (n / filewrite_max)))) 0 (filewrite_body f ip addr n);
      mret (if i =? n then n else -1)
  | FD_NONE => panic "filewrite"
  end.
End file.
