(* ===== verification/FsIO.v ===== *)
(** * Reading and writing files

    What is written is what is read back; a write [filewrite] makes fits the
    transaction that [begin_op] has reserved; a write beyond the end or the
    maximal size of a file fails and changes nothing. *)

From S2P Require Export FsWrite File.
From S2P Require Import FsDemo FsInode.

Section io.
Context {LY : Layout} {TH : Threads} {BD : BlockDev}.
Context (dev s sz : Z) (geo : geometry dev s sz) (sb : superblock).

Abbreviation wctx := (wctx dev s sz sb).

(** C10. [writei] from a kernel variable fails, and changes nothing, when the
    range starts behind the end of the file or ends behind the largest file;
    otherwise, with room in the log and free blocks, all [n] bytes are written
    at [off] of the file, every other byte stays, the inode's size and its entry
    on disk follow, all blocks of other files stay, and a file without holes
    still has none. *)
Theorem writei_spec k p bl V D H ip off n f :
  let i := get_inode k ip in let l := blocks_of off n in
  wctx k p bl V D H ip -> 0 <= i_inum i < sb_ninodes sb -> dinode_ok (inode_dinode i) ->
  0 <= off < 4294967296 -> 0 < n < 4294967296 -> enough sz sb k bl V ip l ->
  if (i_size i <? off) || (MAXFILE * BSIZE <? off + n) then writei ip (KernSrc f) off n k = Ok (-1) k else
  exists k' bl' V', writei ip (KernSrc f) off n k = Ok n k' /\ wctx k' p bl' V' D H ip /\ file_written s sz sb ip off n f k V k' V' /\
    (length bl' <= length bl + (1 + length l + news V (i_addrs i) l + slack (i_addrs i) bl))%nat.
Proof.
  intros i l HW Hin Hok Ho Hn Hen. destruct (_ || _) eqn:E.
  - change (MAXFILE * BSIZE) with 274432 in *. unfold writei. mrun. fold i. change (MAXFILE * BSIZE) with 274432. apply orb_true_iff in E as [E|E].
    + by rewrite E.
    + bprop. destruct (i_size i <? off) eqn:E1; [done|]. destruct (u32 (off + n) <? off) eqn:E2; [done|]. cbn [orb]. bprop.
      rewrite (proj2 (Z.ltb_lt _ _)); [done|]. unfold u32 in *. zlia.
  - apply orb_false_iff in E as [E1 E2]. bprop. apply (writei_run dev s sz geo); [done..|fold i; lia|lia|done|done].
Qed.

(** C9. After a write, a read of the file returns the bytes written, and the
    old ones outside of the range. *)
Theorem write_read k p bl V D H ip off n f off' n' :
  let i := get_inode k ip in
  wctx k p bl V D H ip -> 0 <= i_inum i < sb_ninodes sb -> dinode_ok (inode_dinode i) -> no_holes V i ->
  0 <= off <= i_size i -> 0 < n -> off + n <= MAXFILE * BSIZE -> enough sz sb k bl V ip (blocks_of off n) ->
  0 <= off' -> 0 <= n' -> off' + n' <= Z.max (i_size i) (off + n) ->
  exists k' k'', writei ip (KernSrc f) off n k = Ok n k' /\
    readi ip VarDst off' n' k' = Ok (n',
      (fun j => if decide (off <= off' + Z.of_nat j < off + n) then u8 (f (off' + Z.of_nat j - off))
                else fbyte V (i_addrs i) (off' + Z.of_nat j)) <$> seq 0 (Z.to_nat n')) k''.
Proof.
  intros i HW Hin Hok Hnh Ho Hn Hmax Hen Ho' Hn' Hr. change (MAXFILE * BSIZE) with 274432 in *.
  destruct (writei_run dev s sz geo sb k p bl V D H ip off n f HW Hin Hok Ho Hn Hmax Hen) as (k1 & bl1 & V1 & R1 & HW1 & [B1 I1 _ _ _ N1] & L1).
  fold i in N1, I1, L1, B1. specialize (N1 Hnh). destruct N1 as [S1 H1], Hnh as [S0 H0].
  assert (Es : i_size (get_inode k1 ip) = Z.max (i_size i) (off + n)) by (by rewrite I1).
  destruct (readi_run dev k1 p bl1 V1 D H ip off' n') as (k2 & _ & _ & R2); rewrite ?Es; change (MAXFILE * BSIZE) with 274432 in *; try lia.
  - apply HW1.
  - destruct Hen as [Hroom _]. fold i in Hroom. unfold roomy in Hroom. change LOGSIZE with 30 in *. change NBUF with 30%nat. lia.
  - exact (wc_dev _ _ _ _ _ _ _ _ _ _ _ HW1).
  - intros b Hb Hbs. apply H1; [done|]. by rewrite Es.
  - exists k1, k2. split; [done|]. rewrite Es in R2. cbv zeta in R2.
    rewrite (proj2 (Z.ltb_ge _ off')), (proj2 (Z.leb_gt 4294967296 _)), Z.min_l in R2 by lia. cbn [orb] in R2.
    rewrite R2. do 2 f_equal. unfold file_bytes. apply list_fmap_ext. intros j x Hx%lookup_seq. apply B1. lia.
Qed.

(** C11. A write of the size [filewrite] cuts its writes to, anywhere in a file
    without holes, needs at most [MAXOPBLOCKS] blocks of the log: data and free
    map blocks, the indirect block, the inode. *)
Theorem writei_fits k p bl V D H ip off n f :
  let i := get_inode k ip in
  wctx k p bl V D H ip -> 0 <= i_inum i < sb_ninodes sb -> dinode_ok (inode_dinode i) -> no_holes V i ->
  0 <= off <= i_size i -> 0 < n <= filewrite_max -> off + n <= MAXFILE * BSIZE ->
  roomy sz bl (Z.to_nat MAXOPBLOCKS) -> (4 <= nfree sb V)%nat ->
  exists k' bl' V', writei ip (KernSrc f) off n k = Ok n k' /\ wctx k' p bl' V' D H ip /\
    (length bl' <= length bl + Z.to_nat MAXOPBLOCKS)%nat.
Proof.
  intros i HW Hin Hok [Hs Hh] Ho Hn Hmax Hroom Hfree. set (l := blocks_of off n).
  assert (Hcost : (length l + news V (i_addrs i) l <= 7 /\ news V (i_addrs i) l <= 3)%nat).
  { assert (Hnb : forall b, (newb V (i_addrs i) b <= 1)%nat) by apply newb_bound.
    assert (Hle : forall l', (news V (i_addrs i) l' <= length l')%nat).
    { induction l' as [|b l' IH]; [done|]. unfold news in *. cbn. specialize (Hnb b). lia. }
    assert (Hlen : forall off' n', 0 <= off' -> 0 <= n' -> Z.of_nat (length (blocks_of off' n')) * BSIZE <= off' mod BSIZE + n' + BSIZE - 1).
    { intros off' n' Ho' Hn'. unfold blocks_of. rewrite length_seqZ. change BSIZE with 1024. destruct (n' <=? 0) eqn:E; bprop; zlia. }
    change filewrite_max with 3072 in Hn. change BSIZE with 1024 in *. destruct (decide (off mod 1024 = 0)) as [Ea|Ea].
    - specialize (Hle l). specialize (Hlen off n). fold l in Hlen. lia.
    - assert (Hnew : newb V (i_addrs i) (off / 1024) = 0%nat).
      { unfold newb. rewrite (proj2 (Z.eqb_neq _ _)); [done|]. apply Hh; change BSIZE with 1024; zlia. }
      unfold l. rewrite blocks_of_cons by lia. change BSIZE with 1024. set (m := Z.min n (1024 - off mod 1024)).
      assert (Hm : m = n \/ (off + m) mod 1024 = 0) by (subst m; zlia).
      assert (0 < m) by (subst m; zlia). specialize (Hle (blocks_of (off + m) (n - m))). specialize (Hlen (off + m) (n - m)).
      unfold news in *. cbn [length sum_list_with]. rewrite Hnew. destruct Hm as [Hm|Hm].
      + rewrite Hm, Z.sub_diag, blocks_of_nil. cbn. lia.
      + assert (m <= n) by (subst m; lia). rewrite Hm in Hlen. lia. }
  pose proof (slack_bound (i_addrs i) bl) as Hsl. change (Z.to_nat MAXOPBLOCKS) with 10%nat in *.
  assert (Hrl : (rootless (i_addrs i) <= 1)%nat) by (unfold rootless; destruct (_ =? 0); lia).
  destruct (writei_run dev s sz geo sb k p bl V D H ip off n f HW Hin Hok Ho ltac:(lia) Hmax) as (k1 & bl1 & V1 & R1 & HW1 & _ & L1).
  { split; [unfold roomy in *; fold i l; lia|right; fold i l; lia]. }
  exists k1, bl1, V1. split_and!; [done|done|]. fold i l in L1. lia.
Qed.
End io.

(** ** An empty file of the file system of mkfs *)

#[local] Existing Instance resume_at_once.

Definition empty_file : inode := mkInode 1 2 1 1 T_FILE 0 0 1 0 (replicate 13 0).

Lemma demo_free c : 0 <= c < sb_size demo_sb -> used demo_sb (disk_block demo_disk) c = false -> 46 <= c.
Proof. intros Hc Hu. destruct (decide (c < 46)); [|lia]. by rewrite demo_used_low in Hu by lia. Qed.

Lemma demo_iblock i : 0 <= i < 200 -> 32 <= IBLOCK i demo_sb < 45.
Proof. intros Hi. unfold IBLOCK. change IPB with 16. change (sb_inodestart demo_sb) with 32. rewrite u32_id; zlia. Qed.

Lemma demo_fs_ok : fs_ok 2 LOGSIZE demo_sb (disk_block demo_disk).
Proof.
  split; [by apply demo_fs_map|exact demo_inode_blocks|by apply demo_used_low| |].
  - intros b i Hb Hi. rewrite demo_bblock by done. pose proof (demo_iblock i Hi). lia.
  - intros c Hc Hu. pose proof (demo_free c Hc Hu). change (sb_size demo_sb) with 1000 in Hc. split_and!.
    + split; [lia|right; change LOGSIZE with 30; lia].
    + intros b Hb. rewrite demo_bblock by done. lia.
    + intros i Hi. pose proof (demo_iblock i Hi). lia.
Qed.

Lemma fblk_none V bn : fblk V (replicate 13 0) bn = 0.
Proof.
  unfold fblk. change (Z.to_nat NDIRECT) with 12%nat. destruct (bn <? NDIRECT) eqn:E; [|done]. bprop.
  apply lookup_total_replicate_2. change NDIRECT with 12 in *. lia.
Qed.

Lemma empty_file_ok V : file_ok 2 LOGSIZE demo_sb V (i_addrs empty_file).
Proof.
  change (i_addrs empty_file) with (replicate 13 0). split; [done| | | |].
  - intros bn _ H. by rewrite fblk_none in H.
  - intros bn bn' _ _ _ H. by rewrite fblk_none in H.
  - intros H. by destruct H.
  - intros bn _ H. by destruct H.
Qed.

Lemma file_started : exists k, wctx 1 2 LOGSIZE demo_sb k 3 [] (disk_block demo_disk) demo_disk [] 0 /\ get_inode k 0 = empty_file.
Proof.
  destruct (started demo_disk) as (k & Hi & Hsb & Hin & _).
  assert (Hip : (0 < length (k_inode k))%nat) by (rewrite Hin; by apply Nat.ltb_lt).
  assert (E : get_inode (upd_inode 0 (fun _ => empty_file) k) 0 = empty_file) by (by rewrite get_inode_upd).
  exists (upd_inode 0 (fun _ => empty_file) k). split; [|exact E]. split; rewrite ?E; try done.
  - by eapply intx_upd_inode.
  - exact demo_fs_ok.
  - apply empty_file_ok.
  - cbn. by rewrite length_alter.
Qed.

Lemma demo_nfree : nfree demo_sb (disk_block demo_disk) = 954%nat.
Proof. by vm_compute. Qed.

Lemma empty_dinode_ok : dinode_ok (inode_dinode empty_file).
Proof. split; [cbn; change T_FILE with 2; lia..| |done]. apply (bool_decide_unpack _). by vm_compute. Qed.

Lemma empty_no_holes V : no_holes V empty_file.
Proof. split; [by vm_compute|]. cbn. change BSIZE with 1024. lia. Qed.

Lemma demo_enough k : get_inode k 0 = empty_file -> enough LOGSIZE demo_sb k [] (disk_block demo_disk) 0 (blocks_of 0 5).
Proof. intros E. unfold enough. rewrite E. split; [by vm_compute|right]. rewrite demo_nfree. apply Nat.leb_le. by vm_compute. Qed.

(** The bytes "hello". *)
Definition hello (j : Z) : Z := [104; 101; 108; 108; 111] !!! Z.to_nat j.

Lemma writei_spec_witness : exists k k', writei 0 (KernSrc hello) 0 5 k = Ok 5 k' /\ i_size (get_inode k' 0) = 5.
Proof.
  destruct file_started as (k & HW & E).
  pose proof (writei_spec 1 2 LOGSIZE geometry_mkfs demo_sb k 3 [] (disk_block demo_disk) demo_disk [] 0 0 5 hello HW) as H.
  cbv zeta in H. rewrite E in H. destruct H as (k' & bl' & V' & R & _ & [_ I _ _ _ _] & _).
  - by vm_compute.
  - exact empty_dinode_ok.
  - by vm_compute.
  - by vm_compute.
  - by apply demo_enough.
  - exists k, k'. split; [exact R|]. by rewrite I, E.
Defined.

Lemma write_read_witness : exists k k' k'', writei 0 (KernSrc hello) 0 5 k = Ok 5 k' /\
  readi 0 VarDst 1 4 k' = Ok (4, [101; 108; 108; 111]) k''.
Proof.
  destruct file_started as (k & HW & E).
  pose proof (write_read 1 2 LOGSIZE geometry_mkfs demo_sb k 3 [] (disk_block demo_disk) demo_disk [] 0 0 5 hello 1 4 HW) as H.
  cbv zeta in H. rewrite E in H. destruct H as (k' & k'' & R & R').
  - by vm_compute.
  - exact empty_dinode_ok.
  - apply empty_no_holes.
  - by vm_compute.
  - done.
  - by vm_compute.
  - by apply demo_enough.
  - done.
  - done.
  - by vm_compute.
  - exists k, k', k''. split; [exact R|exact R'].
Defined.

Lemma writei_fits_witness : exists k k', writei 0 (KernSrc hello) 0 3072 k = Ok 3072 k'.
Proof.
  destruct file_started as (k & HW & E).
  pose proof (writei_fits 1 2 LOGSIZE geometry_mkfs demo_sb k 3 [] (disk_block demo_disk) demo_disk [] 0 0 3072 hello HW) as H.
  cbv zeta in H. rewrite E in H. destruct H as (k' & bl' & V' & R & _).
  - by vm_compute.
  - exact empty_dinode_ok.
  - apply empty_no_holes.
  - by vm_compute.
  - by vm_compute.
  - by vm_compute.
  - by vm_compute.
  - rewrite demo_nfree. apply Nat.leb_le. by vm_compute.
  - exists k, k'. exact R.
Defined.
