(* ===== verification/FsDir.v ===== *)
(** * The inode cache and directories

    [iget] keeps at most one entry of the inode cache for every inode on disk.
    A directory is the list of the 16-byte entries of its file: [dirlookup]
    finds the first entry in use that has the name. *)

From S2P Require Export FsIO FsDemo.

(** ** The inode cache *)

(** Entry [ip] is in use for inode [inum] of device [dev]. *)
Definition caches_inode (k : kernel) (dev inum : Z) (ip : nat) : Prop :=
  let i := get_inode k ip in 0 < i_ref i /\ i_dev i = dev /\ i_inum i = inum.

#[export] Instance caches_inode_dec k dev inum ip : Decision (caches_inode k dev inum ip).
Proof. unfold caches_inode. cbv zeta. apply _. Defined.

Record icache_ok (k : kernel) : Prop := {
  ic_len : length (k_inode k) = NINODE;
  ic_ref : forall ip, 0 <= i_ref (get_inode k ip);
  ic_once : forall dev inum ip jp, (ip < NINODE)%nat -> (jp < NINODE)%nat ->
    caches_inode k dev inum ip -> caches_inode k dev inum jp -> ip = jp
}.

(** The entry [iget] takes: the one in use for the inode, or the first empty one. *)
Definition iget_entry (k : kernel) (dev inum : Z) : option (nat * bool) :=
  match list_find (caches_inode k dev inum) (seq 0 NINODE) with
  | Some (_, ip) => Some (ip, true)
  | None =>
      match list_find (fun ip => i_ref (get_inode k ip) = 0) (seq 0 NINODE) with
      | Some (_, ip) => Some (ip, false)
      | None => None
      end
  end.

(** What [iget] makes of that entry. *)
Definition iget_node (dev inum : Z) (old : bool) (i : inode) : inode :=
  if old then set_i_ref (i_ref i + 1) i else set_i_valid 0 (set_i_ref 1 (set_i_inum inum (set_i_dev dev i))).

Lemma iget_scan_run k dev inum (ips : list nat) e :
  iget_scan ips dev inum e k = Ok
    match list_find (caches_inode k dev inum) ips with
    | Some (j, ip) => inl ip
    | None => inr (match e with
                   | Some _ => e
                   | None => snd <$> list_find (fun ip => i_ref (get_inode k ip) = 0) ips
                   end)
    end k.
Proof.
  revert e. induction ips as [|ip ips IH]; intros e; cbn [iget_scan list_find]; [by destruct e|].
  mrun. cbn [id]. set (i := get_inode k ip).
  assert (Hb : (0 <? i_ref i) && (i_dev i =? dev) && (i_inum i =? inum) = bool_decide (caches_inode k dev inum ip)).
  { unfold caches_inode. fold i. cbv zeta. destruct (0 <? i_ref i) eqn:E1, (i_dev i =? dev) eqn:E2, (i_inum i =? inum) eqn:E3; bprop;
      symmetry; cbn [andb]; (apply bool_decide_eq_true || apply bool_decide_eq_false); tauto || lia. }
  rewrite Hb. destruct (decide (caches_inode k dev inum ip)) as [Hc|Hc].
  - by rewrite bool_decide_eq_true_2.
  - rewrite bool_decide_eq_false_2 by done. rewrite IH.
    destruct (list_find (caches_inode k dev inum) ips) as [[j jp]|]; [done|]. cbn [fmap option_fmap option_map prod_map].
    f_equal. f_equal. destruct e as [e|]; [done|]. destruct (i_ref i =? 0) eqn:E0; bprop.
    + by rewrite decide_True.
    + rewrite decide_False by done. by destruct (list_find _ ips) as [[j jp]|].
Qed.

Lemma upd_inode_compose ip f g k : upd_inode ip f (upd_inode ip g k) = upd_inode ip (fun i => f (g i)) k.
Proof. unfold upd_inode. cbn [k_inode set_inode]. by rewrite list_alter_alter_eq. Qed.

Lemma iget_run dev inum k :
  irq_ok k -> lock_free Licache k ->
  iget dev inum k = match iget_entry k dev inum with
                    | Some (ip, old) => Ok ip (upd_inode ip (iget_node dev inum old) k)
                    | None => Panic "iget: no inodes"
                    end.
Proof.
  intros Hi Hl. unfold iget, iget_entry. acquire_step. rewrite (run_bind _ _ _ _ _ (iget_scan_run _ _ _ _ None)).
  change (caches_inode (acquired Licache k) dev inum) with (caches_inode k dev inum).
  destruct (list_find (caches_inode k dev inum) (seq 0 NINODE)) as [[j ip]|].
  - mrun. release_step k. done.
  - change (list_find (fun ip => i_ref (get_inode (acquired Licache k) ip) = 0)) with (list_find (fun ip => i_ref (get_inode k ip) = 0)).
    destruct (list_find (fun ip => i_ref (get_inode k ip) = 0) (seq 0 NINODE)) as [[j ip]|]; cbn [fmap option_fmap option_map snd]; [|done].
    mrun. rewrite !upd_inode_compose. release_step k. done.
Qed.

Lemma seq_find (P : nat -> Prop) `{forall x, Decision (P x)} n j x :
  list_find P (seq 0 n) = Some (j, x) -> (x < n)%nat /\ P x.
Proof. intros (Hj & HP & _)%list_find_Some. apply lookup_seq in Hj as [-> Hj]. split; [lia|done]. Qed.

Lemma seq_find_none (P : nat -> Prop) `{forall x, Decision (P x)} n x :
  list_find P (seq 0 n) = None -> (x < n)%nat -> ~ P x.
Proof. intros Hn%list_find_None Hx. rewrite Forall_forall in Hn. apply Hn, elem_of_seq. lia. Qed.

(** How often the inode is referenced. *)
Definition references (k : kernel) (dev inum : Z) : Z :=
  match list_find (caches_inode k dev inum) (seq 0 NINODE) with Some (_, ip) => i_ref (get_inode k ip) | None => 0 end.

Lemma references_of k dev inum ip :
  icache_ok k -> (ip < NINODE)%nat -> caches_inode k dev inum ip -> references k dev inum = i_ref (get_inode k ip).
Proof.
  intros Hok Hip Hc. unfold references. destruct (list_find _ _) as [[j jp]|] eqn:E.
  - apply seq_find in E as [Hj Hc']. by rewrite (ic_once _ Hok dev inum jp ip).
  - by apply (seq_find_none _ _ ip) in E.
Qed.

Lemma references_none k dev inum :
  (forall ip, (ip < NINODE)%nat -> ~ caches_inode k dev inum ip) -> references k dev inum = 0.
Proof.
  intros Hn. unfold references. destruct (list_find _ _) as [[j jp]|] eqn:E; [|done].
  apply seq_find in E as [Hj Hc]. by destruct (Hn jp).
Qed.

Lemma references_pos k dev inum :
  (0 < references k dev inum <-> exists ip, (ip < NINODE)%nat /\ caches_inode k dev inum ip) /\ 0 <= references k dev inum.
Proof.
  unfold references. destruct (list_find _ _) as [[j jp]|] eqn:E.
  - apply seq_find in E as [Hj Hc]. destruct Hc as [Hr ?] eqn:Ec. split; [|lia]. split; [intros _; by exists jp|done].
  - split; [|done]. split; [lia|]. intros (ip & Hip & Hc). by apply (seq_find_none _ _ ip) in E.
Qed.

(** The entry [ip] comes to be in use for the inode, with [r] references; nothing else changes. *)
Lemma icache_step k ip dev inum f :
  icache_ok k -> (ip < NINODE)%nat ->
  i_dev (f (get_inode k ip)) = dev -> i_inum (f (get_inode k ip)) = inum ->
  i_ref (f (get_inode k ip)) = references k dev inum + 1 ->
  caches_inode k dev inum ip \/ (i_ref (get_inode k ip) = 0 /\ references k dev inum = 0) ->
  let k' := upd_inode ip f k in
  icache_ok k' /\ caches_inode k' dev inum ip /\
  forall dev' inum', references k' dev' inum' = references k dev' inum' + (if decide (dev' = dev /\ inum' = inum) then 1 else 0).
Proof.
  intros Hok Hip Hd Hn Hr Hold k'. destruct (references_pos k dev inum) as [Hpos Hnn].
  assert (Hl : (ip < length (k_inode k))%nat) by (by rewrite (ic_len _ Hok)).
  assert (Ei : get_inode k' ip = f (get_inode k ip)) by (by apply get_inode_upd).
  assert (Ej : forall jp, jp <> ip -> get_inode k' jp = get_inode k jp) by (intros; by apply get_inode_upd_ne).
  assert (HC : forall d n jp, (jp < NINODE)%nat -> caches_inode k' d n jp <-> if decide (jp = ip) then d = dev /\ n = inum else caches_inode k d n jp).
  { intros d n jp Hj. unfold caches_inode. case_decide as E; [subst jp; rewrite Ei|by rewrite Ej]. cbv zeta. split; [intros (_ & ? & ?); split; congruence|].
    intros [-> ->]. split; [lia|done]. }
  assert (Honly : forall d n jp, (jp < NINODE)%nat -> caches_inode k d n jp -> (jp = ip <-> d = dev /\ n = inum)).
  { intros d n jp Hj Hc. split.
    - intros ->. destruct Hold as [Ho|[H0 _]]; [|destruct Hc; lia]. destruct Ho as (_ & <- & <-), Hc as (_ & <- & <-). done.
    - intros [-> ->]. destruct Hold as [Ho|[_ H0]]; [by apply (ic_once _ Hok dev inum)|].
      assert (0 < references k dev inum) by (apply Hpos; by exists jp). lia. }
  assert (Hok' : icache_ok k').
  { split.
    - cbn. rewrite length_alter. apply Hok.
    - intros jp. destruct (decide (jp = ip)) as [->|]; [rewrite Ei; lia|rewrite Ej by done; apply Hok].
    - intros d n jp jq Hjp Hjq. rewrite !HC by done. case_decide as E1; case_decide as E2.
      + intros _ _. by rewrite E1, E2.
      + intros [-> ->] Hc. destruct (Honly dev inum jq Hjq Hc) as [_ E]. by rewrite E1, E.
      + intros Hc [-> ->]. destruct (Honly dev inum jp Hjp Hc) as [_ E]. by rewrite E2, E.
      + intros Hc Hc'. by apply (ic_once _ Hok d n). }
  split; [done|]. split; [apply HC; [done|by rewrite decide_True]|].
  intros d n. case_decide as E.
  - destruct E as [-> ->]. rewrite (references_of k' dev inum ip), Ei, Hr by (done || (apply HC; [done|by rewrite decide_True])). done.
  - rewrite Z.add_0_r. destruct (decide (0 < references k d n)) as [Hp|Hnp].
    + destruct (proj1 (proj1 (references_pos k d n)) Hp) as (jp & Hj & Hc).
      assert (jp <> ip) by (intros Eq; by apply E, (Honly d n jp Hj Hc)).
      rewrite (references_of k d n jp), (references_of k' d n jp), Ej by (done || (apply HC; [done|by rewrite decide_False])). done.
    + pose proof (references_pos k d n) as [Hp0 Hp1]. rewrite (references_none k' d n); [lia|]. intros jp Hj Hc. apply HC in Hc; [|done].
      case_decide; [by apply E|]. apply Hnp, Hp0. by exists jp.
Qed.

(** No entry is left for the inode. *)
Definition icache_full (k : kernel) (dev inum : Z) : Prop :=
  Forall (fun i => 0 < i_ref i) (k_inode k) /\ references k dev inum = 0.

#[export] Instance icache_full_dec k dev inum : Decision (icache_full k dev inum).
Proof. unfold icache_full. apply _. Defined.

(** Entry [ip] has one more reference of the inode: it is the entry the inode
    had, which keeps what it knows, or an unused one, whose contents are not
    read yet.  No inode gets a second entry. *)
Record taken (k k' : kernel) (dev inum : Z) (ip : nat) : Prop := {
  tk_entry : (ip < NINODE)%nat;
  tk_ok : icache_ok k';
  tk_caches : caches_inode k' dev inum ip;
  tk_refs : forall dev' inum', references k' dev' inum' = references k dev' inum' + (if decide (dev' = dev /\ inum' = inum) then 1 else 0);
  tk_node : if decide (0 < references k dev inum) then get_inode k' ip = set_i_ref (i_ref (get_inode k ip) + 1) (get_inode k ip)
            else i_ref (get_inode k ip) = 0 /\ i_valid (get_inode k' ip) = 0;
  tk_others : forall jp, jp <> ip -> get_inode k' jp = get_inode k jp
}.

(** [iget] panics exactly when the inode has no entry and none is unused. *)
Lemma iget_effect dev inum k :
  icache_ok k -> irq_ok k -> lock_free Licache k ->
  if decide (icache_full k dev inum) then iget dev inum k = Panic "iget: no inodes"
  else exists ip f, iget dev inum k = Ok ip (upd_inode ip f k) /\ taken k (upd_inode ip f k) dev inum ip.
Proof.
  intros Hok Hi Hl. rewrite (iget_run dev inum k Hi Hl). unfold iget_entry.
  destruct (list_find (caches_inode k dev inum) (seq 0 NINODE)) as [[j ip]|] eqn:E.
  - apply seq_find in E as [Hip Hc]. pose proof (references_of k dev inum ip Hok Hip Hc) as Hr. destruct Hc as (H0 & Hd & Hn) eqn:Ec.
    rewrite decide_False by (intros [_ ?]; lia). exists ip, (iget_node dev inum true). split; [reflexivity|].
    destruct (icache_step k ip dev inum (iget_node dev inum true) Hok Hip) as (H1 & H2 & H3); try done; [cbn; lia|by left|].
    split; try done; [|intros jp Hj; by apply get_inode_upd_ne].
    rewrite decide_True by lia. rewrite get_inode_upd by (by rewrite (ic_len _ Hok)). done.
  - assert (Hr : references k dev inum = 0) by (apply references_none; intros ip Hip; by apply (seq_find_none _ _ _ E)).
    destruct (list_find (fun ip => i_ref (get_inode k ip) = 0) (seq 0 NINODE)) as [[j ip]|] eqn:E0.
    + apply seq_find in E0 as [Hip H0]. assert (Hlk : (ip < length (k_inode k))%nat) by (by rewrite (ic_len _ Hok)).
      rewrite decide_False.
      2:{ intros [HF _]. rewrite Forall_forall in HF. specialize (HF (get_inode k ip)). unfold get_inode in HF, H0.
          specialize (HF (list_elem_of_lookup_total_2 _ _ Hlk)). lia. }
      exists ip, (iget_node dev inum false). split; [reflexivity|].
      destruct (icache_step k ip dev inum (iget_node dev inum false) Hok Hip) as (H1 & H2 & H3); try done; [cbn; lia|by right|].
      split; try done; [|intros jp Hj; by apply get_inode_upd_ne].
      rewrite decide_False by lia. rewrite get_inode_upd by done. done.
    + rewrite decide_True; [done|]. split; [|done]. apply Forall_lookup. intros ip i Hip. pose proof (lookup_lt_Some _ _ _ Hip) as Hlt.
      rewrite (ic_len _ Hok) in Hlt. pose proof (seq_find_none _ _ _ E0 Hlt) as Hne. pose proof (ic_ref _ Hok ip) as Hnn.
      unfold get_inode in Hne, Hnn. rewrite (list_lookup_total_correct _ _ _ Hip) in Hne, Hnn. lia.
Qed.

(** ** Directories *)

(** The entries of a directory of [n] entries. *)
Definition dent (V : Z -> list Z) (addrs : list Z) (j : nat) : list Z := file_bytes V addrs (16 * Z.of_nat j) 16.
Definition dents (V : Z -> list Z) (addrs : list Z) (n : nat) : list (list Z) := dent V addrs <$> seq 0 n.

(** The entry is in use and has the name. *)
Definition has_name (name : Z -> Z) (de : list Z) : Prop :=
  de_inum de <> 0 /\ cstr (Z.to_nat DIRSIZ) name = cstr (Z.to_nat DIRSIZ) (de_name de).

#[export] Instance has_name_dec name de : Decision (has_name name de).
Proof. unfold has_name. apply _. Defined.

Lemma namecmp_zero s t : (namecmp s t =? 0) = bool_decide (cstr (Z.to_nat DIRSIZ) s = cstr (Z.to_nat DIRSIZ) t).
Proof.
  pose proof (strncmp_loop_zero (Z.to_nat DIRSIZ) s t) as Hz. unfold namecmp, strncmp. change (u32 DIRSIZ) with DIRSIZ.
  destruct (strncmp_loop _ s t =? 0) eqn:E; bprop; symmetry; [apply bool_decide_eq_true|apply bool_decide_eq_false]; tauto.
Qed.

(** ** The new entry *)

Definition new_dent (inum : Z) (name : Z -> Z) : list Z := le_encode 2 inum ++ strncpy_bytes (Z.to_nat DIRSIZ) name.

Lemma strncpy_bytes_eq m t : (forall i, 0 <= i -> 0 <= t i < 256) ->
  strncpy_bytes m t = cstr m t ++ replicate (m - length (cstr m t)) 0 /\ no_nul (cstr m t).
Proof.
  revert t. induction m as [|m IH]; intros t Ht; cbn [strncpy_bytes cstr]; [split; [done|constructor]|]. destruct (truth (t 0)) eqn:E.
  - destruct (IH (ptr_add t 1)) as [-> Hn]; [intros i Hi; apply Ht; lia|]. cbn [app length Nat.sub]. rewrite u8_id by (apply Ht; lia).
    split; [done|]. constructor; [|done]. unfold truth in E. by bprop.
  - split; [done|constructor].
Qed.

Lemma new_dent_length inum name : (forall i, 0 <= i -> 0 <= name i < 256) -> length (new_dent inum name) = 16%nat.
Proof.
  intros Hn. destruct (strncpy_bytes_eq (Z.to_nat DIRSIZ) name Hn) as [E _]. unfold new_dent.
  pose proof (cstr_length (Z.to_nat DIRSIZ) name) as Hl. rewrite length_app, le_encode_length, E, length_app, length_replicate.
  change (Z.to_nat DIRSIZ) with 14%nat in *. lia.
Qed.

Lemma new_dent_bytes inum name : (forall i, 0 <= i -> 0 <= name i < 256) -> bytes (new_dent inum name).
Proof.
  intros Hn. unfold new_dent. apply Forall_app. split.
  - apply le_encode_bytes.
  - assert (Hs : forall m t, (forall i, 0 <= i -> 0 <= t i < 256) -> bytes (strncpy_bytes m t)).
    { induction m as [|m IH]; intros t Ht; cbn [strncpy_bytes]; [constructor|]. destruct (truth (t 0)).
      - constructor; [apply u8_range|]. apply IH. intros i Hi. apply Ht. lia.
      - apply Forall_replicate. lia. }
    by apply Hs.
Qed.

(** The new entry has the name, and the inode number, cut to 16 bits. *)
Lemma new_dent_has inum name : (forall i, 0 <= i -> 0 <= name i < 256) -> 0 < inum < 65536 ->
  de_inum (new_dent inum name) = inum /\ has_name name (new_dent inum name).
Proof.
  intros Hn Hi. assert (E : de_inum (new_dent inum name) = inum).
  { unfold de_inum, blk_rd16, blk_rd, new_dent. rewrite drop_0, take_app_length' by (by rewrite le_encode_length).
    rewrite le_decode_encode. apply Z.mod_small. exact (conj (Z.lt_le_incl _ _ (proj1 Hi)) (proj2 Hi)). }
  split; [done|]. split; [lia|]. destruct (strncpy_bytes_eq (Z.to_nat DIRSIZ) name Hn) as [Es Hz]. symmetry.
  set (t := cstr (Z.to_nat DIRSIZ) name) in *. pose proof (cstr_length (Z.to_nat DIRSIZ) name) as Hl. fold t in Hl.
  assert (Hlk : forall i, (i < 14)%nat -> de_name (new_dent inum name) (Z.of_nat i) = u8 ((t ++ replicate (Z.to_nat DIRSIZ - length t) 0) !!! i)).
  { intros i Hlt. unfold de_name, ptr_add, arr, new_dent. f_equal. rewrite !list_lookup_total_alt. f_equal.
    rewrite lookup_app_r by (rewrite le_encode_length; lia). rewrite Es, le_encode_length. f_equal. lia. }
  change (Z.to_nat DIRSIZ) with 14%nat in *. apply cstr_prefix; [|intros Hlt|done|done].
  - intros i c Hc. pose proof (lookup_lt_Some _ _ _ Hc). rewrite Hlk by lia. rewrite (list_lookup_total_correct _ _ c) by (by rewrite lookup_app_l).
    apply u8_id. assert (Hb : bytes (new_dent inum name)) by (by apply new_dent_bytes).
    apply (Forall_lookup_1 _ _ (2 + i)%nat _ Hb). unfold new_dent. change (Z.to_nat DIRSIZ) with 14%nat. rewrite lookup_app_r by (rewrite le_encode_length; lia).
    rewrite le_encode_length, Es. replace (2 + i - 2)%nat with i by lia. by rewrite lookup_app_l.
  - rewrite Hlk by lia. rewrite list_lookup_total_alt, lookup_app_r, lookup_replicate_2 by lia. done.
Qed.

Lemma dents_lookup V a n m : dents V a n !! m = if decide (m < n)%nat then Some (dent V a m) else None.
Proof.
  unfold dents. rewrite list_lookup_fmap. case_decide; [by rewrite lookup_seq_lt|]. by rewrite lookup_seq_ge by lia.
Qed.

(** Entry [j] is written. *)
Lemma dents_written V a V' a' n j de :
  (j <= n)%nat -> length de = 16%nat -> bytes de -> 16 * (Z.of_nat n + 1) <= MAXFILE * BSIZE ->
  (forall x, 0 <= x < MAXFILE * BSIZE -> fbyte V' a' x =
    if decide (16 * Z.of_nat j <= x < 16 * Z.of_nat j + 16) then u8 (arr de (x - 16 * Z.of_nat j)) else fbyte V a x) ->
  dents V' a' (Nat.max n (S j)) = if decide (j < n)%nat then <[j := de]> (dents V a n) else dents V a n ++ [de].
Proof.
  intros Hj Hl Hb Hmax HB. change (MAXFILE * BSIZE) with 274432 in *.
  assert (Hd : forall m, (m < Nat.max n (S j))%nat -> dent V' a' m = if decide (m = j) then de else dent V a m).
  { intros m Hm. unfold dent, file_bytes. case_decide as E.
    - subst m. apply list_eq_bounded; [by rewrite length_fmap, length_seq|]. intros i Hi. rewrite length_fmap, length_seq in Hi.
      rewrite list_lookup_fmap, lookup_seq_lt by done. cbn [fmap option_fmap option_map Nat.add]. rewrite HB, decide_True by lia.
      destruct (lookup_lt_is_Some_2 de i) as [v Hv]; [lia|]. rewrite Hv. f_equal. unfold arr.
      replace (Z.to_nat (16 * Z.of_nat j + Z.of_nat i - 16 * Z.of_nat j)) with i by lia. rewrite (list_lookup_total_correct _ _ _ Hv), u8_idem.
      apply u8_id. exact (Forall_lookup_1 _ _ _ _ Hb Hv).
    - apply list_fmap_ext. intros i x [-> Hx]%lookup_seq. rewrite HB, decide_False by lia. done. }
  apply list_eq. intros m. rewrite dents_lookup. case_decide as Hm.
  - rewrite Hd by done. case_decide as E1; case_decide as E2; subst.
    + by rewrite list_lookup_insert_eq by (unfold dents; rewrite length_fmap, length_seq; lia).
    + rewrite lookup_app_r; unfold dents; rewrite length_fmap, length_seq; [|lia]. by replace (j - n)%nat with 0%nat by lia.
    + rewrite list_lookup_insert_ne by done. rewrite dents_lookup, decide_True by lia. done.
    + rewrite lookup_app_l by (unfold dents; rewrite length_fmap, length_seq; lia). rewrite dents_lookup, decide_True by lia. done.
  - case_decide; symmetry; apply lookup_ge_None; rewrite ?length_insert, ?length_app; unfold dents; rewrite length_fmap, length_seq; cbn; lia.
Qed.

Section dir.
Context {LY : Layout} {TH : Threads} {BD : BlockDev}.
Context (dev s sz : Z) (geo : geometry dev s sz) (sb : superblock).

(** The kernel at a directory of [n] entries without holes. *)
Record dir_at (k : kernel) (p : nat) (pins : list Z) (V : Z -> list Z) (D : gmap Z (list Z)) (H : list (gmap Z (list Z)))
    (dp : nat) (n : nat) : Prop := {
  da_bst : bst dev k p [] pins V D H;
  da_pins : (length pins < NBUF)%nat;
  da_dev : i_dev (get_inode k dp) = dev;
  da_size : i_size (get_inode k dp) = 16 * Z.of_nat n;
  da_holes : no_holes V (get_inode k dp)
}.

Lemma dir_at_frame k k' p pins V D H dp n :
  dir_at k p pins V D H dp n -> bst dev k' p [] pins V D H -> bio_frame k k' -> dir_at k' p pins V D H dp n.
Proof.
  intros [A1 A2 A3 A4 A5] Hs F. assert (E : get_inode k' dp = get_inode k dp) by (unfold get_inode; by rewrite (bio_frame_inode _ _ F)).
  split; rewrite ?E; done.
Qed.

Lemma read_dirent_run k p pins V D H dp n j msg :
  dir_at k p pins V D H dp n -> (j < n)%nat ->
  exists k', read_dirent dp (16 * Z.of_nat j) msg k = Ok (dent V (i_addrs (get_inode k dp)) j) k' /\
    bst dev k' p [] pins V D H /\ bio_frame k k'.
Proof.
  intros [A1 A2 A3 A4 [A5 A6]] Hj. change (MAXFILE * BSIZE) with 274432 in A5.
  destruct (readi_run dev k p pins V D H dp (16 * Z.of_nat j) sizeof_dirent) as (k' & Hs' & F' & R); try done; [lia|].
  exists k'. split; [|done]. cbv zeta in R. change sizeof_dirent with 16 in *. rewrite A4 in R.
  rewrite (proj2 (Z.ltb_ge _ _)), (proj2 (Z.leb_gt _ _)), Z.min_l in R by lia. cbn [orb] in R.
  unfold read_dirent. change sizeof_dirent with 16. rewrite (run_bind _ _ _ _ _ R). done.
Qed.

(** The scan from entry [j] on. *)
Lemma dirlookup_scan p pins V D H dp n name m : forall k j fuel,
  dir_at k p pins V D H dp n -> (j + m = n)%nat -> (m < fuel)%nat ->
  let a := i_addrs (get_inode k dp) in
  exists k', bst dev k' p [] pins V D H /\ bio_frame k k' /\
    loop_with fuel (16 * Z.of_nat j) (dirlookup_body dp name) k =
      match list_find (has_name name) (dent V a <$> seq j m) with
      | None => Ok None k'
      | Some (i, de) => (ip ← iget dev (de_inum de); mret (Some (ip, 16 * Z.of_nat (j + i)))) k'
      end.
Proof.
  induction m as [|m IH]; intros k j fuel HA Hjn Hf a; (destruct fuel as [|fuel]; [lia|]); cbn [loop_with].
  - exists k. split; [apply HA|]. split; [apply bio_frame_refl|]. cbn [seq fmap list_fmap list_find].
    unfold dirlookup_body at 2. mrun. rewrite (da_size _ _ _ _ _ _ _ _ HA), (proj2 (Z.ltb_ge _ _)) by lia. done.
  - destruct (read_dirent_run k p pins V D H dp n j "dirlookup read" HA) as (k1 & R1 & Hs1 & F1); [lia|].
    pose proof (dir_at_frame _ _ _ _ _ _ _ _ _ HA Hs1 F1) as HA1. pose proof (da_holes _ _ _ _ _ _ _ _ HA) as [Hsz _]. change (MAXFILE * BSIZE) with 274432 in Hsz.
    assert (E1 : get_inode k1 dp = get_inode k dp) by (unfold get_inode; by rewrite (bio_frame_inode _ _ F1)).
    pose proof (da_size _ _ _ _ _ _ _ _ HA) as Hsize.
    assert (Hu : u32 (16 * Z.of_nat j + sizeof_dirent) = 16 * Z.of_nat (S j)) by (change sizeof_dirent with 16; rewrite u32_id; lia).
    destruct (IH k1 (S j) fuel HA1 ltac:(lia) ltac:(lia)) as (k2 & Hs2 & F2 & R2). rewrite E1 in R2. fold a in R1, R2.
    cbn [seq fmap list_fmap list_find]. set (de := dent V a j) in *.
    unfold dirlookup_body at 2. mrun. rewrite Hsize, (proj2 (Z.ltb_lt _ _)) by lia. rewrite bind_assoc, (run_bind _ _ _ _ _ R1).
    unfold has_name at 1. destruct (de_inum de =? 0) eqn:E0; bprop.
    + rewrite bind_ret, Hu, R2. exists k2. split; [done|]. split; [by eapply bio_frame_trans|].
      rewrite decide_False by (by intros [? _]). fold a. destruct (list_find (has_name name) _) as [[i de']|]; cbn [fmap option_fmap option_map prod_map fst snd]; [|done].
      by replace (j + S i)%nat with (S j + i)%nat by lia.
    + rewrite namecmp_zero. case_bool_decide as Ec.
      * exists k1. split; [done|]. split; [done|]. rewrite decide_True by done. mrun. rewrite E1, (da_dev _ _ _ _ _ _ _ _ HA). rewrite Nat.add_0_r.
        destruct (iget dev (de_inum de) k1) eqn:Ei.
        -- rewrite !(run_bind _ _ _ _ _ Ei). done.
        -- rewrite !(run_bind_panic _ _ _ _ Ei). done.
        -- unfold mbind, M_bind. by rewrite Ei.
      * rewrite bind_ret, Hu, R2. exists k2. split; [done|]. split; [by eapply bio_frame_trans|].
        rewrite decide_False by (by intros [_ ?]). fold a. destruct (list_find (has_name name) _) as [[i de']|]; cbn [fmap option_fmap option_map prod_map fst snd]; [|done].
        by replace (j + S i)%nat with (S j + i)%nat by lia.
Qed.

Lemma icache_ok_same k k' : icache_ok k -> k_inode k' = k_inode k -> icache_ok k'.
Proof.
  intros [O1 O2 O3] E. split; [by rewrite E|intros ip; unfold get_inode; rewrite E; apply O2|].
  intros d i ip jp Hi Hj. unfold caches_inode, get_inode. rewrite E. by apply O3.
Qed.

Lemma references_same k k' d i : k_inode k' = k_inode k -> references k' d i = references k d i.
Proof.
  intros E. unfold references. assert (Eg : forall ip, get_inode k' ip = get_inode k ip) by (intros; unfold get_inode; by rewrite E).
  rewrite (list_find_ext (caches_inode k' d i) (caches_inode k d i)) by (intros ip; unfold caches_inode; by rewrite Eg).
  destruct (list_find _ _) as [[j ip]|]; [by rewrite Eg|done].
Qed.

Lemma taken_same k0 k k' d inum ip : k_inode k = k_inode k0 -> taken k k' d inum ip -> taken k0 k' d inum ip.
Proof.
  intros E. assert (Eg : forall jp, get_inode k jp = get_inode k0 jp) by (intros; unfold get_inode; by rewrite E).
  assert (Er : forall d' i', references k d' i' = references k0 d' i') by (intros; by apply references_same).
  intros [T1 T2 T3 T4 T5 T6]. split; try done.
  - intros d' i'. by rewrite T4, Er.
  - by rewrite Er, Eg in T5.
  - intros jp Hj. by rewrite T6, Eg.
Qed.

Lemma icache_full_same k0 k d inum : k_inode k = k_inode k0 -> icache_full k d inum <-> icache_full k0 d inum.
Proof. intros E. unfold icache_full. by rewrite E, (references_same k0 k). Qed.

(** [dirlookup] finds the first entry in use with the name, and takes a
    reference of the inode it names. *)
Lemma dirlookup_run k p pins V D H dp n name :
  let i := get_inode k dp in
  dir_at k p pins V D H dp n -> icache_ok k -> lock_free Licache k -> i_type i = T_DIR ->
  match list_find (has_name name) (dents V (i_addrs i) n) with
  | None => exists k', dirlookup dp name k = Ok None k' /\ bst dev k' p [] pins V D H /\ bio_frame k k'
  | Some (j, de) =>
      if decide (icache_full k dev (de_inum de)) then dirlookup dp name k = Panic "iget: no inodes" else
      exists ip k' f, dirlookup dp name k = Ok (Some (ip, 16 * Z.of_nat j)) (upd_inode ip f k') /\
        bst dev k' p [] pins V D H /\ bio_frame k k' /\ taken k (upd_inode ip f k') dev (de_inum de) ip
  end.
Proof.
  intros i HA Hic Hlk Ht. destruct (dirlookup_scan p pins V D H dp n name n k 0 (dir_fuel (i_size i)) HA) as (k1 & Hs1 & F1 & R1); [lia| |].
  { unfold dir_fuel, i. rewrite (da_size _ _ _ _ _ _ _ _ HA). change sizeof_dirent with 16. rewrite Z.mul_comm, Z.div_mul by done. lia. }
  fold i in R1. change (dent V (i_addrs i) <$> seq 0 n) with (dents V (i_addrs i) n) in R1. change (16 * Z.of_nat 0) with 0 in R1.
  assert (Hd : forall (o : outcome kernel (option (nat * Z))), loop_with (dir_fuel (i_size i)) 0 (dirlookup_body dp name) k = o -> dirlookup dp name k = o).
  { intros o Ho. unfold dirlookup. mrun. fold i. rewrite Ht. exact Ho. }
  destruct (list_find (has_name name) (dents V (i_addrs i) n)) as [[j de]|] eqn:E.
  2:{ exists k1. split; [by apply Hd|]. done. }
  pose proof (bc_ctx _ _ _ _ _ (bs_inv _ _ _ _ _ _ _ _ Hs1)) as Hctx. pose proof (bio_frame_inode _ _ F1) as Ei.
  assert (Hlk1 : lock_free Licache k1) by (eapply lock_free_same; [apply F1|done]).
  pose proof (iget_effect dev (de_inum de) k1 (icache_ok_same _ _ Hic Ei) (pc_irq _ _ Hctx) Hlk1) as Hg.
  pose proof (icache_full_same k k1 dev (de_inum de) Ei) as Hfull.
  destruct (decide (icache_full k1 dev (de_inum de))) as [Hf|Hf].
  - rewrite decide_True by tauto. apply Hd. by rewrite R1, (run_bind_panic _ _ _ _ Hg).
  - rewrite decide_False by tauto. destruct Hg as (ip & f & Rg & Tg). exists ip, k1, f. split; [|split; [done|split; [done|by eapply taken_same]]].
    apply Hd. by rewrite R1, (run_bind _ _ _ _ _ Rg).
Qed.

(** A reference that is not the last one of a file without links is given back. *)
Lemma iput_drop ip k :
  irq_ok k -> lock_free Licache k ->
  let i := get_inode k ip in ~ (i_ref i = 1 /\ i_valid i <> 0 /\ i_nlink i = 0) ->
  iput ip k = Ok tt (upd_inode ip (fun i => set_i_ref (i_ref i - 1) i) k).
Proof.
  intros Hi Hl i Hn. unfold iput. acquire_step. mrun. cbn [id]. change (get_inode (acquired Licache k) ip) with i.
  assert (E : (i_ref i =? 1) && truth (i_valid i) && (i_nlink i =? 0) = false).
  { destruct (i_ref i =? 1) eqn:E1, (truth (i_valid i)) eqn:E2, (i_nlink i =? 0) eqn:E3; try done. exfalso. apply Hn.
    unfold truth in E2. bprop. done. }
  rewrite E. mrun. release_step k. done.
Qed.

Lemma dir_at_tx k p bl V D H dp n :
  wctx dev s sz sb k p bl V D H dp -> roomy sz bl 0 -> i_size (get_inode k dp) = 16 * Z.of_nat n -> no_holes V (get_inode k dp) ->
  dir_at k p bl V D H dp n.
Proof.
  intros HW Hr Hs Hh. split; [exact (it_bst _ _ _ _ _ _ _ _ _ _ _ (wc_tx _ _ _ _ _ _ _ _ _ _ _ HW))| |exact (wc_dev _ _ _ _ _ _ _ _ _ _ _ HW)|done|done].
  unfold roomy in Hr. change LOGSIZE with 30 in Hr. change NBUF with 30%nat. lia.
Qed.

(** Reading keeps the transaction. *)
Lemma wctx_bio k k' p bl V D H dp :
  wctx dev s sz sb k p bl V D H dp -> bst dev k' p [] bl V D H -> bio_frame k k' -> wctx dev s sz sb k' p bl V D H dp.
Proof.
  intros [[G B Hh Hn Hc Ho] W2 W3 W4 W5 W6] Hs F. pose proof (bio_frame_inode _ _ F) as Ei.
  assert (Eg : get_inode k' dp = get_inode k dp) by (unfold get_inode; by rewrite Ei).
  pose proof (log_frame_bio _ _ F) as Hlf. split; rewrite ?Eg, ?Ei; try done.
  - eapply intx_rebase. split; [by eapply lg_frame|done..|by rewrite (lf_out _ _ Hlf)].
  - by rewrite (log_frame_sb _ _ Hlf).
Qed.

(** The scan for an empty entry. *)
Lemma dirlink_scan p pins V D H dp n m : forall k j fuel,
  dir_at k p pins V D H dp n -> (j + m = n)%nat -> (m < fuel)%nat ->
  exists k', bst dev k' p [] pins V D H /\ bio_frame k k' /\
    loop_with fuel (16 * Z.of_nat j) (dirlink_body dp) k =
      Ok (16 * Z.of_nat (j + match list_find (fun de => de_inum de = 0) (dent V (i_addrs (get_inode k dp)) <$> seq j m) with
                             | Some (i, _) => i | None => m end)) k'.
Proof.
  induction m as [|m IH]; intros k j fuel HA Hjn Hf; (destruct fuel as [|fuel]; [lia|]); cbn [loop_with];
    pose proof (da_holes _ _ _ _ _ _ _ _ HA) as [Hsz _]; pose proof (da_size _ _ _ _ _ _ _ _ HA) as Hsize; change (MAXFILE * BSIZE) with 274432 in Hsz.
  - exists k. split; [apply HA|]. split; [apply bio_frame_refl|]. cbn [seq fmap list_fmap list_find].
    unfold dirlink_body at 2. mrun. rewrite Hsize, (proj2 (Z.ltb_ge _ _)) by (rewrite u32_id; lia). by rewrite Nat.add_0_r.
  - destruct (read_dirent_run k p pins V D H dp n j "dirlink read" HA) as (k1 & R1 & Hs1 & F1); [lia|].
    pose proof (dir_at_frame _ _ _ _ _ _ _ _ _ HA Hs1 F1) as HA1.
    assert (E1 : get_inode k1 dp = get_inode k dp) by (unfold get_inode; by rewrite (bio_frame_inode _ _ F1)).
    destruct (IH k1 (S j) fuel HA1 ltac:(lia) ltac:(lia)) as (k2 & Hs2 & F2 & R2). rewrite E1 in R2.
    set (a := i_addrs (get_inode k dp)) in *. cbn [seq fmap list_fmap list_find]. set (de := dent V a j) in *.
    unfold dirlink_body at 2. mrun. rewrite u32_id by lia. rewrite Hsize, (proj2 (Z.ltb_lt _ _)) by lia. rewrite bind_assoc, (run_bind _ _ _ _ _ R1).
    destruct (de_inum de =? 0) eqn:E0; bprop.
    + exists k1. split; [done|]. split; [done|]. rewrite decide_True by done. by rewrite Nat.add_0_r.
    + rewrite decide_False by done. exists k2. split; [done|]. split; [by eapply bio_frame_trans|].
      rewrite bind_ret. change sizeof_dirent with 16. replace (16 * Z.of_nat j + 16) with (16 * Z.of_nat (S j)) by lia. rewrite R2. do 3 f_equal.
      destruct (list_find _ (dent V a <$> seq (S j) m)) as [[i x]|]; cbn [fmap option_fmap option_map prod_map fst snd]; lia.
Qed.

(** C12. [dirlookup] panics on an inode that is not a directory; otherwise it finds
    the first entry in use with the name, and takes a reference of the inode the
    entry names; a name that no entry has gives none, and nothing is taken. *)
Theorem dirlookup_spec k p pins V D H dp n name :
  let i := get_inode k dp in
  dir_at k p pins V D H dp n -> icache_ok k -> lock_free Licache k ->
  if decide (i_type i <> T_DIR) then dirlookup dp name k = Panic "dirlookup not DIR" else
  match list_find (has_name name) (dents V (i_addrs i) n) with
  | None => exists k', dirlookup dp name k = Ok None k' /\ bst dev k' p [] pins V D H /\ k_inode k' = k_inode k
  | Some (j, de) =>
      if decide (icache_full k dev (de_inum de)) then dirlookup dp name k = Panic "iget: no inodes" else
      exists ip k', dirlookup dp name k = Ok (Some (ip, 16 * Z.of_nat j)) k' /\ bst dev k' p [] pins V D H /\
        taken k k' dev (de_inum de) ip
  end.
Proof.
  intros i HA Hic Hlk. case_decide as Ht.
  - unfold dirlookup. mrun. fold i. by rewrite (proj2 (Z.eqb_neq _ _) Ht).
  - pose proof (dirlookup_run k p pins V D H dp n name HA Hic Hlk) as R. cbv zeta in R. fold i in R.
    assert (Et : i_type i = T_DIR) by (destruct (Z.eq_dec (i_type i) T_DIR); tauto). specialize (R Et).
    destruct (list_find (has_name name) (dents V (i_addrs i) n)) as [[j de]|].
    + case_decide; [done|]. destruct R as (ip & k' & f & R & Hs & _ & Tk). exists ip, (upd_inode ip f k'). split; [done|].
      split; [by apply bst_upd_inode|done].
    + destruct R as (k' & R & Hs & F). exists k'. split; [done|]. split; [done|]. by apply bio_frame_inode.
Qed.

(** The entry [dirlink] writes: the first empty one, or a new last one. *)
Definition free_entry (ents : list (list Z)) : nat :=
  match list_find (fun de => de_inum de = 0) ents with Some (j, _) => j | None => length ents end.

(** The name is new: the entry is written. *)
Lemma dirlink_new k p bl V D H dp n name inum :
  let i := get_inode k dp in let ents := dents V (i_addrs i) n in let off := 16 * Z.of_nat (free_entry ents) in
  wctx dev s sz sb k p bl V D H dp -> i_type i = T_DIR -> i_size i = 16 * Z.of_nat n -> no_holes V i ->
  0 <= i_inum i < sb_ninodes sb -> dinode_ok (inode_dinode i) -> icache_ok k -> lock_free Licache k ->
  (forall x, 0 <= x -> 0 <= name x < 256) ->
  off + 16 <= MAXFILE * BSIZE -> enough sz sb k bl V dp (blocks_of off 16) ->
  list_find (has_name name) ents = None ->
  exists k' bl' V', dirlink dp name inum k = Ok 0 k' /\ wctx dev s sz sb k' p bl' V' D H dp /\
    file_written s sz sb dp off 16 (arr (new_dent inum name)) k V k' V' /\
    (length bl' <= length bl + (1 + length (blocks_of off 16) + news V (i_addrs i) (blocks_of off 16) + slack (i_addrs i) bl))%nat.
Proof.
  intros i ents off HW Ht Hsz Hh Hin Hok Hic Hlk Hn Hmax Hen Hnone. change (MAXFILE * BSIZE) with 274432 in *.
  assert (Hr0 : roomy sz bl 0) by (destruct Hen as [Hroom _]; unfold roomy in *; lia).
  pose proof (dir_at_tx k p bl V D H dp n HW Hr0 Hsz Hh) as HA.
  pose proof (dirlookup_run k p bl V D H dp n name HA Hic Hlk Ht) as R1. fold i ents in R1. rewrite Hnone in R1. destruct R1 as (k1 & R1 & Hs1 & F1).
  pose proof (dir_at_frame _ _ _ _ _ _ _ _ _ HA Hs1 F1) as HA1.
  assert (E1 : get_inode k1 dp = i) by (unfold i, get_inode; by rewrite (bio_frame_inode _ _ F1)).
  destruct (dirlink_scan p bl V D H dp n n k1 0 (dir_fuel (i_size i)) HA1) as (k2 & Hs2 & F2 & R2); [lia| |].
  { unfold dir_fuel. rewrite Hsz. change sizeof_dirent with 16. rewrite Z.mul_comm, Z.div_mul by done. lia. }
  rewrite E1 in R2. change (dent V (i_addrs i) <$> seq 0 n) with ents in R2. change (16 * Z.of_nat 0) with 0 in R2.
  assert (Ej : (0 + match list_find (fun de => de_inum de = 0%Z) ents with Some (i0, _) => i0 | None => n end = free_entry ents)%nat).
  { unfold free_entry. destruct (list_find (fun de => de_inum de = 0%Z) ents) as [[j de]|]; [done|]. unfold ents, dents. by rewrite length_fmap, length_seq. }
  rewrite Ej in R2. fold off in R2.
  assert (Hj : (free_entry ents <= n)%nat).
  { unfold free_entry. assert (El : length ents = n) by (unfold ents, dents; by rewrite length_fmap, length_seq).
    destruct (list_find (fun de => de_inum de = 0%Z) ents) as [[j de]|] eqn:E; [|lia]. apply list_find_Some in E as (E & _). apply lookup_lt_Some in E. lia. }
  pose proof (wctx_bio k1 k2 p bl V D H dp (wctx_bio k k1 p bl V D H dp HW Hs1 F1) Hs2 F2) as HW2.
  assert (E2 : forall jp, get_inode k2 jp = get_inode k jp).
  { intros jp. unfold get_inode. by rewrite (bio_frame_inode _ _ F2), (bio_frame_inode _ _ F1). }
  assert (E2i : get_inode k2 dp = i) by apply E2.
  destruct (writei_run dev s sz geo sb k2 p bl V D H dp off 16 (arr (new_dent inum name)) HW2) as (k3 & bl3 & V3 & R3 & HW3 & [B1 B2 B3 B4 B5 B6] & L3);
    rewrite ?E2i; try done; [lia|unfold enough in *; by rewrite E2i|].
  rewrite E2i in *. exists k3, bl3, V3. split; [|split; [done|split; [|done]]].
  - unfold dirlink. rewrite (run_bind _ _ _ _ _ R1). mrun. rewrite E1, (run_bind _ _ _ _ _ R2).
    fold (new_dent inum name). rewrite u32_id by lia. change sizeof_dirent with 16. rewrite (run_bind _ _ _ _ _ R3). done.
  - split; rewrite <- ?E2; try done; [by rewrite E2i|by rewrite E2i|..]; rewrite ?E2i; try done. intros jp Hjp. rewrite <- E2. by apply B3.
Qed.

(** A reference just taken is given back: the entries in use are as before. *)
Lemma taken_dropped k k1 d inum ip :
  taken k k1 d inum ip -> irq_ok k1 -> lock_free Licache k1 ->
  exists k2, iput ip k1 = Ok tt k2 /\ k2 = upd_inode ip (fun i => set_i_ref (i_ref i - 1) i) k1 /\
    forall jp, i_ref (get_inode k2 jp) = i_ref (get_inode k jp) /\ (0 < i_ref (get_inode k jp) -> get_inode k2 jp = get_inode k jp).
Proof.
  intros [T1 T2 T3 T4 T5 T6] Hi Hl. pose proof (references_of _ _ _ _ T2 T1 T3) as Hr. rewrite T4, decide_True in Hr by done.
  destruct (references_pos k d inum) as [_ Hnn]. assert (Hlen : (ip < length (k_inode k1))%nat) by (by rewrite (ic_len _ T2)).
  eexists. split; [|split; [reflexivity|]].
  - apply iput_drop; [done|done|]. intros (H1 & H2 & H3). case_decide; [lia|]. by destruct T5.
  - intros jp. destruct (decide (jp = ip)) as [->|Hj]; [|rewrite get_inode_upd_ne by done; rewrite T6 by done; done].
    rewrite get_inode_upd by done. case_decide as E.
    + rewrite T5. destruct (get_inode k ip). cbn. rewrite Z.add_simpl_r. done.
    + destruct T5 as [T5 _]. rewrite T5. cbn. split; [lia|lia].
Qed.

(** C13. [dirlink] refuses a name the directory has, and leaves every inode in use as
    it was; a new name is written to the first empty entry, or behind the last
    one, with its inode: after that it is found there, all other entries and all
    other files are as before. *)
Theorem dirlink_spec k p bl V D H dp n name inum :
  let i := get_inode k dp in let ents := dents V (i_addrs i) n in
  let j := free_entry ents in let off := 16 * Z.of_nat j in
  wctx dev s sz sb k p bl V D H dp -> i_type i = T_DIR -> i_size i = 16 * Z.of_nat n -> no_holes V i ->
  0 <= i_inum i < sb_ninodes sb -> dinode_ok (inode_dinode i) -> icache_ok k -> lock_free Licache k ->
  (forall x, 0 <= x -> 0 <= name x < 256) -> 0 < inum < 65536 ->
  16 * (Z.of_nat n + 1) <= MAXFILE * BSIZE -> enough sz sb k bl V dp (blocks_of off 16) ->
  match list_find (has_name name) ents with
  | Some (_, de) =>
      if decide (icache_full k dev (de_inum de)) then dirlink dp name inum k = Panic "iget: no inodes" else
      exists k', dirlink dp name inum k = Ok (-1) k' /\ bst dev k' p [] bl V D H /\
        forall jp, i_ref (get_inode k' jp) = i_ref (get_inode k jp) /\ (0 < i_ref (get_inode k jp) -> get_inode k' jp = get_inode k jp)
  | None =>
      exists k' bl' V', dirlink dp name inum k = Ok 0 k' /\ wctx dev s sz sb k' p bl' V' D H dp /\
        let i' := get_inode k' dp in let de := new_dent inum name in let ents' := dents V' (i_addrs i') (Nat.max n (S j)) in
        i_size i' = 16 * Z.of_nat (Nat.max n (S j)) /\ no_holes V' i' /\
        ents' = (if decide (j < n)%nat then <[j := de]> ents else ents ++ [de]) /\
        list_find (has_name name) ents' = Some (j, de) /\ de_inum de = inum /\
        (forall jp, jp <> dp -> get_inode k' jp = get_inode k jp) /\
        (forall m, data_block s sz sb V m -> new_block V (i_addrs i) m -> V' m = V m)
  end.
Proof.
  intros i ents j off HW Ht Hsz Hh Hin Hok Hic Hlk Hn Hi Hmax Hen.
  assert (El : length ents = n) by (unfold ents, dents; by rewrite length_fmap, length_seq).
  assert (Hj : (j <= n)%nat).
  { unfold j, free_entry. destruct (list_find (fun de => de_inum de = 0%Z) ents) as [[x de]|] eqn:E; [|lia].
    apply list_find_Some in E as (E & _). apply lookup_lt_Some in E. lia. }
  assert (Hoff : off + 16 <= MAXFILE * BSIZE) by lia.
  destruct (list_find (has_name name) ents) as [[x de]|] eqn:E.
  - assert (Hr0 : roomy sz bl 0) by (destruct Hen as [Hroom _]; unfold roomy in *; lia).
    pose proof (dirlookup_run k p bl V D H dp n name (dir_at_tx k p bl V D H dp n HW Hr0 Hsz Hh) Hic Hlk Ht) as R. fold i ents in R. rewrite E in R.
    case_decide as Hf; [unfold dirlink; by apply run_bind_panic|]. destruct R as (ip & k1 & f & R & Hs & F & Tk).
    assert (Hs1 : bst dev (upd_inode ip f k1) p [] bl V D H) by (by apply bst_upd_inode).
    destruct (taken_dropped k (upd_inode ip f k1) dev (de_inum de) ip Tk) as (k2 & R2 & E2 & H2).
    + apply (pc_irq _ _ (bc_ctx _ _ _ _ _ (bs_inv _ _ _ _ _ _ _ _ Hs1))).
    + eapply lock_free_same; [apply F|done].
    + exists k2. split; [|split; [rewrite E2; by apply bst_upd_inode|exact H2]].
      unfold dirlink. rewrite (run_bind _ _ _ _ _ R). cbn match. by rewrite (run_bind _ _ _ _ _ R2).
  - destruct (dirlink_new k p bl V D H dp n name inum HW Ht Hsz Hh Hin Hok Hic Hlk Hn Hoff Hen E) as (k' & bl' & V' & R & HW' & [B1 B2 B3 B4 B5 B6] & _).
    fold i in B1, B2, B5, B6. fold ents j off in B1, B2. exists k', bl', V'. split; [done|]. split; [done|]. cbv zeta.
    destruct (new_dent_has inum name Hn Hi) as [En Hhas].
    pose proof (dents_written V (i_addrs i) V' (i_addrs (get_inode k' dp)) n j (new_dent inum name) Hj (new_dent_length _ _ Hn) (new_dent_bytes _ _ Hn) Hmax B1) as Ed.
    fold ents in Ed. rewrite Ed. split; [rewrite B2; cbn [i_size set_i_size]; rewrite Hsz; unfold off; lia|].
    split; [by apply B6|]. split; [done|]. split; [|done].
    apply list_find_None in E. rewrite Forall_lookup in E. apply list_find_Some. split; [|split; [done|]].
    + case_decide; [apply list_lookup_insert_eq; lia|]. rewrite lookup_app_r by lia. by replace (j - length ents)%nat with 0%nat by lia.
    + intros y z Hy Hlt. apply (E y). case_decide; [by rewrite list_lookup_insert_ne in Hy by lia|]. by rewrite lookup_app_l in Hy by lia.
Qed.
End dir.

(** ** A directory with one entry, and an empty one *)

#[local] Existing Instance resume_at_once.

Definition cat_name : Z -> Z := arr [99; 97; 116; 0].

Lemma cat_range x : 0 <= x -> 0 <= cat_name x < 256.
Proof. intros _. unfold cat_name, arr. apply u8_range. Qed.

Definition dir_disk : gmap Z (list Z) := <[46 := splice zero_block 0 (new_dent 5 cat_name)]> demo_disk.
Definition dir_inode (size : Z) (addrs : list Z) : inode := mkInode 1 1 1 1 T_DIR 0 0 1 size addrs.
Definition one_entry : inode := dir_inode 16 (46 :: replicate 12 0).
Definition no_entry : inode := dir_inode 0 (replicate 13 0).

(** One entry of the inode cache is in use. *)
Lemma one_icache k i : k_inode k = <[0%nat := i]> (replicate NINODE inode0) -> 0 < i_ref i -> icache_ok k.
Proof.
  intros E Hi. assert (Hg : forall ip, get_inode k ip = if decide (ip = 0%nat) then i else inode0).
  { intros ip. unfold get_inode. rewrite E. case_decide as Eip; [subst; apply list_lookup_total_insert_eq; rewrite length_replicate; by apply Nat.ltb_lt|].
    rewrite list_lookup_total_insert_ne by done. rewrite list_lookup_total_alt. destruct (replicate NINODE inode0 !! ip) eqn:El; [|done].
    by apply lookup_replicate in El as [-> _]. }
  split.
  - by rewrite E, length_insert, length_replicate.
  - intros ip. rewrite Hg. case_decide; [lia|done].
  - assert (H0 : forall d n ip, caches_inode k d n ip -> ip = 0%nat).
    { intros d n ip (Hr & _). rewrite Hg in Hr. case_decide; [done|]. cbn in Hr. lia. }
    intros d n ip jp _ _ H1 H2. by rewrite (H0 _ _ _ H1), (H0 _ _ _ H2).
Qed.

Lemma dir_started d i : 0 < i_ref i -> i_dev i = 1 -> exists k, intx 1 2 LOGSIZE k k 3 [] [] (disk_block d) d [] /\
  k_sb k = demo_sb /\ get_inode k 0 = i /\ icache_ok k /\ lock_free Licache k /\ k_inode k = <[0%nat := i]> (replicate NINODE inode0).
Proof.
  intros Hr Hd. destruct (started d) as (k & Hi & Hsb & Hin & _ & Hlk).
  assert (E : k_inode (upd_inode 0 (fun _ => i) k) = <[0%nat := i]> (replicate NINODE inode0)) by (cbn; rewrite Hin; reflexivity).
  exists (upd_inode 0 (fun _ => i) k). split; [by eapply intx_upd_inode|]. split; [exact Hsb|].
  split; [apply get_inode_upd; rewrite Hin; by apply Nat.ltb_lt|]. split; [by eapply one_icache|]. split; [exact Hlk|exact E].
Qed.

Lemma one_not_full k i d inum : k_inode k = <[0%nat := i]> (replicate NINODE inode0) -> ~ icache_full k d inum.
Proof.
  intros E [Hall _]. rewrite E, Forall_lookup in Hall. specialize (Hall 1%nat inode0 eq_refl). by cbn in Hall.
Qed.

Lemma dirlookup_spec_witness : exists k k' ip, dirlookup 0 cat_name k = Ok (Some (ip, 0)) k' /\ i_inum (get_inode k' ip) = 5.
Proof.
  destruct (dir_started dir_disk one_entry) as (k & Hi & Hsb & Ei & Hic & Hlk & En); [done|done|].
  pose proof (dirlookup_spec 1 k 3 [] (disk_block dir_disk) dir_disk [] 0 1 cat_name) as H. cbv zeta in H. rewrite Ei in H.
  assert (E : list_find (has_name cat_name) (dents (disk_block dir_disk) (i_addrs one_entry) 1) = Some (0%nat, new_dent 5 cat_name)) by (by vm_compute).
  rewrite E in H. rewrite decide_False in H by (intros Hx; by apply Hx).
  rewrite decide_False in H by exact (one_not_full k one_entry 1 _ En).
  destruct H as (ip & k' & R & _ & Tk).
  - split; rewrite ?Ei; [exact (it_bst _ _ _ _ _ _ _ _ _ _ _ Hi)|by apply Nat.ltb_lt|done|done|]. split; [by vm_compute|].
    intros b Hb Hlt. assert (b = 0) as -> by (cbn in Hlt; change BSIZE with 1024 in Hlt; lia). done.
  - exact Hic.
  - exact Hlk.
  - exists k, k', ip. split; [exact R|]. destruct (tk_caches _ _ _ _ _ Tk) as (_ & _ & Hn). rewrite Hn. by vm_compute.
Defined.

Lemma dirlink_spec_witness : exists k k', dirlink 0 cat_name 5 k = Ok 0 k' /\ i_size (get_inode k' 0) = 16.
Proof.
  destruct (dir_started demo_disk no_entry) as (k & Hi & Hsb & Ei & Hic & Hlk & En); [done|done|].
  pose proof (dirlink_spec 1 2 LOGSIZE geometry_mkfs demo_sb k 3 [] (disk_block demo_disk) demo_disk [] 0 0 cat_name 5) as H. cbv zeta in H. rewrite Ei in H.
  change (dents (disk_block demo_disk) (i_addrs no_entry) 0) with (@nil (list Z)) in H. cbn [list_find] in H.
  destruct H as (k' & bl' & V' & R & _ & Hs & _).
  - split; rewrite ?Ei; [exact Hi|exact Hsb|exact demo_fs_ok|apply empty_file_ok|done|]. rewrite En, length_insert, length_replicate. by apply Nat.ltb_lt.
  - done.
  - done.
  - split; [by vm_compute|]. intros b Hb Hlt. cbn in Hlt. change BSIZE with 1024 in Hlt. lia.
  - by vm_compute.
  - split; [cbn; change T_DIR with 1; lia..| |done]. apply (bool_decide_unpack _). by vm_compute.
  - exact Hic.
  - exact Hlk.
  - exact cat_range.
  - lia.
  - by vm_compute.
  - unfold enough. rewrite Ei. split; [by vm_compute|right]. rewrite demo_nfree. apply Nat.leb_le. by vm_compute.
  - exists k, k'. split; [exact R|]. rewrite Hs. by vm_compute.
Defined.

