(* ===== verification/Mkfs.v ===== *)
(** * mkfs/mkfs.c: making a file-system image

    The image is the list of its blocks: a write behind its end makes it
    longer, a read behind its end fails and the program ends.  The host's
    [lseek] and [write] on the image succeed, and the host is little-endian.
    A C string is the list of its characters; an argument of [main] is a path
    with what the host gives for it: nothing when it cannot be opened, or the
    pieces [read] delivers, one after the other.  A call of [exit(1)] and a
    failing [assert] end the program: the outcome [Panic]. *)

From S2P Require Export Fs.

Definition NINODES : Z := 200.

(** [disk layout: boot block | sb block | log | inode blocks | free bit map | data blocks] *)
Definition nbitmap : Z := FSSIZE / (BSIZE * 8) + 1.
Definition ninodeblocks : Z := NINODES / IPB + 1.
Definition nlog : Z := LOGSIZE.
Definition nmeta : Z := 2 + nlog + ninodeblocks + nbitmap.
Definition nblocks : Z := FSSIZE - nmeta.

(** convert to intel byte order *)
Definition xshort (x : Z) : Z := le_decode [u8 x; u8 (Z.shiftr x 8)].
Definition xint (x : Z) : Z := le_decode [u8 x; u8 (Z.shiftr x 8); u8 (Z.shiftr x 16); u8 (Z.shiftr x 24)].

(** The value [main] gives [sb], and its bytes. *)
Definition mk_sb : superblock :=
  mkSuperblock FSMAGIC (xint FSSIZE) (xint nblocks) (xint NINODES) (xint nlog) (xint 2)
    (xint (2 + nlog)) (xint (2 + nlog + ninodeblocks)).

Definition sb_bytes (sb : superblock) : list Z :=
  concat (le_encode 4 <$> [sb_magic sb; sb_size sb; sb_nblocks sb; sb_ninodes sb; sb_nlog sb;
                           sb_logstart sb; sb_inodestart sb; sb_bmapstart sb]).

Record mkfs := mkMkfs {
  m_img : list (list Z);
  freeinode : Z;
  freeblock : Z
}.

Definition set_img (x : list (list Z)) (s : mkfs) : mkfs := mkMkfs x (freeinode s) (freeblock s).
Definition set_freeinode (x : Z) (s : mkfs) : mkfs := mkMkfs (m_img s) x (freeblock s).
Definition set_freeblock (x : Z) (s : mkfs) : mkfs := mkMkfs (m_img s) (freeinode s) x.

(** The state of the program before [main]. *)
Definition mkfs0 : mkfs := mkMkfs [] 1 0.

Abbreviation MK := (M mkfs).

(** The block the file offset [sec * BSIZE] is in. *)
Definition img_pos (sec : Z) : nat := Z.to_nat (u32 (sec * BSIZE) / BSIZE).

Definition img_write (i : nat) (buf : list Z) (img : list (list Z)) : list (list Z) :=
  if (i <? length img)%nat then <[i := buf]> img
  else img ++ replicate (i - length img) zero_block ++ [buf].

Definition wsect (sec : Z) (buf : list Z) : MK unit :=
  modify (fun s => set_img (img_write (img_pos sec) buf (m_img s)) s).

Definition rsect (sec : Z) : MK (list Z) :=
  r ← gets (fun s => m_img s !! img_pos sec);
  match r with Some buf => mret buf | None => panic "read" end.

Definition winode (inum : Z) (ip : dinode) : MK unit :=
  let bn := IBLOCK inum mk_sb in
  buf ← rsect bn;
  wsect bn (dinode_put ip (dinode_off inum) buf).

Definition rinode (inum : Z) : MK dinode :=
  let bn := IBLOCK inum mk_sb in
  buf ← rsect bn;
  mret (dinode_get buf (dinode_off inum)).

Definition no_addrs : list Z := replicate (Z.to_nat NDIRECT + 1) 0.

Definition ialloc (type : Z) : MK Z :=
  inum ← gets freeinode;
  modify (set_freeinode (u32 (inum + 1)));;
  winode inum (mkDinode (s16 (xshort type)) 0 0 (s16 (xshort 1)) (xint 0) no_addrs);;
  mret inum.

(** [xint(freeblock++)] *)
Definition next_block : MK Z :=
  b ← gets freeblock;
  modify (set_freeblock (u32 (b + 1)));;
  mret (xint b).

(** The first [used] bits of the free map. *)
Definition first_bits (used : nat) : list Z :=
  fold_left (fun buf i => mark_used i buf) (seq 0 used) zero_block.

Definition balloc (used : Z) : MK unit :=
  if negb (used <? BSIZE * 8) then panic "used < BSIZE*8" else
  wsect (sb_bmapstart mk_sb) (first_bits (Z.to_nat used)).

Definition set_d_addr (i : Z) (a : Z) (din : dinode) : dinode :=
  mkDinode (d_type din) (d_major din) (d_minor din) (d_nlink din) (d_size din) (<[Z.to_nat i := a]> (d_addrs din)).
Definition set_d_size (x : Z) (din : dinode) : dinode :=
  mkDinode (d_type din) (d_major din) (d_minor din) (d_nlink din) x (d_addrs din).
Definition d_addr (din : dinode) (i : Z) : Z := d_addrs din !!! Z.to_nat i.

(** The block [x] of the file for its block number [fbn], allocated if the
    file does not have it yet. *)
Definition file_block (fbn : Z) (din : dinode) : MK (dinode * Z) :=
  if fbn <? NDIRECT then
    din ← (if xint (d_addr din fbn) =? 0 then b ← next_block; mret (set_d_addr fbn b din) else mret din);
    mret (din, xint (d_addr din fbn))
  else
    din ← (if xint (d_addr din NDIRECT) =? 0 then b ← next_block; mret (set_d_addr NDIRECT b din) else mret din);
    indirect ← rsect (xint (d_addr din NDIRECT));
    let o := (4 * Z.to_nat (fbn - NDIRECT))%nat in
    indirect ← (if blk_rd32 indirect o =? 0 then
                  b ← next_block;
                  let indirect := blk_wr32 o b indirect in
                  wsect (xint (d_addr din NDIRECT)) indirect;;
                  mret indirect
                else mret indirect);
    mret (din, xint (blk_rd32 indirect o)).

(** One round of the loop of [iappend]: the inode, the offset and the bytes left. *)
Definition iappend_body : dinode * Z * list Z -> MK (dinode * Z * list Z + dinode * Z) := fun '(din, off, p) =>
  let n := Z.of_nat (length p) in
  if 0 <? n then
    let fbn := off / BSIZE in
    if negb (fbn <? MAXFILE) then panic "fbn < MAXFILE" else
    r ← file_block fbn din;
    let '(din, x) := r in
    let n1 := Z.min n (u32 ((fbn + 1) * BSIZE - off)) in
    buf ← rsect x;
    wsect x (splice buf (Z.to_nat (u32 (off - fbn * BSIZE))) (take (Z.to_nat n1) p));;
    mret (inl (din, u32 (off + n1), drop (Z.to_nat n1) p))
  else mret (inr (din, off)).

(** Every round takes at least one byte of [p]. *)
Definition iappend (inum : Z) (p : list Z) : MK unit :=
  din ← rinode inum;
  r ← loop_with (S (length p)) (din, xint (d_size din), p) iappend_body;
  let '(din, off) := r in
  winode inum (set_d_size (xint off) din).

(** [struct dirent] with the name [strncpy] (or [strcpy], for a short one) leaves. *)
Definition mk_dirent (inum : Z) (name : list Z) : list Z :=
  le_encode 2 (xshort inum) ++ take (Z.to_nat DIRSIZ) (name ++ replicate (Z.to_nat DIRSIZ) 0).

Definition user_slash : list Z := [117; 115; 101; 114; 47].

(** get rid of "user/" *)
Definition shortname (path : list Z) : list Z :=
  if bool_decide (take 5 path = user_slash) then drop 5 path else path.

(** Skip leading _ in name when writing to file system. *)
Definition skip_underscore (name : list Z) : list Z :=
  match name with 95 :: name' => name' | _ => name end.

(** [while((cc = read(fd, buf, sizeof(buf))) > 0) iappend(inum, buf, cc);] *)
Fixpoint append_pieces (inum : Z) (pieces : list (list Z)) : MK unit :=
  match pieces with
  | [] | [] :: _ => skip
  | p :: pieces => iappend inum p;; append_pieces inum pieces
  end.

(** A path and what the host gives when it is opened. *)
Definition mkfs_arg : Type := list Z * option (list (list Z)).

Definition add_file (rootino : Z) (arg : mkfs_arg) : MK unit :=
  let name := shortname arg.1 in
  if bool_decide (47 ∈ name) then panic "index(shortname, '/') == 0" else
  match arg.2 with
  | None => panic "open"
  | Some pieces =>
      let name := skip_underscore name in
      inum ← ialloc T_FILE;
      iappend rootino (mk_dirent inum name);;
      append_pieces inum pieces
  end.

(** [main] from where it has created the image. *)
Definition main (args : list mkfs_arg) : MK unit :=
  modify (set_freeblock nmeta);;
  for_all (seqZ 0 FSSIZE) (fun i => wsect i zero_block);;
  wsect 1 (splice zero_block 0 (sb_bytes mk_sb));;
  rootino ← ialloc T_DIR;
  if negb (rootino =? ROOTINO) then panic "rootino == ROOTINO" else
  iappend rootino (mk_dirent rootino [46]);;
  iappend rootino (mk_dirent rootino [46; 46]);;
  for_all args (add_file rootino);;
  (* fix size of root inode dir *)
  din ← rinode rootino;
  let off := xint (d_size din) in
  let off := u32 ((off / BSIZE + 1) * BSIZE) in
  winode rootino (set_d_size (xint off) din);;
  used ← gets freeblock;
  balloc (s32 used).
