(* ===== verification/MkfsSpec.v ===== *)
(** * The image mkfs makes

    While mkfs runs, the image is a file system: every inode has the blocks its
    size needs and no others, no block belongs to two places, and the blocks
    from [freeblock] on are empty.  [ialloc] and [iappend] are the creation of
    an empty file and the appending of bytes to one. *)

From stdpp Require Import functions.
From S2P Require Export Mkfs FsFile.

Definition IMGSIZE : nat := Z.to_nat FSSIZE.

(** Block [b] of the image. *)
Definition blocks (s : mkfs) (b : Z) : list Z := if b <? 0 then [] else default [] (m_img s !! Z.to_nat b).

(** Byte [x] of a file, zero behind its end. *)
Definition byte_at (l : list Z) (x : Z) : Z := default 0 (l !! Z.to_nat x).

(** The blocks a file of [n] bytes needs. *)
Definition need (n : Z) : Z := (n + 1023) / 1024 + (if 12288 <? n then 1 else 0).

Ltac cst := change BSIZE with 1024 in *; change MAXFILE with 268 in *; change NDIRECT with 12 in *;
  change nmeta with 46 in *; change FSSIZE with 1000 in *; change (Z.to_nat 12) with 12%nat in *;
  change (Z.to_nat 1024) with 1024%nat in *; change IPB with 16 in *; change NINODES with 200 in *.

Lemma block_index x : 0 <= x < MAXFILE * BSIZE -> 0 <= x / BSIZE < MAXFILE.
Proof. intros Hx. cst. zlia. Qed.

#[export] Instance fblk_proper : Proper (pointwise_relation Z eq ==> eq ==> eq ==> eq) fblk.
Proof. intros V V' E a _ <- bn _ <-. unfold fblk. by rewrite E. Qed.

#[export] Instance fbyte_proper : Proper (pointwise_relation Z eq ==> eq ==> eq ==> eq) fbyte.
Proof. intros V V' E a _ <- x _ <-. unfold fbyte, cont. by rewrite !E. Qed.

(** ** The places of blocks

    A place in a file: its block [bn], or its indirect block. *)

Definition slot (V : Z -> list Z) (a : list Z) (sl : option Z) : Z :=
  match sl with Some bn => fblk V a bn | None => a !!! Z.to_nat NDIRECT end.
Definition slot_ok (sl : option Z) : Prop := match sl with Some bn => 0 <= bn < MAXFILE | None => True end.

#[export] Instance slot_proper : Proper (pointwise_relation Z eq ==> eq ==> eq ==> eq) slot.
Proof. intros V V' E a _ <- [bn|] _ <-; cbn [slot]; [by rewrite E|done]. Qed.

(** [E i] is how many bytes of file [i] have blocks, [F i] are its bytes. *)
Record tree (V : Z -> list Z) (fb : Z) (A : Z -> list Z) (F : Z -> list Z) (E : Z -> Z) : Prop := {
  tr_fb : nmeta <= fb;
  tr_len : forall b, 0 <= b < FSSIZE -> length (V b) = Z.to_nat BSIZE;
  tr_addrs : forall i, length (A i) = S (Z.to_nat NDIRECT);
  tr_range : forall i sl, slot_ok sl -> slot V (A i) sl <> 0 -> nmeta <= slot V (A i) sl < fb;
  tr_inj : forall i j sl sl', slot_ok sl -> slot_ok sl' ->
    slot V (A i) sl = slot V (A j) sl' -> slot V (A i) sl <> 0 -> i = j /\ sl = sl';
  tr_has : forall i bn, 0 <= bn < MAXFILE -> slot V (A i) (Some bn) <> 0 <-> bn * BSIZE < E i;
  tr_zero : forall b, fb <= b < FSSIZE -> V b = zero_block;
  tr_byte : forall i x, 0 <= x < MAXFILE * BSIZE -> fbyte V (A i) x = byte_at (F i) x
}.

Lemma tree_ext V V' fb A A' F F' E E' :
  tree V fb A F E -> (forall b, V' b = V b) -> (forall i, A' i = A i) -> (forall i, F' i = F i) ->
  (forall i bn, 0 <= bn < MAXFILE -> bn * BSIZE < E' i <-> bn * BSIZE < E i) ->
  tree V' fb A' F' E'.
Proof.
  intros [T1 T2 T3 T4 T5 T6 T7 T8] HV HA HF HE.
  assert (HS : forall i sl, slot V' (A' i) sl = slot V (A i) sl).
  { intros i sl. rewrite HA. apply slot_proper; [exact HV|done..]. }
  split; [done|intros b; rewrite HV; apply T2|intros i; by rewrite HA|intros i sl; rewrite HS; apply T4
    |intros i j sl sl'; rewrite !HS; apply T5|intros i bn Hbn; rewrite HS, HE by done; by apply T6
    |intros b; rewrite HV; apply T7|].
  intros i x Hx. rewrite HA, HF, <- T8 by done. apply fbyte_proper; [exact HV|done..].
Qed.

Lemma zero_block_byte n : u8 (zero_block !!! n) = 0 \/ (1024 <= n)%nat.
Proof.
  destruct (decide (1024 <= n)%nat); [by right|left]. unfold zero_block. rewrite list_lookup_total_alt, lookup_replicate_2; [done|].
  change (Z.to_nat BSIZE) with 1024%nat. lia.
Qed.

(** The free block goes to an empty place. *)
Lemma tree_slot V V' fb A A' F E E' i s0 :
  tree V fb A F E -> fb < FSSIZE -> slot_ok s0 -> slot V (A i) s0 = 0 ->
  (forall j, length (A' j) = S (Z.to_nat NDIRECT)) -> (forall b, 0 <= b < FSSIZE -> length (V' b) = Z.to_nat BSIZE) ->
  (forall j sl, slot_ok sl -> slot V' (A' j) sl = if decide (j = i /\ sl = s0) then fb else slot V (A j) sl) ->
  (forall j bn, 0 <= bn < MAXFILE -> slot V (A j) (Some bn) <> 0 -> V' (slot V (A j) (Some bn)) = V (slot V (A j) (Some bn))) ->
  (forall b, fb <= b < FSSIZE -> V' b = V b) ->
  (forall j bn, 0 <= bn < MAXFILE -> bn * BSIZE < E' j <-> bn * BSIZE < E j \/ (j = i /\ s0 = Some bn)) ->
  tree V' (fb + 1) A' F E'.
Proof.
  intros [T1 T2 T3 T4 T5 T6 T7 T8] Hfb Hs0 H0 HA' HL HS HD HV HE. cst.
  assert (Hnew : forall j sl, slot_ok sl -> slot V (A j) sl <> fb).
  { intros j sl Hok Eq. destruct (T4 j sl Hok) as [_ ?]; lia. }
  split; cst; [lia|done|done|..].
  - intros j sl Hok. rewrite HS by done. case_decide; [lia|]. intros Hne. specialize (T4 j sl Hok Hne). lia.
  - intros j j' sl sl' Hok Hok'. rewrite !HS by done.
    case_decide as E1; case_decide as E2.
    + destruct E1, E2. intros. split; congruence.
    + intros Eq. by destruct (Hnew j' sl' Hok').
    + intros Eq. by destruct (Hnew j sl Hok).
    + by apply T5.
  - intros j bn Hbn. rewrite HS, HE by done. case_decide as E1.
    + destruct E1 as [-> ->]. split; [intros _; right; done|lia].
    + rewrite (T6 j bn Hbn). split; [tauto|]. intros [?|[-> ->]]; [done|]. by destruct E1.
  - intros b Hb. rewrite HV by lia. apply T7. lia.
  - intros j x Hx. rewrite <- T8 by done. unfold fbyte, cont.
    change (fblk V' (A' j) (x / BSIZE)) with (slot V' (A' j) (Some (x / BSIZE))).
    change (fblk V (A j) (x / BSIZE)) with (slot V (A j) (Some (x / BSIZE))).
    assert (Hbn : 0 <= x / 1024 < 268) by zlia. cst. rewrite HS by done. case_decide as E1.
    + destruct E1 as [-> <-]. rewrite H0, HV, T7, (proj2 (Z.eqb_neq fb 0)) by lia. done.
    + destruct (slot V (A j) (Some (x / 1024)) =? 0) eqn:E0; bprop; [done|]. by rewrite HD.
Qed.

(** ** The three allocations of [iappend], and its write *)

Lemma tree_direct V fb A F E i bn :
  tree V fb A F E -> fb < FSSIZE -> 0 <= bn < NDIRECT -> E i = bn * BSIZE ->
  tree V (fb + 1) (<[i := <[Z.to_nat bn := fb]> (A i)]> A) F (<[i := bn * BSIZE + 1]> E) /\
  fblk V (<[Z.to_nat bn := fb]> (A i)) bn = fb.
Proof.
  intros HT Hfb Hbn HE. pose proof HT as [T1 T2 T3 T4 T5 T6 T7 T8]. pose proof (T3 i) as Hl. cst.
  assert (HS : forall j sl, slot_ok sl -> slot V ((<[i := <[Z.to_nat bn := fb]> (A i)]> A) j) sl =
    if decide (j = i /\ sl = Some bn) then fb else slot V (A j) sl).
  { intros j sl Hok. destruct (decide (j = i)) as [->|Hj].
    - rewrite fn_lookup_insert. destruct sl as [b|]; cbn [slot slot_ok] in *; cst.
      + unfold fblk. cst. rewrite (list_lookup_total_insert_ne (A i) (Z.to_nat bn) 12) by lia.
        case_decide as Eb.
        * destruct Eb as [_ [= ->]]. rewrite (proj2 (Z.ltb_lt bn 12)) by lia. apply list_lookup_total_insert_eq. lia.
        * destruct (b <? 12) eqn:Eb'; bprop; [|done]. apply list_lookup_total_insert_ne. intros ?. apply Eb. split; [done|f_equal; lia].
      + rewrite decide_False by (by intros [_ ?]). apply list_lookup_total_insert_ne. lia.
    - rewrite fn_lookup_insert_ne by done. by rewrite decide_False by (by intros [? _]). }
  split.
  - apply (tree_slot V V fb A _ F E _ i (Some bn)); try done; cst.
    + cbn. cst. lia.
    + destruct (Z.eq_dec (slot V (A i) (Some bn)) 0) as [|Hne]; [done|]. apply T6 in Hne; lia.
    + intros j. destruct (decide (j = i)) as [->|Hj]; [rewrite fn_lookup_insert, length_insert|rewrite fn_lookup_insert_ne by done]; apply T3.
    + intros j b Hb. destruct (decide (j = i)) as [->|Hj]; [rewrite fn_lookup_insert|rewrite fn_lookup_insert_ne by done].
      * rewrite HE. split; [|intros [?|[_ [= <-]]]; lia]. intros Hlt. destruct (decide (b = bn)) as [->|]; [by right|left; lia].
      * split; [by left|]. by intros [?|[? _]].
  - specialize (HS i (Some bn)). rewrite fn_lookup_insert, decide_True in HS by done. apply HS. cbn. cst. lia.
Qed.

Lemma blk_rd32_zero i : (4 * i + 4 <= 1024)%nat -> blk_rd32 zero_block (4 * i) = 0.
Proof.
  intros Hi. unfold blk_rd32, blk_rd. assert (Eq : take 4 (drop (4 * i) zero_block) = replicate 4 0).
  { unfold zero_block. rewrite drop_replicate, take_replicate. f_equal. change (Z.to_nat BSIZE) with 1024%nat. lia. }
  by rewrite Eq.
Qed.

Lemma tree_root V fb A F E i :
  tree V fb A F E -> fb < FSSIZE -> A i !!! Z.to_nat NDIRECT = 0 ->
  tree V (fb + 1) (<[i := <[Z.to_nat NDIRECT := fb]> (A i)]> A) F E /\
  (<[Z.to_nat NDIRECT := fb]> (A i)) !!! Z.to_nat NDIRECT = fb.
Proof.
  intros HT Hfb H0. pose proof HT as [T1 T2 T3 T4 T5 T6 T7 T8]. pose proof (T3 i) as Hl. cst.
  assert (HR : (<[12%nat := fb]> (A i)) !!! 12%nat = fb) by (apply list_lookup_total_insert_eq; lia).
  split; [|done]. apply (tree_slot V V fb A _ F E _ i None); try done; cst.
  - intros j. destruct (decide (j = i)) as [->|Hj]; [rewrite fn_lookup_insert, length_insert|rewrite fn_lookup_insert_ne by done]; apply T3.
  - intros j sl Hok. destruct (decide (j = i)) as [->|Hj]; [rewrite fn_lookup_insert|rewrite fn_lookup_insert_ne, decide_False by (by intros [? _] || done); done].
    destruct sl as [b|]; cbn [slot slot_ok] in *; cst.
    + rewrite decide_False by (by intros [_ ?]). unfold fblk. cst. rewrite HR, H0, T7, (proj2 (Z.eqb_neq fb 0)) by lia.
      destruct (b <? 12) eqn:Eb; bprop; [apply list_lookup_total_insert_ne; lia|]. apply blk_rd32_zero. lia.
    + by rewrite decide_True.
  - intros j b Hb. split; [by left|]. by intros [?|[_ ?]].
Qed.

(** The blocks of a file lie apart from everybody's indirect block. *)
Lemma tree_apart V fb A F E i j bn :
  tree V fb A F E -> 0 <= bn < MAXFILE -> slot V (A j) (Some bn) <> 0 -> slot V (A j) (Some bn) <> A i !!! Z.to_nat NDIRECT.
Proof.
  intros HT Hbn Hne Eq. by destruct (tr_inj _ _ _ _ _ HT j i (Some bn) None) as [_ ?].
Qed.

Lemma tree_entry V fb A F E i bn :
  let root := A i !!! Z.to_nat NDIRECT in
  let V' := vset V root (blk_wr32 (4 * Z.to_nat (bn - NDIRECT)) fb (V root)) in
  tree V fb A F E -> fb < FSSIZE -> NDIRECT <= bn < MAXFILE -> root <> 0 -> E i = bn * BSIZE ->
  tree V' (fb + 1) A F (<[i := bn * BSIZE + 1]> E) /\ fblk V' (A i) bn = fb.
Proof.
  intros root V' HT Hfb Hbn Hr HE. pose proof HT as [T1 T2 T3 T4 T5 T6 T7 T8].
  pose proof (T4 i None I Hr) as Hrr. cbn [slot] in Hrr. fold root in Hrr. pose proof (T2 root) as Hlen. cst. specialize (Hlen ltac:(lia)).
  assert (HR : forall j, j <> i -> A j !!! 12%nat <> 0 -> A j !!! 12%nat <> root).
  { intros j Hj Hne Eq. by destruct (T5 j i None None I I Eq Hne). }
  assert (HS : forall j sl, slot_ok sl -> slot V' (A j) sl = if decide (j = i /\ sl = Some bn) then fb else slot V (A j) sl).
  { intros j [b|] Hok; cbn [slot slot_ok] in *; cst; [|by rewrite decide_False by (by intros [_ ?])].
    unfold fblk. cst. destruct (b <? 12) eqn:Eb; bprop.
    { rewrite decide_False; [done|]. intros [_ [= ->]]. lia. }
    destruct (decide (j = i)) as [->|Hj].
    - fold root. rewrite (proj2 (Z.eqb_neq root 0)) by done. unfold V'. rewrite vset_eq. case_decide as Ed.
      + destruct Ed as [_ [= ->]]. rewrite blk_rd_wr by lia. apply Z.mod_small. change (256 ^ Z.of_nat 4) with 4294967296. lia.
      + apply blk_rd_wr_ne; [lia|]. assert (b <> bn) by (intros ->; by apply Ed). lia.
    - rewrite decide_False by (by intros [? _]). destruct (A j !!! 12%nat =? 0) eqn:E0; bprop; [done|].
      unfold V'. by rewrite vset_ne by (by apply HR). }
  split.
  - apply (tree_slot V V' fb A _ F E _ i (Some bn)); try done; cst.
    + cbn. cst. lia.
    + destruct (Z.eq_dec (slot V (A i) (Some bn)) 0) as [|Hne]; [done|]. apply T6 in Hne; lia.
    + intros b Hb. unfold V'. destruct (decide (b = root)) as [->|]; [rewrite vset_eq|rewrite vset_ne by done; by apply T2].
      rewrite blk_wr_length; lia.
    + intros j b Hb Hne. unfold V'. rewrite vset_ne; [done|]. eapply (tree_apart _ _ _ _ _ i); [exact HT|done|done].
    + intros b Hb. unfold V'. rewrite vset_ne; [done|lia].
    + intros j b Hb. destruct (decide (j = i)) as [->|Hj]; [rewrite fn_lookup_insert|rewrite fn_lookup_insert_ne by done].
      * rewrite HE. split; [|intros [?|[_ [= <-]]]; lia]. intros Hlt. destruct (decide (b = bn)) as [->|]; [by right|left; lia].
      * split; [by left|]. by intros [?|[? _]].
  - specialize (HS i (Some bn)). rewrite decide_True in HS by done. apply HS. cbn. cst. lia.
Qed.

(** New contents for block [bn] of file [i]. *)
Lemma tree_write V fb A F F' E i bn buf :
  let x := fblk V (A i) bn in
  tree V fb A F E -> fb <= FSSIZE -> 0 <= bn < MAXFILE -> x <> 0 -> length buf = Z.to_nat BSIZE ->
  (forall j, j <> i -> F' j = F j) ->
  (forall y, 0 <= y < MAXFILE * BSIZE -> byte_at (F' i) y = if y / BSIZE =? bn then u8 (buf !!! Z.to_nat (y mod BSIZE)) else byte_at (F i) y) ->
  tree (vset V x buf) fb A F' E.
Proof.
  intros x HT Hfb Hbn Hx Hbuf HFo HF. pose proof HT as [T1 T2 T3 T4 T5 T6 T7 T8].
  pose proof (T4 i (Some bn) Hbn Hx) as Hxr. change (slot V (A i) (Some bn)) with x in Hxr. cst.
  assert (HS : forall j sl, slot_ok sl -> slot (vset V x buf) (A j) sl = slot V (A j) sl).
  { intros j [b|] Hok; cbn [slot slot_ok] in *; cst; [|done]. unfold fblk. cst. destruct (b <? 12); [done|].
    destruct (A j !!! 12%nat =? 0) eqn:E0; bprop; [done|]. rewrite vset_ne; [done|].
    apply not_eq_sym. exact (tree_apart _ _ _ _ _ j i bn HT Hbn Hx). }
  split; cst; try done.
  - intros b Hb. destruct (decide (b = x)) as [->|]; [by rewrite vset_eq|]. rewrite vset_ne by done. by apply T2.
  - intros j sl Hok. rewrite HS by done. by apply T4.
  - intros j j' sl sl' Hok Hok'. rewrite !HS by done. by apply T5.
  - intros j b Hb. rewrite HS by done. by apply T6.
  - intros b Hb. rewrite vset_ne by lia. by apply T7.
  - intros j y Hy. assert (Hb : 0 <= y / 1024 < 268) by zlia. unfold fbyte, cont.
    change (fblk (vset V x buf) (A j) (y / BSIZE)) with (slot (vset V x buf) (A j) (Some (y / 1024))). cst. rewrite HS by done.
    destruct (decide (j = i /\ y / 1024 = bn)) as [[-> Eb]|Hne].
    + rewrite HF, Eb, Z.eqb_refl by done. change (slot V (A i) (Some bn)) with x. rewrite (proj2 (Z.eqb_neq x 0)), vset_eq by done. done.
    + assert (byte_at (F' j) y = byte_at (F j) y) as ->.
      { destruct (decide (j = i)) as [->|]; [|by rewrite HFo]. rewrite HF by done. rewrite (proj2 (Z.eqb_neq _ bn)); [done|]. intros Eb; by apply Hne. }
      rewrite <- T8 by done. unfold fbyte, cont. change (slot V (A j) (Some (y / 1024))) with (fblk V (A j) (y / BSIZE)). cst.
      destruct (fblk V (A j) (y / 1024) =? 0) eqn:E0; bprop; [done|]. rewrite vset_ne; [done|]. intros Eq. apply Hne.
      destruct (T5 j i (Some (y / 1024)) (Some bn)) as [-> [= ->]]; done.
Qed.

(** Writing outside of the data blocks. *)
Lemma tree_meta V V' fb A F E :
  tree V fb A F E -> (forall b, nmeta <= b -> V' b = V b) -> (forall b, 0 <= b < FSSIZE -> length (V' b) = Z.to_nat BSIZE) ->
  tree V' fb A F E.
Proof.
  intros [T1 T2 T3 T4 T5 T6 T7 T8] HV HL.
  assert (HS : forall j sl, slot_ok sl -> slot V' (A j) sl = slot V (A j) sl).
  { intros j [b|] Hok; [|done]. cbn [slot]. unfold fblk. destruct (b <? NDIRECT); [done|].
    destruct (A j !!! Z.to_nat NDIRECT =? 0) eqn:E0; bprop; [done|]. rewrite HV; [done|]. pose proof (T4 j None I E0). cbn [slot] in *. lia. }
  split; try done.
  - intros j sl Hok. rewrite HS by done. by apply T4.
  - intros j j' sl sl' Hok Hok'. rewrite !HS by done. by apply T5.
  - intros j b Hb. rewrite HS by done. by apply T6.
  - intros b Hb. rewrite HV by lia. by apply T7.
  - intros j x Hx. rewrite <- T8 by done. cst. assert (Hb : 0 <= x / 1024 < 268) by zlia. unfold fbyte, cont. cst.
    change (fblk V' (A j) (x / 1024)) with (slot V' (A j) (Some (x / 1024))).
    change (fblk V (A j) (x / 1024)) with (slot V (A j) (Some (x / 1024))). rewrite HS by done.
    destruct (slot V (A j) (Some (x / 1024)) =? 0) eqn:E0; bprop; [done|]. rewrite HV; [done|]. by apply T4.
Qed.

(** ** The program's state *)

Lemma xint_id z : 0 <= z < 4294967296 -> xint z = z.
Proof. intros Hz. unfold xint, le_decode, u8. rewrite !Z.shiftr_div_pow2 by lia. zlia. Qed.

Lemma xshort_id z : 0 <= z < 65536 -> xshort z = z.
Proof. intros Hz. unfold xshort, le_decode, u8. rewrite !Z.shiftr_div_pow2 by lia. zlia. Qed.

Lemma IBLOCK_mk i : 0 <= i < NINODES -> IBLOCK i mk_sb = 32 + i / 16.
Proof. intros Hi. cst. unfold IBLOCK. change (sb_inodestart mk_sb) with 32. cst. rewrite u32_id; zlia. Qed.

Lemma img_pos_id b : 0 <= b < FSSIZE -> img_pos b = Z.to_nat b.
Proof. intros Hb. unfold img_pos. cst. rewrite u32_id by lia. by rewrite Z.div_mul. Qed.

Definition img_set (b : Z) (buf : list Z) (s : mkfs) : mkfs := set_img (<[Z.to_nat b := buf]> (m_img s)) s.

Lemma blocks_set b buf s : 0 <= b < FSSIZE -> length (m_img s) = IMGSIZE ->
  forall c, blocks (img_set b buf s) c = vset (blocks s) b buf c.
Proof.
  intros Hb Hl c. unfold vset, blocks, img_set. cbn [m_img set_img]. case_decide as E.
  - subst. rewrite (proj2 (Z.ltb_ge _ _)), list_lookup_insert_eq by (unfold IMGSIZE in Hl; lia). done.
  - destruct (c <? 0) eqn:Ec; bprop; [done|]. rewrite list_lookup_insert_ne by lia. done.
Qed.

Lemma wsect_run b buf s : 0 <= b < FSSIZE -> length (m_img s) = IMGSIZE -> wsect b buf s = Ok tt (img_set b buf s).
Proof.
  intros Hb Hl. unfold wsect, modify, img_set, img_write. rewrite img_pos_id by done.
  rewrite (proj2 (Nat.ltb_lt _ _)) by (unfold IMGSIZE in Hl; lia). done.
Qed.

Lemma rsect_run b s : 0 <= b < FSSIZE -> length (m_img s) = IMGSIZE -> rsect b s = Ok (blocks s b) s.
Proof.
  intros Hb Hl. unfold rsect. rewrite bind_gets, img_pos_id by done. unfold blocks.
  rewrite (proj2 (Z.ltb_ge _ _)) by lia. destruct (lookup_lt_is_Some_2 (m_img s) (Z.to_nat b)) as [x ->]; [unfold IMGSIZE in Hl; lia|done].
Qed.

(** [base] are the blocks before the inodes and the free map, [D] is the inode
    table, [A] are the addresses of the files' blocks. *)
Record inv (base : Z -> list Z) (s : mkfs) (n : Z) (D : Z -> dinode) (A F : Z -> list Z) (E : Z -> Z) : Prop := {
  iv_len : length (m_img s) = IMGSIZE;
  iv_next : freeinode s = n;
  iv_table : forall i, 0 <= i < NINODES -> inode_entry mk_sb (blocks s) i = D i;
  iv_base : forall b, 0 <= b < 32 \/ b = 45 -> blocks s b = base b;
  iv_tree : tree (blocks s) (freeblock s) A F E;
  iv_room : freeblock s <= FSSIZE
}.

(** No indirect block before it is needed. *)
Definition rooted (A : Z -> list Z) (E : Z -> Z) : Prop :=
  forall i, A i !!! Z.to_nat NDIRECT <> 0 -> NDIRECT * BSIZE < E i.

Lemma inv_inode_blocks base s n D A F E : inv base s n D A F E -> inode_blocks 2 LOGSIZE mk_sb (blocks s).
Proof.
  intros HI. change 200 with NINODES. split; [done|..]; intros i Hi; rewrite IBLOCK_mk by done; change (sb_ninodes mk_sb) with 200 in Hi.
  - unfold home. change LOGSIZE with 30. zlia.
  - apply (tr_len _ _ _ _ _ (iv_tree _ _ _ _ _ _ _ HI)). cst. zlia.
Qed.

Lemma winode_run base s n D A F E i d :
  inv base s n D A F E -> 0 <= i < NINODES -> dinode_ok d ->
  exists s', winode i d s = Ok tt s' /\ inv base s' n (<[i := d]> D) A F E /\ freeblock s' = freeblock s.
Proof.
  intros HI Hi Hd. pose proof (inv_inode_blocks _ _ _ _ _ _ _ HI) as HB. destruct HI as [I1 I2 I3 I4 I5 I6].
  pose proof (IBLOCK_mk i Hi) as EB. assert (Hb : 32 <= IBLOCK i mk_sb < 45) by (cst; zlia).
  set (buf := dinode_put d (dinode_off i) (blocks s (IBLOCK i mk_sb))).
  pose proof (tr_len _ _ _ _ _ I5 (IBLOCK i mk_sb) ltac:(cst; lia)) as Hl.
  assert (Hbuf : length buf = Z.to_nat BSIZE).
  { unfold buf. rewrite dinode_put_length; [done|done|]. rewrite Hl. exact (dinode_off_bound i). }
  assert (Hr : 0 <= IBLOCK i mk_sb < FSSIZE) by (cst; lia).
  exists (img_set (IBLOCK i mk_sb) buf s). split; [|split; [|done]].
  - unfold winode. cbv zeta. rewrite (run_bind _ _ _ _ _ (rsect_run _ s Hr I1)). by apply wsect_run.
  - pose proof (blocks_set (IBLOCK i mk_sb) buf s Hr I1) as HV. split.
    + cbn. by rewrite length_insert.
    + done.
    + intros j Hj. transitivity (inode_entry mk_sb (vset (blocks s) (IBLOCK i mk_sb) buf) j); [unfold inode_entry; by rewrite HV|].
      unfold buf. rewrite (inode_entry_put 2 LOGSIZE) by done. case_decide as Ej; [subst; by rewrite fn_lookup_insert|].
      rewrite fn_lookup_insert_ne by done. by apply I3.
    + intros b Hb'. rewrite HV, vset_ne by lia. by apply I4.
    + eapply tree_meta; [exact I5|..].
      * intros b Hb'. rewrite HV, vset_ne by (cst; lia). done.
      * intros b Hb'. rewrite HV. destruct (decide (b = IBLOCK i mk_sb)) as [->|]; [by rewrite vset_eq|].
        rewrite vset_ne by done. by apply (tr_len _ _ _ _ _ I5).
    + done.
Qed.

Lemma rinode_run base s n D A F E i :
  inv base s n D A F E -> 0 <= i < NINODES -> rinode i s = Ok (D i) s.
Proof.
  intros [I1 I2 I3 I4 I5 I6] Hi. unfold rinode. cbv zeta. pose proof (IBLOCK_mk i Hi).
  rewrite (run_bind _ _ _ (blocks s (IBLOCK i mk_sb)) s) by (apply rsect_run; [cst; zlia|done]).
  rewrite <- I3 by done. done.
Qed.

(** The table follows the inodes pointwise. *)
Lemma inv_ext base s n D D' A A' F F' E E' :
  inv base s n D A F E -> (forall i, 0 <= i < NINODES -> D' i = D i) -> (forall i, A' i = A i) -> (forall i, F' i = F i) -> (forall i, E' i = E i) ->
  inv base s n D' A' F' E'.
Proof.
  intros [I1 I2 I3 I4 I5 I6] HD HA HF HE. split; try done.
  - intros i Hi. rewrite HD by done. by apply I3.
  - eapply tree_ext; [exact I5|done..|]. intros. by rewrite HE.
Qed.

(** ** [iappend] *)

Definition with_addrs (a : list Z) (din : dinode) : dinode :=
  mkDinode (d_type din) (d_major din) (d_minor din) (d_nlink din) (d_size din) a.

Lemma next_block_run s : 0 <= freeblock s < FSSIZE -> next_block s = Ok (freeblock s) (set_freeblock (freeblock s + 1) s).
Proof. intros Hf. cst. unfold next_block. rewrite bind_gets, bind_modify, xint_id, u32_id by lia. done. Qed.

(** A change of the data blocks and of [freeblock]. *)
Lemma inv_tree base s n D A F E s' A' F' E' :
  inv base s n D A F E -> length (m_img s') = IMGSIZE -> freeinode s' = freeinode s ->
  (forall b, b < nmeta -> blocks s' b = blocks s b) ->
  tree (blocks s') (freeblock s') A' F' E' -> freeblock s' <= FSSIZE ->
  inv base s' n D A' F' E'.
Proof.
  intros [I1 I2 I3 I4 I5 I6] Hl Hn HV HT Hr. split; try done.
  - by rewrite Hn.
  - intros i Hi. rewrite <- I3 by done. unfold inode_entry. rewrite HV; [done|]. rewrite IBLOCK_mk by done. cst. zlia.
  - intros b Hb. rewrite HV by (cst; lia). by apply I4.
Qed.

Section append.
Context (base : Z -> list Z) (n : Z) (D : Z -> dinode) (F : Z -> list Z).

Lemma inv_direct s A E i bn :
  inv base s n D A F E -> 0 <= bn < NDIRECT -> E i = bn * BSIZE -> freeblock s < FSSIZE ->
  let A' := <[i := <[Z.to_nat bn := freeblock s]> (A i)]> A in
  inv base (set_freeblock (freeblock s + 1) s) n D A' F (<[i := bn * BSIZE + 1]> E) /\ fblk (blocks s) (A' i) bn = freeblock s.
Proof.
  intros HI Hbn HE Hr A'. destruct (tree_direct _ _ _ _ _ i bn (iv_tree _ _ _ _ _ _ _ HI) Hr Hbn HE) as [HT' Hf]. split.
  - eapply inv_tree; [exact HI|apply HI|done|done|exact HT'|cbn; cst; lia].
  - unfold A'. by rewrite fn_lookup_insert.
Qed.

Lemma inv_root s A E i :
  inv base s n D A F E -> A i !!! Z.to_nat NDIRECT = 0 -> freeblock s < FSSIZE ->
  let A' := <[i := <[Z.to_nat NDIRECT := freeblock s]> (A i)]> A in
  inv base (set_freeblock (freeblock s + 1) s) n D A' F E /\ A' i !!! Z.to_nat NDIRECT = freeblock s.
Proof.
  intros HI HR Hr A'. destruct (tree_root _ _ _ _ _ i (iv_tree _ _ _ _ _ _ _ HI) Hr HR) as [HT' Hf]. split.
  - eapply inv_tree; [exact HI|apply HI|done|done|exact HT'|cbn; cst; lia].
  - unfold A'. by rewrite fn_lookup_insert.
Qed.

Lemma inv_entry s A E i bn :
  inv base s n D A F E -> NDIRECT <= bn < MAXFILE -> A i !!! Z.to_nat NDIRECT <> 0 -> E i = bn * BSIZE -> freeblock s < FSSIZE ->
  let root := A i !!! Z.to_nat NDIRECT in
  let buf := blk_wr32 (4 * Z.to_nat (bn - NDIRECT)) (freeblock s) (blocks s root) in
  let s' := img_set root buf (set_freeblock (freeblock s + 1) s) in
  inv base s' n D A F (<[i := bn * BSIZE + 1]> E) /\ fblk (blocks s') (A i) bn = freeblock s.
Proof.
  intros HI Hbn Hroot HE Hr root buf s'. pose proof (iv_tree _ _ _ _ _ _ _ HI) as HT.
  destruct (tree_entry _ _ _ _ _ i bn HT Hr Hbn Hroot HE) as [HT' Hf]. fold root buf in HT', Hf.
  pose proof (tr_range _ _ _ _ _ HT i None I Hroot) as Hrr. cbn [slot] in Hrr. fold root in Hrr.
  pose proof (iv_len _ _ _ _ _ _ _ HI) as Hl.
  assert (HV : forall b, blocks s' b = vset (blocks s) root buf b).
  { apply (blocks_set root buf (set_freeblock (freeblock s + 1) s)); [cst; lia|exact Hl]. }
  split.
  - eapply inv_tree; [exact HI|cbn; by rewrite length_insert|done| | |cbn; cst; lia].
    + intros b Hb. rewrite HV, vset_ne by lia. done.
    + eapply tree_ext; [exact HT'|exact HV|done..].
  - rewrite <- Hf. apply fblk_proper; [exact HV|done..].
Qed.

Lemma need_next bn : 0 <= bn -> need (bn * 1024 + 1) = need (bn * 1024) + 1 + (if bn =? 12 then 1 else 0).
Proof.
  intros Hbn. unfold need. destruct (12288 <? bn * 1024 + 1) eqn:E1, (12288 <? bn * 1024) eqn:E2, (bn =? 12) eqn:E3; bprop; zlia.
Qed.

(** [file_block] gives the file its block [bn], the file has had all blocks before. *)
Definition block_got (s : mkfs) (A : Z -> list Z) (E : Z -> Z) (i bn : Z) (din : dinode) : Prop :=
  let e := Z.max (E i) (bn * BSIZE + 1) in
  exists s' A', file_block bn din s = Ok (with_addrs (A' i) din, fblk (blocks s') (A' i) bn) s' /\
    inv base s' n D A' F (<[i := e]> E) /\ rooted A' (<[i := e]> E) /\
    freeblock s' = freeblock s + need e - need (E i) /\ (forall j, j <> i -> A' j = A j).

Lemma slot_range s A E i sl :
  inv base s n D A F E -> slot_ok sl -> 0 <= slot (blocks s) (A i) sl < FSSIZE.
Proof.
  intros HI Hok. destruct (Z.eq_dec (slot (blocks s) (A i) sl) 0) as [->|Hne]; [cst; lia|].
  pose proof (tr_range _ _ _ _ _ (iv_tree _ _ _ _ _ _ _ HI) i sl Hok Hne). pose proof (iv_room _ _ _ _ _ _ _ HI). cst. lia.
Qed.

Lemma rooted_upd A A' E i e :
  rooted A E -> (forall j, j <> i -> A' j = A j) -> E i <= e -> (A' i !!! Z.to_nat NDIRECT = A i !!! Z.to_nat NDIRECT \/ NDIRECT * BSIZE < e) ->
  rooted A' (<[i := e]> E).
Proof.
  intros HR HA He Hr j Hne. destruct (decide (j = i)) as [->|Hj].
  - rewrite fn_lookup_insert. destruct Hr as [Hr|?]; [|done]. rewrite Hr in Hne. apply HR in Hne. lia.
  - rewrite fn_lookup_insert_ne by done. apply HR. by rewrite <- HA.
Qed.

Lemma with_addrs_same din : with_addrs (d_addrs din) din = din.
Proof. by destruct din. Qed.

Lemma file_block_old s A E i bn din :
  inv base s n D A F E -> rooted A E -> d_addrs din = A i -> 0 <= bn < MAXFILE -> bn * BSIZE < E i -> block_got s A E i bn din.
Proof.
  intros HI HR Hd Hbn HE. pose proof (iv_tree _ _ _ _ _ _ _ HI) as HT. unfold block_got. rewrite Z.max_l by lia.
  pose proof (proj2 (tr_has _ _ _ _ _ HT i bn Hbn) HE) as Hne. pose proof (slot_range s A E i (Some bn) HI Hbn) as Hr.
  pose proof (slot_range s A E i None HI I) as Hrr. cbn [slot] in *.
  exists s, A. split; [|split; [|split; [by eapply rooted_upd; eauto; lia|split; [lia|done]]]].
  - rewrite <- Hd, with_addrs_same. unfold file_block, d_addr. unfold fblk in *. rewrite Hd. cst.
    destruct (bn <? 12) eqn:E1.
    + rewrite xint_id, (proj2 (Z.eqb_neq _ _) Hne), bind_ret by lia. by rewrite Hd, xint_id by lia.
    + destruct (A i !!! 12%nat =? 0) eqn:E0; [by destruct Hne|].
      rewrite (xint_id (A i !!! 12%nat)), E0, bind_ret, Hd, xint_id by lia.
      rewrite (run_bind _ _ _ _ _ (rsect_run _ s Hrr (iv_len _ _ _ _ _ _ _ HI))). cbv zeta.
      rewrite (proj2 (Z.eqb_neq _ _) Hne), bind_ret. by rewrite xint_id by lia.
  - eapply inv_ext; try done. intros j. destruct (decide (j = i)) as [->|]; [by rewrite fn_lookup_insert|by rewrite fn_lookup_insert_ne].
Qed.

Lemma file_block_direct s A E i bn din :
  inv base s n D A F E -> rooted A E -> d_addrs din = A i -> 0 <= bn < NDIRECT -> E i = bn * BSIZE -> freeblock s < FSSIZE ->
  block_got s A E i bn din.
Proof.
  intros HI HR Hd Hbn HE Hr. pose proof (iv_tree _ _ _ _ _ _ _ HI) as HT. unfold block_got. rewrite HE, Z.max_r by lia.
  destruct (inv_direct s A E i bn HI Hbn HE Hr) as [HI' Hf]. cbv zeta in HI', Hf.
  assert (H0 : A i !!! Z.to_nat bn = 0).
  { cst. pose proof (tr_has _ _ _ _ _ HT i bn ltac:(cst; lia)) as Hh. cbn [slot] in Hh. unfold fblk in Hh. cst.
    rewrite (proj2 (Z.ltb_lt bn 12)) in Hh by lia. lia. }
  pose proof (tr_fb _ _ _ _ _ HT). pose proof (tr_addrs _ _ _ _ _ HT i) as Hl.
  exists (set_freeblock (freeblock s + 1) s), (<[i := <[Z.to_nat bn := freeblock s]> (A i)]> A).
  split; [|split; [done|split; [|split; [|by intros j Hj; rewrite fn_lookup_insert_ne]]]].
  - change (blocks (set_freeblock (freeblock s + 1) s)) with (blocks s). rewrite Hf, fn_lookup_insert.
    unfold file_block, d_addr. rewrite Hd, H0, (proj2 (Z.ltb_lt bn _)) by lia. change (xint 0 =? 0) with true. cbn match.
    erewrite run_bind by (erewrite run_bind by (apply next_block_run; cst; lia); reflexivity).
    unfold set_d_addr. cbn [d_addrs]. rewrite Hd, list_lookup_total_insert_eq, xint_id by (cst; lia). done.
  - eapply rooted_upd; [done|by intros j Hj; rewrite fn_lookup_insert_ne|lia|left].
    rewrite fn_lookup_insert, list_lookup_total_insert_ne by (cst; lia). done.
  - cst. cbn [freeblock set_freeblock]. rewrite need_next by lia. destruct (bn =? 12) eqn:E12; bprop; lia.
Qed.

(** With the indirect block there. *)
Lemma file_block_entry s A E i bn din :
  inv base s n D A F E -> d_addrs din = A i -> NDIRECT <= bn < MAXFILE -> A i !!! Z.to_nat NDIRECT <> 0 ->
  E i = bn * BSIZE -> freeblock s < FSSIZE ->
  exists s', file_block bn din s = Ok (with_addrs (A i) din, fblk (blocks s') (A i) bn) s' /\
    inv base s' n D A F (<[i := bn * BSIZE + 1]> E) /\ freeblock s' = freeblock s + 1.
Proof.
  intros HI Hd Hbn Hroot HE Hr. pose proof (iv_tree _ _ _ _ _ _ _ HI) as HT. pose proof (iv_len _ _ _ _ _ _ _ HI) as Hl.
  destruct (inv_entry s A E i bn HI Hbn Hroot HE Hr) as [HI' Hf]. cbv zeta in HI', Hf.
  eexists. split; [|split; [exact HI'|done]]. rewrite Hf, <- Hd, with_addrs_same. rewrite <- Hd in Hf, Hroot.
  assert (H0 : fblk (blocks s) (d_addrs din) bn = 0).
  { rewrite Hd. pose proof (tr_has _ _ _ _ _ HT i bn ltac:(cst; lia)) as Hh. cbn [slot] in Hh. lia. }
  pose proof (slot_range s A E i None HI I) as Hrr. cbn [slot] in Hrr. rewrite <- Hd in Hrr.
  pose proof (tr_len _ _ _ _ _ HT _ Hrr) as Hlen. pose proof (tr_fb _ _ _ _ _ HT) as Hfb.
  unfold file_block, d_addr. unfold fblk in H0. cst. rewrite (proj2 (Z.ltb_ge bn 12)) in * by lia.
  rewrite (proj2 (Z.eqb_neq _ 0) Hroot) in H0. rewrite (xint_id (d_addrs din !!! 12%nat)), (proj2 (Z.eqb_neq _ 0) Hroot), bind_ret by lia.
  rewrite (xint_id (d_addrs din !!! 12%nat)) by lia. rewrite (run_bind _ _ _ _ _ (rsect_run _ s Hrr Hl)). cbv zeta. rewrite H0, Z.eqb_refl.
  erewrite run_bind.
  2:{ erewrite run_bind by (apply next_block_run; cst; lia). cbv zeta. erewrite run_bind by (apply wsect_run; [exact Hrr|exact Hl]). reflexivity. }
  rewrite blk_rd_wr by lia. change (256 ^ Z.of_nat 4) with 4294967296. rewrite Z.mod_small, xint_id by lia. done.
Qed.

Lemma file_block_indirect s A E i bn din :
  inv base s n D A F E -> rooted A E -> d_addrs din = A i -> NDIRECT <= bn < MAXFILE -> E i = bn * BSIZE ->
  freeblock s + 1 + (if bn =? 12 then 1 else 0) <= FSSIZE -> block_got s A E i bn din.
Proof.
  intros HI HR Hd Hbn HE Hr. pose proof (iv_tree _ _ _ _ _ _ _ HI) as HT. unfold block_got. rewrite HE, Z.max_r by lia.
  destruct (Z.eq_dec (A i !!! Z.to_nat NDIRECT) 0) as [H0|Hroot].
  - assert (Eb : bn = 12).
    { destruct (Z.eq_dec bn 12) as [|Hne]; [done|]. exfalso. cst.
      pose proof (proj2 (tr_has _ _ _ _ _ HT i (bn - 1) ltac:(cst; lia)) ltac:(cst; lia)) as Hh. cbn [slot] in Hh. unfold fblk in Hh. cst.
      rewrite (proj2 (Z.ltb_ge (bn - 1) 12)), H0 in Hh by lia. done. }
    rewrite Eb in Hr. change (12 =? 12) with true in Hr. cbn match in Hr.
    destruct (inv_root s A E i HI H0) as [HI1 HR1]; [lia|]. cbv zeta in HI1, HR1.
    set (A1 := <[i := <[Z.to_nat NDIRECT := freeblock s]> (A i)]> A) in *. set (s1 := set_freeblock (freeblock s + 1) s) in *.
    pose proof (tr_fb _ _ _ _ _ HT) as Hfb.
    destruct (file_block_entry s1 A1 E i bn (with_addrs (A1 i) din) HI1) as (s' & R & HI' & Hf'); [done|done|rewrite HR1; cst; lia|done|cbn; lia|].
    exists s', A1. split; [|split; [done|split; [|split]]].
    + change (with_addrs (A1 i) (with_addrs (A1 i) din)) with (with_addrs (A1 i) din) in R. rewrite <- R.
      unfold file_block, d_addr. rewrite Hd, (proj2 (Z.ltb_ge bn _)), H0 by lia. change (xint 0 =? 0) with true. cbn match.
      erewrite run_bind by (erewrite run_bind by (apply next_block_run; cst; lia); reflexivity).
      cbn [with_addrs d_addrs]. rewrite HR1, (xint_id (freeblock s)), (proj2 (Z.eqb_neq (freeblock s) 0)) by (cst; lia).
      unfold A1. rewrite fn_lookup_insert. unfold set_d_addr, with_addrs. rewrite Hd. rewrite bind_ret. cbn [d_addrs].
      rewrite list_lookup_total_insert_eq by (rewrite (tr_addrs _ _ _ _ _ HT i); lia). rewrite (xint_id (freeblock s)) by (cst; lia). reflexivity.
    + eapply rooted_upd; [done|by intros j Hj; unfold A1; rewrite fn_lookup_insert_ne|lia|right; cst; lia].
    + rewrite Hf'. unfold s1. cbn [freeblock set_freeblock]. cst. rewrite need_next, Eb by lia. change (12 =? 12) with true. cbn match. lia.
    + intros j Hj. unfold A1. by rewrite fn_lookup_insert_ne.
  - assert (Hb : bn <> 12) by (intros ->; specialize (HR i Hroot); cst; lia).
    rewrite (proj2 (Z.eqb_neq bn 12) Hb) in Hr.
    destruct (file_block_entry s A E i bn din HI Hd Hbn Hroot HE) as (s' & R & HI' & Hf'); [lia|].
    exists s', A. split; [done|]. split; [done|]. split; [eapply rooted_upd; [done|done|lia|by left]|]. split; [|done].
    rewrite Hf'. cst. rewrite need_next, (proj2 (Z.eqb_neq bn 12) Hb) by lia. lia.
Qed.

Lemma file_block_run s A E i bn din :
  inv base s n D A F E -> rooted A E -> d_addrs din = A i -> 0 <= bn < MAXFILE -> bn * BSIZE <= E i ->
  freeblock s + need (Z.max (E i) (bn * BSIZE + 1)) - need (E i) <= FSSIZE -> block_got s A E i bn din.
Proof.
  intros HI HR Hd Hbn HE Hr. destruct (decide (bn * BSIZE < E i)) as [Hlt|Hge]; [by apply file_block_old|].
  assert (Ee : E i = bn * BSIZE) by lia. rewrite Ee, Z.max_r in Hr by lia. cst. rewrite need_next in Hr by lia.
  destruct (decide (bn < NDIRECT)); cst.
  - apply file_block_direct; try done; cst; [lia|]. destruct (bn =? 12) eqn:E12; lia.
  - apply file_block_indirect; try done; cst; lia.
Qed.
End append.

(** How many bytes each file has. *)
Definition extent (F : Z -> list Z) (i : Z) : Z := Z.of_nat (length (F i)).

Lemma need_block x bn : 0 <= bn -> bn * 1024 < x <= (bn + 1) * 1024 -> need x = bn + 1 + (if 12 <=? bn then 1 else 0).
Proof. intros Hb Hx. unfold need. destruct (12288 <? x) eqn:E1, (12 <=? bn) eqn:E2; bprop; zlia. Qed.

Lemma need_mono x y : 0 <= x <= y -> need x <= need y.
Proof. intros Hx. unfold need. destruct (12288 <? x) eqn:E1, (12288 <? y) eqn:E2; bprop; zlia. Qed.

Lemma byte_at_app l p x : 0 <= x ->
  byte_at (l ++ p) x = if x <? Z.of_nat (length l) then byte_at l x else byte_at p (x - Z.of_nat (length l)).
Proof.
  intros Hx. unfold byte_at. destruct (x <? Z.of_nat (length l)) eqn:E; bprop.
  - by rewrite lookup_app_l by lia.
  - rewrite lookup_app_r by lia. do 2 f_equal. lia.
Qed.

Lemma byte_at_end l x : Z.of_nat (length l) <= x -> byte_at l x = 0.
Proof. intros Hx. unfold byte_at. by rewrite lookup_ge_None_2 by lia. Qed.

Lemma byte_at_take l m x : 0 <= x < Z.of_nat m -> byte_at (take m l) x = byte_at l x.
Proof. intros Hx. unfold byte_at. by rewrite lookup_take_lt by lia. Qed.

Lemma bytes_byte_at l x : bytes l -> u8 (byte_at l x) = byte_at l x.
Proof.
  intros Hl. unfold byte_at. destruct (l !! Z.to_nat x) as [v|] eqn:E; [|done]. cbn [default from_option].
  pose proof (Forall_lookup_1 _ _ _ _ Hl E) as Hv. cbv beta in Hv. change (u8 v = v). unfold u8. apply Z.mod_small. lia.
Qed.

(** The block after the bytes of [p] that fit were copied into it. *)
Lemma append_block l p blk off n1 y :
  bytes p -> off = Z.of_nat (length l) -> 0 <= y -> length blk = Z.to_nat BSIZE ->
  n1 = Z.min (Z.of_nat (length p)) (BSIZE - off mod BSIZE) ->
  (forall z, 0 <= z -> z / BSIZE = off / BSIZE -> u8 (blk !!! Z.to_nat (z mod BSIZE)) = byte_at l z) ->
  byte_at (l ++ take (Z.to_nat n1) p) y =
    if y / BSIZE =? off / BSIZE then u8 (splice blk (Z.to_nat (off mod BSIZE)) (take (Z.to_nat n1) p) !!! Z.to_nat (y mod BSIZE))
    else byte_at l y.
Proof.
  intros Hp Ho Hy Hblk Hn1 Hb. cst. rewrite byte_at_app, <- Ho by done.
  assert (Hlt : length (take (Z.to_nat n1) p) = Z.to_nat n1) by (rewrite length_take; zlia).
  destruct (y / 1024 =? off / 1024) eqn:E; bprop.
  - rewrite list_lookup_total_alt. destruct (decide (off <= y < off + n1)) as [Hin|Hout].
    + rewrite (proj2 (Z.ltb_ge y off)) by lia. rewrite lookup_splice_in by zlia.
      rewrite <- (bytes_byte_at (take (Z.to_nat n1) p)) by (by apply Forall_take). unfold byte_at.
      replace (Z.to_nat (y mod 1024) - Z.to_nat (off mod 1024))%nat with (Z.to_nat (y - off)) by zlia.
      destruct (lookup_lt_is_Some_2 (take (Z.to_nat n1) p) (Z.to_nat (y - off))) as [v ->]; [lia|done].
    + rewrite lookup_splice_out by zlia. rewrite <- list_lookup_total_alt, Hb by done.
      destruct (y <? off) eqn:E1; bprop; [done|]. rewrite !byte_at_end; [done|lia|lia].
  - destruct (y <? off) eqn:E1; bprop; [done|]. rewrite !byte_at_end; [done|lia|zlia].
Qed.

Section grow_file.
Context (base : Z -> list Z) (n : Z) (D : Z -> dinode).

Lemma iappend_round s A F i p din :
  let off := extent F i in let n1 := Z.min (Z.of_nat (length p)) (BSIZE - off mod BSIZE) in
  inv base s n D A F (extent F) -> rooted A (extent F) -> d_addrs din = A i -> p <> [] -> bytes p ->
  off + Z.of_nat (length p) <= MAXFILE * BSIZE -> freeblock s + need (off + n1) - need off <= FSSIZE ->
  let F' := <[i := F i ++ take (Z.to_nat n1) p]> F in
  exists s' A', iappend_body (din, off, p) s = Ok (inl (with_addrs (A' i) din, off + n1, drop (Z.to_nat n1) p)) s' /\
    inv base s' n D A' F' (extent F') /\ rooted A' (extent F') /\
    freeblock s' = freeblock s + need (off + n1) - need off /\ (forall j, j <> i -> A' j = A j).
Proof.
  intros off n1 HI HR Hd Hp Hbp Hmax Hroom F'.
  assert (Hpl : 0 < Z.of_nat (length p)) by (destruct p; [done|cbn; lia]).
  assert (Ho : 0 <= off) by (unfold off, extent; lia).
  set (bn := off / BSIZE). assert (Hbn : 0 <= bn < MAXFILE /\ bn * BSIZE <= off < (bn + 1) * BSIZE) by (unfold bn; cst; zlia).
  assert (Hn1 : 0 < n1 <= Z.of_nat (length p) /\ off + n1 <= (bn + 1) * BSIZE) by (unfold n1, bn; cst; zlia).
  assert (Hneed : need (Z.max off (bn * BSIZE + 1)) = need (off + n1)).
  { cst. rewrite !(need_block _ bn) by lia. done. }
  destruct (file_block_run base n D F s A (extent F) i bn din HI HR Hd) as (s1 & A1 & R & HI1 & HR1 & Hf1 & HA1); [lia|fold off; lia|fold off; rewrite Hneed; done|].
  fold off in HI1, HR1, Hf1. rewrite Hneed in Hf1. set (x := fblk (blocks s1) (A1 i) bn) in *.
  pose proof (iv_tree _ _ _ _ _ _ _ HI1) as HT1. pose proof (iv_len _ _ _ _ _ _ _ HI1) as Hl1. pose proof (iv_room _ _ _ _ _ _ _ HI1) as Hr1.
  assert (Hx : x <> 0).
  { apply (tr_has _ _ _ _ _ HT1 i bn); [lia|]. rewrite fn_lookup_insert. lia. }
  pose proof (slot_range base n D F s1 A1 _ i (Some bn) HI1 ltac:(cbn; lia)) as Hxr. cbn [slot] in Hxr. fold x in Hxr.
  pose proof (tr_len _ _ _ _ _ HT1 x Hxr) as Hlx.
  set (buf := splice (blocks s1 x) (Z.to_nat (off mod BSIZE)) (take (Z.to_nat n1) p)).
  assert (Hlb : length buf = Z.to_nat BSIZE).
  { unfold buf. rewrite splice_length; [done|]. rewrite length_take, Hlx. unfold n1 in *. cst. zlia. }
  assert (HF' : F' i = F i ++ take (Z.to_nat n1) p) by (unfold F'; by rewrite fn_lookup_insert).
  assert (HE' : forall j, extent F' j = (<[i := off + n1]> (extent F)) j).
  { intros j. unfold extent at 1. destruct (decide (j = i)) as [->|Hj].
    - rewrite HF', fn_lookup_insert, length_app, length_take. unfold off, extent in *. lia.
    - unfold F'. by rewrite !fn_lookup_insert_ne by done. }
  assert (HT2 : tree (vset (blocks s1) x buf) (freeblock s1) A1 F' (extent F')).
  { apply (tree_ext (vset (blocks s1) x buf) _ (freeblock s1) A1 _ F' _ (<[i := Z.max off (bn * BSIZE + 1)]> (extent F)) _); [|done..|].
    - apply (tree_write (blocks s1) (freeblock s1) A1 F F' _ i bn buf); try done; [lia|intros j Hj; unfold F'; by rewrite fn_lookup_insert_ne|].
      intros y Hy. rewrite HF'. apply append_block; try done; [lia|]. intros z Hz Ez.
      rewrite <- (tr_byte _ _ _ _ _ HT1); [|cst; zlia]. unfold fbyte, cont. rewrite Ez. fold bn x. by rewrite (proj2 (Z.eqb_neq x 0)).
    - intros j b Hb. rewrite HE'. destruct (decide (j = i)) as [->|Hj]; [rewrite !fn_lookup_insert|by rewrite !fn_lookup_insert_ne]. cst. lia. }
  assert (HV : forall b, blocks (img_set x buf s1) b = vset (blocks s1) x buf b) by (by apply blocks_set).
  assert (Hxn : nmeta <= x) by (apply (tr_range _ _ _ _ _ HT1 i (Some bn)); [cbn; lia|done]).
  exists (img_set x buf s1), A1. split; [|split; [|split; [|split; [exact Hf1|exact HA1]]]].
  - unfold iappend_body. rewrite (proj2 (Z.ltb_lt _ _)) by lia. fold bn. rewrite (proj2 (Z.ltb_lt bn MAXFILE)) by lia. cbn [negb].
    rewrite (run_bind _ _ _ _ _ R). rewrite (run_bind _ _ _ _ _ (rsect_run x s1 Hxr Hl1)).
    assert (E1 : u32 ((bn + 1) * BSIZE - off) = BSIZE - off mod BSIZE) by (rewrite u32_id; unfold bn; cst; zlia).
    assert (E2 : u32 (off - bn * BSIZE) = off mod BSIZE) by (rewrite u32_id; unfold bn; cst; zlia).
    rewrite E1, E2. fold n1 buf. rewrite (run_bind _ _ _ _ _ (wsect_run x buf s1 Hxr Hl1)). rewrite u32_id by (cst; lia). reflexivity.
  - eapply inv_tree; [exact HI1|cbn; by rewrite length_insert|done| | |exact Hr1].
    + intros b Hb. rewrite HV, vset_ne by lia. done.
    + eapply tree_ext; [exact HT2|exact HV|done..].
  - intros j Hj. rewrite HE'. specialize (HR1 j Hj). destruct (decide (j = i)) as [->|Hne]; [rewrite fn_lookup_insert in *|by rewrite fn_lookup_insert_ne in *]. cst. lia.
Qed.

Lemma iappend_loop fuel : forall s A F i p din,
  let off := extent F i in
  inv base s n D A F (extent F) -> rooted A (extent F) -> d_addrs din = A i -> bytes p -> (length p < fuel)%nat ->
  off + Z.of_nat (length p) <= MAXFILE * BSIZE -> freeblock s + need (off + Z.of_nat (length p)) - need off <= FSSIZE ->
  let F' := <[i := F i ++ p]> F in
  exists s' A', loop_with fuel (din, off, p) iappend_body s = Ok (with_addrs (A' i) din, off + Z.of_nat (length p)) s' /\
    inv base s' n D A' F' (extent F') /\ rooted A' (extent F') /\
    freeblock s' = freeblock s + need (off + Z.of_nat (length p)) - need off /\ (forall j, j <> i -> A' j = A j).
Proof.
  induction fuel as [|fuel IH]; intros s A F i p din off HI HR Hd Hp Hfu Hmax Hroom F'; [lia|].
  cbn [loop_with]. destruct (decide (p = [])) as [->|Hne].
  - exists s, A. cbn [length]. assert (HF' : forall j, F' j = F j).
    { intros j. unfold F'. destruct (decide (j = i)) as [->|Hj]; [by rewrite fn_lookup_insert, app_nil_r|by rewrite fn_lookup_insert_ne]. }
    assert (HE' : forall j, extent F' j = extent F j) by (intros j; unfold extent; by rewrite HF').
    split; [|split; [by eapply inv_ext|split; [intros j Hj; rewrite HE'; by apply HR|split; [rewrite Z.add_0_r; lia|done]]]].
    rewrite <- Hd, with_addrs_same, Z.add_0_r. done.
  - set (n1 := Z.min (Z.of_nat (length p)) (BSIZE - off mod BSIZE)).
    assert (Hn1 : 0 < n1 <= Z.of_nat (length p)) by (destruct p; [done|]; unfold n1; cbn [length]; cst; zlia).
    assert (Ho : 0 <= off) by (unfold off, extent; lia).
    pose proof (need_mono (off + n1) (off + Z.of_nat (length p)) ltac:(lia)) as Hm.
    destruct (iappend_round s A F i p din HI HR Hd Hne Hp Hmax) as (s1 & A1 & R & HI1 & HR1 & Hf1 & HA1); [fold off n1; lia|].
    fold off n1 in R, HI1, HR1, Hf1. rewrite (run_bind _ _ _ _ _ R). cbn match.
    set (F1 := <[i := F i ++ take (Z.to_nat n1) p]> F) in *.
    assert (HF1 : F1 i = F i ++ take (Z.to_nat n1) p) by (unfold F1; by rewrite fn_lookup_insert).
    assert (HE1 : extent F1 i = off + n1) by (unfold extent; rewrite HF1, length_app, length_take; unfold off, extent; lia).
    assert (Hlp : Z.of_nat (length (drop (Z.to_nat n1) p)) = Z.of_nat (length p) - n1) by (rewrite length_drop; lia).
    destruct (IH s1 A1 F1 i (drop (Z.to_nat n1) p) (with_addrs (A1 i) din) HI1 HR1) as (s2 & A2 & R2 & HI2 & HR2 & Hf2 & HA2);
      rewrite ?HE1, ?Hlp; try done; [by apply Forall_drop|lia|lia|replace (off + n1 + (Z.of_nat (length p) - n1)) with (off + Z.of_nat (length p)) by lia; lia|].
    rewrite HE1, Hlp in R2, Hf2. replace (off + n1 + (Z.of_nat (length p) - n1)) with (off + Z.of_nat (length p)) in R2, Hf2 by lia.
    assert (HF2 : forall j, F' j = (<[i := F1 i ++ drop (Z.to_nat n1) p]> F1) j).
    { intros j. unfold F'. destruct (decide (j = i)) as [->|Hj].
      - rewrite !fn_lookup_insert, HF1, <- app_assoc, take_drop. done.
      - unfold F1. by rewrite !fn_lookup_insert_ne. }
    assert (HE2 : forall j, extent F' j = extent (<[i := F1 i ++ drop (Z.to_nat n1) p]> F1) j) by (intros j; unfold extent; by rewrite HF2).
    exists s2, A2. split; [exact R2|]. split; [by eapply inv_ext|]. split; [intros j Hj; rewrite HE2; by apply HR2|].
    split; [lia|]. intros j Hj. by rewrite HA2, HA1.
Qed.
End grow_file.

(** ** Files *)

Definition file_type (t : Z) : Prop := t = 0 \/ t = T_DIR \/ t = T_FILE.

(** The inode of file [i]. *)
Definition node (Ty : Z -> Z) (F A : Z -> list Z) (i : Z) : dinode :=
  mkDinode (Ty i) 0 0 (if Ty i =? 0 then 0 else 1) (extent F i) (A i).

(** The image holds the files [F] of the types [Ty]; [n] is the next inode. *)
Record image (base : Z -> list Z) (s : mkfs) (n : Z) (Ty : Z -> Z) (F A : Z -> list Z) : Prop := {
  im_inv : inv base s n (node Ty F A) A F (extent F);
  im_rooted : rooted A (extent F);
  im_types : forall i, file_type (Ty i);
  im_bytes : forall i, bytes (F i);
  im_size : forall i, extent F i <= MAXFILE * BSIZE
}.

Lemma inv_node_ok base s n D A F E Ty F' i :
  inv base s n D A F E -> file_type (Ty i) -> extent F' i <= MAXFILE * BSIZE -> dinode_ok (node Ty F' A i).
Proof.
  intros HI Ht He. pose proof (tr_addrs _ _ _ _ _ (iv_tree _ _ _ _ _ _ _ HI) i) as Hl.
  assert (HT : 0 <= Ty i <= 2) by (unfold file_type, T_DIR, T_FILE in Ht; lia).
  split; cbn [node d_type d_major d_minor d_nlink d_size d_addrs]; try lia.
  - destruct (Ty i =? 0); lia.
  - split; [unfold extent; lia|]. cst. lia.
  - apply Forall_lookup. intros k a Ha. apply list_lookup_total_correct in Ha as Ea. apply lookup_lt_Some in Ha. cst.
    destruct (decide (k = 12%nat)) as [->|].
    + pose proof (slot_range base n D F s A E i None HI I) as Hr. cbn [slot] in Hr. cst. lia.
    + pose proof (slot_range base n D F s A E i (Some (Z.of_nat k)) HI ltac:(cbn; cst; lia)) as Hr. cbn [slot] in Hr. unfold fblk in Hr. cst.
      rewrite (proj2 (Z.ltb_lt _ _)), Nat2Z.id in Hr by lia. lia.
Qed.

Lemma iappend_run base s n Ty F A i p :
  image base s n Ty F A -> 0 <= i < NINODES -> bytes p -> extent F i + Z.of_nat (length p) <= MAXFILE * BSIZE ->
  freeblock s + need (extent F i + Z.of_nat (length p)) - need (extent F i) <= FSSIZE ->
  exists s' A', iappend i p s = Ok tt s' /\ image base s' n Ty (<[i := F i ++ p]> F) A' /\
    freeblock s' = freeblock s + need (extent F i + Z.of_nat (length p)) - need (extent F i).
Proof.
  intros [HI HR HT HB HS] Hi Hp Hmax Hroom. set (F' := <[i := F i ++ p]> F).
  assert (Ho : 0 <= extent F i) by (unfold extent; lia).
  destruct (iappend_loop base n (node Ty F A) (S (length p)) s A F i p (node Ty F A i) HI HR) as (s1 & A1 & R1 & HI1 & HR1 & Hf1 & HA1); try done; [lia|].
  fold F' in HI1, HR1.
  assert (HF' : F' i = F i ++ p) by (unfold F'; by rewrite fn_lookup_insert).
  assert (HE' : extent F' i = extent F i + Z.of_nat (length p)) by (unfold extent; rewrite HF', length_app; lia).
  assert (Hok : dinode_ok (node Ty F' A1 i)) by (eapply inv_node_ok; [exact HI1|done|lia]).
  destruct (winode_run _ _ _ _ _ _ _ i _ HI1 Hi Hok) as (s2 & R2 & HI2 & Hf2).
  exists s2, A1. split; [|split; [|lia]].
  - unfold iappend. rewrite (run_bind _ _ _ _ _ (rinode_run _ _ _ _ _ _ _ _ HI Hi)).
    change (d_size (node Ty F A i)) with (extent F i). rewrite xint_id by (specialize (HS i); cst; lia).
    rewrite (run_bind _ _ _ _ _ R1). cbn match. rewrite xint_id by (cst; lia). rewrite <- HE'. exact R2.
  - split; [|done|done| |].
    + eapply inv_ext; [exact HI2|..|done|done|done]. intros j Hj. destruct (decide (j = i)) as [->|Hne]; [by rewrite fn_lookup_insert|].
      rewrite fn_lookup_insert_ne by done. unfold node. rewrite HA1 by done. f_equal. unfold extent, F'. by rewrite fn_lookup_insert_ne.
    + intros j. unfold F'. destruct (decide (j = i)) as [->|Hj]; [rewrite fn_lookup_insert; apply Forall_app; split; [apply HB|done]|by rewrite fn_lookup_insert_ne].
    + intros j. destruct (decide (j = i)) as [->|Hj]; [lia|]. unfold extent, F'. rewrite fn_lookup_insert_ne by done. apply HS.
Qed.

Lemma image_ext base s n Ty Ty' F F' A :
  image base s n Ty F A -> (forall i, Ty' i = Ty i) -> (forall i, F' i = F i) -> image base s n Ty' F' A.
Proof.
  intros [HI HR HT HB HS] ET EF. assert (EE : forall i, extent F' i = extent F i) by (intros i; unfold extent; by rewrite EF).
  split.
  - eapply inv_ext; [exact HI|..|done|done|done]. intros i Hi. unfold node. by rewrite ET, EE.
  - intros i Hne. rewrite EE. by apply HR.
  - intros i. by rewrite ET.
  - intros i. by rewrite EF.
  - intros i. by rewrite EE.
Qed.

(** A file without bytes has no blocks. *)
Lemma inv_no_addrs base s n D A F i : inv base s n D A F (extent F) -> rooted A (extent F) -> F i = [] -> A i = no_addrs.
Proof.
  intros HI HR HF. pose proof (iv_tree _ _ _ _ _ _ _ HI) as HT. pose proof (tr_addrs _ _ _ _ _ HT i) as Hl.
  assert (HE : extent F i = 0) by (unfold extent; by rewrite HF).
  apply list_eq_bounded; [by rewrite Hl|]. intros k Hk. rewrite Hl in Hk. cst.
  unfold no_addrs. rewrite lookup_replicate_2 by done. rewrite list_lookup_lookup_total_lt by lia. f_equal.
  destruct (Z.eq_dec (A i !!! k) 0) as [|Hne]; [done|]. exfalso. destruct (decide (k = 12%nat)) as [->|].
  - specialize (HR i). cst. specialize (HR Hne). lia.
  - pose proof (tr_has _ _ _ _ _ HT i (Z.of_nat k) ltac:(cst; lia)) as Hh. cbn [slot] in Hh. unfold fblk in Hh. cst.
    rewrite (proj2 (Z.ltb_lt _ _)), Nat2Z.id in Hh by lia. apply Hh in Hne. lia.
Qed.

Lemma ialloc_run base s n Ty F A t :
  image base s n Ty F A -> 0 <= n < NINODES -> F n = [] -> t = T_DIR \/ t = T_FILE ->
  exists s', Mkfs.ialloc t s = Ok n s' /\ image base s' (n + 1) (<[n := t]> Ty) F A /\ freeblock s' = freeblock s.
Proof.
  intros [HI HR HT HB HS] Hn HF Ht. pose proof (inv_no_addrs _ _ _ _ _ _ n HI HR HF) as HA.
  set (Ty' := <[n := t]> Ty). set (s0 := set_freeinode (n + 1) s).
  assert (HT' : forall i, file_type (Ty' i)).
  { intros i. unfold Ty'. destruct (decide (i = n)) as [->|]; [rewrite fn_lookup_insert; by right|by rewrite fn_lookup_insert_ne]. }
  assert (HE : extent F n = 0) by (unfold extent; by rewrite HF).
  assert (HI0 : inv base s0 (n + 1) (node Ty F A) A F (extent F)) by (destruct HI; by split).
  assert (Hok : dinode_ok (node Ty' F A n)) by (eapply inv_node_ok; [exact HI|done|rewrite HE; done]).
  destruct (winode_run _ _ _ _ _ _ _ n _ HI0 Hn Hok) as (s1 & R1 & HI1 & Hf1).
  assert (Hd : node Ty' F A n = mkDinode (s16 (xshort t)) 0 0 (s16 (xshort 1)) (xint 0) no_addrs).
  { unfold node, Ty'. rewrite fn_lookup_insert, HE, HA. by destruct Ht as [->| ->]. }
  exists s1. split; [|split; [|done]].
  - unfold Mkfs.ialloc. rewrite bind_gets, (iv_next _ _ _ _ _ _ _ HI), bind_modify. cst. rewrite u32_id by lia. fold s0. rewrite <- Hd.
    by rewrite (run_bind _ _ _ _ _ R1).
  - split; try done. eapply inv_ext; [exact HI1|..|done|done|done]. intros i Hi. destruct (decide (i = n)) as [->|Hne]; [by rewrite fn_lookup_insert|].
    rewrite fn_lookup_insert_ne by done. unfold node, Ty'. by rewrite fn_lookup_insert_ne.
Qed.

Lemma append_pieces_run base n Ty i pieces : forall s F A,
  image base s n Ty F A -> 0 <= i < NINODES -> Forall (fun p => p <> [] /\ bytes p) pieces ->
  extent F i + Z.of_nat (length (concat pieces)) <= MAXFILE * BSIZE ->
  freeblock s + need (extent F i + Z.of_nat (length (concat pieces))) - need (extent F i) <= FSSIZE ->
  exists s' A', append_pieces i pieces s = Ok tt s' /\ image base s' n Ty (<[i := F i ++ concat pieces]> F) A' /\
    freeblock s' = freeblock s + need (extent F i + Z.of_nat (length (concat pieces))) - need (extent F i).
Proof.
  induction pieces as [|p pieces IH]; intros s F A HM Hi HP Hmax Hroom.
  - exists s, A. cbn [concat length]. split; [done|]. split; [|rewrite Z.add_0_r; lia]. eapply image_ext; [exact HM|done|].
    intros j. destruct (decide (j = i)) as [->|]; [by rewrite fn_lookup_insert, app_nil_r|by rewrite fn_lookup_insert_ne].
  - apply Forall_cons in HP as [[Hp Hb] HP]. cbn [concat] in *. rewrite length_app in *.
    assert (Ho : 0 <= extent F i) by (unfold extent; lia).
    pose proof (need_mono (extent F i + Z.of_nat (length p)) (extent F i + Z.of_nat (length p + length (concat pieces))) ltac:(lia)) as Hm.
    destruct (iappend_run base s n Ty F A i p HM Hi Hb) as (s1 & A1 & R1 & HM1 & Hf1); [lia|lia|].
    set (F1 := <[i := F i ++ p]> F) in *.
    assert (HF1 : F1 i = F i ++ p) by (unfold F1; by rewrite fn_lookup_insert).
    assert (HE1 : extent F1 i = extent F i + Z.of_nat (length p)) by (unfold extent; rewrite HF1, length_app; lia).
    assert (Ea : extent F1 i + Z.of_nat (length (concat pieces)) = extent F i + Z.of_nat (length p + length (concat pieces))) by lia.
    destruct (IH s1 F1 A1 HM1 Hi HP) as (s2 & A2 & R2 & HM2 & Hf2); rewrite ?Ea; [done|rewrite HE1; lia|]. rewrite Ea, HE1 in Hf2.
    exists s2, A2. split; [|split; [|lia]].
    + destruct p; [done|]. cbn [append_pieces]. by rewrite (run_bind _ _ _ _ _ R1).
    + eapply image_ext; [exact HM2|done|]. intros j. destruct (decide (j = i)) as [->|Hj].
      * rewrite !fn_lookup_insert, HF1. by rewrite app_assoc.
      * unfold F1. by rewrite !fn_lookup_insert_ne.
Qed.

(** ** The arguments *)

(** The bytes of the file of an argument, and its name in the root directory. *)
Definition arg_data (arg : mkfs_arg) : list Z := concat (default [] arg.2).
Definition arg_name (arg : mkfs_arg) : list Z := skip_underscore (shortname arg.1).

Record arg_ok (arg : mkfs_arg) : Prop := {
  ao_open : exists pieces, arg.2 = Some pieces /\ Forall (fun p => p <> [] /\ bytes p) pieces;
  ao_slash : ~ 47 ∈ shortname arg.1;
  ao_path : bytes arg.1;
  ao_size : Z.of_nat (length (arg_data arg)) <= MAXFILE * BSIZE
}.

(** The entries of the root directory from inode [n] on. *)
Fixpoint dir_entries (n : Z) (args : list mkfs_arg) : list Z :=
  match args with
  | [] => []
  | arg :: args => mk_dirent n (arg_name arg) ++ dir_entries (n + 1) args
  end.

(** The blocks all files need. *)
Definition needs (args : list mkfs_arg) : Z := foldr (fun arg m => need (Z.of_nat (length (arg_data arg))) + m) 0 args.

Lemma mk_dirent_length n name : length (mk_dirent n name) = 16%nat.
Proof.
  unfold mk_dirent. rewrite length_app, le_encode_length, length_take, length_app, length_replicate.
  change (Z.to_nat DIRSIZ) with 14%nat. lia.
Qed.

Lemma mk_dirent_bytes n name : bytes name -> bytes (mk_dirent n name).
Proof.
  intros Hn. unfold mk_dirent. apply Forall_app. split; [apply le_encode_bytes|]. apply Forall_take, Forall_app. split; [done|].
  apply Forall_replicate. lia.
Qed.

Lemma arg_name_bytes arg : bytes arg.1 -> bytes (arg_name arg).
Proof.
  intros Hp. assert (Hs : bytes (shortname arg.1)) by (unfold shortname; case_bool_decide; [by apply Forall_drop|done]).
  unfold arg_name, skip_underscore. destruct (shortname arg.1) as [|c name]; [done|].
  apply Forall_cons in Hs as Hs'. destruct Hs' as [_ Ht].
  repeat (match goal with |- bytes (match ?x with _ => _ end) => destruct x end; try done).
Qed.

Lemma dir_entries_length n args : length (dir_entries n args) = (16 * length args)%nat.
Proof. revert n. induction args as [|arg args IH]; intros n; cbn [dir_entries length]; [done|]. rewrite length_app, mk_dirent_length, IH. lia. Qed.

Lemma need_pos n : 0 <= n -> 0 <= need n.
Proof. intros Hn. unfold need. destruct (12288 <? n); zlia. Qed.

Lemma needs_pos args : 0 <= needs args.
Proof. induction args as [|arg args IH]; cbn [needs foldr]; [done|]. fold (needs args). pose proof (need_pos (Z.of_nat (length (arg_data arg))) ltac:(lia)). lia. Qed.

(** The state of the abstract file system: the inodes from [n] on are free. *)
Definition fresh (n : Z) (Ty : Z -> Z) (F : Z -> list Z) : Prop := forall i, n <= i -> Ty i = 0 /\ F i = [].

(** One argument: a file with the bytes of the argument, and an entry in the root directory. *)
Lemma add_file_run base s n Ty F A arg :
  image base s n Ty F A -> 2 <= n < NINODES -> fresh n Ty F -> arg_ok arg ->
  let len := Z.of_nat (length (arg_data arg)) in
  extent F 1 + 16 <= MAXFILE * BSIZE -> freeblock s + need len + need (extent F 1 + 16) - need (extent F 1) <= FSSIZE ->
  let F' := <[n := arg_data arg]> (<[1 := F 1 ++ mk_dirent n (arg_name arg)]> F) in
  exists s' A', add_file 1 arg s = Ok tt s' /\ image base s' (n + 1) (<[n := T_FILE]> Ty) F' A' /\
    freeblock s' = freeblock s + need len + need (extent F 1 + 16) - need (extent F 1).
Proof.
  intros HM Hn HF [(pieces & Hop & HP) Hsl Hpa Hsz] len Hmax Hroom F'. cst.
  assert (H1 : 0 <= extent F 1) by (unfold extent; lia).
  pose proof (need_pos len ltac:(lia)) as Hlp. pose proof (need_mono (extent F 1) (extent F 1 + 16) ltac:(lia)) as Hm.
  destruct (ialloc_run base s n Ty F A T_FILE HM ltac:(cst; lia) (proj2 (HF n ltac:(lia))) (or_intror eq_refl)) as (s1 & R1 & HM1 & Hf1).
  assert (Hbd : bytes (mk_dirent n (arg_name arg))) by (by apply mk_dirent_bytes, arg_name_bytes).
  assert (HL : Z.of_nat (length (mk_dirent n (arg_name arg))) = 16) by (by rewrite mk_dirent_length).
  destruct (iappend_run base s1 (n + 1) _ F A 1 _ HM1 ltac:(cst; lia) Hbd) as (s2 & A2 & R2 & HM2 & Hf2); rewrite ?HL; [cst; lia|cst; lia|].
  rewrite HL in Hf2. set (F2 := <[1 := F 1 ++ mk_dirent n (arg_name arg)]> F) in *.
  assert (HFn : F2 n = []) by (unfold F2; rewrite fn_lookup_insert_ne by lia; by apply HF; lia).
  assert (HEn : extent F2 n = 0) by (unfold extent; by rewrite HFn).
  assert (Hd : concat pieces = arg_data arg) by (unfold arg_data; by rewrite Hop).
  destruct (append_pieces_run base (n + 1) _ n pieces s2 F2 A2 HM2 ltac:(cst; lia) HP) as (s3 & A3 & R3 & HM3 & Hf3);
    rewrite ?Hd, ?HEn, ?Z.add_0_l; fold len; [cst; lia|change (need 0) with 0; cst; lia|].
  rewrite Hd, HEn in Hf3. fold len in Hf3. change (need 0) with 0 in Hf3. rewrite Z.add_0_l in Hf3.
  exists s3, A3. split; [|split; [|lia]].
  - unfold add_file. rewrite bool_decide_eq_false_2 by done. rewrite Hop. rewrite (run_bind _ _ _ _ _ R1).
    change (skip_underscore (shortname arg.1)) with (arg_name arg). by rewrite (run_bind _ _ _ _ _ R2).
  - rewrite HFn, Hd in HM3. exact HM3.
Qed.

(** The files and types after the arguments [args], the first of which gets inode [n]. *)
Fixpoint files_with (n : Z) (args : list mkfs_arg) (F : Z -> list Z) : Z -> list Z :=
  match args with
  | [] => F
  | arg :: args => files_with (n + 1) args (<[n := arg_data arg]> (<[1 := F 1 ++ mk_dirent n (arg_name arg)]> F))
  end.

Fixpoint types_with (n : Z) (args : list mkfs_arg) (Ty : Z -> Z) : Z -> Z :=
  match args with
  | [] => Ty
  | arg :: args => types_with (n + 1) args (<[n := T_FILE]> Ty)
  end.

Lemma add_files_run base args : forall s n Ty F A,
  image base s n Ty F A -> 2 <= n -> n + Z.of_nat (length args) <= NINODES -> fresh n Ty F -> Forall arg_ok args ->
  let dir := extent F 1 + 16 * Z.of_nat (length args) in
  dir <= MAXFILE * BSIZE -> freeblock s + needs args + need dir - need (extent F 1) <= FSSIZE ->
  exists s' A', for_all args (add_file 1) s = Ok tt s' /\
    image base s' (n + Z.of_nat (length args)) (types_with n args Ty) (files_with n args F) A' /\
    freeblock s' = freeblock s + needs args + need dir - need (extent F 1).
Proof.
  induction args as [|arg args IH]; intros s n Ty F A HM Hn Hmax HF HA dir Hdir Hroom.
  - exists s, A. split; [done|]. cbn [length Z.of_nat types_with files_with needs foldr] in *. subst dir. rewrite !Z.add_0_r. split; [done|lia].
  - apply Forall_cons in HA as [Ha HA]. cbn [for_all types_with files_with]. cbn [length needs foldr] in Hmax, Hroom, dir |- *. fold (needs args) in *.
    assert (H1 : 0 <= extent F 1) by (unfold extent; lia). pose proof (needs_pos args) as Hnp.
    pose proof (need_mono (extent F 1 + 16) dir ltac:(lia)) as Hm. cst.
    destruct (add_file_run base s n Ty F A arg HM ltac:(cst; lia) HF Ha) as (s1 & A1 & R1 & HM1 & Hf1); [cst; lia|cst; lia|].
    set (F1 := <[n := arg_data arg]> (<[1 := F 1 ++ mk_dirent n (arg_name arg)]> F)) in *.
    assert (HE1 : extent F1 1 = extent F 1 + 16).
    { unfold extent, F1. rewrite fn_lookup_insert_ne, fn_lookup_insert, length_app, mk_dirent_length by lia. lia. }
    assert (HF1 : fresh (n + 1) (<[n := T_FILE]> Ty) F1).
    { intros i Hi. unfold F1. rewrite !fn_lookup_insert_ne by lia. apply HF. lia. }
    assert (Ed : extent F1 1 + 16 * Z.of_nat (length args) = dir) by lia.
    destruct (IH s1 (n + 1) _ F1 A1 HM1) as (s2 & A2 & R2 & HM2 & Hf2); rewrite ?Ed, ?HE1; try done; [lia|cst; lia|cst; lia|].
    rewrite Ed, HE1 in Hf2. exists s2, A2. split; [by rewrite (run_bind _ _ _ _ _ R1)|].
    split; [|lia]. replace (n + Z.of_nat (S (length args))) with (n + 1 + Z.of_nat (length args)) by lia. exact HM2.
Qed.

(** Directory, files and types, one by one. *)
Lemma files_with_dir args : forall n F, 2 <= n -> files_with n args F 1 = F 1 ++ dir_entries n args.
Proof.
  induction args as [|arg args IH]; intros n F Hn; cbn [files_with dir_entries]; [by rewrite app_nil_r|].
  rewrite IH by lia. rewrite fn_lookup_insert_ne, fn_lookup_insert by lia. by rewrite <- app_assoc.
Qed.

Lemma files_with_old args : forall n F i, i <> 1 -> i < n \/ n + Z.of_nat (length args) <= i -> files_with n args F i = F i.
Proof.
  induction args as [|arg args IH]; intros n F i H1 Hi; cbn [files_with length] in *; [done|].
  rewrite IH by lia. rewrite !fn_lookup_insert_ne by lia. done.
Qed.

Lemma files_with_new args : forall n F k arg, 2 <= n -> args !! k = Some arg -> files_with n args F (n + Z.of_nat k) = arg_data arg.
Proof.
  induction args as [|arg' args IH]; intros n F k arg Hn Hk; [done|]. cbn [files_with]. destruct k as [|k].
  - injection Hk as ->. rewrite Z.add_0_r, files_with_old by lia. by rewrite fn_lookup_insert.
  - replace (n + Z.of_nat (S k)) with (n + 1 + Z.of_nat k) by lia. apply IH; [lia|done].
Qed.

Lemma types_with_eq args : forall n Ty i,
  types_with n args Ty i = if decide (n <= i < n + Z.of_nat (length args)) then T_FILE else Ty i.
Proof.
  induction args as [|arg args IH]; intros n Ty i; cbn [types_with length]; [by rewrite decide_False by lia|].
  rewrite IH. destruct (decide (i = n)) as [->|Hne].
  - rewrite decide_False, fn_lookup_insert, decide_True by lia. done.
  - rewrite fn_lookup_insert_ne by done. case_decide; case_decide; done || lia.
Qed.
