(* ===== verification/MkfsImage.v ===== *)
(** * What mkfs leaves for the kernel

    mkfs ends with a whole image if its arguments fit; the image satisfies
    what kernel/fs.c relies on, its files have the bytes of the arguments, and
    the root directory names them. *)

From stdpp Require Import functions.
From S2P Require Export MkfsSpec.

(** ** The empty image *)

Definition sb_block : list Z := splice zero_block 0 (sb_bytes mk_sb).
Definition base0 : Z -> list Z := vset (fun _ => zero_block) 1 sb_block.

Lemma zero_image k : forall s, (length (m_img s) + k <= IMGSIZE)%nat ->
  for_all (seqZ (Z.of_nat (length (m_img s))) (Z.of_nat k)) (fun i => wsect i zero_block) s =
    Ok tt (set_img (m_img s ++ replicate k zero_block) s).
Proof.
  induction k as [|k IH]; intros s Hl.
  - cbn [replicate]. rewrite app_nil_r. by destruct s.
  - rewrite seqZ_cons by lia. cbn [for_all].
    assert (R : wsect (Z.of_nat (length (m_img s))) zero_block s = Ok tt (set_img (m_img s ++ [zero_block]) s)).
    { unfold wsect, modify, img_write. unfold IMGSIZE in Hl. rewrite img_pos_id by lia. rewrite Nat2Z.id, Nat.ltb_irrefl, Nat.sub_diag. done. }
    rewrite (run_bind _ _ _ _ _ R). set (s1 := set_img (m_img s ++ [zero_block]) s) in *.
    assert (Hl1 : length (m_img s1) = S (length (m_img s))) by (unfold s1; cbn; rewrite length_app; cbn; lia).
    replace (Z.succ (Z.of_nat (length (m_img s)))) with (Z.of_nat (length (m_img s1))) by lia.
    replace (Z.pred (Z.of_nat (S k))) with (Z.of_nat k) by lia. rewrite IH by lia.
    unfold s1. cbn [m_img set_img replicate]. rewrite <- app_assoc. done.
Qed.

Lemma blk_rd_zero w o : (o + w <= 1024)%nat -> blk_rd w zero_block o = 0.
Proof.
  intros Ho. unfold blk_rd. assert (E : take w (drop o zero_block) = replicate w 0).
  { unfold zero_block. rewrite drop_replicate, take_replicate. f_equal. change (Z.to_nat BSIZE) with 1024%nat. lia. }
  rewrite E. clear. induction w as [|w IH]; [done|]. cbn [replicate le_decode]. by rewrite IH.
Qed.

Lemma dinode_get_zero i : dinode_get zero_block (dinode_off i) = mkDinode 0 0 0 0 0 no_addrs.
Proof.
  pose proof (dinode_off_bound i) as Hb. unfold dinode_get. rewrite !blk_rd_zero by lia. f_equal.
  apply list_eq_bounded; [by rewrite length_fmap, length_seq|]. intros k Hk. rewrite length_fmap, length_seq in Hk.
  change (Z.to_nat NDIRECT + 1)%nat with 13%nat in *. rewrite list_lookup_fmap, lookup_seq_lt by done. cbn [fmap option_fmap option_map].
  unfold no_addrs. rewrite lookup_replicate_2 by done. f_equal. apply blk_rd_zero. lia.
Qed.

Definition no_files : Z -> list Z := fun _ => [].
Definition no_types : Z -> Z := fun _ => 0.

Lemma sb_block_length : length sb_block = Z.to_nat BSIZE.
Proof. done. Qed.

Lemma sb_decode_block : sb_decode sb_block = mk_sb.
Proof. by vm_compute. Qed.

(** After the super block is written. *)
Lemma empty_image s :
  length (m_img s) = IMGSIZE -> (forall b, 0 <= b < FSSIZE -> blocks s b = base0 b) -> freeinode s = 1 -> freeblock s = nmeta ->
  image base0 s 1 no_types no_files (fun _ => no_addrs).
Proof.
  intros Hl HV Hn Hf.
  assert (H0 : forall k, (k < 13)%nat -> no_addrs !!! k = 0) by (intros k Hk; by apply lookup_total_replicate_2).
  assert (HB : forall bn, 0 <= bn < MAXFILE -> fblk (blocks s) no_addrs bn = 0).
  { intros bn Hbn. unfold fblk. cst. rewrite (H0 12%nat) by lia. destruct (bn <? 12) eqn:E; bprop; [apply H0; lia|done]. }
  assert (HS : forall sl, slot_ok sl -> slot (blocks s) no_addrs sl = 0).
  { intros [bn|] Hok; [by apply HB|]. apply H0. cst. lia. }
  split; [split|..].
  - done.
  - done.
  - intros i Hi. unfold inode_entry. rewrite HV by (rewrite IBLOCK_mk by done; cst; zlia).
    unfold base0. rewrite vset_ne by (rewrite IBLOCK_mk by done; cst; zlia). apply dinode_get_zero.
  - intros b Hb. apply HV. cst. lia.
  - rewrite Hf. split; try done.
    + intros b Hb. rewrite HV by done. unfold base0. destruct (decide (b = 1)) as [->|]; [by rewrite vset_eq|by rewrite vset_ne].
    + intros i sl Hok Hne. by rewrite HS in Hne.
    + intros i j sl sl' Hok _ _ Hne. by rewrite HS in Hne.
    + intros i bn Hbn. rewrite HS by done. cst. change (extent no_files i) with 0. lia.
    + intros b Hb. cst. rewrite HV by (cst; lia). unfold base0. by rewrite vset_ne by lia.
    + intros i x Hx. unfold fbyte, cont. rewrite HB by (cst; zlia). cbn [Z.eqb].
      destruct (zero_block_byte (Z.to_nat (x mod BSIZE))) as [->|?]; [done|]. exfalso. cst. zlia.
  - rewrite Hf. cst. lia.
  - intros i. rewrite H0 by (cst; lia). done.
  - intros i. by left.
  - intros i. constructor.
  - intros i. done.
Qed.

(** ** The free map *)

Lemma first_bits_spec u : Z.of_nat u <= 8192 ->
  length (first_bits u) = Z.to_nat BSIZE /\ forall j, Z.of_nat j < 8192 -> bit_set (first_bits u) j = (j <? u)%nat.
Proof.
  unfold first_bits. induction u as [|u IH]; intros Hu.
  - split; [done|]. intros j Hj. cbn [seq fold_left]. unfold bit_set. rewrite (proj2 (Nat.ltb_ge j 0)) by lia.
    unfold zero_block. rewrite lookup_total_replicate_2; [done|]. change (Z.to_nat BSIZE) with 1024%nat. apply Nat.Div0.div_lt_upper_bound. lia.
  - destruct IH as [Hl Hb]; [lia|]. rewrite seq_S, fold_left_app. cbn [Nat.add fold_left]. rewrite mark_used_length.
    split; [done|]. intros j Hj. assert (Hu8 : (u / 8 < 1024)%nat) by (apply Nat.Div0.div_lt_upper_bound; lia).
    rewrite bit_mark_used, Hb by (done || by rewrite Hl).
    case_decide as E; [subst; symmetry; apply Nat.ltb_lt; lia|].
    destruct (Nat.ltb_spec j u), (Nat.ltb_spec j (S u)); done || lia.
Qed.

Lemma mkfs_balloc_run base s n D A F E u :
  inv base s n D A F E -> 0 <= u < 8192 ->
  exists s', Mkfs.balloc u s = Ok tt s' /\ inv (vset base 45 (first_bits (Z.to_nat u))) s' n D A F E /\ freeblock s' = freeblock s.
Proof.
  intros [I1 I2 I3 I4 I5 I6] Hu. destruct (first_bits_spec (Z.to_nat u)) as [Hl _]; [lia|].
  assert (H45 : 0 <= 45 < FSSIZE) by (cst; lia).
  exists (img_set 45 (first_bits (Z.to_nat u)) s). split; [|split; [|done]].
  - unfold Mkfs.balloc. change (BSIZE * 8) with 8192. rewrite (proj2 (Z.ltb_lt u 8192)) by lia. cbn [negb].
    change (sb_bmapstart mk_sb) with 45. by apply wsect_run.
  - pose proof (blocks_set 45 (first_bits (Z.to_nat u)) s H45 I1) as HV. split; try done.
    + cbn. by rewrite length_insert.
    + intros i Hi. rewrite <- I3 by done. unfold inode_entry. rewrite HV, vset_ne; [done|]. rewrite IBLOCK_mk by done. cst. zlia.
    + intros b Hb. rewrite HV. destruct (decide (b = 45)) as [->|]; [by rewrite !vset_eq|]. rewrite !vset_ne by done. by apply I4.
    + eapply tree_meta; [exact I5|..].
      * intros b Hb. rewrite HV, vset_ne by (cst; lia). done.
      * intros b Hb. rewrite HV. destruct (decide (b = 45)) as [->|]; [by rewrite vset_eq|]. rewrite vset_ne by done. by apply (tr_len _ _ _ _ _ I5).
Qed.

(** ** [main] *)

Record args_ok (args : list mkfs_arg) : Prop := {
  go_args : Forall arg_ok args;
  go_inodes : 2 + Z.of_nat (length args) <= NINODES;
  go_blocks : nmeta + needs args + need (32 + 16 * Z.of_nat (length args)) <= FSSIZE
}.

Definition dots : list Z := mk_dirent 1 [46] ++ mk_dirent 1 [46; 46].
Definition dir_data (args : list mkfs_arg) : list Z := dots ++ dir_entries 2 args.

Definition files (args : list mkfs_arg) : Z -> list Z := files_with 2 args (<[1 := dots]> no_files).
Definition types (args : list mkfs_arg) : Z -> Z := types_with 2 args (<[1 := T_DIR]> no_types).

(** The size [main] leaves in the root directory. *)
Definition dir_size (args : list mkfs_arg) : Z := (extent (files args) 1 / BSIZE + 1) * BSIZE.

Definition final_nodes (args : list mkfs_arg) (A : Z -> list Z) : Z -> dinode :=
  <[1 := set_d_size (dir_size args) (node (types args) (files args) A 1)]> (node (types args) (files args) A).

Lemma root_extent args : extent (files args) 1 = 32 + 16 * Z.of_nat (length args).
Proof.
  unfold extent, files. rewrite files_with_dir, fn_lookup_insert, length_app, dir_entries_length by lia. unfold dots.
  rewrite length_app, !mk_dirent_length. lia.
Qed.

(** The root directory, with its first two entries. *)
Lemma main_root s :
  image base0 s 1 no_types no_files (fun _ => no_addrs) -> freeblock s = nmeta ->
  exists s0 s1 s' A', Mkfs.ialloc T_DIR s = Ok 1 s0 /\ iappend 1 (mk_dirent 1 [46]) s0 = Ok tt s1 /\
    iappend 1 (mk_dirent 1 [46; 46]) s1 = Ok tt s' /\
    image base0 s' 2 (<[1 := T_DIR]> no_types) (<[1 := dots]> no_files) A' /\ freeblock s' = nmeta + need 32.
Proof.
  intros HM Hf. cst. destruct (ialloc_run _ _ _ _ _ _ T_DIR HM ltac:(cst; lia) eq_refl (or_introl eq_refl)) as (s0 & R0 & HM0 & Hf0).
  assert (HL : forall name, Z.of_nat (length (mk_dirent 1 name)) = 16) by (intros; by rewrite mk_dirent_length).
  assert (Hb : forall name, bytes name -> bytes (mk_dirent 1 name)) by (intros; by apply mk_dirent_bytes).
  destruct (iappend_run _ _ _ _ _ _ 1 (mk_dirent 1 [46]) HM0) as (s1 & A1 & R1 & HM1 & Hf1); rewrite ?HL;
    [cst; lia|apply Hb; by apply (bool_decide_unpack _)|change (extent no_files 1) with 0; cst; lia|change (extent no_files 1) with 0; change (need (0 + 16)) with 1; change (need 0) with 0; cst; lia|].
  rewrite HL in Hf1. change (extent no_files 1) with 0 in Hf1. change (need (0 + 16)) with 1 in Hf1. change (need 0) with 0 in Hf1.
  set (F1 := <[1 := no_files 1 ++ mk_dirent 1 [46]]> no_files) in *.
  assert (HE1 : extent F1 1 = 16) by (unfold extent, F1; rewrite fn_lookup_insert; apply HL).
  destruct (iappend_run _ _ _ _ _ _ 1 (mk_dirent 1 [46; 46]) HM1) as (s2 & A2 & R2 & HM2 & Hf2); rewrite ?HL, ?HE1;
    [cst; lia|apply Hb; by apply (bool_decide_unpack _)|cst; lia|change (need (16 + 16)) with 1; change (need 16) with 1; cst; lia|].
  rewrite HL, HE1 in Hf2. change (need (16 + 16)) with 1 in Hf2. change (need 16) with 1 in Hf2.
  exists s0, s1, s2, A2. split_and!; [done|done|done| |change (need 32) with 1; cst; lia].
  eapply image_ext; [exact HM2|done|]. intros i. destruct (decide (i = 1)) as [->|Hi].
  - rewrite !fn_lookup_insert. unfold F1. rewrite fn_lookup_insert. done.
  - unfold F1. by rewrite !fn_lookup_insert_ne.
Qed.

(** The zeroed blocks and the super block. *)
Lemma main_start :
  exists s0 s1, for_all (seqZ 0 FSSIZE) (fun i => wsect i zero_block) (set_freeblock nmeta mkfs0) = Ok tt s0 /\
    wsect 1 sb_block s0 = Ok tt s1 /\ image base0 s1 1 no_types no_files (fun _ => no_addrs) /\ freeblock s1 = nmeta.
Proof.
  set (s0 := set_img (replicate IMGSIZE zero_block) (set_freeblock nmeta mkfs0)).
  assert (Hl0 : length (m_img s0) = IMGSIZE) by (unfold s0; cbn [m_img set_img]; apply length_replicate).
  assert (R0 : for_all (seqZ 0 FSSIZE) (fun i => wsect i zero_block) (set_freeblock nmeta mkfs0) = Ok tt s0).
  { exact (zero_image IMGSIZE (set_freeblock nmeta mkfs0) ltac:(cbn; lia)). }
  set (s1 := img_set 1 sb_block s0).
  assert (R1 : wsect 1 sb_block s0 = Ok tt s1) by (apply wsect_run; [cst; lia|done]).
  assert (HM1 : image base0 s1 1 no_types no_files (fun _ => no_addrs)).
  { apply empty_image; [unfold s1; cbn [m_img set_img img_set]; rewrite length_insert; exact Hl0| |done|done]. intros b Hb.
    unfold s1. rewrite (blocks_set 1 sb_block s0 ltac:(cst; lia) Hl0). unfold base0, vset. case_decide; [done|].
    unfold blocks, s0. cbn [m_img set_img]. rewrite (proj2 (Z.ltb_ge b 0)) by lia. rewrite lookup_replicate_2 by (unfold IMGSIZE; lia). done. }
  exists s0, s1. split; [exact R0|]. split; [exact R1|]. split; [exact HM1|reflexivity].
Qed.

Lemma main_run args :
  args_ok args ->
  exists s A, main args mkfs0 = Ok tt s /\
    inv (vset base0 45 (first_bits (Z.to_nat (freeblock s)))) s (2 + Z.of_nat (length args)) (final_nodes args A) A (files args) (extent (files args)) /\
    rooted A (extent (files args)) /\ (forall i, extent (files args) i <= MAXFILE * BSIZE) /\ freeblock s = nmeta + needs args + need (32 + 16 * Z.of_nat (length args)).
Proof.
  intros [HA Hin Hblk]. cst.
  destruct main_start as (s0 & s1 & R0 & R1 & HM1 & Hf1).
  destruct (main_root s1 HM1 Hf1) as (s2 & s3 & s4 & A4 & R2 & R3 & R4 & HM4 & Hf4).
  assert (Hdot : extent (<[1 := dots]> no_files) 1 = 32) by (unfold extent; rewrite fn_lookup_insert; done).
  pose proof (needs_pos args) as Hnp.
  assert (Hfr : fresh 2 (<[1 := T_DIR]> no_types) (<[1 := dots]> no_files)).
  { intros i Hi. rewrite !fn_lookup_insert_ne by lia. done. }
  change (need 32) with 1 in Hf4.
  destruct (add_files_run base0 args s4 2 _ _ _ HM4 ltac:(lia) ltac:(cst; lia) Hfr HA) as (s5 & A5 & R5 & HM5 & Hf5); rewrite ?Hdot;
    [cst; lia|change (need 32) with 1; cst; lia|].
  rewrite Hdot in Hf5. change (need 32) with 1 in Hf5. fold (files args) (types args) in HM5. destruct HM5 as [HI5 HR5 HT5 HB5 HS5].
  pose proof (root_extent args) as Hre.
  assert (Hds : 0 <= dir_size args <= 268 * 1024) by (unfold dir_size; rewrite Hre; cst; zlia).
  set (d := set_d_size (dir_size args) (node (types args) (files args) A5 1)).
  assert (Hd : dinode_ok d).
  { destruct (inv_node_ok _ _ _ _ _ _ _ (types args) (files args) 1 HI5 (HT5 1) (HS5 1)) as [O1 O2 O3 O4 O5 O6 O7].
    split; try done. cbn. cst. lia. }
  destruct (winode_run _ _ _ _ _ _ _ 1 d HI5 ltac:(cst; lia) Hd) as (s6 & R6 & HI6 & Hf6).
  destruct (mkfs_balloc_run _ _ _ _ _ _ _ (freeblock s6) HI6) as (s7 & R7 & HI7 & Hf7).
  { pose proof (iv_room _ _ _ _ _ _ _ HI6). pose proof (tr_fb _ _ _ _ _ (iv_tree _ _ _ _ _ _ _ HI6)). cst. lia. }
  exists s7, A5. split; [|split; [rewrite Hf7; exact HI7|split; [exact HR5|split; [exact HS5|cst; lia]]]].
  unfold main. rewrite bind_modify, (run_bind _ _ _ _ _ R0). fold sb_block. rewrite (run_bind _ _ _ _ _ R1), (run_bind _ _ _ _ _ R2).
  change (negb (1 =? ROOTINO)) with false. cbn match. rewrite (run_bind _ _ _ _ _ R3), (run_bind _ _ _ _ _ R4), (run_bind _ _ _ _ _ R5).
  rewrite (run_bind _ _ _ _ _ (rinode_run _ _ _ _ _ _ _ 1 HI5 ltac:(cst; lia))).
  change (d_size (node (types args) (files args) A5 1)) with (extent (files args) 1).
  rewrite (xint_id (extent (files args) 1)) by lia. rewrite u32_id by (fold (dir_size args); lia). fold (dir_size args).
  rewrite xint_id by lia. fold d. rewrite (run_bind _ _ _ _ _ R6), bind_gets.
  rewrite s32_id; [exact R7|]. pose proof (iv_room _ _ _ _ _ _ _ HI6). pose proof (tr_fb _ _ _ _ _ (iv_tree _ _ _ _ _ _ _ HI6)). cst. lia.
Qed.

(** ** What the kernel relies on *)

Section final.
Context (s : mkfs) (n : Z) (D : Z -> dinode) (A F : Z -> list Z) (E : Z -> Z).
Context (HI : inv (vset base0 45 (first_bits (Z.to_nat (freeblock s)))) s n D A F E).

Lemma BBLOCK_mk b : 0 <= b < FSSIZE -> BBLOCK b mk_sb = 45.
Proof. intros Hb. cst. unfold BBLOCK. change BPB with 8192. rewrite Z.div_small by lia. done. Qed.

Lemma final_fb : nmeta <= freeblock s <= FSSIZE.
Proof using HI. split; [apply (tr_fb _ _ _ _ _ (iv_tree _ _ _ _ _ _ _ HI))|apply (iv_room _ _ _ _ _ _ _ HI)]. Qed.

Lemma final_used b : 0 <= b < FSSIZE -> used mk_sb (blocks s) b = (b <? freeblock s).
Proof using HI.
  intros Hb. pose proof final_fb as Hf. unfold used. rewrite BBLOCK_mk, (iv_base _ _ _ _ _ _ _ HI) by (done || by right).
  rewrite vset_eq. cst. change BPB with 8192. rewrite Z.mod_small by lia.
  destruct (first_bits_spec (Z.to_nat (freeblock s))) as [_ ->]; [lia| |lia].
  destruct (b <? freeblock s) eqn:Eb; bprop; [apply Nat.ltb_lt|apply Nat.ltb_ge]; lia.
Qed.

Lemma final_len b : 0 <= b < FSSIZE -> length (blocks s b) = Z.to_nat BSIZE.
Proof using HI. apply (tr_len _ _ _ _ _ (iv_tree _ _ _ _ _ _ _ HI)). Qed.

Lemma final_apart b : 46 <= b < FSSIZE ->
  home 2 LOGSIZE b /\ (forall c, 0 <= c < sb_size mk_sb -> BBLOCK c mk_sb <> b) /\ (forall i, 0 <= i < sb_ninodes mk_sb -> IBLOCK i mk_sb <> b).
Proof.
  intros Hb. change (sb_size mk_sb) with FSSIZE. change (sb_ninodes mk_sb) with NINODES. split_and!.
  - split; [cst; lia|]. right. change LOGSIZE with 30. lia.
  - intros c Hc. rewrite BBLOCK_mk by done. lia.
  - intros i Hi. rewrite IBLOCK_mk by done. cst. zlia.
Qed.

Lemma final_fs_ok : fs_ok 2 LOGSIZE mk_sb (blocks s).
Proof using HI.
  pose proof final_fb as Hf. split.
  - split; [done|..]; change (sb_size mk_sb) with FSSIZE; intros b Hb; rewrite BBLOCK_mk by done.
    + split; [lia|]. right. change LOGSIZE with 30. lia.
    + apply final_len. cst. lia.
  - by eapply inv_inode_blocks.
  - rewrite final_used by (cst; lia). apply Z.ltb_lt. cst. lia.
  - change (sb_size mk_sb) with FSSIZE. change (sb_ninodes mk_sb) with NINODES. intros b i Hb Hi. rewrite BBLOCK_mk, IBLOCK_mk by done. cst. zlia.
  - intros c Hc Hu. change (sb_size mk_sb) with FSSIZE in Hc. rewrite final_used in Hu by done. bprop. apply final_apart. cst. lia.
Qed.

Lemma final_data i sl : slot_ok sl -> slot (blocks s) (A i) sl <> 0 -> data_block 2 LOGSIZE mk_sb (blocks s) (slot (blocks s) (A i) sl).
Proof using HI.
  intros Hok Hne. pose proof final_fb as Hf. pose proof (tr_range _ _ _ _ _ (iv_tree _ _ _ _ _ _ _ HI) i sl Hok Hne) as Hr. cst.
  destruct (final_apart (slot (blocks s) (A i) sl)) as (Hh & Hm & Hi); [cst; lia|].
  split; try done; [change (sb_size mk_sb) with 1000; lia| |apply final_len; cst; lia].
  rewrite final_used by (cst; lia). apply Z.ltb_lt. lia.
Qed.

Lemma final_file i : file_ok 2 LOGSIZE mk_sb (blocks s) (A i).
Proof using HI.
  pose proof (iv_tree _ _ _ _ _ _ _ HI) as HT. split.
  - apply (tr_addrs _ _ _ _ _ HT).
  - intros bn Hbn Hne. by apply (final_data i (Some bn)).
  - intros bn bn' Hbn Hbn' Eq Hne. by destruct (tr_inj _ _ _ _ _ HT i i (Some bn) (Some bn')) as [_ [= ->]].
  - intros Hne. by apply (final_data i None).
  - intros bn Hbn Hne Eq. destruct (tr_inj _ _ _ _ _ HT i i None (Some bn)); done.
Qed.
End final.

(** The nodes of the table are proper on-disk inodes. *)
Lemma final_node_ok base s n A args i :
  inv base s n (final_nodes args A) A (files args) (extent (files args)) -> (forall j, extent (files args) j <= MAXFILE * BSIZE) ->
  dinode_ok (final_nodes args A i).
Proof.
  intros HI HS. assert (Ht : forall j, file_type (types args j)).
  { intros j. unfold types. rewrite types_with_eq. case_decide; [right; by right|].
    destruct (decide (j = 1)) as [->|]; [rewrite fn_lookup_insert; right; by left|rewrite fn_lookup_insert_ne by done; by left]. }
  pose proof (inv_node_ok _ _ _ _ _ _ _ (types args) (files args) i HI (Ht i) (HS i)) as Hn.
  unfold final_nodes. destruct (decide (i = 1)) as [->|]; [rewrite fn_lookup_insert|by rewrite fn_lookup_insert_ne].
  destruct Hn as [O1 O2 O3 O4 O5 O6 O7]. split; try done. specialize (HS 1).
  assert (0 <= extent (files args) 1) by (unfold extent; lia). cbn. unfold dir_size. cst. zlia.
Qed.

(** The size of the root directory. *)
Lemma round_up e : 0 <= e ->
  e < (e / BSIZE + 1) * BSIZE /\ (e <= 200 * 1024 -> (e / BSIZE + 1) * BSIZE <= MAXFILE * BSIZE) /\
  ((e / BSIZE + 1) * BSIZE - 1) / BSIZE = e / BSIZE.
Proof. intros He. cst. zlia. Qed.

(** An inode number of the table. *)
Definition inum_ok (i : Z) : Prop := 0 <= i < NINODES.

(** C14. mkfs, run on arguments that fit, leaves a well-formed file system: an image
    of [FSSIZE] blocks with the super block, an empty log, a free map that marks
    exactly the blocks in use, and inodes none of whose blocks is used twice. *)
Theorem mkfs_well_formed args :
  args_ok args ->
  exists s, main args mkfs0 = Ok tt s /\ let V := blocks s in
    length (m_img s) = Z.to_nat FSSIZE /\ (forall b, 0 <= b < FSSIZE -> length (V b) = Z.to_nat BSIZE) /\
    sb_decode (V 1) = mk_sb /\ V 2 = zero_block /\ fs_ok 2 LOGSIZE mk_sb V /\
    (forall c, 0 <= c < FSSIZE -> used mk_sb V c = (c <? freeblock s)) /\
    (forall i, inum_ok i -> dinode_ok (inode_entry mk_sb V i) /\ file_ok 2 LOGSIZE mk_sb V (d_addrs (inode_entry mk_sb V i))) /\
    (forall i j bn bn', inum_ok i -> inum_ok j -> 0 <= bn < MAXFILE -> 0 <= bn' < MAXFILE ->
      let a := fblk V (d_addrs (inode_entry mk_sb V i)) bn in
      a = fblk V (d_addrs (inode_entry mk_sb V j)) bn' -> a <> 0 -> i = j /\ bn = bn').
Proof.
  intros Hok. destruct (main_run args Hok) as (s & A & R & HI & HR & HS & Hf). exists s. split; [exact R|]. cbv zeta.
  pose proof (iv_tree _ _ _ _ _ _ _ HI) as HT.
  assert (HD : forall i, inum_ok i -> d_addrs (inode_entry mk_sb (blocks s) i) = A i).
  { intros i Hi. rewrite (iv_table _ _ _ _ _ _ _ HI) by done. unfold final_nodes.
    destruct (decide (i = 1)) as [->|Hne]; [by rewrite fn_lookup_insert|by rewrite fn_lookup_insert_ne]. }
  split_and!.
  - apply HI.
  - apply (tr_len _ _ _ _ _ HT).
  - rewrite (iv_base _ _ _ _ _ _ _ HI), vset_ne by lia. unfold base0. rewrite vset_eq. exact sb_decode_block.
  - rewrite (iv_base _ _ _ _ _ _ _ HI), vset_ne by lia. unfold base0. rewrite vset_ne by lia. reflexivity.
  - by eapply final_fs_ok.
  - intros c Hc. by eapply final_used.
  - intros i Hi. split; [|rewrite HD by done; by eapply final_file].
    rewrite (iv_table _ _ _ _ _ _ _ HI) by done. by eapply final_node_ok.
  - intros i j bn bn' Hi Hj Hbn Hbn'. cbv zeta. rewrite !HD by done. intros Eq Hne.
    destruct (tr_inj _ _ _ _ _ HT i j (Some bn) (Some bn') Hbn Hbn' Eq Hne) as [Ei Eb]. injection Eb as Eb. split; [exact Ei|exact Eb].
Qed.

(** The bytes of a file, and zeros behind them. *)
Lemma final_bytes base s n D A F E i (m : nat) :
  inv base s n D A F E -> (length (F i) <= m)%nat -> Z.of_nat m <= MAXFILE * BSIZE ->
  file_bytes (blocks s) (A i) 0 m = F i ++ replicate (m - length (F i)) 0.
Proof.
  intros HI Hl Hm. apply list_eq_bounded.
  { rewrite file_bytes_length, length_app, length_replicate. lia. }
  rewrite file_bytes_length. intros k Hk. rewrite file_bytes_lookup by done.
  rewrite (tr_byte _ _ _ _ _ (iv_tree _ _ _ _ _ _ _ HI)) by lia. unfold byte_at. rewrite Z.add_0_l, Nat2Z.id.
  destruct (decide (k < length (F i))%nat) as [Hlt|].
  - rewrite lookup_app_l by done. destruct (lookup_lt_is_Some_2 _ _ Hlt) as [x ->]. done.
  - rewrite lookup_app_r, lookup_replicate_2 by lia. by rewrite lookup_ge_None_2 by lia.
Qed.

Lemma files_root args : files args 1 = dir_data args.
Proof. unfold files, dir_data. rewrite files_with_dir, fn_lookup_insert by lia. done. Qed.

Lemma files_free args i : 2 + Z.of_nat (length args) <= i -> types args i = 0 /\ files args i = [].
Proof.
  intros Hi. unfold types, files. rewrite types_with_eq, decide_False, fn_lookup_insert_ne by lia.
  rewrite files_with_old, fn_lookup_insert_ne by lia. done.
Qed.

Lemma files_arg args k arg : args !! k = Some arg ->
  types args (2 + Z.of_nat k) = T_FILE /\ files args (2 + Z.of_nat k) = arg_data arg.
Proof.
  intros Hk. pose proof (lookup_lt_Some _ _ _ Hk). unfold types, files. rewrite types_with_eq, decide_True by lia.
  by rewrite (files_with_new _ _ _ _ arg).
Qed.

Lemma final_nodes_other args A i : i <> 1 -> final_nodes args A i = node (types args) (files args) A i.
Proof. intros Hi. unfold final_nodes. by rewrite fn_lookup_insert_ne. Qed.

Lemma final_nodes_root args A : final_nodes args A ROOTINO = mkDinode T_DIR 0 0 1 (dir_size args) (A 1).
Proof.
  unfold final_nodes, ROOTINO. rewrite fn_lookup_insert. unfold node, set_d_size. cbn [d_type d_major d_minor d_nlink d_addrs].
  unfold types. rewrite types_with_eq, decide_False, fn_lookup_insert by lia. done.
Qed.

(** C15. What mkfs was asked to store is what the image holds: every argument has an
    inode with its bytes, the root directory has "." and ".." and a name for every
    argument, the other inodes are free. *)
Theorem mkfs_contents args :
  args_ok args ->
  exists s, main args mkfs0 = Ok tt s /\ let V := blocks s in
    let ino i := inode_entry mk_sb V i in
    (forall k arg, args !! k = Some arg ->
      let d := ino (2 + Z.of_nat k) in
      d_type d = T_FILE /\ d_nlink d = 1 /\ d_size d = Z.of_nat (length (arg_data arg)) /\
      file_bytes V (d_addrs d) 0 (length (arg_data arg)) = arg_data arg) /\
    d_type (ino ROOTINO) = T_DIR /\ d_nlink (ino ROOTINO) = 1 /\
    d_size (ino ROOTINO) mod BSIZE = 0 /\ Z.of_nat (length (dir_data args)) < d_size (ino ROOTINO) <= MAXFILE * BSIZE /\
    file_bytes V (d_addrs (ino ROOTINO)) 0 (Z.to_nat (d_size (ino ROOTINO))) =
      dir_data args ++ replicate (Z.to_nat (d_size (ino ROOTINO)) - length (dir_data args)) 0 /\
    (forall i, 2 + Z.of_nat (length args) <= i < NINODES -> ino i = mkDinode 0 0 0 0 0 no_addrs).
Proof.
  intros Hok. destruct (main_run args Hok) as (s & A & R & HI & HR & HS & Hf). exists s. split; [exact R|]. cbv beta zeta.
  assert (HD : forall i, 0 <= i < NINODES -> inode_entry mk_sb (blocks s) i = final_nodes args A i) by apply (iv_table _ _ _ _ _ _ _ HI).
  pose proof (go_inodes _ Hok) as Hin. pose proof (root_extent args) as Hre. pose proof (HS 1) as HS1.
  assert (Hdl : Z.of_nat (length (dir_data args)) = extent (files args) 1) by (unfold extent; by rewrite files_root).
  rewrite (HD ROOTINO) by (cst; unfold ROOTINO; lia). rewrite final_nodes_root. cbn [d_type d_nlink d_size d_addrs].
  assert (Hds : extent (files args) 1 < dir_size args <= MAXFILE * BSIZE) by (unfold dir_size; destruct (round_up (extent (files args) 1)) as (? & ? & _); cst; lia).
  split; [|split; [done|split; [done|split; [by apply Z.mod_mul|split; [by rewrite Hdl|split]]]]].
  - intros k arg Hk. destruct (files_arg args k arg Hk) as [Ht Hd]. pose proof (lookup_lt_Some _ _ _ Hk).
    rewrite HD by (cst; lia). rewrite final_nodes_other by lia. cbn [node d_type d_nlink d_size d_addrs]. rewrite Ht. unfold extent. rewrite Hd.
    split; [done|]. split; [done|]. split; [done|]. specialize (HS (2 + Z.of_nat k)). unfold extent in HS. rewrite Hd in HS.
    rewrite (final_bytes _ _ _ _ _ _ _ (2 + Z.of_nat k) _ HI) by (rewrite ?Hd; done). by rewrite Hd, Nat.sub_diag, app_nil_r.
  - rewrite (final_bytes _ _ _ _ _ _ _ 1 _ HI), files_root; [done|rewrite files_root; lia|lia].
  - intros i Hi. rewrite HD by (cst; lia). rewrite final_nodes_other by lia. destruct (files_free args i) as [Ht Hd]; [lia|].
    unfold node, extent. rewrite Ht, Hd, (inv_no_addrs _ _ _ _ _ _ i HI HR Hd). done.
Qed.

(** A directory whose entries fill its last block is given a size that reaches
    one block further, and that block is not allocated. *)
Theorem mkfs_root_hole args :
  args_ok args -> (2 + Z.of_nat (length args)) mod 64 = 0 ->
  exists s, main args mkfs0 = Ok tt s /\ let d := inode_entry mk_sb (blocks s) ROOTINO in
    fblk (blocks s) (d_addrs d) ((d_size d - 1) / BSIZE) = 0.
Proof.
  intros Hok H64. destruct (main_run args Hok) as (s & A & R & HI & HR & HS & Hf). exists s. split; [exact R|]. cbv zeta.
  rewrite (iv_table _ _ _ _ _ _ _ HI) by (cst; unfold ROOTINO; lia). rewrite final_nodes_root. cbn [d_size d_addrs].
  pose proof (root_extent args) as Hre. pose proof (go_inodes _ Hok) as Hin.
  assert (Hb : (dir_size args - 1) / BSIZE = extent (files args) 1 / BSIZE) by (unfold dir_size; apply round_up; lia).
  rewrite Hb. destruct (Z.eq_dec (fblk (blocks s) (A 1) (extent (files args) 1 / BSIZE)) 0) as [|Hne]; [done|].
  exfalso. assert (He : 0 <= extent (files args) 1 / BSIZE < MAXFILE) by (apply block_index; cst; lia).
  apply (tr_has _ _ _ _ _ (iv_tree _ _ _ _ _ _ _ HI) 1 _ He) in Hne. rewrite Hre in Hne. clear - Hne H64. cst. zlia.
Qed.
