(* ===== verification/MkfsMount.v ===== *)
(** * Reading the image of mkfs with the kernel

    On a disk that holds the image, [readi] gives the files the bytes of the
    arguments of mkfs; and an example of arguments that fit. *)

From stdpp Require Import functions.
From S2P Require Export MkfsImage FsDemo.

Section mount.
Context {LY : Layout} {TH : Threads} {BD : BlockDev}.

(** The kernel sees the blocks of the image. *)
Definition shows (V : Z -> list Z) (s : mkfs) : Prop := forall b, 0 <= b < FSSIZE -> V b = blocks s b.

Lemma shows_fblk V base s n D A F E i bn :
  shows V s -> inv base s n D A F E -> 0 <= bn < MAXFILE -> fblk V (A i) bn = fblk (blocks s) (A i) bn.
Proof.
  intros HV HI Hbn. unfold fblk. destruct (bn <? NDIRECT); [done|].
  pose proof (slot_range base n D F s A E i None HI I) as Hr. cbn [slot] in Hr. by rewrite HV.
Qed.

Lemma shows_bytes V base s n D A F E i (m : nat) :
  shows V s -> inv base s n D A F E -> Z.of_nat m <= MAXFILE * BSIZE ->
  file_bytes V (A i) 0 m = file_bytes (blocks s) (A i) 0 m.
Proof.
  intros HV HI Hm. unfold file_bytes. apply list_fmap_ext. intros j x Hx%lookup_seq.
  assert (Hb : 0 <= (0 + Z.of_nat x) / BSIZE < MAXFILE) by (apply block_index; lia).
  unfold fbyte, cont. rewrite (shows_fblk V base s n D A F E i _ HV HI Hb).
  pose proof (slot_range base n D F s A E i (Some _) HI Hb) as Hr. cbn [slot] in Hr. by rewrite HV.
Qed.

(** C16. A file of the image, once its inode is in memory, reads as the bytes of the
    argument of mkfs it was made from. *)
Theorem mkfs_readi args dev k p D H ip i arg off n :
  let f := arg_data arg in let len := Z.of_nat (length f) in
  args_ok args -> args !! i = Some arg ->
  exists s, main args mkfs0 = Ok tt s /\
    forall V, shows V s -> bst dev k p [] [] V D H -> i_dev (get_inode k ip) = dev ->
      inode_dinode (get_inode k ip) = inode_entry mk_sb V (2 + Z.of_nat i) ->
      0 <= off <= len -> 0 <= n -> off + n < 4294967296 ->
      exists k', readi ip VarDst off n k =
        Ok (Z.min n (len - off), take (Z.to_nat (Z.min n (len - off))) (drop (Z.to_nat off) f)) k'.
Proof.
  intros f len Hok Hi. destruct (main_run args Hok) as (s & A & R & HI & HR & HS & Hf). exists s. split; [exact R|].
  intros V HV Hs Hd He Ho Hn Hon. destruct (files_arg args i arg Hi) as [Ht Hfile]. fold f in Hfile.
  pose proof (go_inodes _ Hok) as Hin. pose proof (lookup_lt_Some _ _ _ Hi) as Hil.
  assert (Hio : 0 <= 2 + Z.of_nat i < NINODES) by (cst; lia).
  assert (Hent : inode_entry mk_sb V (2 + Z.of_nat i) = node (types args) (files args) A (2 + Z.of_nat i)).
  { rewrite <- (final_nodes_other args A) by lia. rewrite <- (iv_table _ _ _ _ _ _ _ HI) by done. unfold inode_entry.
    rewrite HV; [done|]. rewrite IBLOCK_mk by done. cst. zlia. }
  rewrite Hent in He. unfold inode_dinode, node in He. injection He as Et _ _ _ Es Ea. unfold extent in Es. rewrite Hfile in Es. fold len in Es.
  pose proof (HS (2 + Z.of_nat i)) as HSi. unfold extent in HSi. rewrite Hfile in HSi. fold len in HSi.
  destruct (readi_run dev k p [] V D H ip off n) as (k' & _ & _ & R'); rewrite ?Es; [exact Hs|apply Nat.ltb_lt; reflexivity|exact Hd|cst; lia|lia|split; lia| |].
  - intros bn Hb Hbs. rewrite Ea. rewrite (shows_fblk V _ s _ _ A _ _ _ _ HV HI) by (cst; lia).
    apply (tr_has _ _ _ _ _ (iv_tree _ _ _ _ _ _ _ HI) (2 + Z.of_nat i)); [cst; lia|]. unfold extent. rewrite Hfile. exact Hbs.
  - exists k'. rewrite R', Es, Ea. cbv zeta. rewrite (proj2 (Z.ltb_ge len off)), (proj2 (Z.leb_gt 4294967296 (off + n))) by lia. cbn [orb].
    set (m := Z.min n (len - off)). f_equal. f_equal.
    assert (Hb0 : file_bytes V (A (2 + Z.of_nat i)) 0 (length f) = f).
    { rewrite (shows_bytes V _ s _ _ A _ _ _ _ HV HI) by lia. rewrite (final_bytes _ _ _ _ _ _ _ _ _ HI), Hfile by (rewrite ?Hfile; lia).
      by rewrite Nat.sub_diag, app_nil_r. }
    apply list_eq_bounded; rewrite file_bytes_length; [rewrite length_take, length_drop; lia|]. intros j Hj.
    rewrite lookup_take_lt, lookup_drop, file_bytes_lookup by done. rewrite <- Hb0 at 1. rewrite file_bytes_lookup by lia. do 2 f_equal. lia.
Qed.
End mount.

(** ** Two files, the second with an indirect block *)

#[local] Existing Instance resume_at_once.

Definition demo_args : list mkfs_arg :=
  [(user_slash ++ [95; 99; 97; 116], Some [[104; 105]; [10]]);
   ([82; 69; 65; 68; 77; 69], Some (replicate 13 (replicate 1024 7)))].

Lemma demo_arg_ok path pieces :
  forallb (fun p => negb (bool_decide (p = [])) && forallb (fun c => (0 <=? c) && (c <? 256)) p) pieces = true ->
  bool_decide (47 ∈ shortname path) = false -> forallb (fun c => (0 <=? c) && (c <? 256)) path = true ->
  (Z.of_nat (length (concat pieces)) <=? MAXFILE * BSIZE) = true -> arg_ok (path, Some pieces).
Proof.
  assert (Hby : forall l, forallb (fun c => (0 <=? c) && (c <? 256)) l = true -> bytes l).
  { intros l Hl. rewrite forallb_forall in Hl. apply Forall_forall. intros c Hc%list_elem_of_In. specialize (Hl c Hc). bprop. lia. }
  intros HP HS HN HL. split.
  - exists pieces. split; [done|]. rewrite forallb_forall in HP. apply Forall_forall. intros p Hp%list_elem_of_In.
    specialize (HP p Hp). apply andb_true_iff in HP as [Hne Hb]. split; [|by apply Hby]. by apply negb_true_iff, bool_decide_eq_false in Hne.
  - exact (proj1 (bool_decide_eq_false _) HS).
  - by apply Hby.
  - by apply Z.leb_le.
Qed.

Lemma demo_args_ok : args_ok demo_args.
Proof.
  split; [|by vm_compute|by vm_compute].
  apply Forall_cons; split; [apply demo_arg_ok; by vm_compute|apply Forall_cons; split; [apply demo_arg_ok; by vm_compute|constructor]].
Qed.

(** The image on a disk, and the second file in the kernel. *)
Definition img_disk (s : mkfs) : gmap Z (list Z) := map_seqZ 0 (m_img s).

Lemma img_shows s : length (m_img s) = IMGSIZE -> shows (disk_block (img_disk s)) s.
Proof.
  intros Hl b Hb. unfold disk_block, img_disk, blocks. rewrite lookup_map_seqZ_0, (proj2 (Z.ltb_ge b 0)) by lia.
  destruct (lookup_lt_is_Some_2 (m_img s) (Z.to_nat b)) as [x ->]; [unfold IMGSIZE in Hl; lia|done].
Qed.

Definition loaded (d : dinode) : inode := inode_load d (mkInode 1 3 1 1 0 0 0 0 0 []).

Lemma loaded_dinode d : inode_dinode (loaded d) = d.
Proof. by destruct d. Qed.

Lemma mounted d x : exists k, bst 1 k 3 [] [] (disk_block d) d [] /\ get_inode k 0 = loaded x.
Proof.
  destruct (started d) as (k & Hi & Hsb & Hin & _). exists (upd_inode 0 (fun _ => loaded x) k). split.
  - apply (bst_upd_inode 1). exact (it_bst _ _ _ _ _ _ _ _ _ _ _ Hi).
  - rewrite get_inode_upd; [done|]. rewrite Hin. by apply Nat.ltb_lt.
Qed.

Lemma demo_img s : main demo_args mkfs0 = Ok tt s -> length (m_img s) = IMGSIZE.
Proof.
  intros R. destruct (main_run demo_args demo_args_ok) as (s' & A & R' & HI & _). rewrite R in R'. injection R' as <-. exact (iv_len _ _ _ _ _ _ _ HI).
Qed.

Lemma mkfs_readi_witness : exists s k k', main demo_args mkfs0 = Ok tt s /\
  readi 0 VarDst 13000 1000 k = Ok (312, replicate 312 7) k'.
Proof.
  destruct (main_run demo_args demo_args_ok) as (s & A & R & HI & _).
  set (V := disk_block (img_disk s)).
  destruct (mounted (img_disk s) (inode_entry mk_sb V 3)) as (k & Hs & Ei).
  destruct (mkfs_readi demo_args 1 k 3 (img_disk s) [] 0 1 _ 13000 1000 demo_args_ok eq_refl) as (s' & R' & Hr).
  rewrite R in R'. injection R' as <-.
  destruct (Hr V) as (k' & Rr).
  - apply img_shows. exact (iv_len _ _ _ _ _ _ _ HI).
  - exact Hs.
  - by rewrite Ei.
  - rewrite Ei. change (2 + Z.of_nat 1) with 3. apply loaded_dinode.
  - split; [lia|]. apply Z.leb_le. by vm_compute.
  - lia.
  - lia.
  - exists s, k, k'. split; [exact R|]. rewrite Rr. by vm_compute.
Defined.

Lemma mkfs_well_formed_witness : exists s, main demo_args mkfs0 = Ok tt s /\ fs_ok 2 LOGSIZE mk_sb (blocks s).
Proof. destruct (mkfs_well_formed demo_args demo_args_ok) as (s & R & _ & _ & _ & _ & H & _). exists s. split; [exact R|exact H]. Defined.

Lemma mkfs_contents_witness : exists s, main demo_args mkfs0 = Ok tt s /\
  file_bytes (blocks s) (d_addrs (inode_entry mk_sb (blocks s) 2)) 0 3 = [104; 105; 10].
Proof.
  destruct (mkfs_contents demo_args demo_args_ok) as (s & R & H & _). exists s. split; [exact R|].
  destruct (H 0%nat _ eq_refl) as (_ & _ & _ & Hb). exact Hb.
Defined.
