(* ===== verification/Proc.v ===== *)
(** * kernel/proc.c: the life of processes

    The trapframe of a process is a page of physical memory, read and written
    at the byte offsets of [struct trapframe].  [wait] and [exit] use the
    scheduler through [sleep] and [sched]. *)

From S2P Require Export File.

(** ** The trapframe (kernel/proc.h) *)

Definition TF_kernel_satp : Z := 0.
Definition TF_kernel_sp : Z := 8.
Definition TF_kernel_trap : Z := 16.
Definition TF_epc : Z := 24.
Definition TF_kernel_hartid : Z := 32.
Definition TF_sp : Z := 48.
Definition TF_a0 : Z := 112.
Definition TF_a1 : Z := 120.
Definition TF_a7 : Z := 168.
Definition sizeof_trapframe : Z := 288.

Definition tf_get (p : nat) (off : Z) : K Z :=
  tf ← p_get p p_trapframe;
  gets (fun k => rd64 (k_mem k) (tf + off)).
Definition tf_set (p : nat) (off v : Z) : K unit :=
  tf ← p_get p p_trapframe;
  modify (fun k => set_mem (wr64 (tf + off) v (k_mem k)) k).

#[export] Hint Unfold tf_get tf_set : krun.

(** [safestrcpy(dst, t, n)] on an array that is not in the byte memory. *)
Definition safestrcpy_arr (dst : list Z) (t : Z -> Z) (n : Z) : list Z :=
  rd_bytes (safestrcpy 0 t n (wr_bytes 0 dst ∅)) 0 (length dst).

Definition initcode : list Z :=
  [0x17; 0x05; 0x00; 0x00; 0x13; 0x05; 0x45; 0x02; 0x97; 0x05; 0x00; 0x00; 0x93; 0x85; 0x35; 0x02;
   0x93; 0x08; 0x70; 0x00; 0x73; 0x00; 0x00; 0x00; 0x93; 0x08; 0x20; 0x00; 0x73; 0x00; 0x00; 0x00;
   0xef; 0xf0; 0x9f; 0xff; 0x2f; 0x69; 0x6e; 0x69; 0x74; 0x00; 0x00; 0x24; 0x00; 0x00; 0x00; 0x00;
   0x00; 0x00; 0x00; 0x00].

Section proc.
Context {LY : Layout} {TH : Threads} {BD : BlockDev}.

Definition procinit : K unit :=
  initlock Lpid "nextpid";;
  for_all (seq 0 NPROC) (fun p =>
    initlock (Lproc p) "proc";;
    p_set p (set_p_kstack (KSTACK (Z.of_nat p)))).

Definition allocpid : K Z :=
  acquire Lpid;;
  pid ← gets k_nextpid;
  modify (fun k => set_nextpid (s32 (k_nextpid k + 1)) k);;
  release Lpid;;
  mret pid.

(** [p] is used for its trapframe only. *)
Definition proc_pagetable (p : nat) : K Z :=
  pagetable ← uvmcreate;
  if pagetable =? 0 then mret 0 else
  (* map the trampoline code at the highest user virtual address. *)
  r ← mappages pagetable TRAMPOLINE PGSIZE trampoline (Z.lor PTE_R PTE_X);
  if r <? 0 then uvmfree pagetable 0;; mret 0 else
  (* map the trapframe just below TRAMPOLINE, for trampoline.S. *)
  tf ← p_get p p_trapframe;
  r ← mappages pagetable TRAPFRAME PGSIZE tf (Z.lor PTE_R PTE_W);
  if r <? 0 then
    uvmunmap pagetable TRAMPOLINE 1 false;;
    uvmfree pagetable 0;;
    mret 0
  else mret pagetable.

Definition proc_freepagetable (pagetable sz : Z) : K unit :=
  uvmunmap pagetable TRAMPOLINE 1 false;;
  uvmunmap pagetable TRAPFRAME 1 false;;
  uvmfree pagetable sz.

Definition freeproc (p : nat) : K unit :=
  tf ← p_get p p_trapframe;
  when (truth tf) (kfree tf);;
  p_set p (set_p_trapframe 0);;
  pagetable ← p_get p p_pagetable;
  sz ← p_get p p_sz;
  when (truth pagetable) (proc_freepagetable pagetable sz);;
  p_set p (set_p_pagetable 0);;
  p_set p (set_p_sz 0);;
  p_set p (set_p_pid 0);;
  p_set p (set_p_parent None);;
  p_set p (fun x => set_p_name (<[0%nat := 0]> (p_name x)) x);;
  p_set p (set_p_chan None);;
  p_set p (set_p_killed 0);;
  p_set p (set_p_xstate 0);;
  p_set p (set_p_state UNUSED).

(** The search of [allocproc]: returns with the lock of the process held. *)
Definition find_unused : K (option nat) :=
  for_each (seq 0 NPROC) (fun p =>
    acquire (Lproc p);;
    st ← p_get p p_state;
    if bool_decide (st = UNUSED) then mret (Some p)
    else release (Lproc p);; mret None).

Definition allocproc : K (option nat) :=
  r ← find_unused;
  match r with
  | None => mret None
  | Some p =>
      pid ← allocpid;
      p_set p (set_p_pid pid);;
      (* Allocate a trapframe page. *)
      tf ← kalloc;
      p_set p (set_p_trapframe tf);;
      if tf =? 0 then release (Lproc p);; mret None else
      (* An empty user page table. *)
      pagetable ← proc_pagetable p;
      p_set p (set_p_pagetable pagetable);;
      if pagetable =? 0 then freeproc p;; release (Lproc p);; mret None else
      (* Set up new context to start executing at forkret. *)
      kstack ← p_get p p_kstack;
      p_set p (set_p_context (mkContext forkret_addr (u64 (kstack + PGSIZE)) (replicate 12 0)));;
      mret (Some p)
  end.

Definition userinit : K unit :=
  r ← allocproc;
  modify (set_initproc r);;
  match r with
  | None => panic "kerneltrap"
  | Some p =>
      (* allocate one user page and copy init's instructions and data into it. *)
      pagetable ← p_get p p_pagetable;
      uvminit pagetable (arr initcode) (Z.of_nat (length initcode));;
      p_set p (set_p_sz PGSIZE);;
      tf_set p TF_epc 0;;
      tf_set p TF_sp PGSIZE;;
      p_set p (fun x => set_p_name (safestrcpy_arr (p_name x) (arr (chars "initcode" ++ [0])) 16) x);;
      cwd ← namei (chars "/");
      p_set p (set_p_cwd cwd);;
      p_set p (set_p_state RUNNABLE);;
      release (Lproc p)
  end.

(** The size is kept in a [uint] while it is computed. *)
Definition growproc (n : Z) : K Z :=
  p ← this_proc;
  psz ← p_get p p_sz;
  let sz := u32 psz in
  pagetable ← p_get p p_pagetable;
  if 0 <? n then
    r ← uvmalloc pagetable sz (u32 (sz + n));
    let sz := u32 r in
    if sz =? 0 then mret (-1) else
    p_set p (set_p_sz sz);; mret 0
  else if n <? 0 then
    r ← uvmdealloc pagetable sz (u32 (sz + n));
    p_set p (set_p_sz (u32 r));; mret 0
  else p_set p (set_p_sz sz);; mret 0.

Definition fork : K Z :=
  p ← this_proc;
  r ← allocproc;
  match r with
  | None => mret (-1)
  | Some np =>
      (* Copy user memory from parent to child. *)
      old ← p_get p p_pagetable;
      new ← p_get np p_pagetable;
      sz ← p_get p p_sz;
      r ← uvmcopy old new sz;
      if r <? 0 then freeproc np;; release (Lproc np);; mret (-1) else
      p_set np (set_p_sz sz);;
      p_set np (set_p_parent (Some p));;
      (* copy saved user registers. *)
      ptf ← p_get p p_trapframe;
      ntf ← p_get np p_trapframe;
      modify (fun k => set_mem (memmove ntf ptf sizeof_trapframe (k_mem k)) k);;
      (* Cause fork to return 0 in the child. *)
      tf_set np TF_a0 0;;
      (* increment reference counts on open file descriptors. *)
      for_all (seq 0 NOFILE) (fun i =>
        f ← p_get p (fun x => p_ofile x !!! i);
        match f with
        | Some f => filedup f;; p_set np (fun x => set_p_ofile (<[i := Some f]> (p_ofile x)) x)
        | None => skip
        end);;
      cwd ← p_get p p_cwd;
      cwd ← match cwd with Some ip => idup ip | None => panic "kerneltrap" end;
      p_set np (set_p_cwd (Some cwd));;
      name ← p_get p p_name;
      p_set np (fun x => set_p_name (safestrcpy_arr (p_name x) (arr name) 16) x);;
      pid ← p_get np p_pid;
      p_set np (set_p_state RUNNABLE);;
      release (Lproc np);;
      mret pid
  end.

Definition reparent (p : nat) : K unit :=
  for_all (seq 0 NPROC) (fun pp =>
    parent ← p_get pp p_parent;
    when (bool_decide (parent = Some p))
      (acquire (Lproc pp);;
       init ← gets k_initproc;
       p_set pp (set_p_parent init);;
       release (Lproc pp))).

(** Does not return. *)
Definition exit (status : Z) : K unit :=
  p ← this_proc;
  init ← gets k_initproc;
  if bool_decide (Some p = init) then panic "init exiting" else
  (* Close all open files. *)
  for_all (seq 0 NOFILE) (fun fd =>
    f ← p_get p (fun x => p_ofile x !!! fd);
    match f with
    | Some f => fileclose f;; p_set p (fun x => set_p_ofile (<[fd := None]> (p_ofile x)) x)
    | None => skip
    end);;
  begin_op;;
  cwd ← p_get p p_cwd;
  match cwd with Some ip => iput ip | None => panic "kerneltrap" end;;
  end_op;;
  p_set p (set_p_cwd None);;
  init ← gets k_initproc;
  match init with
  | None => panic "kerneltrap"
  | Some init =>
      acquire (Lproc init);;
      wakeup1 init;;
      release (Lproc init)
  end;;
  acquire (Lproc p);;
  original_parent ← p_get p p_parent;
  release (Lproc p);;
  match original_parent with
  | None => panic "kerneltrap"
  | Some parent =>
      acquire (Lproc parent);;
      acquire (Lproc p);;
      (* Give any children to init. *)
      reparent p;;
      (* Parent might be sleeping in wait(). *)
      wakeup1 parent;;
      p_set p (set_p_xstate status);;
      p_set p (set_p_state ZOMBIE);;
      release (Lproc parent);;
      (* Jump into the scheduler, never to return. *)
      sched;;
      panic "zombie exit"
  end.

(** One scan of the table for exited children: whether there are children, or
    the value [wait] returns. *)
Fixpoint wait_scan (nps : list nat) (p : nat) (addr : Z) (havekids : bool) : K (bool + Z) :=
  match nps with
  | [] => mret (inl havekids)
  | np :: nps =>
      parent ← p_get np p_parent;
      if bool_decide (parent = Some p) then
        acquire (Lproc np);;
        st ← p_get np p_state;
        if bool_decide (st = ZOMBIE) then
          (* Found one. *)
          pid ← p_get np p_pid;
          pagetable ← p_get p p_pagetable;
          xstate ← p_get np p_xstate;
          r ← (if truth addr then copyout pagetable addr (arr (le_encode 4 xstate)) 4 else mret 0);
          if r <? 0 then
            release (Lproc np);;
            release (Lproc p);;
            mret (inr (-1))
          else
            freeproc np;;
            release (Lproc np);;
            release (Lproc p);;
            mret (inr pid)
        else
          release (Lproc np);;
          wait_scan nps p addr true
      else wait_scan nps p addr havekids
  end.

Definition wait (addr : Z) : K Z :=
  p ← this_proc;
  (* hold p->lock for the whole time to avoid lost wakeups from a child's exit(). *)
  acquire (Lproc p);;
  loop (S patience) (
    r ← wait_scan (seq 0 NPROC) p addr false;
    match r with
    | inr v => mret (Some v)
    | inl havekids =>
        killed ← p_get p p_killed;
        if negb havekids || truth killed then release (Lproc p);; mret (Some (-1)) else
        (* Wait for a child to exit. *)
        sleep (ChProc p) (Lproc p);;
        mret None
    end).
End proc.
