(* ===== verification/Syscall.v ===== *)
(** * kernel/syscall.c, arguments, and kernel/exec.c

    Pointer arguments that the C code fills in are returned with the C result:
    a value where the code stores one, and the bytes of a fetched string. *)

From S2P Require Export Proc.

Section args.
Context {LY : Layout} {TH : Threads} {BD : BlockDev}.

(** The value stored at [*ip], on success. *)
Definition fetchaddr (addr : Z) : K (option Z) :=
  p ← this_proc;
  sz ← p_get p p_sz;
  if (sz <=? addr) || (sz <? u64 (addr + 8)) then mret None else
  pagetable ← p_get p p_pagetable;
  r ← copyin pagetable addr 8;
  if negb (r.1 =? 0) then mret None else mret (Some (le_decode r.2)).

(** The result and the bytes stored in [buf]. *)
Definition fetchstr (addr max : Z) : K (Z * list Z) :=
  p ← this_proc;
  pagetable ← p_get p p_pagetable;
  r ← copyinstr pagetable addr max;
  if r.1 <? 0 then mret (r.1, r.2)
  else mret (Z.of_nat (length (cstr (length r.2) (arr r.2))), r.2).

Definition argraw (n : Z) : K Z :=
  p ← this_proc;
  if n =? 0 then tf_get p 112
  else if n =? 1 then tf_get p 120
  else if n =? 2 then tf_get p 128
  else if n =? 3 then tf_get p 136
  else if n =? 4 then tf_get p 144
  else if n =? 5 then tf_get p 152
  else panic "argraw".

(** These two always return 0 in C; the value is what they store. *)
Definition argint (n : Z) : K Z := x ← argraw n; mret (s32 x).
Definition argaddr (n : Z) : K Z := argraw n.

Definition argstr (n max : Z) : K (Z * list Z) :=
  addr ← argaddr n;
  fetchstr addr max.

(** A fetched path: the characters before the NUL, or none on error. *)
Definition argpath (n : Z) : K (option (list Z)) :=
  r ← argstr n MAXPATH;
  mret (if r.1 <? 0 then None else Some (cstr (length r.2) (arr r.2))).
End args.

(** ** kernel/elf.h *)

Definition ELF_MAGIC : Z := 0x464C457F.
Definition ELF_PROG_LOAD : Z := 1.
Definition sizeof_elfhdr : Z := 64.
Definition sizeof_proghdr : Z := 56.

Definition elf_magic (e : list Z) : Z := blk_rd32 e 0.
Definition elf_entry (e : list Z) : Z := blk_rd 8 e 24.
Definition elf_phoff (e : list Z) : Z := blk_rd 8 e 32.
Definition elf_phnum (e : list Z) : Z := blk_rd16 e 56.

Record proghdr := mkProghdr { ph_type : Z; ph_off : Z; ph_vaddr : Z; ph_filesz : Z; ph_memsz : Z }.
Definition proghdr_get (b : list Z) : proghdr :=
  mkProghdr (blk_rd32 b 0) (blk_rd 8 b 8) (blk_rd 8 b 16) (blk_rd 8 b 32) (blk_rd 8 b 40).

Section exec.
Context {LY : Layout} {TH : Threads} {BD : BlockDev}.

Definition loadseg_body (pagetable va : Z) (ip : nat) (offset sz : Z) : Z -> K (Z + Z) := fun i =>
  if i <? sz then
    pa ← walkaddr pagetable (u64 (va + i));
    if pa =? 0 then panic "loadseg: address should exist" else
    let n := if sz - i <? PGSIZE then sz - i else PGSIZE in
    r ← readi ip (PhysDst pa) (u32 (offset + i)) n;
    if negb (u32 r.1 =? n) then mret (inr (-1)) else
    mret (inl (u32 (i + PGSIZE)))
  else mret (inr 0).

Definition loadseg (pagetable va : Z) (ip : nat) (offset sz : Z) : K Z :=
  if negb (va mod PGSIZE =? 0) then panic "loadseg: va must be page aligned" else
  loop_with (S (S (Z.to_nat (sz / PGSIZE)))) 0 (loadseg_body pagetable va ip offset sz).

(** [bad:] with the inode still locked, inside the transaction; [pagetable] is
    0 while there is none. *)
Definition exec_bad (pagetable sz : Z) (ip : option nat) : K Z :=
  when (truth pagetable) (proc_freepagetable pagetable sz);;
  match ip with
  | Some ip => iunlockput ip;; end_op
  | None => skip
  end;;
  mret (-1).

(** Load program into memory: whether it succeeded, and the size reached. *)
Definition exec_load_body (pagetable : Z) (ip : nat) (phnum : Z) : Z * Z * Z -> K (Z * Z * Z + bool * Z) :=
  fun '(i, off, sz) =>
  if i <? phnum then
    r ← readi ip VarDst (u32 off) sizeof_proghdr;
    if negb (r.1 =? sizeof_proghdr) then mret (inr (false, sz)) else
    let ph := proghdr_get r.2 in
    let next := (i + 1, s32 (off + sizeof_proghdr)) in
    if negb (ph_type ph =? ELF_PROG_LOAD) then mret (inl (next, sz)) else
    if ph_memsz ph <? ph_filesz ph then mret (inr (false, sz)) else
    if u64 (ph_vaddr ph + ph_memsz ph) <? ph_vaddr ph then mret (inr (false, sz)) else
    sz1 ← uvmalloc pagetable sz (u64 (ph_vaddr ph + ph_memsz ph));
    if sz1 =? 0 then mret (inr (false, sz)) else
    if negb (ph_vaddr ph mod PGSIZE =? 0) then mret (inr (false, sz1)) else
    l ← loadseg pagetable (ph_vaddr ph) ip (u32 (ph_off ph)) (u32 (ph_filesz ph));
    if l <? 0 then mret (inr (false, sz1)) else
    mret (inl (next, sz1))
  else mret (inr (true, sz)).

(** Push argument strings: the stack pointer and [ustack], or none where the
    code goes to [bad].  The arguments are the addresses of the strings. *)
Fixpoint exec_push (pagetable stackbase sp : Z) (argv : list Z) (ustack : list Z) : K (option (Z * list Z)) :=
  match argv with
  | [] => mret (Some (sp, ustack))
  | a :: argv =>
      if (MAXARG <=? length ustack)%nat then mret None else
      s ← gets (fun k => cstr (Z.to_nat PGSIZE) (str (k_mem k) a));
      let len := Z.of_nat (length s) + 1 in
      let sp := u64 (sp - len) in
      let sp := sp - sp mod 16 in
      if sp <? stackbase then mret None else
      src ← gets (fun k => str (k_mem k) a);
      r ← copyout pagetable sp src len;
      if r <? 0 then mret None else
      exec_push pagetable stackbase sp argv (ustack ++ [sp])
  end.

(** The part of the path after the last slash. *)
Fixpoint last_elem (last path : list Z) : list Z :=
  match path with
  | [] => last
  | c :: path => last_elem (if c =? 47 then path else last) path
  end.

Definition exec (path : list Z) (argv : list Z) : K Z :=
  p ← this_proc;
  begin_op;;
  r ← namei path;
  match r with
  | None => end_op;; mret (-1)
  | Some ip =>
      ilock ip;;
      (* Check ELF header *)
      e ← readi ip VarDst 0 sizeof_elfhdr;
      if negb (e.1 =? sizeof_elfhdr) then exec_bad 0 0 (Some ip) else
      let elf := e.2 in
      if negb (elf_magic elf =? ELF_MAGIC) then exec_bad 0 0 (Some ip) else
      pagetable ← proc_pagetable p;
      if pagetable =? 0 then exec_bad 0 0 (Some ip) else
      (* Load program into memory. *)
      l ← loop_with (S (Z.to_nat (elf_phnum elf))) (0, s32 (elf_phoff elf), 0)
            (exec_load_body pagetable ip (elf_phnum elf));
      let '(ok, sz) := l in
      if negb ok then exec_bad pagetable sz (Some ip) else
      iunlockput ip;;
      end_op;;
      p ← this_proc;
      oldsz ← p_get p p_sz;
      (* Allocate two pages at the next page boundary; use the second as the
         user stack. *)
      let sz := PGROUNDUP sz in
      sz1 ← uvmalloc pagetable sz (u64 (sz + 2 * PGSIZE));
      if sz1 =? 0 then exec_bad pagetable sz None else
      let sz := sz1 in
      uvmclear pagetable (u64 (sz - 2 * PGSIZE));;
      let sp := sz in
      let stackbase := u64 (sp - PGSIZE) in
      r ← exec_push pagetable stackbase sp argv [];
      match r with
      | None => exec_bad pagetable sz None
      | Some (sp, ustack) =>
          (* push the array of argv[] pointers. *)
          let argc := Z.of_nat (length ustack) in
          let sp := u64 (sp - (argc + 1) * 8) in
          let sp := sp - sp mod 16 in
          if sp <? stackbase then exec_bad pagetable sz None else
          r ← copyout pagetable sp (arr (concat (le_encode 8 <$> (ustack ++ [0])))) ((argc + 1) * 8);
          if r <? 0 then exec_bad pagetable sz None else
          tf_set p TF_a1 sp;;
          (* Save program name for debugging. *)
          p_set p (fun x => set_p_name (safestrcpy_arr (p_name x) (arr (last_elem path path ++ [0])) 16) x);;
          (* Commit to the user image. *)
          oldpagetable ← p_get p p_pagetable;
          p_set p (set_p_pagetable pagetable);;
          p_set p (set_p_sz sz);;
          tf_set p TF_epc (elf_entry elf);;
          tf_set p TF_sp sp;;
          proc_freepagetable oldpagetable oldsz;;
          mret argc
      end
  end.
End exec.
