(* ===== verification/Sysfile.v ===== *)
(** * kernel/sysfile.c: file-system system calls *)

From S2P Require Export Syscall.

Definition O_RDONLY : Z := 0.
Definition O_WRONLY : Z := 1.
Definition O_RDWR : Z := 2.
Definition O_CREATE : Z := 0x200.
Definition O_TRUNC : Z := 0x400.

Section sysfile.
Context {LY : Layout} {TH : Threads} {BD : BlockDev}.

(** The descriptor and the file, on success. *)
Definition argfd (n : Z) : K (option (nat * nat)) :=
  fd ← argint n;
  if (fd <? 0) || (Z.of_nat NOFILE <=? fd) then mret None else
  p ← this_proc;
  f ← p_get p (fun x => p_ofile x !!! Z.to_nat fd);
  mret (match f with Some f => Some (Z.to_nat fd, f) | None => None end).

Definition set_ofile (p fd : nat) (f : option nat) : K unit :=
  p_set p (fun x => set_p_ofile (<[fd := f]> (p_ofile x)) x).

Definition fdalloc (f : nat) : K (option nat) :=
  p ← this_proc;
  for_each (seq 0 NOFILE) (fun fd =>
    o ← p_get p (fun x => p_ofile x !!! fd);
    match o with
    | None => set_ofile p fd (Some f);; mret (Some fd)
    | Some _ => mret None
    end).

(** [-1] as a [uint64] *)
Definition fail : K Z := mret (u64 (-1)).

Definition sys_dup : K Z :=
  r ← argfd 0;
  match r with
  | None => fail
  | Some (_, f) =>
      fd ← fdalloc f;
      match fd with
      | None => fail
      | Some fd => filedup f;; mret (Z.of_nat fd)
      end
  end.

Definition sys_read : K Z :=
  r ← argfd 0;
  match r with
  | None => fail
  | Some (_, f) =>
      n ← argint 2;
      p ← argaddr 1;
      v ← fileread f p n;
      mret (u64 v)
  end.

Definition sys_write : K Z :=
  r ← argfd 0;
  match r with
  | None => fail
  | Some (_, f) =>
      n ← argint 2;
      p ← argaddr 1;
      v ← filewrite f p n;
      mret (u64 v)
  end.

Definition sys_close : K Z :=
  r ← argfd 0;
  match r with
  | None => fail
  | Some (fd, f) =>
      p ← this_proc;
      set_ofile p fd None;;
      fileclose f;;
      mret 0
  end.

Definition sys_fstat : K Z :=
  r ← argfd 0;
  match r with
  | None => fail
  | Some (_, f) =>
      st ← argaddr 1;
      v ← filestat f st;
      mret (u64 v)
  end.

Definition name0 : list Z := replicate (Z.to_nat DIRSIZ) 0.

Definition add_nlink (d : Z) (i : inode) : inode := set_i_nlink (s16 (i_nlink i + d)) i.

Definition sys_link_bad (ip : nat) : K Z :=
  ilock ip;;
  ip_set ip (add_nlink (-1));;
  iupdate ip;;
  iunlockput ip;;
  end_op;;
  fail.

Definition sys_link : K Z :=
  old ← argpath 0;
  match old with
  | None => fail
  | Some old =>
  new ← argpath 1;
  match new with
  | None => fail
  | Some new =>
      begin_op;;
      r ← namei old;
      match r with
      | None => end_op;; fail
      | Some ip =>
          ilock ip;;
          type ← ip_get ip i_type;
          if type =? T_DIR then iunlockput ip;; end_op;; fail else
          ip_set ip (add_nlink 1);;
          iupdate ip;;
          iunlock ip;;
          r ← nameiparent new name0;
          match r with
          | (None, _) => sys_link_bad ip
          | (Some dp, name) =>
              ilock dp;;
              ddev ← ip_get dp i_dev;
              idev ← ip_get ip i_dev;
              inum ← ip_get ip i_inum;
              r ← (if negb (ddev =? idev) then mret (-1) else dirlink dp (arr name) inum);
              if r <? 0 then iunlockput dp;; sys_link_bad ip else
              iunlockput dp;;
              iput ip;;
              end_op;;
              mret 0
          end
      end
  end
  end.

(** Is the directory empty except for "." and ".." ? *)
Definition isdirempty (dp : nat) : K bool :=
  size ← ip_get dp i_size;
  loop_with (dir_fuel size) (2 * sizeof_dirent) (fun off =>
    size ← ip_get dp i_size;
    if u32 off <? size then
      de ← read_dirent dp (u32 off) "isdirempty: readi";
      if negb (de_inum de =? 0) then mret (inr false) else mret (inl (off + sizeof_dirent))
    else mret (inr true)).

Definition sys_unlink_bad (dp : nat) : K Z :=
  iunlockput dp;;
  end_op;;
  fail.

Definition sys_unlink : K Z :=
  path ← argpath 0;
  match path with
  | None => fail
  | Some path =>
      begin_op;;
      r ← nameiparent path name0;
      match r with
      | (None, _) => end_op;; fail
      | (Some dp, name) =>
          ilock dp;;
          (* Cannot unlink the entries for the directory itself and its parent. *)
          if (namecmp (arr name) (arr (chars "." ++ [0])) =? 0) ||
             (namecmp (arr name) (arr (chars ".." ++ [0])) =? 0) then sys_unlink_bad dp else
          r ← dirlookup dp (arr name);
          match r with
          | None => sys_unlink_bad dp
          | Some (ip, off) =>
              ilock ip;;
              nlink ← ip_get ip i_nlink;
              if nlink <? 1 then panic "unlink: nlink < 1" else
              type ← ip_get ip i_type;
              empty ← (if type =? T_DIR then isdirempty ip else mret true);
              if negb empty then iunlockput ip;; sys_unlink_bad dp else
              r ← writei dp (KernSrc (arr (replicate (Z.to_nat sizeof_dirent) 0))) off sizeof_dirent;
              if negb (r =? sizeof_dirent) then panic "unlink: writei" else
              type ← ip_get ip i_type;
              when (type =? T_DIR)
                (ip_set dp (add_nlink (-1));;
                 iupdate dp);;
              iunlockput dp;;
              ip_set ip (add_nlink (-1));;
              iupdate ip;;
              iunlockput ip;;
              end_op;;
              mret 0
          end
      end
  end.

Definition create (path : list Z) (type major minor : Z) : K (option nat) :=
  r ← nameiparent path name0;
  match r with
  | (None, _) => mret None
  | (Some dp, name) =>
      ilock dp;;
      r ← dirlookup dp (arr name);
      match r with
      | Some (ip, _) =>
          iunlockput dp;;
          ilock ip;;
          itype ← ip_get ip i_type;
          if (type =? T_FILE) && ((itype =? T_FILE) || (itype =? T_DEVICE)) then mret (Some ip) else
          iunlockput ip;;
          mret None
      | None =>
          dev ← ip_get dp i_dev;
          ip ← ialloc dev type;
          ilock ip;;
          ip_set ip (set_i_major major);;
          ip_set ip (set_i_minor minor);;
          ip_set ip (set_i_nlink 1);;
          iupdate ip;;
          inum ← ip_get ip i_inum;
          pinum ← ip_get dp i_inum;
          when (type =? T_DIR)                     (* Create . and .. entries. *)
            (ip_set dp (add_nlink 1);;
             iupdate dp;;
             (* No ip->nlink++ for ".": avoid cyclic ref count. *)
             r ← dirlink ip (arr (chars "." ++ [0])) inum;
             r ← (if r <? 0 then mret (-1) else dirlink ip (arr (chars ".." ++ [0])) pinum);
             if r <? 0 then panic "create dots" else skip);;
          r ← dirlink dp (arr name) inum;
          if r <? 0 then panic "create: dirlink" else
          iunlockput dp;;
          mret (Some ip)
      end
  end.

(** The inode that [sys_open] opens, locked, or none after [end_op]. *)
Definition open_inode (path : list Z) (omode : Z) : K (option nat) :=
  if truth (Z.land omode O_CREATE) then
    r ← create path T_FILE 0 0;
    match r with
    | None => end_op;; mret None
    | Some ip => mret (Some ip)
    end
  else
    r ← namei path;
    match r with
    | None => end_op;; mret None
    | Some ip =>
        ilock ip;;
        type ← ip_get ip i_type;
        if (type =? T_DIR) && negb (omode =? O_RDONLY) then
          iunlockput ip;; end_op;; mret None
        else mret (Some ip)
    end.

Definition sys_open : K Z :=
  path ← argpath 0;
  match path with
  | None => fail
  | Some path =>
      omode ← argint 1;
      begin_op;;
      r ← open_inode path omode;
      match r with
      | None => fail
      | Some ip =>
          i ← ip_get ip id;
          if (i_type i =? T_DEVICE) && ((i_major i <? 0) || (Z.of_nat NDEV <=? i_major i)) then
            iunlockput ip;; end_op;; fail
          else
          f ← filealloc;
          match f with
          | None => iunlockput ip;; end_op;; fail
          | Some f =>
              fd ← fdalloc f;
              match fd with
              | None => fileclose f;; iunlockput ip;; end_op;; fail
              | Some fd =>
                  (if i_type i =? T_DEVICE then
                     f_set f (set_f_type FD_DEVICE);;
                     f_set f (set_f_major (i_major i))
                   else
                     f_set f (set_f_type FD_INODE);;
                     f_set f (set_f_off 0));;
                  f_set f (set_f_ip (Some ip));;
                  f_set f (set_f_readable (cbool (negb (truth (Z.land omode O_WRONLY)))));;
                  f_set f (set_f_writable (cbool (truth (Z.land omode O_WRONLY) || truth (Z.land omode O_RDWR))));;
                  when (truth (Z.land omode O_TRUNC) && (i_type i =? T_FILE)) (itrunc ip);;
                  iunlock ip;;
                  end_op;;
                  mret (Z.of_nat fd)
              end
          end
      end
  end.

Definition sys_mkdir : K Z :=
  begin_op;;
  path ← argpath 0;
  r ← match path with None => mret None | Some path => create path T_DIR 0 0 end;
  match r with
  | None => end_op;; fail
  | Some ip => iunlockput ip;; end_op;; mret 0
  end.

Definition sys_mknod : K Z :=
  begin_op;;
  path ← argpath 0;
  r ← match path with
      | None => mret None
      | Some path =>
          major ← argint 1;
          minor ← argint 2;
          create path T_DEVICE (s16 major) (s16 minor)
      end;
  match r with
  | None => end_op;; fail
  | Some ip => iunlockput ip;; end_op;; mret 0
  end.

Definition sys_chdir : K Z :=
  p ← this_proc;
  begin_op;;
  path ← argpath 0;
  r ← match path with None => mret None | Some path => namei path end;
  match r with
  | None => end_op;; fail
  | Some ip =>
      ilock ip;;
      type ← ip_get ip i_type;
      if negb (type =? T_DIR) then iunlockput ip;; end_op;; fail else
      iunlock ip;;
      cwd ← p_get p p_cwd;
      match cwd with Some c => iput c | None => panic "kerneltrap" end;;
      end_op;;
      p_set p (set_p_cwd (Some ip));;
      mret 0
  end.

(** The pages of the arguments fetched so far, and whether all were fetched. *)
Fixpoint sys_exec_args (n : nat) (uargv : Z) (i : Z) (argv : list Z) : K (bool * list Z) :=
  match n with
  | O => mret (false, argv)
  | S n =>
      uarg ← fetchaddr (u64 (uargv + 8 * i));
      match uarg with
      | None => mret (false, argv)
      | Some uarg =>
          if uarg =? 0 then mret (true, argv) else
          page ← kalloc;
          if page =? 0 then mret (false, argv) else
          r ← fetchstr uarg PGSIZE;
          modify (fun k => set_mem (wr_bytes page r.2 (k_mem k)) k);;
          if r.1 <? 0 then mret (false, argv ++ [page]) else
          sys_exec_args n uargv (i + 1) (argv ++ [page])
      end
  end.

Definition sys_exec : K Z :=
  path ← argpath 0;
  match path with
  | None => fail
  | Some path =>
      uargv ← argaddr 1;
      r ← sys_exec_args MAXARG uargv 0 [];
      let '(ok, argv) := r in
      if negb ok then for_all argv kfree;; fail else
      ret ← exec path argv;
      for_all argv kfree;;
      mret (u64 ret)
  end.

Definition sys_pipe : K Z :=
  p ← this_proc;
  fdarray ← argaddr 0;
  r ← pipealloc;
  match r with
  | None => fail
  | Some (rf, wf) =>
      fd0 ← fdalloc rf;
      match fd0 with
      | None => fileclose rf;; fileclose wf;; fail
      | Some fd0 =>
          fd1 ← fdalloc wf;
          match fd1 with
          | None => set_ofile p fd0 None;; fileclose rf;; fileclose wf;; fail
          | Some fd1 =>
              pagetable ← p_get p p_pagetable;
              r ← copyout pagetable fdarray (arr (le_encode 4 (Z.of_nat fd0))) 4;
              r ← (if r <? 0 then mret r
                   else copyout pagetable (u64 (fdarray + 4)) (arr (le_encode 4 (Z.of_nat fd1))) 4);
              if r <? 0 then
                set_ofile p fd0 None;;
                set_ofile p fd1 None;;
                fileclose rf;;
                fileclose wf;;
                fail
              else mret 0
          end
      end
  end.
End sysfile.
