(* ===== verification/Sysproc.v ===== *)
(** * kernel/sysproc.c, and the dispatch of kernel/syscall.c *)

From S2P Require Export Sysfile.

Section sysproc.
Context {LY : Layout} {TH : Threads} {BD : BlockDev}.

Definition sys_exit : K Z :=
  n ← argint 0;
  exit n;;
  mret 0.

Definition sys_getpid : K Z :=
  p ← this_proc;
  pid ← p_get p p_pid;
  mret (u64 pid).

Definition sys_fork : K Z := r ← fork; mret (u64 r).

Definition sys_wait : K Z :=
  p ← argaddr 0;
  r ← wait p;
  mret (u64 r).

Definition sys_sbrk : K Z :=
  n ← argint 0;
  p ← this_proc;
  sz ← p_get p p_sz;
  let addr := s32 sz in
  r ← growproc n;
  if r <? 0 then fail else mret (u64 addr).

(** [ticks - ticks0 < n] compares unsigned. *)
Definition sys_sleep : K Z :=
  n ← argint 0;
  acquire Lticks;;
  ticks0 ← gets k_ticks;
  loop (S patience) (
    ticks ← gets k_ticks;
    if u32 (ticks - ticks0) <? u32 n then
      p ← this_proc;
      killed ← p_get p p_killed;
      if truth killed then
        release Lticks;;
        mret (Some (u64 (-1)))
      else
        sleep ChTicks Lticks;;
        mret None
    else
      release Lticks;;
      mret (Some 0)).

Definition sys_kill : K Z :=
  pid ← argint 0;
  r ← kill pid;
  mret (u64 r).

Definition sys_uptime : K Z :=
  acquire Lticks;;
  xticks ← gets k_ticks;
  release Lticks;;
  mret xticks.

(** [static uint64 ( *syscalls[])(void)]: entry [num] of the table. *)
Definition syscalls (num : Z) : option (K Z) :=
  match num with
  | 1 => Some sys_fork | 2 => Some sys_exit | 3 => Some sys_wait | 4 => Some sys_pipe
  | 5 => Some sys_read | 6 => Some sys_kill | 7 => Some sys_exec | 8 => Some sys_fstat
  | 9 => Some sys_chdir | 10 => Some sys_dup | 11 => Some sys_getpid | 12 => Some sys_sbrk
  | 13 => Some sys_sleep | 14 => Some sys_uptime | 15 => Some sys_open | 16 => Some sys_write
  | 17 => Some sys_mknod | 18 => Some sys_unlink | 19 => Some sys_link | 20 => Some sys_mkdir
  | 21 => Some sys_close | _ => None
  end.

Definition syscall : K unit :=
  p ← this_proc;
  a7 ← tf_get p TF_a7;
  let num := s32 a7 in
  match (if 0 <? num then syscalls num else None) with
  | Some f => r ← f; tf_set p TF_a0 r
  | None =>
      pid ← p_get p p_pid;
      name ← p_get p (fun x => cstr 16 (arr (p_name x)));
      printf (chars "%d %s: unknown sys call %d" ++ [10]) [AInt pid; AStr (Some name); AInt num];;
      tf_set p TF_a0 (u64 (-1))
  end.
End sysproc.
