(* ===== verification/Ulib.v ===== *)
(** * user/ulib.c

    The string functions work on the byte memory of the process, with sources
    that are only read given as readers, as in Kstring.  [stat] only chains
    three system calls and is not modelled.

    A file descriptor that a program reads from is an [input]: the bytes still
    to come, and a script of how much each [read] call delivers, over which the
    theorems quantify. *)

From S2P Require Export Kstring.

(** ** Input *)

(** [in_sizes]: a positive answer delivers at most so many bytes, any other
    answer is an error; when the script is over, [read] delivers what it can. *)
Record input := mkInput { in_rest : list Z; in_sizes : list Z }.

Definition deliver (n : Z) (s : input) (sizes : list Z) : Z * list Z * input :=
  let bs := take (Z.to_nat n) (in_rest s) in
  (Z.of_nat (length bs), bs, mkInput (drop (Z.to_nat n) (in_rest s)) sizes).

(** [read(fd, buf, n)]: the result and the bytes stored. *)
Definition read (n : Z) (s : input) : Z * list Z * input :=
  match in_sizes s with
  | [] => deliver n s []
  | c :: cs => if c <=? 0 then (-1, [], mkInput (in_rest s) cs) else deliver (Z.min n c) s cs
  end.

(** ** The functions *)

(** [fuel] bounds the loops that end at a NUL; [None] when there is none. *)
Fixpoint strcpy_loop (fuel : nat) (s : Z) (t : Z -> Z) (m : gmap Z Z) : option (gmap Z Z) :=
  match fuel with
  | O => None
  | S fuel =>
      let m := wr8 s (t 0) m in
      if truth (t 0) then strcpy_loop fuel (s + 1) (ptr_add t 1) m else Some m
  end.

Definition strcpy (fuel : nat) (s : Z) (t : Z -> Z) (m : gmap Z Z) : option (gmap Z Z) :=
  strcpy_loop fuel s t m.

Fixpoint strcmp (fuel : nat) (p q : Z -> Z) : option Z :=
  match fuel with
  | O => None
  | S fuel =>
      if truth (p 0) && (p 0 =? q 0) then strcmp fuel (ptr_add p 1) (ptr_add q 1)
      else Some (u8 (p 0) - u8 (q 0))
  end.

(** The offset of the character found; [Some None] is the null pointer. *)
Fixpoint strchr (fuel : nat) (s : Z -> Z) (c : Z) : option (option Z) :=
  match fuel with
  | O => None
  | S fuel =>
      if truth (s 0) then
        if s 0 =? c then Some (Some 0)
        else option_map (option_map Z.succ) (strchr fuel (ptr_add s 1) c)
      else Some None
  end.

(** The bytes stored in [buf] before the final NUL. *)
Fixpoint gets_loop (n : nat) (buf : list Z) (s : input) : list Z * input :=
  match n with
  | O => (buf, s)
  | S n =>
      let '(cc, bs, s) := read 1 s in
      if cc <? 1 then (buf, s) else
      let c := bs !!! O in
      let buf := buf ++ [c] in
      if (c =? 10) || (c =? 13) then (buf, s) else gets_loop n buf s
  end.

Definition gets (max : Z) (s : input) : list Z * input :=
  let '(buf, s) := gets_loop (Z.to_nat (max - 1)) [] s in
  (buf ++ [0], s).

Fixpoint atoi_loop (fuel : nat) (n : Z) (s : Z -> Z) : option Z :=
  match fuel with
  | O => None
  | S fuel =>
      if (48 <=? s 0) && (s 0 <=? 57) then atoi_loop fuel (s32 (n * 10 + s 0 - 48)) (ptr_add s 1)
      else Some n
  end.

Definition atoi (fuel : nat) (s : Z -> Z) : option Z := atoi_loop fuel 0 s.

Definition memmove (dst src n : Z) (m : gmap Z Z) : gmap Z Z :=
  if dst <? src then copy_up (Z.to_nat n) dst src m
  else copy_down (Z.to_nat n) (dst + n) (src + n) m.

Definition memcpy (dst src n : Z) (m : gmap Z Z) : gmap Z Z := memmove dst src (s32 n) m.

Definition memset (dst c n : Z) (m : gmap Z Z) : gmap Z Z := memset_loop (Z.to_nat (u32 n)) 0 dst c m.

Definition memcmp (s1 s2 : Z -> Z) (n : Z) : Z := memcmp_loop (Z.to_nat (u32 n)) s1 s2.

Definition strlen (fuel : nat) (s : Z -> Z) : option Z := u32 <$> Kstring.strlen fuel s.

(** ** What they compute *)

(** A read of at least one byte delivers some bytes unless the input is over. *)
Lemma read_spec n s :
  0 < n -> Forall (fun c => 0 < c) (in_sizes s) ->
  exists bs s', read n s = (Z.of_nat (length bs), bs, s') /\ in_rest s = bs ++ in_rest s' /\
    (in_rest s <> [] -> bs <> []) /\ Z.of_nat (length bs) <= n /\ Forall (fun c => 0 < c) (in_sizes s').
Proof.
  intros Hn Hs. unfold read, deliver.
  assert (Hd : forall k, 0 < k <= n -> in_rest s <> [] -> take (Z.to_nat k) (in_rest s) <> []).
  { intros k Hk Hr. destruct (in_rest s); [done|]. by destruct (Z.to_nat k) eqn:E; [lia|]. }
  destruct (in_sizes s) as [|c cs].
  - eexists _, _. split; [done|]. cbn. rewrite take_drop, length_take. split; [done|]. split; [by apply Hd; lia|]. split; [lia|done].
  - apply Forall_cons in Hs as [Hc Hs]. destruct (c <=? 0) eqn:E; bprop; [lia|].
    eexists _, _. split; [done|]. cbn. rewrite take_drop, length_take. split; [done|]. split; [by apply Hd; lia|]. split; [lia|done].
Qed.

(** The memmove of the user library copies as the one of the kernel does,
    for overlapping ranges too: its other test for the direction is as good. *)
Theorem user_memmove_copies dst src n m :
  0 <= n < 2147483648 -> memmove dst src n m = Kstring.memmove dst src n m.
Proof.
  intros Hn. rewrite memmove_copies by lia. unfold memmove. apply map_eq. intros x.
  rewrite wr_rd_bytes_lookup. destruct (dst <? src) eqn:E; bprop; [by apply copy_up_lookup; lia|].
  rewrite copy_down_lookup by lia. destruct (decide (dst <= x < dst + Z.of_nat (Z.to_nat n))).
  - rewrite decide_True by lia. do 2 f_equal. lia.
  - by rewrite decide_False by lia.
Qed.

Lemma user_memmove_copies_witness :
  memmove 101 100 3 (wr_bytes 100 [1; 2; 3; 4] ∅) = Kstring.memmove 101 100 3 (wr_bytes 100 [1; 2; 3; 4] ∅).
Proof. apply user_memmove_copies. lia. Defined.

(** The strings are equal exactly when [strcmp] returns 0; otherwise its sign
    is the order of the first characters that differ. *)
Fixpoint lex (p q : list Z) : Z :=
  match p, q with
  | [], [] => 0
  | [], y :: _ => - y
  | x :: _, [] => x
  | x :: p, y :: q => if x =? y then lex p q else x - y
  end.

(** A reader of the C string [l]: its characters, then a NUL. *)
Definition reads (p : Z -> Z) (l : list Z) : Prop :=
  Forall (fun c => 0 < c < 256) l /\ forall i, (i < length l)%nat -> l !! i = Some (p (Z.of_nat i)).
Definition reads_str (p : Z -> Z) (l : list Z) : Prop := reads p l /\ p (Z.of_nat (length l)) = 0.

Lemma reads_str_nil p : reads_str p [] -> p 0 = 0.
Proof. by intros [_ H]. Qed.

Lemma reads_cons p c l : reads p (c :: l) -> p 0 = c /\ 0 < c < 256 /\ reads (ptr_add p 1) l.
Proof.
  intros [Hf Hl]. apply Forall_cons in Hf as [Hc Hf]. pose proof (Hl O ltac:(cbn; lia)) as H0. cbn in H0.
  injection H0 as H0. repeat split; [done|lia|lia|done|]. intros i Hi.
  specialize (Hl (S i) ltac:(cbn; lia)). change ((c :: l) !! S i) with (l !! i) in Hl. rewrite Hl. unfold ptr_add. do 2 f_equal. lia.
Qed.

Lemma reads_str_cons p c l :
  reads_str p (c :: l) -> p 0 = c /\ 0 < c < 256 /\ reads_str (ptr_add p 1) l.
Proof.
  intros [Hr He]. destruct (reads_cons _ _ _ Hr) as (H0 & Hc & Hr'). split; [done|]. split; [done|]. split; [done|].
  unfold ptr_add. rewrite <- He. f_equal. cbn [length]. lia.
Qed.

Lemma strcmp_lex fuel p q l r :
  reads_str p l -> reads_str q r -> (length l < fuel)%nat -> strcmp fuel p q = Some (lex l r).
Proof.
  revert p q l r; induction fuel as [|fuel IH]; intros p q l r Hp Hq Hf; [lia|]. cbn [strcmp].
  destruct l as [|c l].
  - apply reads_str_nil in Hp as ->. cbn. destruct r as [|d r].
    + by apply reads_str_nil in Hq as ->.
    + apply reads_str_cons in Hq as (-> & Hd & _). by rewrite (u8_id d), (u8_id 0) by lia.
  - apply reads_str_cons in Hp as (-> & Hc & Hp). unfold truth. destruct (c =? 0) eqn:Ec; bprop; [lia|]. cbn [negb andb].
    destruct r as [|d r].
    + apply reads_str_nil in Hq as ->. destruct (c =? 0) eqn:E0; bprop; [lia|].
      by rewrite !u8_id, Z.sub_0_r by lia.
    + apply reads_str_cons in Hq as (-> & Hd & Hq). cbn [lex]. destruct (c =? d) eqn:E.
      * apply IH; try done. cbn in Hf. lia.
      * by rewrite !u8_id by lia.
Qed.

(** The value of a decimal numeral. *)
Definition decimal (ds : list Z) (n : Z) : Z := foldl (fun n d => n * 10 + (d - 48)) n ds.

Lemma decimal_mono ds n : Forall (fun d => 48 <= d <= 57) ds -> 0 <= n -> n <= decimal ds n.
Proof.
  revert n; induction ds as [|d ds IH]; intros n Hd Hn; cbn; [lia|].
  apply Forall_cons in Hd as [H Hd]. specialize (IH (n * 10 + (d - 48)) Hd). unfold decimal in IH. lia.
Qed.

(** [atoi] reads the numeral in front of the first other character, as long
    as it fits an int. *)
Lemma atoi_loop_decimal fuel n p ds :
  Forall (fun d => 48 <= d <= 57) ds -> reads p ds ->
  ~ (48 <= p (Z.of_nat (length ds)) <= 57) -> 0 <= n -> decimal ds n < 2147483648 ->
  (length ds < fuel)%nat -> atoi_loop fuel n p = Some (decimal ds n).
Proof.
  revert n p ds; induction fuel as [|fuel IH]; intros n p ds Hd Hr He Hn Hv Hf; [lia|]. cbn [atoi_loop].
  destruct ds as [|d ds].
  - destruct ((48 <=? p 0) && (p 0 <=? 57)) eqn:E; bprop; [change (Z.of_nat (length [])) with 0 in He; lia|done].
  - apply Forall_cons in Hd as [H Hd]. apply reads_cons in Hr as (-> & _ & Hr).
    destruct ((48 <=? d) && (d <=? 57)) eqn:E.
    + cbn [decimal foldl] in Hv |- *. pose proof (decimal_mono ds (n * 10 + (d - 48)) Hd ltac:(lia)).
      unfold decimal in *. replace (n * 10 + d - 48) with (n * 10 + (d - 48)) by lia. rewrite s32_id by lia.
      apply IH; try done; [|lia|cbn in Hf; lia]. unfold ptr_add. cbn [length] in He.
      by replace (1 + Z.of_nat (length ds)) with (Z.of_nat (S (length ds))) by lia.
    + apply andb_false_iff in E as [E|E]; bprop; lia.
Qed.
