(* ===== verification/Uprintf.v ===== *)
(** * user/printf.c

    [putc] writes one byte with the write system call; the model collects the
    bytes written, in order.  The arguments are a list, as for the printf of
    the kernel. *)

From S2P Require Export Printf Ulib.

Definition digits : list Z := chars "0123456789ABCDEF".

Fixpoint digits_loop (n : nat) (x base : Z) : list Z :=
  match n with
  | O => []
  | S n => digits !!! Z.to_nat (x mod base) ::
             (if x / base =? 0 then [] else digits_loop n (x / base) base)
  end.

Definition printint (xx base : Z) (sgn : bool) : list Z :=
  let neg := sgn && (xx <? 0) in
  let x := if neg then u32 (- xx) else u32 xx in
  reverse (digits_loop 16 x base ++ (if neg then [45] else [])).

Definition printptr (x : Z) : list Z :=
  [48; 120] ++ ((fun i => digits !!! Z.to_nat (Z.shiftr (u64 (Z.shiftl x (4 * Z.of_nat i))) 60)) <$> seq 0 16).

(** [state] is [false] for 0 and [true] for the state after a percent sign. *)
Fixpoint vprintf_loop (fmt : list Z) (state : bool) (ap : list parg) : list Z :=
  match fmt with
  | [] => []
  | c :: fmt =>
      if negb state then
        if c =? 37 then vprintf_loop fmt true ap else c :: vprintf_loop fmt false ap
      else if c =? 100 then let '(x, ap) := pop_int ap in printint x 10 true ++ vprintf_loop fmt false ap
      else if c =? 108 then let '(x, ap) := pop_ptr ap in printint (s32 x) 10 false ++ vprintf_loop fmt false ap
      else if c =? 120 then let '(x, ap) := pop_int ap in printint x 16 false ++ vprintf_loop fmt false ap
      else if c =? 112 then let '(x, ap) := pop_ptr ap in printptr x ++ vprintf_loop fmt false ap
      else if c =? 115 then let '(s, ap) := pop_str ap in s ++ vprintf_loop fmt false ap
      else if c =? 99 then let '(x, ap) := pop_int ap in u8 x :: vprintf_loop fmt false ap
      else if c =? 37 then c :: vprintf_loop fmt false ap
      else 37 :: c :: vprintf_loop fmt false ap
  end.

Definition vprintf (fmt : list Z) (ap : list parg) : list Z := vprintf_loop fmt false ap.

(** ** Printing and reading numbers *)

Lemma digit_char d : 0 <= d < 10 -> digits !!! Z.to_nat d = 48 + d.
Proof. intros. assert (d = 0 \/ d = 1 \/ d = 2 \/ d = 3 \/ d = 4 \/ d = 5 \/ d = 6 \/ d = 7 \/ d = 8 \/ d = 9) as H' by lia. by repeat destruct H' as [-> | H']; [..|rewrite H']. Qed.

Lemma decimal_snoc ds d n : decimal (ds ++ [d]) n = decimal ds n * 10 + (d - 48).
Proof. unfold decimal. by rewrite foldl_app. Qed.

(** The digits, most significant first, are a numeral for [x]; ten rounds are
    enough for an int. *)
Lemma digits_loop_decimal n x :
  0 <= x < 10 ^ Z.of_nat n -> (0 < n)%nat ->
  Forall (fun d => 48 <= d <= 57) (reverse (digits_loop n x 10)) /\
  decimal (reverse (digits_loop n x 10)) 0 = x /\ (0 < length (digits_loop n x 10) <= n)%nat.
Proof.
  revert x; induction n as [|n IH]; intros x Hx Hn; [lia|]. cbn [digits_loop].
  rewrite digit_char by zlia. rewrite Nat2Z.inj_succ, Z.pow_succ_r in Hx by lia.
  destruct (x / 10 =? 0) eqn:E; bprop; rewrite ?reverse_cons.
  - change (reverse [] ++ ?l) with l. unfold decimal. cbn [foldl length].
    split; [|split; [zlia|lia]]. repeat constructor; zlia.
  - destruct (IH (x / 10)) as (Hd & Hv & Hl); [zlia| |].
    { destruct n; [cbn in Hx; zlia|lia]. }
    split; [|split; [|cbn; lia]].
    + apply Forall_app. split; [done|]. repeat constructor; zlia.
    + rewrite decimal_snoc, Hv. zlia.
Qed.

(** A number printed with [%d] is read back by [atoi]: for every
    non-negative int, whatever non-digit follows the printed digits. *)
Theorem printint_atoi x p :
  0 <= x < 2147483648 -> reads p (printint x 10 true) ->
  ~ (48 <= p (Z.of_nat (length (printint x 10 true))) <= 57) ->
  atoi 17 p = Some x.
Proof.
  intros Hx. unfold printint. destruct (x <? 0) eqn:E; bprop; [lia|]. rewrite andb_false_r, app_nil_r, u32_id by lia.
  destruct (digits_loop_decimal 16 x) as (Hd & Hv & Hl); [lia|lia|]. intros Hr He. unfold atoi.
  rewrite <- Hv at 1. apply atoi_loop_decimal; try done; [rewrite Hv; lia|rewrite length_reverse; lia].
Qed.

Lemma printint_atoi_witness :
  atoi 17 (arr (printint 2021 10 true ++ [10; 0])) = Some 2021.
Proof.
  apply (printint_atoi 2021); [lia| |by vm_compute; intuition congruence]. split.
  - repeat constructor.
  - intros i Hi. do 4 (destruct i as [|i]; [by vm_compute|]). vm_compute in Hi. lia.
Defined.
