(* ===== verification/Grep.v ===== *)
(** * user/grep.c

    C strings are lists of characters without their NUL: [re[0]] of the empty
    string is the NUL.  The buffer of [grep] is the list of the [m] bytes it
    holds; what [write] gets is collected in order.  [main], which opens the
    files and calls [grep] on each, is not modelled. *)

From S2P Require Export Ulib.

Definition STAR : Z := 42.
Definition DOT : Z := 46.
Definition CARET : Z := 94.
Definition DOLLAR : Z := 36.

(** [matchstar(c, re, text)], with [here] for [matchhere(re, _)]. *)
Fixpoint matchstar (c : Z) (here : list Z -> bool) (text : list Z) : bool :=
  if here text then true else
  match text with
  | [] => false
  | t :: text => if (t =? c) || (c =? DOT) then matchstar c here text else false
  end.

Fixpoint matchhere (re : list Z) (text : list Z) {struct re} : bool :=
  match re with
  | [] => true
  | c :: re1 =>
      match re1 with
      | d :: re2 => if d =? STAR then matchstar c (matchhere re2) text else
          match text with
          | [] => false
          | t :: text => if (c =? DOT) || (c =? t) then matchhere re1 text else false
          end
      | [] => if c =? DOLLAR then (match text with [] => true | _ => false end) else
          match text with
          | [] => false
          | t :: text => if (c =? DOT) || (c =? t) then matchhere re1 text else false
          end
      end
  end.

(** The do-while loop of [match] on the suffixes of the text. *)
Fixpoint match_loop (re text : list Z) : bool :=
  if matchhere re text then true else
  match text with
  | [] => false
  | _ :: text => match_loop re text
  end.

Definition match_ (re text : list Z) : bool :=
  match re with
  | c :: re' => if c =? CARET then matchhere re' text else match_loop re text
  | [] => match_loop re text
  end.

(** [strchr(p, '\n')] in the buffer, which ends with a NUL: the bytes before
    the newline and those behind it. *)
Fixpoint next_line (p : list Z) : option (list Z * list Z) :=
  match p with
  | [] => None
  | c :: p => if c =? 0 then None else if c =? 10 then Some ([], p) else
              '(l, rest) ← next_line p; Some (c :: l, rest)
  end.

(** The inner loop: what it writes, and the bytes from [p] on. *)
Fixpoint grep_lines (n : nat) (pattern p : list Z) : list Z * list Z :=
  match n with
  | O => ([], p)
  | S n =>
      match next_line p with
      | None => ([], p)
      | Some (line, rest) =>
          let '(out, p) := grep_lines n pattern rest in
          ((if match_ pattern line then line ++ [10] else []) ++ out, p)
      end
  end.

Definition sizeof_buf : Z := 1024.

(** The outer loop: what has been written when it ends; [None] when the fuel
    is used up. *)
Fixpoint grep_loop (fuel : nat) (pattern buf : list Z) (s : input) : option (list Z) :=
  match fuel with
  | O => None
  | S fuel =>
      let '(n, bs, s) := read (sizeof_buf - Z.of_nat (length buf) - 1) s in
      if 0 <? n then
        let buf := buf ++ bs in
        let '(out, buf) := grep_lines (length buf) pattern buf in
        rest ← grep_loop fuel pattern buf s;
        Some (out ++ rest)
      else Some []
  end.

(** Every [read] delivers a byte or ends the loop. *)
Definition grep (pattern : list Z) (s : input) : option (list Z) :=
  grep_loop (S (length (in_rest s))) pattern [] s.

(** ** The language of a pattern *)

Inductive item := One (c : Z) | Star (c : Z).

(** The items of a pattern, and whether it ends with an anchor. *)
Fixpoint parse (re : list Z) : list item * bool :=
  match re with
  | [] => ([], false)
  | c :: re1 =>
      match re1 with
      | d :: re2 =>
          if d =? STAR then (Star c :: (parse re2).1, (parse re2).2)
          else (One c :: (parse re1).1, (parse re1).2)
      | [] => if c =? DOLLAR then ([], true) else ([One c], false)
      end
  end.

Definition accepts (c t : Z) : Prop := c = DOT \/ c = t.

Inductive denotes : list item -> list Z -> Prop :=
  | den_nil : denotes [] []
  | den_one c its t text : accepts c t -> denotes its text -> denotes (One c :: its) (t :: text)
  | den_star_nil c its text : denotes its text -> denotes (Star c :: its) text
  | den_star_cons c its t text : accepts c t -> denotes (Star c :: its) text -> denotes (Star c :: its) (t :: text).

(** The pattern matches at the beginning of the text. *)
Definition prefix_match (p : list item * bool) (text : list Z) : Prop :=
  exists pre post, text = pre ++ post /\ denotes p.1 pre /\ (p.2 = true -> post = []).

(** The whole pattern: a leading caret ties it to the start of the text. *)
Definition pattern_match (re text : list Z) : Prop :=
  match re with
  | c :: re' => if c =? CARET then prefix_match (parse re') text
                else exists before rest, text = before ++ rest /\ prefix_match (parse re) rest
  | [] => exists before rest, text = before ++ rest /\ prefix_match (parse re) rest
  end.

Lemma prefix_one c its a t text :
  prefix_match (One c :: its, a) (t :: text) <-> accepts c t /\ prefix_match (its, a) text.
Proof.
  split.
  - intros (pre & post & E & D & H). inversion D; simplify_eq/=. eauto 10 using denotes.
    split; [done|]. by eexists _, _.
  - intros [Ha (pre & post & -> & D & H)]. exists (t :: pre), post. eauto using denotes.
Qed.

Lemma prefix_nil text : prefix_match ([], false) text.
Proof. exists [], text. split; [done|]. split; [constructor|done]. Qed.

Lemma prefix_end text : prefix_match ([], true) text <-> text = [].
Proof.
  split; [|intros ->; exists [], []; split; [done|split; [constructor|done]]].
  intros (pre & post & -> & D & H). inversion D. by rewrite H.
Qed.

Lemma prefix_one_nil c its a : ~ prefix_match (One c :: its, a) [].
Proof. intros (pre & post & E & D & H). inversion D; by simplify_eq/=. Qed.

Lemma prefix_star c its a text :
  prefix_match (Star c :: its, a) text <->
  prefix_match (its, a) text \/ (exists t text', text = t :: text' /\ accepts c t /\ prefix_match (Star c :: its, a) text').
Proof.
  split.
  - intros (pre & post & E & D & H). inversion D; simplify_eq/=.
    + left. by eexists _, _.
    + right. eexists _, _. split; [done|]. split; [done|]. by eexists _, _.
  - intros [(pre & post & E & D & H)|(t & text' & -> & Ha & (pre & post & -> & D & H))].
    + exists pre, post. eauto using denotes.
    + exists (t :: pre), post. eauto using denotes.
Qed.

Lemma accepts_test c t : ((c =? DOT) || (c =? t)) = true <-> accepts c t.
Proof. unfold accepts. rewrite orb_true_iff, !Z.eqb_eq. done. Qed.

Lemma accepts_test' c t : ((t =? c) || (c =? DOT)) = true <-> accepts c t.
Proof. unfold accepts. rewrite orb_true_iff, !Z.eqb_eq. naive_solver. Qed.

Lemma matchstar_ok c its a here :
  (forall text, here text = true <-> prefix_match (its, a) text) ->
  forall text, matchstar c here text = true <-> prefix_match (Star c :: its, a) text.
Proof.
  intros Hh text. induction text as [|t text IH]; rewrite prefix_star; cbn [matchstar].
  - destruct (here []) eqn:E.
    + rewrite Hh in E. tauto.
    + split; [done|]. intros [H|(? & ? & ? & _)]; [|done]. apply Hh in H. congruence.
  - destruct (here (t :: text)) eqn:E.
    + rewrite Hh in E. tauto.
    + rewrite <- Hh, E.
      split.
      * destruct ((t =? c) || (c =? DOT)) eqn:Ea; [|done]. rewrite accepts_test' in Ea. rewrite IH. eauto 10.
      * intros [?|(t' & text' & [= <- <-] & Ha%accepts_test' & H)]; [done|]. rewrite Ha. by apply IH.
Qed.

(** A literal item in front of the rest [re]. *)
Lemma matchone_ok c re text :
  (forall text, matchhere re text = true <-> prefix_match (parse re) text) ->
  match text with [] => false | t :: text => if (c =? DOT) || (c =? t) then matchhere re text else false end = true
  <-> prefix_match (One c :: (parse re).1, (parse re).2) text.
Proof.
  intros H. destruct text as [|t text].
  - split; [done|]. by intros ?%prefix_one_nil.
  - rewrite prefix_one, <- surjective_pairing, <- H, <- accepts_test. destruct ((c =? DOT) || (c =? t)); naive_solver.
Qed.

Lemma matchhere_ok re text : matchhere re text = true <-> prefix_match (parse re) text.
Proof.
  revert text. induction (Nat.lt_wf_0_projected (length (A:=Z)) re) as [re _ IH]. intros text.
  destruct re as [|c [|d re]].
  - cbn. split; [intros _; apply prefix_nil|done].
  - cbn [matchhere parse]. destruct (c =? DOLLAR).
    + rewrite prefix_end. by destruct text.
    + apply (matchone_ok c []). intros. apply IH. cbn. lia.
  - cbn [matchhere parse]. destruct (d =? STAR) eqn:E.
    + apply matchstar_ok. intros. rewrite <- surjective_pairing. apply IH. cbn. lia.
    + apply (matchone_ok c (d :: re)). intros. apply IH. cbn. lia.
Qed.

Lemma match_loop_ok re text :
  match_loop re text = true <-> exists before rest, text = before ++ rest /\ prefix_match (parse re) rest.
Proof.
  induction text as [|t text IH]; cbn [match_loop]; destruct (matchhere re _) eqn:E.
  - apply matchhere_ok in E. split; [|done]. intros _. by exists [], [].
  - split; [done|]. intros ([|] & rest & Ht & H); simplify_eq/=. by rewrite <- matchhere_ok, E in H.
  - apply matchhere_ok in E. split; [|done]. intros _. by exists [], (t :: text).
  - rewrite IH. split.
    + intros (b & r & -> & H). by exists (t :: b), r.
    + intros ([|] & rest & Ht & H); simplify_eq/=; [by rewrite <- matchhere_ok, E in H|eauto].
Qed.

(** C39. The matcher of grep decides the language of its patterns: [match]
    returns 1 exactly when the text has a part that the pattern, read as a
    regular expression with the operators caret, dollar, dot and star,
    denotes. *)
Theorem match_correct re text : match_ re text = true <-> pattern_match re text.
Proof.
  unfold match_, pattern_match. destruct re as [|c re]; [apply match_loop_ok|].
  destruct (c =? CARET); [apply matchhere_ok|apply match_loop_ok].
Qed.

(** ** The lines grep prints *)

(** The lines of a text that end with a newline, without it. *)
Fixpoint split_lines (cur text : list Z) : list (list Z) :=
  match text with
  | [] => []
  | c :: text => if c =? 10 then cur :: split_lines [] text else split_lines (cur ++ [c]) text
  end.

Definition print_line (pattern line : list Z) : list Z := if match_ pattern line then line ++ [10] else [].
Definition grep_ref (pattern text : list Z) : list Z := concat (print_line pattern <$> split_lines [] text).

Definition no_nul (text : list Z) : Prop := Forall (fun c => c <> 0) text.

(** Every stretch of the text without a newline fits the buffer. *)
Definition short (text : list Z) : Prop :=
  forall a b c, text = a ++ b ++ c -> 10 ∉ b -> Z.of_nat (length b) < sizeof_buf - 1.

Lemma split_lines_line cur l rest : 10 ∉ l -> split_lines cur (l ++ 10 :: rest) = (cur ++ l) :: split_lines [] rest.
Proof.
  revert cur. induction l as [|c l IH]; intros cur Hl; cbn [split_lines app].
  - by rewrite app_nil_r.
  - apply not_elem_of_cons in Hl as [Hc Hl]. destruct (c =? 10) eqn:E; bprop; [done|].
    rewrite IH by done. by rewrite <- app_assoc.
Qed.

Lemma split_lines_none cur p : 10 ∉ p -> split_lines cur p = [].
Proof.
  revert cur. induction p as [|c p IH]; intros cur Hp; cbn [split_lines]; [done|].
  apply not_elem_of_cons in Hp as [Hc Hp]. destruct (c =? 10) eqn:E; bprop; [done|auto].
Qed.

Lemma next_line_spec p :
  no_nul p ->
  match next_line p with
  | Some (l, rest) => p = l ++ 10 :: rest /\ (10 ∉ l)
  | None => 10 ∉ p
  end.
Proof.
  induction p as [|c p IH]; intros Hp; cbn [next_line]; [apply not_elem_of_nil|].
  apply Forall_cons in Hp as [Hc Hp]. specialize (IH Hp).
  destruct (c =? 0) eqn:E0; bprop; [done|]. destruct (c =? 10) eqn:E; bprop.
  - split; [by subst|apply not_elem_of_nil].
  - destruct (next_line p) as [[l rest]|]; cbn.
    + destruct IH as [-> Hl]. split; [done|]. apply not_elem_of_cons. auto.
    + apply not_elem_of_cons. auto.
Qed.

Lemma grep_lines_spec n pattern p :
  no_nul p -> (length p <= n)%nat ->
  let '(out, p') := grep_lines n pattern p in
  (10 ∉ p') /\ (exists d, p = d ++ p') /\
  forall rest, grep_ref pattern (p ++ rest) = out ++ grep_ref pattern (p' ++ rest).
Proof.
  revert p. induction n as [|n IH]; intros p Hp Hn; cbn [grep_lines].
  { destruct p; [|cbn in Hn; lia]. split; [apply not_elem_of_nil|]. split; [by exists []|done]. }
  pose proof (next_line_spec p Hp) as Hl. destruct (next_line p) as [[l r]|].
  - destruct Hl as [-> Hl]. apply Forall_app in Hp as [_ [_ Hr]%Forall_cons].
    rewrite length_app in Hn. cbn in Hn. specialize (IH r Hr ltac:(lia)).
    destruct (grep_lines n pattern r) as [out p']. destruct IH as (Hnl & [d ->] & IH).
    split; [done|]. split; [exists (l ++ 10 :: d); by rewrite <- app_assoc|].
    intros rest. rewrite <- (app_assoc l). cbn [app].
    unfold grep_ref at 1. rewrite split_lines_line by done. cbn [fmap list_fmap concat app].
    fold (grep_ref pattern ((d ++ p') ++ rest)). rewrite IH, app_assoc. done.
  - split; [done|]. split; [by exists []|done].
Qed.

Lemma grep_loop_spec fuel pattern buf s :
  no_nul (buf ++ in_rest s) -> short (buf ++ in_rest s) -> 10 ∉ buf ->
  Forall (fun c => 0 < c) (in_sizes s) -> (length (in_rest s) < fuel)%nat ->
  grep_loop fuel pattern buf s = Some (grep_ref pattern (buf ++ in_rest s)).
Proof.
  revert buf s. induction fuel as [|fuel IH]; intros buf s Hz Hsh Hb Hs Hf; [lia|]. cbn [grep_loop].
  pose proof (Hsh [] buf (in_rest s) eq_refl Hb) as Hlen.
  destruct (read_spec (sizeof_buf - Z.of_nat (length buf) - 1) s ltac:(lia) Hs) as (bs & s' & -> & Hr & Hne & _ & Hs').
  destruct (0 <? Z.of_nat (length bs)) eqn:E; bprop.
  - rewrite Hr, app_assoc in *. apply Forall_app in Hz as [Hz1 Hz2].
    pose proof (grep_lines_spec (length (buf ++ bs)) pattern (buf ++ bs) Hz1 ltac:(done)) as HG.
    destruct (grep_lines _ pattern (buf ++ bs)) as [out p']. destruct HG as (Hnl & [d Hd] & HG).
    rewrite IH; try done.
    + cbn. by rewrite HG.
    + apply Forall_app. rewrite Hd in Hz1. apply Forall_app in Hz1 as [_ Hz1]. done.
    + intros a b c Ht. apply (Hsh (d ++ a) b c). rewrite Hd. by rewrite <- !app_assoc, Ht.
    + rewrite length_app in Hf. lia.
  - destruct bs; [|cbn in E; lia]. destruct (decide (in_rest s = [])) as [He|He]; [|by destruct (Hne He)].
    rewrite He, app_nil_r. unfold grep_ref. by rewrite split_lines_none.
Qed.

(** C40. grep prints the matching lines: on a text without NULs whose lines fit
    the buffer, however [read] cuts the text into pieces, the loop ends and
    writes exactly the lines that end with a newline and match, in order. *)
Theorem grep_correct pattern text sizes :
  no_nul text -> short text -> Forall (fun c => 0 < c) sizes ->
  grep pattern (mkInput text sizes) = Some (grep_ref pattern text).
Proof.
  intros Hz Hsh Hs. unfold grep. apply (grep_loop_spec _ pattern []); try done; [apply not_elem_of_nil|cbn; lia].
Qed.

Lemma short_length text : Z.of_nat (length text) < sizeof_buf - 1 -> short text.
Proof. intros H a b c -> _. rewrite !length_app in H. lia. Qed.

Lemma grep_correct_witness :
  grep [97; 42; 98] (mkInput [97; 97; 98; 10; 99; 10; 98; 10] [3; 1; 2]) = Some [97; 97; 98; 10; 98; 10].
Proof.
  rewrite (grep_correct [97; 42; 98] [97; 97; 98; 10; 99; 10; 98; 10] [3; 1; 2]);
    [by vm_compute|by repeat constructor|by apply short_length|by repeat constructor].
Defined.

(** A line that does not fit the buffer ends grep without a message: the
    read for the rest of it asks for no bytes, and the lines behind it, here
    one that matches, are not printed. *)
Theorem grep_long_line :
  let text := replicate 1023 97 ++ [10; 98; 10] in
  grep [98] (mkInput text []) = Some [] /\ grep_ref [98] text = [98; 10].
Proof. by vm_compute. Qed.
