(* ===== verification/Wc.v ===== *)
(** * user/wc.c

    The loop of [wc] over the pieces [read] delivers; the counters are ints.
    The formatted output and [main], which opens the files, are left out. *)

From S2P Require Export Ulib.

(** [strchr(" \r\t\n\v", c)] finds [c]; a NUL is not found. *)
Definition is_space (c : Z) : bool := (c =? 32) || (c =? 13) || (c =? 9) || (c =? 10) || (c =? 11).

Record wc_state := mkWc { wc_l : Z; wc_w : Z; wc_c : Z; wc_inword : bool }.

(** The body of the for loop. *)
Definition wc_byte (st : wc_state) (b : Z) : wc_state :=
  let c := s32 (wc_c st + 1) in
  let l := if b =? 10 then s32 (wc_l st + 1) else wc_l st in
  if is_space b then mkWc l (wc_w st) c false
  else if negb (wc_inword st) then mkWc l (s32 (wc_w st + 1)) c true
  else mkWc l (wc_w st) c (wc_inword st).

Definition wc_sizeof_buf : Z := 512.

(** What [wc] prints: the three counts, or [None] for a read error; the outer
    [None] when the fuel is used up. *)
Fixpoint wc_loop (fuel : nat) (st : wc_state) (s : input) : option (option (Z * Z * Z)) :=
  match fuel with
  | O => None
  | S fuel =>
      let '(n, bs, s) := read wc_sizeof_buf s in
      if 0 <? n then wc_loop fuel (foldl wc_byte st bs) s
      else if n <? 0 then Some None
      else Some (Some (wc_l st, wc_w st, wc_c st))
  end.

Definition wc (s : input) : option (option (Z * Z * Z)) :=
  wc_loop (S (length (in_rest s))) (mkWc 0 0 0 false) s.

(** ** What is counted *)

(** The maximal stretches without white space. *)
Fixpoint words (cur text : list Z) : list (list Z) :=
  match text with
  | [] => match cur with [] => [] | _ => [cur] end
  | c :: text =>
      if is_space c then match cur with [] => words [] text | _ => cur :: words [] text end
      else words (cur ++ [c]) text
  end.

Definition newlines (text : list Z) : nat := length (filter (fun c => c = 10) text).

(** Without overflow a byte adds what it should to the counters. *)
Lemma wc_byte_counts st b :
  0 <= wc_l st < 2147483647 -> 0 <= wc_w st < 2147483647 -> 0 <= wc_c st < 2147483647 ->
  wc_byte st b = mkWc (wc_l st + (if b =? 10 then 1 else 0))
                      (wc_w st + (if is_space b || wc_inword st then 0 else 1)) (wc_c st + 1) (negb (is_space b)).
Proof.
  intros. unfold wc_byte. rewrite !s32_id by lia.
  destruct (is_space b), (wc_inword st), (b =? 10); cbn; by rewrite ?Z.add_0_r.
Qed.

(** The state after a text, for a text that was in the middle of the word
    [cur] before. *)
Lemma wc_fold text st cur :
  wc_inword st = bool_decide (cur <> []) ->
  0 <= wc_l st -> 0 <= wc_w st -> 0 <= wc_c st ->
  wc_l st + Z.of_nat (length text) < 2147483648 -> wc_w st + Z.of_nat (length text) < 2147483648 ->
  wc_c st + Z.of_nat (length text) < 2147483648 ->
  let st' := foldl wc_byte st text in
  wc_l st' = wc_l st + Z.of_nat (newlines text) /\
  wc_w st' + (if wc_inword st then 1 else 0) = wc_w st + Z.of_nat (length (words cur text)) /\
  wc_c st' = wc_c st + Z.of_nat (length text).
Proof.
  revert st cur. induction text as [|b text IH]; intros st cur Hi Hl Hw Hc Bl Bw Bc.
  { cbn. rewrite Hi. destruct cur; cbn; lia. }
  cbn [foldl length words] in *. rewrite wc_byte_counts by lia.
  set (st1 := mkWc _ _ _ _).
  assert (Hn : Z.of_nat (newlines (b :: text)) = (if b =? 10 then 1 else 0) + Z.of_nat (newlines text)).
  { unfold newlines. rewrite filter_cons. destruct (b =? 10) eqn:E; bprop; case_decide; cbn; lia. }
  destruct (IH st1 (if is_space b then [] else cur ++ [b])) as (R1 & R2 & R3); subst st1; cbn -[newlines foldl] in *.
  all: try (destruct (b =? 10), (is_space b || wc_inword st); lia).
  { destruct (is_space b); [done|]. by destruct cur. }
  rewrite R1, R3, Hn. split; [lia|]. split; [|lia].
  rewrite Hi in *. destruct (is_space b), cur as [|x cur]; cbn -[foldl] in *; lia.
Qed.

Lemma wc_loop_spec fuel done_ st s text :
  st = foldl wc_byte (mkWc 0 0 0 false) done_ -> text = done_ ++ in_rest s ->
  Forall (fun c => 0 < c) (in_sizes s) -> (length (in_rest s) < fuel)%nat ->
  wc_loop fuel st s = let st := foldl wc_byte (mkWc 0 0 0 false) text in Some (Some (wc_l st, wc_w st, wc_c st)).
Proof.
  revert done_ st s. induction fuel as [|fuel IH]; intros done_ st s Hst Ht Hs Hf; [lia|]. cbn [wc_loop].
  destruct (read_spec wc_sizeof_buf s) as (bs & s' & -> & Hr & Hne & _ & Hs'); [done|done|].
  destruct (0 <? Z.of_nat (length bs)) eqn:E; bprop.
  - rewrite (IH (done_ ++ bs)); [done| |..].
    + by rewrite foldl_app, <- Hst.
    + by rewrite Ht, Hr, app_assoc.
    + done.
    + rewrite Hr, length_app in Hf. lia.
  - destruct (Z.of_nat (length bs) <? 0) eqn:E0; bprop; [lia|]. destruct bs; [|cbn in E; lia].
    destruct (decide (in_rest s = [])) as [He|He]; [|by destruct (Hne He)].
    by rewrite Ht, He, app_nil_r, Hst.
Qed.

(** wc counts: on a text of fewer than 2^31 bytes, however [read] cuts it
    into pieces, the loop ends and the three numbers are its newlines, its
    words and its bytes. *)
Theorem wc_correct text sizes :
  Forall (fun c => 0 < c) sizes -> Z.of_nat (length text) < 2147483648 ->
  wc (mkInput text sizes) =
    Some (Some (Z.of_nat (newlines text), Z.of_nat (length (words [] text)), Z.of_nat (length text))).
Proof.
  intros Hs Hl. unfold wc. rewrite (wc_loop_spec _ [] _ _ text); [|done..|cbn; lia].
  destruct (wc_fold text (mkWc 0 0 0 false) []) as (R1 & R2 & R3); [done|cbn; lia..|].
  cbn [wc_l wc_w wc_c wc_inword] in *. cbn zeta. do 2 f_equal. rewrite R1, R3. do 2 f_equal; lia.
Qed.

Lemma wc_correct_witness :
  wc (mkInput [104; 105; 32; 120; 10; 10; 121] [2; 1; 3]) = Some (Some (2, 3, 7)).
Proof. apply (wc_correct [104; 105; 32; 120; 10; 10; 121] [2; 1; 3]); [by repeat constructor|done]. Defined.
