(* ===== verification/MergeSort.v ===== *)
(** * hw2/hw2_2.c: merge sort with two threads

    The global array is a list of ints, passed along; an index of the C code
    is a [Z], and an access is in range in every theorem.  [temp[k]] is the
    next element appended to [temp], since [k] counts its elements.

    The program's concurrency is a transition system over the globals [Arr]
    and [part]: the load and the store of [part++] are separate steps, the
    sorting of a thread's part is one step. *)

From stdpp Require Import sorting.
From S2P Require Export Prelude.

Definition THREAD_MAX : nat := 2.
Definition Arr0 : list Z := [7; 12; 19; 3; 18; 4; 2; 6; 15; 8].

Definition elem (arr : list Z) (i : Z) : Z := arr !!! Z.to_nat i.

(** [while (i <= mid && j <= end)]. *)
Fixpoint merge_both (n : nat) (arr : list Z) (mid end_ i j : Z) (temp : list Z) : Z * Z * list Z :=
  match n with
  | O => (i, j, temp)
  | S n =>
      if (i <=? mid) && (j <=? end_) then
        if elem arr i <=? elem arr j
        then merge_both n arr mid end_ (i + 1) j (temp ++ [elem arr i])
        else merge_both n arr mid end_ i (j + 1) (temp ++ [elem arr j])
      else (i, j, temp)
  end.

(** [while (i <= mid)], and the same loop on [j] and [end]. *)
Fixpoint merge_left (n : nat) (arr : list Z) (mid i : Z) (temp : list Z) : list Z :=
  match n with
  | O => temp
  | S n => if i <=? mid then merge_left n arr mid (i + 1) (temp ++ [elem arr i]) else temp
  end.

(** [for (i = start; i <= end; i += 1)]. *)
Fixpoint copy_temp (n : nat) (arr : list Z) (start end_ i : Z) (temp : list Z) : list Z :=
  match n with
  | O => arr
  | S n =>
      if i <=? end_
      then copy_temp n (<[Z.to_nat i := elem temp (i - start)]> arr) start end_ (i + 1) temp
      else arr
  end.

(** No loop runs more than [end - start + 1] rounds. *)
Definition merge_array (arr : list Z) (start mid end_ : Z) : list Z :=
  let n := Z.to_nat (end_ - start + 1) in
  let '(i, j, temp) := merge_both n arr mid end_ start (mid + 1) [] in
  let temp := merge_left n arr mid i temp in
  let temp := merge_left n arr end_ j temp in
  copy_temp n arr start end_ start temp.

(** The recursion depth is the fuel; [None] when it is used up. *)
Fixpoint merge_sort (fuel : nat) (arr : list Z) (start end_ : Z) : option (list Z) :=
  match fuel with
  | O => None
  | S fuel =>
      if start <? end_ then
        let mid := (start + end_) ÷ 2 in
        arr ← merge_sort fuel arr start mid;
        arr ← merge_sort fuel arr (mid + 1) end_;
        Some (merge_array arr start mid end_)
      else Some arr
  end.

(** The body of [thread_merge] after [part++] gave [thread_part]. *)
Definition thread_sort (arr : list Z) (thread_part : Z) : option (list Z) :=
  let size := Z.of_nat (length arr) in
  let start := thread_part * (size ÷ Z.of_nat THREAD_MAX) in
  let end_ := (thread_part + 1) * (size ÷ Z.of_nat THREAD_MAX) - 1 in
  merge_sort (S (length arr)) arr start end_.

(** ** The threads *)

Inductive tstate :=
  | TStart                   (* before [part++] *)
  | TLoaded (v : Z)          (* [part] read, [part = v + 1] not stored yet *)
  | TSorting (v : Z)         (* [thread_part = v] *)
  | TExited.

Record prog := mkProg { g_arr : list Z; g_part : Z; g_threads : list tstate }.

(** The step of thread [t]; none when it has exited. *)
Definition thread_step (t : nat) (g : prog) : option prog :=
  s ← g_threads g !! t;
  let goto s' := <[t := s']> (g_threads g) in
  match s with
  | TStart => Some (mkProg (g_arr g) (g_part g) (goto (TLoaded (g_part g))))
  | TLoaded v => Some (mkProg (g_arr g) (v + 1) (goto (TSorting v)))
  | TSorting v => arr ← thread_sort (g_arr g) v; Some (mkProg arr (g_part g) (goto TExited))
  | TExited => None
  end.

Fixpoint run (sched : list nat) (g : prog) : option prog :=
  match sched with
  | [] => Some g
  | t :: sched => g ← thread_step t g; run sched g
  end.

Definition start_prog (arr : list Z) : prog := mkProg arr 0 (replicate THREAD_MAX TStart).
Definition joined (g : prog) : Prop := g_threads g = replicate THREAD_MAX TExited.

(** [main] after both [pthread_join]s. *)
Definition main_merge (arr : list Z) : list Z :=
  let size := Z.of_nat (length arr) in
  merge_array arr 0 ((size - 1) ÷ 2) (size - 1).

(** ** Segments of the array *)

(** The elements at the indices [a] to [b], both included. *)
Definition seg (arr : list Z) (a b : Z) : list Z :=
  take (Z.to_nat (b - a + 1)) (drop (Z.to_nat a) arr).

Lemma seg_nil arr a b : b < a -> seg arr a b = [].
Proof. intros. unfold seg. by replace (Z.to_nat (b - a + 1)) with O by lia. Qed.

Lemma seg_cons arr a b :
  0 <= a <= b -> b < Z.of_nat (length arr) -> seg arr a b = elem arr a :: seg arr (a + 1) b.
Proof.
  intros Ha Hb. unfold seg, elem.
  destruct (lookup_lt_is_Some_2 arr (Z.to_nat a)) as [x Hx]; [lia|].
  rewrite (drop_S _ _ _ Hx), (list_lookup_total_correct _ _ _ Hx).
  replace (Z.to_nat (b - a + 1)) with (S (Z.to_nat (b - (a + 1) + 1))) by lia.
  cbn [take]. by replace (S (Z.to_nat a)) with (Z.to_nat (a + 1)) by lia.
Qed.

Lemma seg_length arr a b :
  0 <= a -> b < Z.of_nat (length arr) -> length (seg arr a b) = Z.to_nat (b - a + 1).
Proof. intros. unfold seg. rewrite length_take, length_drop. lia. Qed.

Lemma seg_app arr a m b : 0 <= a <= m + 1 -> m <= b -> seg arr a b = seg arr a m ++ seg arr (m + 1) b.
Proof.
  intros. unfold seg.
  replace (Z.to_nat (b - a + 1)) with (Z.to_nat (m - a + 1) + Z.to_nat (b - (m + 1) + 1))%nat by lia.
  rewrite <- take_take_drop, drop_drop. do 3 f_equal; lia.
Qed.

Lemma splice_seg_in arr a l :
  0 <= a -> a + Z.of_nat (length l) <= Z.of_nat (length arr) ->
  seg (splice arr (Z.to_nat a) l) a (a + Z.of_nat (length l) - 1) = l.
Proof.
  intros. apply list_eq_bounded.
  - rewrite seg_length by (rewrite ?splice_length; lia). lia.
  - intros i Hi. rewrite seg_length in Hi by (rewrite ?splice_length; lia).
    unfold seg. rewrite lookup_take_lt, lookup_drop, lookup_splice_in by lia. f_equal. lia.
Qed.

Lemma splice_seg_out arr a l b c :
  0 <= a -> a + Z.of_nat (length l) <= Z.of_nat (length arr) ->
  c < a \/ a + Z.of_nat (length l) <= b -> 0 <= b ->
  seg (splice arr (Z.to_nat a) l) b c = seg arr b c.
Proof.
  intros Ha Hl Hor Hb. unfold seg. apply list_eq. intros i.
  destruct (decide (i < Z.to_nat (c - b + 1))%nat) as [Hi|Hi].
  - rewrite !lookup_take_lt, !lookup_drop by lia. apply lookup_splice_out; lia.
  - by rewrite !lookup_take_ge by lia.
Qed.

(** ** One merge *)

Lemma merge_left_spec n arr mid i temp :
  0 <= i -> mid < Z.of_nat (length arr) -> mid - i + 1 <= Z.of_nat n ->
  merge_left n arr mid i temp = temp ++ seg arr i mid.
Proof.
  revert i temp. induction n as [|n IH]; intros i temp Hi Hm Hn; cbn [merge_left].
  - by rewrite seg_nil, app_nil_r by lia.
  - destruct (i <=? mid) eqn:E; bprop.
    + rewrite IH by lia. by rewrite (seg_cons arr i), <- app_assoc by lia.
    + by rewrite seg_nil, app_nil_r by lia.
Qed.

(** The three loops together append the stable merge of what is left. *)
Lemma merge_loops n m arr mid end_ i j temp :
  0 <= i -> mid < Z.of_nat (length arr) -> 0 <= j -> end_ < Z.of_nat (length arr) ->
  i <= mid + 1 -> j <= end_ + 1 ->
  (mid - i + 1) + (end_ - j + 1) <= Z.of_nat n -> (n <= m)%nat ->
  let '(i', j', temp') := merge_both n arr mid end_ i j temp in
  merge_left m arr end_ j' (merge_left m arr mid i' temp')
  = temp ++ list_merge (≤) (seg arr i mid) (seg arr j end_).
Proof.
  revert i j temp. induction n as [|n IH]; intros i j temp Hi Hm Hj He Hi' Hj' Hn Hnm; cbn [merge_both].
  - rewrite !merge_left_spec by lia. by rewrite !seg_nil, !app_nil_r by lia.
  - destruct ((i <=? mid) && (j <=? end_)) eqn:E; bprop.
    + rewrite (seg_cons arr i), (seg_cons arr j) by lia.
      rewrite list_merge_cons, <- (seg_cons arr i), <- (seg_cons arr j) by lia.
      destruct (elem arr i <=? elem arr j) eqn:El; bprop.
      * rewrite decide_True by lia. specialize (IH (i + 1) j (temp ++ [elem arr i])).
        destruct merge_both as [[i' j'] temp']. rewrite IH by lia. by rewrite <- app_assoc.
      * rewrite decide_False by lia. specialize (IH i (j + 1) (temp ++ [elem arr j])).
        destruct merge_both as [[i' j'] temp']. rewrite IH by lia. by rewrite <- app_assoc.
    + rewrite !merge_left_spec by lia. apply andb_false_iff in E as [E|E]; bprop.
      * by rewrite (seg_nil arr i), list_merge_nil_l, app_nil_r by lia.
      * by rewrite (seg_nil arr j), list_merge_nil_r, app_nil_r by lia.
Qed.

(** Copying back overwrites the interval with [temp]. *)
Lemma copy_temp_spec n arr start end_ i temp :
  0 <= start <= i -> end_ < Z.of_nat (length arr) -> i <= end_ + 1 ->
  end_ - i + 1 = Z.of_nat n -> Z.of_nat (length temp) = end_ - start + 1 ->
  copy_temp n arr start end_ i temp = splice arr (Z.to_nat i) (drop (Z.to_nat (i - start)) temp).
Proof.
  revert arr i. induction n as [|n IH]; intros arr i Hs He Hi Hn Ht; cbn [copy_temp].
  - rewrite drop_ge by lia. unfold splice. cbn. by rewrite Nat.add_0_r, take_drop.
  - destruct (i <=? end_) eqn:E; bprop; [|lia].
    rewrite IH by (rewrite ?length_insert; lia).
    destruct (lookup_lt_is_Some_2 temp (Z.to_nat (i - start))) as [x Hx]; [lia|].
    unfold elem. rewrite (list_lookup_total_correct _ _ _ Hx).
    rewrite (drop_S _ _ _ Hx). unfold splice. cbn [length].
    replace (Z.to_nat (i + 1)) with (S (Z.to_nat i)) by lia.
    replace (Z.to_nat (i + 1 - start)) with (S (Z.to_nat (i - start))) by lia.
    rewrite drop_insert_lt by lia.
    rewrite (take_S_r _ _ x) by (apply list_lookup_insert_eq; lia).
    rewrite take_insert_ge, <- app_assoc by lia. cbn. do 4 f_equal. lia.
Qed.

Lemma merge_array_spec arr start mid end_ :
  0 <= start <= mid + 1 -> mid <= end_ -> end_ < Z.of_nat (length arr) ->
  merge_array arr start mid end_
  = splice arr (Z.to_nat start) (list_merge (≤) (seg arr start mid) (seg arr (mid + 1) end_)).
Proof.
  intros Hs Hm He. unfold merge_array.
  pose proof (merge_loops (Z.to_nat (end_ - start + 1)) (Z.to_nat (end_ - start + 1)) arr mid end_
                start (mid + 1) []) as HL.
  destruct merge_both as [[i j] temp]. rewrite HL by lia. cbn [app].
  rewrite copy_temp_spec; try lia.
  - by replace (Z.to_nat (start - start)) with O by lia.
  - rewrite (merge_Permutation (≤)), length_app, !seg_length by lia. lia.
Qed.

(** ** Sorting an interval *)

(** [arr'] is [arr] with the elements of [start..end] put in order. *)
Definition sorts (arr : list Z) (start end_ : Z) (arr' : list Z) : Prop :=
  exists l, arr' = splice arr (Z.to_nat start) l /\ l ≡ₚ seg arr start end_ /\ Sorted (≤) l.

Lemma sorts_length arr start end_ arr' :
  0 <= start <= end_ + 1 -> end_ < Z.of_nat (length arr) ->
  sorts arr start end_ arr' -> length arr' = length arr.
Proof.
  intros Hs He (l & -> & Hp & _). apply splice_length. rewrite Hp, seg_length by lia. lia.
Qed.

Lemma sorts_seg arr start end_ arr' :
  0 <= start <= end_ + 1 -> end_ < Z.of_nat (length arr) ->
  sorts arr start end_ arr' -> Sorted (≤) (seg arr' start end_) /\ seg arr' start end_ ≡ₚ seg arr start end_.
Proof.
  intros Hs He (l & -> & Hp & Hl). assert (Hn : length l = Z.to_nat (end_ - start + 1)).
  { rewrite Hp, seg_length by lia. done. }
  replace end_ with (start + Z.of_nat (length l) - 1) at 1 2 by lia.
  rewrite splice_seg_in by lia. done.
Qed.

Lemma sorts_outside arr start end_ arr' b c :
  0 <= start <= end_ + 1 -> end_ < Z.of_nat (length arr) ->
  sorts arr start end_ arr' -> c < start \/ end_ < b -> 0 <= b -> seg arr' b c = seg arr b c.
Proof.
  intros Hs He (l & -> & Hp & _) Ho Hb. assert (Hn : length l = Z.to_nat (end_ - start + 1)).
  { rewrite Hp, seg_length by lia. done. }
  apply splice_seg_out; lia.
Qed.

Lemma splice_self arr a b :
  0 <= a <= b + 1 -> b < Z.of_nat (length arr) -> splice arr (Z.to_nat a) (seg arr a b) = arr.
Proof.
  intros. unfold splice. rewrite seg_length by lia. unfold seg.
  rewrite <- drop_drop, take_drop, take_drop. done.
Qed.

Lemma splice_splice_sub {A} (arr : list A) a b l l' :
  (a <= b)%nat -> (b + length l <= a + length l')%nat -> (a + length l' <= length arr)%nat ->
  splice (splice arr b l) a l' = splice arr a l'.
Proof.
  intros H1 H2 H3. apply list_eq_bounded; [by rewrite !splice_length; rewrite ?splice_length; lia|].
  intros i _. destruct (decide (a <= i < a + length l')%nat).
  - by rewrite !lookup_splice_in by (rewrite ?splice_length; lia).
  - rewrite !lookup_splice_out by (rewrite ?splice_length; lia). done.
Qed.

Lemma sorts_refl arr a b : 0 <= a <= b + 1 -> b < Z.of_nat (length arr) -> b <= a -> sorts arr a b arr.
Proof.
  intros H Hb Hab. exists (seg arr a b). rewrite splice_self by lia. split; [done|split; [done|]].
  destruct (decide (b < a)); [by rewrite seg_nil by lia|].
  rewrite seg_cons, seg_nil by lia. by repeat constructor.
Qed.

(** Two sorted neighbours and a merge sort the whole interval. *)
Lemma sorts_merge arr arr1 arr2 start mid end_ :
  0 <= start <= mid -> mid < end_ -> end_ < Z.of_nat (length arr) ->
  sorts arr start mid arr1 -> sorts arr1 (mid + 1) end_ arr2 ->
  sorts arr start end_ (merge_array arr2 start mid end_).
Proof.
  intros Hs Hm He H1 H2.
  pose proof (sorts_length arr start mid arr1 ltac:(lia) ltac:(lia) H1) as Hl1.
  pose proof (sorts_length arr1 (mid + 1) end_ arr2 ltac:(lia) ltac:(lia) H2) as Hl2.
  destruct (sorts_seg arr start mid arr1 ltac:(lia) ltac:(lia) H1) as [Hs1 Hp1].
  destruct (sorts_seg arr1 (mid + 1) end_ arr2 ltac:(lia) ltac:(lia) H2) as [Hs2 Hp2].
  pose proof (sorts_outside arr1 (mid + 1) end_ arr2 start mid ltac:(lia) ltac:(lia) H2 ltac:(lia) ltac:(lia)) as Ho2.
  pose proof (sorts_outside arr start mid arr1 (mid + 1) end_ ltac:(lia) ltac:(lia) H1 ltac:(lia) ltac:(lia)) as Ho1.
  rewrite merge_array_spec by lia.
  assert (Hp : list_merge (≤) (seg arr2 start mid) (seg arr2 (mid + 1) end_) ≡ₚ seg arr start end_).
  { rewrite (merge_Permutation (≤)), Ho2, Hp1, Hp2, Ho1. by rewrite (seg_app arr start mid end_) by lia. }
  assert (Hn : length (list_merge (≤) (seg arr2 start mid) (seg arr2 (mid + 1) end_)) = Z.to_nat (end_ - start + 1)).
  { by rewrite Hp, seg_length by lia. }
  eexists. split; [|split; [exact Hp|]].
  - destruct H1 as (l1 & -> & Hq1 & _). destruct H2 as (l2 & -> & Hq2 & _).
    pose proof (Permutation_length Hq1) as Hk1. pose proof (Permutation_length Hq2) as Hk2.
    rewrite seg_length in Hk1, Hk2 by lia.
    rewrite !splice_splice_sub by (rewrite ?splice_length; lia). done.
  - apply Sorted_list_merge; [apply _| by rewrite Ho2 |done].
Qed.

Lemma merge_sort_sorts fuel arr start end_ :
  0 <= start <= end_ + 1 -> end_ < Z.of_nat (length arr) -> end_ - start < Z.of_nat fuel -> (0 < fuel)%nat ->
  exists arr', merge_sort fuel arr start end_ = Some arr' /\ sorts arr start end_ arr'.
Proof.
  revert arr start end_. induction fuel as [|fuel IH]; intros arr start end_ Hs He Hf H0; [lia|].
  cbn [merge_sort]. destruct (start <? end_) eqn:E; bprop.
  - rewrite Z.quot_div_nonneg by lia.
    assert (Hmid : start <= (start + end_) / 2 < end_) by zlia.
    set (mid := (start + end_) / 2) in *. clearbody mid.
    destruct (IH arr start mid) as (arr1 & R1 & S1); [lia..|]. rewrite R1. cbn.
    pose proof (sorts_length arr start mid arr1 ltac:(lia) ltac:(lia) S1) as Hl1.
    destruct (IH arr1 (mid + 1) end_) as (arr2 & R2 & S2); [lia..|]. rewrite R2. cbn.
    eexists. split; [done|]. eapply sorts_merge; eauto; lia.
  - exists arr. split; [done|]. apply sorts_refl; lia.
Qed.

(** ** The program *)

Lemma sorts_perm arr start end_ arr' :
  0 <= start <= end_ + 1 -> end_ < Z.of_nat (length arr) -> sorts arr start end_ arr' -> arr' ≡ₚ arr.
Proof.
  intros Hs He (l & -> & Hp & _). rewrite <- (splice_self arr start end_) at 2 by lia.
  unfold splice. rewrite (Permutation_length Hp). by rewrite Hp.
Qed.

Lemma splice_comm {A} (arr : list A) a b l l' :
  (a + length l <= b)%nat -> (b + length l' <= length arr)%nat ->
  splice (splice arr b l') a l = splice (splice arr a l) b l'.
Proof.
  intros H1 H2. apply list_eq_bounded; [by rewrite !splice_length; rewrite ?splice_length; lia|].
  intros i _. destruct (decide (a <= i < a + length l)%nat), (decide (b <= i < b + length l')%nat); [lia|..];
    rewrite ?lookup_splice_in, ?lookup_splice_out, ?lookup_splice_in by (rewrite ?splice_length; lia);
    rewrite ?lookup_splice_out by (rewrite ?splice_length; lia); done.
Qed.

(** Sorting two disjoint intervals commutes. *)
Lemma sorts_swap arr arr1 arr2 a b c d :
  0 <= a <= b + 1 -> b < c -> c <= d + 1 -> d < Z.of_nat (length arr) ->
  sorts arr c d arr1 -> sorts arr1 a b arr2 ->
  exists arr1', sorts arr a b arr1' /\ sorts arr1' c d arr2.
Proof.
  intros Ha Hb Hc Hd S1 S2.
  pose proof (sorts_outside arr c d arr1 a b ltac:(lia) ltac:(lia) S1 ltac:(lia) ltac:(lia)) as Ho.
  destruct S1 as (l' & -> & Hp' & Hs'), S2 as (l & -> & Hp & Hs). rewrite Ho in Hp.
  pose proof (Permutation_length Hp) as Hl. pose proof (Permutation_length Hp') as Hl'.
  rewrite seg_length in Hl, Hl' by lia.
  exists (splice arr (Z.to_nat a) l). split; [by exists l|].
  exists l'. split; [apply splice_comm; lia|]. rewrite splice_seg_out by lia. done.
Qed.

(** *** The interleavings of the two threads *)

Section program.
Context (arr0 : list Z) (h : Z) (Hh : 0 < h) (Hlen : Z.of_nat (length arr0) = 2 * h).

(** Part 0 is sorted when [b0], part 1 when [b1]. *)
Definition parts_sorted (b0 b1 : bool) (arr : list Z) : Prop :=
  exists arr1, (if b0 then sorts arr0 0 (h - 1) arr1 else arr1 = arr0) /\
               (if b1 then sorts arr1 h (2 * h - 1) arr else arr = arr1).

Definition has0 (b : bool) : tstate := if b then TExited else TSorting 0.
Definition has1 (b : bool) : tstate := if b then TExited else TSorting 1.
Definition is_pair (ts : list tstate) (s s' : tstate) : Prop := ts = [s; s'] \/ ts = [s'; s].

(** The increments of [part] did not overlap: no thread, one, or both have
    their part; or they did, and [part] stays below 2. *)
Inductive stage : prog -> Prop :=
  | stage_none ts s s' : is_pair ts s s' ->
      (s = TStart \/ s = TLoaded 0) -> (s' = TStart \/ s' = TLoaded 0) -> stage (mkProg arr0 0 ts)
  | stage_one arr b ts s : parts_sorted b false arr -> is_pair ts (has0 b) s ->
      (s = TStart \/ s = TLoaded 1) -> stage (mkProg arr 1 ts)
  | stage_both arr b0 b1 ts : parts_sorted b0 b1 arr -> is_pair ts (has0 b0) (has1 b1) -> stage (mkProg arr 2 ts)
  | stage_race arr ts : Forall (fun s => s = TLoaded 0 \/ s = TSorting 0 \/ s = TExited) ts -> stage (mkProg arr 1 ts).

Lemma parts_length b0 b1 arr : parts_sorted b0 b1 arr -> length arr = length arr0.
Proof.
  intros (arr1 & H0 & H1). assert (Hl : length arr1 = length arr0).
  { destruct b0; [|by subst]. apply (sorts_length arr0 0 (h - 1)); [lia|lia|done]. }
  destruct b1; [|by subst]. rewrite <- Hl. apply (sorts_length arr1 h (2 * h - 1)); [lia|lia|done].
Qed.

Lemma thread_sort_part arr v :
  length arr = length arr0 -> v = 0 \/ v = 1 ->
  exists arr', thread_sort arr v = Some arr' /\ sorts arr (v * h) ((v + 1) * h - 1) arr'.
Proof.
  intros Hl Hv. unfold thread_sort. change (Z.of_nat THREAD_MAX) with 2.
  rewrite Z.quot_div_nonneg by lia. replace (Z.of_nat (length arr) / 2) with h by zlia.
  apply merge_sort_sorts; destruct Hv; subst; lia.
Qed.

Lemma sort_part0 b1 arr arr' :
  parts_sorted false b1 arr -> thread_sort arr 0 = Some arr' -> parts_sorted true b1 arr'.
Proof.
  intros Hp E. destruct (thread_sort_part arr 0) as (x & E' & S); [by eapply parts_length|auto|].
  simplify_eq. replace (0 * h) with 0 in S by lia. replace ((0 + 1) * h - 1) with (h - 1) in S by lia.
  destruct Hp as (arr1 & -> & H1). destruct b1.
  - eapply sorts_swap in S as (y & S0 & S1); [exists y; eauto|..]; try exact H1; lia.
  - subst. by exists arr'.
Qed.

Lemma sort_part1 b0 arr arr' :
  parts_sorted b0 false arr -> thread_sort arr 1 = Some arr' -> parts_sorted b0 true arr'.
Proof.
  intros Hp E. destruct (thread_sort_part arr 1) as (x & E' & S); [by eapply parts_length|auto|].
  simplify_eq. replace (1 * h) with h in S by lia. replace ((1 + 1) * h - 1) with (2 * h - 1) in S by lia.
  destruct Hp as (arr1 & H0 & ->). by exists arr1.
Qed.

(** What a step does to the thread that takes it and to the globals. *)
Inductive moves (arr : list Z) (v : Z) : tstate -> tstate -> list Z -> Z -> Prop :=
  | moves_load : moves arr v TStart (TLoaded v) arr v
  | moves_store w : moves arr v (TLoaded w) (TSorting w) arr (w + 1)
  | moves_sort w arr' : thread_sort arr w = Some arr' -> moves arr v (TSorting w) TExited arr' v.

Lemma step_moves t arr v ts s s' g :
  is_pair ts s s' -> thread_step t (mkProg arr v ts) = Some g ->
  exists x ts' arr' v', g = mkProg arr' v' ts' /\
    (moves arr v s x arr' v' /\ is_pair ts' x s' \/ moves arr v s' x arr' v' /\ is_pair ts' s x).
Proof.
  unfold thread_step, is_pair. cbn [g_arr g_part g_threads].
  intros [-> | ->] E; destruct t as [|[|t]]; cbn in E; try done;
    match type of E with context[match ?x with TStart => _ | _ => _ end] => destruct x end; cbn in E;
    repeat match goal with H : (_ ≫= _) = Some _ |- _ => apply bind_Some in H as (? & ? & H) end;
    simplify_eq; eauto 12 using moves.
Qed.

Lemma pair_sym ts s s' : is_pair ts s s' -> is_pair ts s' s.
Proof. unfold is_pair. tauto. Qed.

Lemma pair_race arr ts s s' :
  is_pair ts s s' -> s = TLoaded 0 \/ s = TSorting 0 \/ s = TExited ->
  s' = TLoaded 0 \/ s' = TSorting 0 \/ s' = TExited -> stage (mkProg arr 1 ts).
Proof. intros [-> | ->] ??; apply stage_race; auto. Qed.

Lemma step_race t arr ts g :
  Forall (fun s => s = TLoaded 0 \/ s = TSorting 0 \/ s = TExited) ts ->
  thread_step t (mkProg arr 1 ts) = Some g -> stage g.
Proof.
  unfold thread_step. cbn [g_arr g_part g_threads]. intros Hr E.
  apply bind_Some in E as (s & Hs & E). pose proof (Forall_lookup_1 _ _ _ _ Hr Hs) as [-> | [-> | ->]]; [| |done].
  - simplify_eq. apply stage_race, Forall_insert; auto.
  - apply bind_Some in E as (? & ? & E). simplify_eq. apply stage_race, Forall_insert; auto.
Qed.

Lemma stage_step t g g' : stage g -> thread_step t g = Some g' -> stage g'.
Proof.
  assert (H0 : parts_sorted false false arr0) by (by exists arr0).
  pose proof (fun ts s => stage_one arr0 false ts s H0) as One.
  intros St E. destruct St as [ts s s' Hp Hs Hs'|arr b ts s Ha Hp Hs|arr b0 b1 ts Ha Hp|arr ts Hr].
  - destruct (step_moves _ _ _ _ _ _ _ Hp E) as (x & ts' & arr' & v' & -> & [[Hm Hp']|[Hm Hp']]);
      destruct Hs as [-> | ->], Hs' as [-> | ->]; inversion Hm; subst;
      eauto using stage_none, pair_race, pair_sym.
  - destruct (step_moves _ _ _ _ _ _ _ Hp E) as (x & ts' & arr' & v' & -> & [[Hm Hp']|[Hm Hp']]).
    + destruct b; inversion Hm; subst. eapply (stage_one _ true); eauto using sort_part0.
    + destruct Hs as [-> | ->]; inversion Hm; subst; [eauto using stage_one|by apply (stage_both _ b false)].
  - destruct (step_moves _ _ _ _ _ _ _ Hp E) as (x & ts' & arr' & v' & -> & [[Hm Hp']|[Hm Hp']]).
    + destruct b0; inversion Hm; subst. apply (stage_both _ true b1); eauto using sort_part0.
    + destruct b1; inversion Hm; subst. apply (stage_both _ b0 true); eauto using sort_part1.
  - by eapply step_race.
Qed.

Lemma run_stage sched g g' : stage g -> run sched g = Some g' -> stage g'.
Proof.
  revert g. induction sched as [|t sched IH]; intros g St; cbn; [by intros [= <-]|].
  intros (g1 & E & R)%bind_Some. eauto using stage_step.
Qed.

Lemma joined_sorted arr :
  parts_sorted true true arr -> Sorted (≤) (main_merge arr) /\ main_merge arr ≡ₚ arr0.
Proof.
  intros Hp. pose proof (parts_length _ _ _ Hp) as Hl. destruct Hp as (arr1 & S0 & S1).
  unfold main_merge. rewrite Z.quot_div_nonneg by lia.
  replace ((Z.of_nat (length arr) - 1) / 2) with (h - 1) by zlia.
  replace (Z.of_nat (length arr) - 1) with (2 * h - 1) by lia.
  replace h with (h - 1 + 1) in S1 at 1 by lia.
  pose proof (sorts_merge arr0 arr1 arr 0 (h - 1) (2 * h - 1) ltac:(lia) ltac:(lia) ltac:(lia) S0 S1) as S2.
  split; [|by apply (sorts_perm arr0 0 (2 * h - 1)); [lia|lia|]].
  pose proof (sorts_length arr0 0 (2 * h - 1) _ ltac:(lia) ltac:(lia) S2) as Hl2.
  apply sorts_seg in S2 as [S2 _]; [|lia..]. unfold seg in S2. rewrite drop_0, take_ge in S2 by lia. done.
Qed.

Lemma run_sorted sched g :
  run sched (start_prog arr0) = Some g -> joined g -> g_part g = 2 ->
  Sorted (≤) (main_merge (g_arr g)) /\ main_merge (g_arr g) ≡ₚ arr0.
Proof.
  intros R J P. apply run_stage in R; [|by eapply stage_none; [left|..]; auto].
  unfold joined in J. destruct R as [| |arr b0 b1 ts Hp Hts|]; cbn in *; try done.
  apply joined_sorted. destruct b0, b1; destruct Hts as [-> | ->]; done.
Qed.
End program.

(** C37. Merge sort of an interval: with any recursion bound above the length
    of the interval the recursion ends, the interval holds the same elements
    in ascending order, and the rest of the array is as before. *)
Theorem merge_sort_correct arr start end_ fuel :
  0 <= start <= end_ + 1 -> end_ < Z.of_nat (length arr) -> end_ - start + 1 < Z.of_nat fuel ->
  exists arr', merge_sort fuel arr start end_ = Some arr' /\ length arr' = length arr /\
    Sorted (≤) (seg arr' start end_) /\ seg arr' start end_ ≡ₚ seg arr start end_ /\
    seg arr' 0 (start - 1) = seg arr 0 (start - 1) /\
    seg arr' (end_ + 1) (Z.of_nat (length arr) - 1) = seg arr (end_ + 1) (Z.of_nat (length arr) - 1).
Proof.
  intros Hs He Hf. destruct (merge_sort_sorts fuel arr start end_) as (arr' & R & S); [lia..|].
  exists arr'. split; [done|]. split; [by eapply sorts_length|].
  destruct (sorts_seg arr start end_ arr') as [H1 H2]; [lia|lia|done|]. split; [done|]. split; [done|].
  split; apply (sorts_outside arr start end_); auto; lia.
Qed.

Lemma merge_sort_correct_witness :
  exists arr', merge_sort 6 Arr0 2 5 = Some arr' /\ seg arr' 2 5 ≡ₚ [19; 3; 18; 4] /\ Sorted (≤) (seg arr' 2 5).
Proof.
  destruct (merge_sort_correct Arr0 2 5 6) as (arr' & R & _ & S & P & _); [vm_compute; intuition congruence..|].
  exists arr'. auto.
Defined.



(** The race on [part]: when both threads read [part] before either stores
    it, both sort part 0, and the program prints an array that is not sorted. *)
Theorem part_race :
  exists sched g, run sched (start_prog Arr0) = Some g /\ joined g /\ ~ Sorted (≤) (main_merge (g_arr g)).
Proof.
  exists [0; 1; 0; 1; 0; 1]%nat.
  exists (mkProg [3; 7; 12; 18; 19; 4; 2; 6; 15; 8] 1 [TExited; TExited]).
  split; [by vm_compute|]. split; [done|]. cbn [g_arr].
  replace (main_merge _) with [3; 4; 2; 6; 7; 12; 15; 8; 18; 19] by (by vm_compute).
  intros H. apply Sorted_inv in H as [H _]. apply Sorted_inv in H as [_ H]. inversion H. lia.
Qed.
