(* ===== verification/Umalloc.v ===== *)
(** * user/umalloc.c: the allocator of user programs

    The memory is bytes: a header is a pointer (8 bytes) and a size in units
    of headers (4 bytes), 16 bytes in all.  [base] is the address of the
    static header, [freep] a variable of the state.  [sbrk] is the system
    call, with its int argument and its int view of the break; whether the
    kernel grants more memory is the parameter [grants].  A loop round the
    ring of free blocks has as much fuel as the process has bytes, which is
    more than there can be headers. *)

From S2P Require Export Memory.

Record umem := mkUmem { um_mem : gmap Z Z; um_freep : Z; um_brk : Z }.
Notation U := (M umem).

(** sizeof(Header) *)
Definition sizeof_Header : Z := 16.

Definition ld_ptr (p : Z) : U Z := gets (fun u => rd64 (um_mem u) p).
Definition ld_size (p : Z) : U Z := gets (fun u => rd32 (um_mem u) (p + 8)).
Definition st_ptr (p v : Z) : U unit :=
  modify (fun u => mkUmem (wr64 p v (um_mem u)) (um_freep u) (um_brk u)).
Definition st_size (p v : Z) : U unit :=
  modify (fun u => mkUmem (wr32 (p + 8) v (um_mem u)) (um_freep u) (um_brk u)).
Definition set_freep (p : Z) : U unit :=
  modify (fun u => mkUmem (um_mem u) p (um_brk u)).

(** [p + n] on a [Header *] *)
Definition hdr_add (p n : Z) : Z := u64 (p + sizeof_Header * n).

Definition ring_fuel (u : umem) : nat := Z.to_nat (um_brk u + 8).

(** ** The free list and the blocks in use

    A block is its address and its size in units, header included. *)

Definition fst_addr (L : list (Z * Z)) (e : Z) : Z := match L with [] => e | (a, _) :: _ => a end.

(** The headers of [L] are in memory, each pointing to the next, the last one to [e]. *)
Fixpoint chain (m : gmap Z Z) (L : list (Z * Z)) (e : Z) : Prop :=
  match L with
  | [] => True
  | (a, s) :: L => rd64 m a = fst_addr L e /\ rd32 m (a + 8) = s /\ chain m L e
  end.

(** The blocks of [L] lie in order between [lo] and [hi], none empty and no
    two adjacent. *)
Fixpoint apart (lo : Z) (L : list (Z * Z)) (hi : Z) : Prop :=
  match L with
  | [] => lo <= hi
  | (a, s) :: L => lo < a /\ 1 <= s /\ apart (a + 16 * s) L hi
  end.

(** The end of the last block of [L], or [lo]. *)
Fixpoint end_of (lo : Z) (L : list (Z * Z)) : Z :=
  match L with [] => lo | (a, s) :: L => end_of (a + 16 * s) L end.

(** The addresses of [L] ascend from above [lo]. *)
Fixpoint asc (lo : Z) (L : list (Z * Z)) : Prop :=
  match L with [] => True | (a, _) :: L => lo < a /\ asc a L end.

Definition disjoint_blocks (x y : Z * Z) : Prop :=
  x.1 + 16 * x.2 <= y.1 \/ y.1 + 16 * y.2 <= x.1.

(** The address [x] is in a block of [L]. *)
Definition covered (L : list (Z * Z)) (x : Z) : Prop :=
  exists a s, (a, s) ∈ L /\ a <= x < a + 16 * s.

Lemma fst_addr_app L1 L2 e : fst_addr (L1 ++ L2) e = fst_addr L1 (fst_addr L2 e).
Proof. by destruct L1 as [|[]]. Qed.

Lemma chain_cat m L1 L2 e :
  chain m (L1 ++ L2) e <-> chain m L1 (fst_addr L2 e) /\ chain m L2 e.
Proof.
  induction L1 as [|[a s] L1 IH]; cbn [app chain]; [tauto|].
  rewrite IH, fst_addr_app. tauto.
Qed.

(** The header of every block of [L] reads the same in [m'] and [m]. *)
Lemma chain_frame m m' L e :
  (forall a s x, (a, s) ∈ L -> a <= x < a + 12 -> rd8 m' x = rd8 m x) ->
  chain m L e -> chain m' L e.
Proof.
  induction L as [|[a s] L IH]; intros H; cbn [chain]; [done|].
  intros (Hp & Hs & Hc). split_and!.
  - rewrite <- Hp. apply rd64_ext. intros x Hx. apply (H a s); [left|lia].
  - rewrite <- Hs. unfold rd32. f_equal. apply rd_bytes_ext. intros x Hx. apply (H a s); [left|lia].
  - apply IH; [|done]. intros b t x Hin. apply (H b t). by right.
Qed.

Lemma apart_weaken lo lo' L hi hi' : lo' <= lo -> hi <= hi' -> apart lo L hi -> apart lo' L hi'.
Proof.
  revert lo lo'; induction L as [|[a s] L IH]; intros lo lo' Hl Hh; cbn [apart]; [lia|].
  intros (? & ? & H). split_and!; [lia|done|]. eapply IH; [reflexivity|exact Hh|exact H].
Qed.

Lemma apart_app lo L1 L2 hi :
  apart lo (L1 ++ L2) hi <-> apart lo L1 (end_of lo L1) /\ apart (end_of lo L1) L2 hi.
Proof.
  revert lo; induction L1 as [|[a s] L1 IH]; intros lo; cbn [app apart end_of]; [intuition lia|].
  rewrite IH. tauto.
Qed.

Lemma apart_le lo L hi : apart lo L hi -> lo <= hi.
Proof.
  revert lo; induction L as [|[a s] L IH]; intros lo; cbn [apart]; [done|].
  intros (? & ? & ?%IH). lia.
Qed.

Lemma apart_in lo L hi a s : apart lo L hi -> (a, s) ∈ L -> lo < a /\ 1 <= s /\ a + 16 * s <= hi.
Proof.
  revert lo; induction L as [|[b t] L IH]; intros lo; cbn [apart]; [by intros _ ?%elem_of_nil|].
  intros (? & ? & H) Hin. apply elem_of_cons in Hin as [[= -> ->]|Hin].
  - apply apart_le in H. lia.
  - specialize (IH _ H Hin). lia.
Qed.

Lemma apart_gap lo L hi i x y :
  apart lo L hi -> L !! i = Some x -> L !! S i = Some y -> x.1 + 16 * x.2 < y.1.
Proof.
  revert lo i; induction L as [|[a s] L IH]; intros lo i Hap Hx Hy; [done|].
  destruct Hap as (_ & _ & Hap). destruct i as [|i]; cbn in Hx, Hy; [|by eapply IH].
  injection Hx as <-. destruct L as [|[c t] L]; [done|]. injection Hy as <-. cbn. destruct Hap as (? & _). lia.
Qed.

Lemma apart_asc lo L hi : apart lo L hi -> asc lo L.
Proof.
  revert lo; induction L as [|[a s] L IH]; intros lo; cbn [apart asc]; [done|].
  intros (? & ? & H). split; [done|]. apply IH. eapply apart_weaken; [|reflexivity|exact H]. lia.
Qed.

Lemma apart_length lo L hi : apart lo L hi -> 16 * Z.of_nat (length L) <= hi - lo.
Proof.
  revert lo; induction L as [|[a s] L IH]; intros lo; cbn [apart length]; [lia|].
  intros (? & ? & ?%IH). lia.
Qed.

Lemma asc_app lo L1 a s L2 : asc lo (L1 ++ (a, s) :: L2) -> lo < a /\ asc lo L1 /\ asc a L2.
Proof.
  revert lo; induction L1 as [|[b t] L1 IH]; intros lo; cbn [app asc]; [tauto|].
  intros (? & (? & ? & ?)%IH). split_and!; [lia|done..].
Qed.

Lemma asc_in lo L a s : asc lo L -> (a, s) ∈ L -> lo < a.
Proof.
  revert lo; induction L as [|[b t] L IH]; intros lo; cbn [asc]; [by intros _ ?%elem_of_nil|].
  intros [? H] [[= -> ->]|Hin]%elem_of_cons; [done|]. specialize (IH _ H Hin). lia.
Qed.

Lemma asc_weaken lo lo' L : lo' <= lo -> asc lo L -> asc lo' L.
Proof. destruct L as [|[]]; cbn; [done|]. intros ? []; split; [lia|done]. Qed.

Lemma asc_split lo L bp :
  asc lo L -> Forall (fun x => x.1 <> bp) L ->
  exists L1 L2, L = L1 ++ L2 /\ Forall (fun x => x.1 < bp) L1 /\ Forall (fun x => bp < x.1) L2.
Proof.
  revert lo; induction L as [|[a s] L IH]; intros lo; cbn [asc]; [by exists [], []|].
  intros [? H] [Hne HF]%Forall_cons. cbn in Hne. destruct (decide (a < bp)).
  - destruct (IH _ H HF) as (L1 & L2 & -> & H1 & H2). exists ((a, s) :: L1), L2.
    split_and!; [done| |done]. by constructor.
  - exists [], ((a, s) :: L). split_and!; [done..|]. constructor; [cbn; lia|].
    apply Forall_forall. intros [b t] Hin. pose proof (asc_in _ _ _ _ H Hin). cbn. lia.
Qed.

Lemma covered_app L1 L2 x : covered (L1 ++ L2) x <-> covered L1 x \/ covered L2 x.
Proof. unfold covered. setoid_rewrite elem_of_app. naive_solver. Qed.

Lemma covered_cons a s L x : covered ((a, s) :: L) x <-> a <= x < a + 16 * s \/ covered L x.
Proof.
  unfold covered. setoid_rewrite elem_of_cons. split.
  - intros (b & t & [[= -> ->]|?] & ?); eauto 6.
  - intros [?|(b & t & ? & ?)]; eauto 6.
Qed.

Lemma covered_nil x : ~ covered [] x.
Proof. by intros (? & ? & ?%elem_of_nil & _). Qed.

(** ** Putting a block in front of a list, merged with it when adjacent *)

Definition join (a s : Z) (L : list (Z * Z)) : list (Z * Z) :=
  match L with
  | (b, t) :: L' => if decide (a + 16 * s = b) then (a, s + t) :: L' else (a, s) :: L
  | [] => [(a, s)]
  end.

Lemma join_addr a s L e : fst_addr (join a s L) e = a.
Proof. destruct L as [|[b t] L]; cbn; [done|]. by case_decide. Qed.

Lemma join_apart lo a s L hi :
  lo < a -> 1 <= s -> apart (a + 16 * s - 1) L hi -> a + 16 * s <= hi -> apart lo (join a s L) hi.
Proof.
  intros Hlo Hs. destruct L as [|[b t] L]; cbn [join apart].
  - lia.
  - intros (Hb & Ht & H) _. case_decide as E; cbn [apart]; split_and!; try lia.
    + replace (a + 16 * (s + t)) with (b + 16 * t) by lia. done.
    + done.
Qed.

Lemma join_covered lo a s L hi x :
  0 <= s -> apart lo L hi -> covered (join a s L) x <-> a <= x < a + 16 * s \/ covered L x.
Proof.
  intros Hs. destruct L as [|[b t] L]; cbn [join]; [by rewrite covered_cons|].
  intros (_ & Ht & _). case_decide; rewrite !covered_cons; [|done]. intuition lia.
Qed.

Lemma join_addrs a s L b t : (b, t) ∈ join a s L -> b = a \/ exists t', (b, t') ∈ L.
Proof.
  destruct L as [|[c r] L]; cbn [join].
  - intros ?%list_elem_of_singleton. naive_solver.
  - case_decide; intros [[= -> ->]|Hin]%elem_of_cons; eauto.
    right. exists t. by right.
Qed.

Lemma join_big a s L lo hi : apart lo L hi -> exists t, (a, t) ∈ join a s L /\ s <= t.
Proof.
  destruct L as [|[c r] L]; cbn [join].
  - exists s. split; [by left|lia].
  - intros (_ & ? & _). case_decide; [exists (s + r)|exists s]; (split; [by left|lia]).
Qed.

Section umalloc.
Context (base : Z) (grants : Z -> Z -> bool).

(** kernel/sysproc.c, sys_sbrk, as the program sees it *)
Definition sbrk (n : Z) : U Z :=
  b ← gets um_brk;
  let n := s32 n in
  if grants b n then
    modify (fun u => mkUmem (um_mem u) (um_freep u) (b + n));;
    mret (u64 (s32 b))
  else mret (u64 (-1)).

Definition free_body (bp p : Z) : U (Z + Z) :=
  q ← ld_ptr p;
  if (p <? bp) && (bp <? q) then mret (inr p)
  else if (q <=? p) && ((p <? bp) || (bp <? q)) then mret (inr p)
  else mret (inl q).

Definition free (ap : Z) : U unit :=
  let bp := hdr_add ap (-1) in
  fp ← gets um_freep;
  fuel ← gets ring_fuel;
  p ← loop_with fuel fp (free_body bp);
  bsize ← ld_size bp;
  pptr ← ld_ptr p;
  (if hdr_add bp bsize =? pptr then
     qsize ← ld_size pptr;
     st_size bp (bsize + qsize);;
     qptr ← ld_ptr pptr;
     st_ptr bp qptr
   else st_ptr bp pptr);;
  psize ← ld_size p;
  (if hdr_add p psize =? bp then
     bsize ← ld_size bp;
     st_size p (psize + bsize);;
     bptr ← ld_ptr bp;
     st_ptr p bptr
   else st_ptr p bp);;
  set_freep p.

Definition morecore (nu : Z) : U Z :=
  let nu := if nu <? 4096 then 4096 else nu in
  p ← sbrk (nu * sizeof_Header);
  if p =? u64 (-1) then mret 0
  else
    st_size p nu;;
    free (hdr_add p 1);;
    gets um_freep.

Definition malloc_body (nunits : Z) '((prevp, p) : Z * Z) : U ((Z * Z) + Z) :=
  size ← ld_size p;
  if nunits <=? size then
    p' ← (if size =? nunits then
            q ← ld_ptr p;
            st_ptr prevp q;;
            mret p
          else
            st_size p (size - nunits);;
            size ← ld_size p;
            let p := hdr_add p size in
            st_size p nunits;;
            mret p);
    set_freep prevp;;
    mret (inr (hdr_add p' 1))
  else
    fp ← gets um_freep;
    r ← (if p =? fp then
           p ← morecore nunits;
           if p =? 0 then mret None else mret (Some p)
         else mret (Some p));
    match r with
    | None => mret (inr 0)
    | Some p => q ← ld_ptr p; mret (inl (p, q))
    end.

Definition nunits (nbytes : Z) : Z := u32 ((nbytes + sizeof_Header - 1) / sizeof_Header + 1).

Definition malloc (nbytes : Z) : U Z :=
  let nunits := nunits nbytes in
  fp ← gets um_freep;
  prevp ← (if fp =? 0 then
             set_freep base;;
             st_ptr base base;;
             st_size base 0;;
             mret base
           else mret fp);
  p ← ld_ptr prevp;
  fuel ← gets ring_fuel;
  loop_with (fuel + fuel) (prevp, p) (malloc_body nunits).


(** The heap of the process starts at [lo], above [base]; the free blocks are
    [F], the blocks handed out are [A] by address of their header. *)
Record heap_inv (lo : Z) (u : umem) (F : list (Z * Z)) (A : gmap Z Z) : Prop := {
  hi_base : 0 < base /\ base + 16 <= lo;
  hi_brk : lo <= um_brk u < 0x80000000;
  hi_chain : chain (um_mem u) ((base, 0) :: F) base;
  hi_apart : apart (lo - 1) F (um_brk u);
  hi_freep : um_freep u ∈ base :: F.*1;
  hi_live a s : A !! a = Some s ->
    1 <= s /\ lo <= a /\ a + 16 * s <= um_brk u /\ rd32 (um_mem u) (a + 8) = s /\
    (forall x, a <= x < a + 16 * s -> ~ covered F x);
  hi_pairs a s b t : A !! a = Some s -> A !! b = Some t -> a <> b -> disjoint_blocks (a, s) (b, t);
}.

(** ** The search for the place of a block *)

Lemma free_body_run bp p u q :
  rd64 (um_mem u) p = q ->
  free_body bp p u =
    Ok (if decide (p < bp < q \/ (q <= p /\ (p < bp \/ bp < q))) then inr p else inl q) u.
Proof.
  intros Hq. unfold free_body, ld_ptr. mrun. rewrite Hq.
  repeat case_decide; destruct (p <? bp) eqn:?, (bp <? q) eqn:?, (q <=? p) eqn:?; cbn; bprop; try done; lia.
Qed.

(** From a block below the place of [bp] the loop goes up to it. *)
Lemma free_loop_up u bp L1 p sp L2 lo fuel :
  chain (um_mem u) (L1 ++ (p, sp) :: L2) base -> asc lo (L1 ++ (p, sp) :: L2) ->
  Forall (fun x => x.1 < bp) L1 -> p < bp -> Forall (fun x => bp < x.1) L2 -> base <= p -> base < bp ->
  loop_with (length L1 + S fuel) (fst_addr L1 p) (free_body bp) u = Ok p u.
Proof.
  intros Hc Ha H1 Hp H2 Hbp Hbb. revert lo Hc Ha. induction H1 as [|[a s] L1 Hx H1 IH]; intros lo Hc Ha.
  - cbn [length fst_addr Nat.add loop_with]. cbn in Hc. destruct Hc as [Hq _].
    erewrite run_bind by (apply free_body_run; exact Hq).
    rewrite decide_True; [done|]. destruct L2 as [|[q t] L2]; cbn in *; [lia|].
    apply Forall_cons in H2 as [? _]. cbn in *. lia.
  - cbn [length fst_addr Nat.add loop_with app chain asc] in *. destruct Hc as (Hq & _ & Hc), Ha as [_ Ha].
    rewrite fst_addr_app in Hq. cbn [fst_addr] in Hq.
    erewrite run_bind by (apply free_body_run; exact Hq).
    rewrite decide_False; [by eapply IH|].
    destruct L1 as [|[b t] L1]; cbn in *; [lia|]. apply Forall_cons in H1 as [? _]. cbn in *. lia.
Qed.

(** From a block above it the loop goes round by [base]. *)
Lemma free_loop_down u bp L lo R fuel :
  chain (um_mem u) L base -> asc lo L -> bp <= lo -> base < bp ->
  loop_with fuel base (free_body bp) u = Ok R u ->
  loop_with (length L + fuel) (fst_addr L base) (free_body bp) u = Ok R u.
Proof.
  intros Hc Ha Hlo Hb HR. revert lo Hc Ha Hlo. induction L as [|[a s] L IH]; intros lo Hc Ha Hlo; [done|].
  cbn [length fst_addr Nat.add loop_with chain asc] in *. destruct Hc as (Hq & _ & Hc), Ha as [Hla Ha].
  erewrite run_bind by (apply free_body_run; exact Hq).
  rewrite decide_False; [eapply (IH a); [done..|lia]|].
  destruct L as [|[b t] L]; cbn in *; lia.
Qed.

Lemma loop_more {I R} fuel more (i : I) (body : I -> U (I + R)) u r u' :
  (fuel <= more)%nat -> loop_with fuel i body u = Ok r u' -> loop_with more i body u = Ok r u'.
Proof.
  intros Hle H. pose proof (wp_loop_more fuel more i body (fun a s => a = r /\ s = u') u Hle) as W.
  unfold wp in W. rewrite H in W. destruct (loop_with more i body u); [|by destruct (W (conj eq_refl eq_refl))..].
  destruct W as [-> ->]; done.
Qed.

(** Wherever the search starts on the ring, it ends at the block before [bp]. *)
Lemma free_loop u bp R L1 p sp L2 fuel :
  R = L1 ++ (p, sp) :: L2 -> fst_addr R 0 = base ->
  chain (um_mem u) R base -> asc 0 R ->
  Forall (fun x => x.1 < bp) L1 -> p < bp -> Forall (fun x => bp < x.1) L2 ->
  um_freep u ∈ R.*1 -> (length R <= fuel)%nat ->
  loop_with fuel (um_freep u) (free_body bp) u = Ok p u.
Proof.
  intros HR Hbase Hc Ha H1 Hp H2 Hin Hf.
  assert (Hbp : base <= p /\ base < bp).
  { destruct L1 as [|[b t] L1]; subst R; cbn in Hbase; subst.
    - lia.
    - cbn in Ha. destruct Ha as [_ Ha]. apply asc_app in Ha as (? & _). lia. }
  destruct Hbp as [Hbp Hbb].
  assert (Hup : forall P Q, L1 = P ++ Q -> loop_with (length Q + 1) (fst_addr Q p) (free_body bp) u = Ok p u).
  { intros P Q ->. subst R. rewrite <- app_assoc in Hc, Ha. apply chain_cat in Hc as [_ Hc].
    apply Forall_app in H1 as [_ H1].
    assert (Ha' : exists lo, asc lo (Q ++ (p, sp) :: L2)).
    { clear -Ha. revert Ha. generalize 0. induction P as [|[b t] P IH]; intros lo Ha; [eauto|]. destruct Ha as [_ Ha]. eauto. }
    destruct Ha' as [lo Ha']. by eapply free_loop_up. }
  rewrite HR, fmap_app, elem_of_app in Hin. cbn [fmap list_fmap] in Hin. destruct Hin as [Hin|Hin].
  - apply list_elem_of_fmap in Hin as ([a s] & -> & Hin). cbn [fst]. apply list_elem_of_split in Hin as (P & Q & ->).
    specialize (Hup P ((a, s) :: Q) eq_refl). cbn [fst_addr] in Hup. eapply loop_more; [|exact Hup].
    subst R. rewrite !length_app in Hf. cbn in *. lia.
  - apply elem_of_cons in Hin as [->|Hin].
    + specialize (Hup L1 [] (eq_sym (app_nil_r L1))). cbn in Hup. eapply (loop_more 1); [|exact Hup]. 
      subst R. rewrite !length_app in Hf. cbn in *. lia.
    + apply list_elem_of_fmap in Hin as ([a s] & -> & Hin). cbn [fst]. apply list_elem_of_split in Hin as (P & Q & ->).
      assert (Hb : loop_with (length L1 + 1) base (free_body bp) u = Ok p u).
      { specialize (Hup [] L1 eq_refl). by destruct L1 as [|[b t] L1]; subst R; cbn in Hbase; subst; cbn in *. }
      assert (Hq : loop_with (length ((a, s) :: Q) + (length L1 + 1)) (fst_addr ((a, s) :: Q) base) (free_body bp) u = Ok p u).
      { subst R. apply chain_cat in Hc as [_ Hc]. cbn [chain app] in Hc. destruct Hc as (_ & _ & Hc). apply chain_cat in Hc as [_ Hc].
        apply Forall_app in H2 as [_ H2]. apply Forall_cons in H2 as [Hab _]. cbn in Hab.
        replace (L1 ++ (p, sp) :: P ++ (a, s) :: Q) with ((L1 ++ (p, sp) :: P) ++ (a, s) :: Q) in Ha by (by rewrite <- app_assoc).
        apply asc_app in Ha as (_ & _ & Ha).
        eapply (free_loop_down _ _ _ (a - 1)); [exact Hc| |lia|done|exact Hb]. split; [lia|done]. }
      eapply loop_more; [|exact Hq]. subst R. rewrite length_app in Hf. cbn [length] in *. rewrite length_app in Hf. cbn [length] in Hf. lia.
Qed.

Lemma rd32_wr64_hdr a v m : rd32 (wr64 a v m) (a + 8) = rd32 m (a + 8).
Proof. unfold rd32. f_equal. apply rd_bytes_wr64_disjoint. left. lia. Qed.

Lemma rd64_wr32_hdr a v m : rd64 (wr32 (a + 8) v m) a = rd64 m a.
Proof. apply rd64_wr_bytes_disjoint. right. lia. Qed.

Lemma rd8_wr64_hdr a v m x : ~ (a <= x < a + 12) -> rd8 (wr64 a v m) x = rd8 m x.
Proof. intros. apply rd8_wr64_out. lia. Qed.

Lemma rd8_wr32_out a v m x : ~ (a <= x < a + 4) -> rd8 (wr32 a v m) x = rd8 m x.
Proof. intros. apply rd8_wr_bytes_out. by rewrite le_encode_length. Qed.

Lemma rd8_wr32_hdr a v m x : ~ (a <= x < a + 12) -> rd8 (wr32 (a + 8) v m) x = rd8 m x.
Proof. intros. apply rd8_wr_bytes_out. rewrite le_encode_length. lia. Qed.

Lemma hdr_add_id p n : 0 <= p + 16 * n < 18446744073709551616 -> hdr_add p n = p + 16 * n.
Proof. intros. unfold hdr_add, sizeof_Header. by apply u64_id. Qed.

(** The code that links block [a] to the list at [q], or merges it with the
    first block there. *)
Lemma coalesce_run a sa q L hi u :
  chain (um_mem u) L base -> fst_addr L base = q -> rd32 (um_mem u) (a + 8) = sa ->
  apart (a + 16 * sa - 1) L hi -> Forall (fun x => a + 16 <= x.1) L -> (L = [] -> base < a) ->
  0 < base -> 0 < a -> 0 <= sa -> a + 16 * sa <= hi -> hi < 0x80000000 ->
  exists m, (if hdr_add a sa =? q then
               qsize ← ld_size q;
               st_size a (sa + qsize);;
               qptr ← ld_ptr q;
               st_ptr a qptr
             else st_ptr a q) u = Ok tt (mkUmem m (um_freep u) (um_brk u)) /\
    chain m (join a sa L) base /\
    (forall x, ~ (a <= x < a + 12) -> rd8 m x = rd8 (um_mem u) x).
Proof.
  intros Hc Hq Hsa Hap Hfar Hb0 Hbase Ha Hs Hhi Hhi'.
  assert (Hframe : forall m', (forall x, ~ (a <= x < a + 12) -> rd8 m' x = rd8 (um_mem u) x) -> chain m' L base).
  { intros m' Hm. eapply chain_frame; [|exact Hc]. intros b t x Hin Hx. apply Hm.
    rewrite Forall_forall in Hfar. specialize (Hfar _ Hin). cbn in Hfar. lia. }
  rewrite hdr_add_id by lia.
  assert (Hqr : base <= q < 0x80000000 \/ L <> []).
  { destruct L; [left; cbn in Hq; specialize (Hb0 eq_refl); lia|right; done]. }
  destruct (a + 16 * sa =? q) eqn:E; bprop.
  - destruct L as [|[b t] L]; cbn in Hq; subst q; [specialize (Hb0 eq_refl); lia|].
    cbn [chain apart] in *. destruct Hc as (Hp & Ht & Hc), Hap as (_ & Ht1 & Hap).
    pose proof (apart_le _ _ _ Hap) as Hend.
    unfold ld_size, ld_ptr, st_size, st_ptr. mrun. cbn [um_mem um_freep um_brk].
    eexists. split; [reflexivity|]. cbn [um_mem].
    assert (Hfr : forall x, ~ (a <= x < a + 12) -> rd8 (wr64 a (rd64 (wr32 (a + 8) (sa + rd32 (um_mem u) (b + 8)) (um_mem u)) b)
       (wr32 (a + 8) (sa + rd32 (um_mem u) (b + 8)) (um_mem u))) x = rd8 (um_mem u) x).
    { intros x Hx. by rewrite rd8_wr64_hdr, rd8_wr32_hdr. }
    split; [|done]. specialize (Hframe _ Hfr). cbn [chain] in Hframe. destruct Hframe as (_ & _ & Hc').
    cbn [join]. rewrite decide_True by done. cbn [chain]. split_and!; [| |done].
    + rewrite rd64_wr64_same. rewrite u64_id by apply rd64_range.
      rewrite <- Hp. apply rd64_ext. intros x Hx. apply rd8_wr32_hdr.
      apply Forall_cons in Hfar as [Hf _]. cbn in Hf. lia.
    + rewrite rd32_wr64_hdr. cbn [um_mem].
      rewrite rd32_wr32_same, Ht. apply u32_id. lia.
  - unfold st_ptr, modify. eexists. split; [reflexivity|].
    assert (Hfr : forall x, ~ (a <= x < a + 12) -> rd8 (wr64 a q (um_mem u)) x = rd8 (um_mem u) x).
    { intros x Hx. by apply rd8_wr64_hdr. }
    split; [|done]. specialize (Hframe _ Hfr).
    assert (Hj : join a sa L = (a, sa) :: L).
    { destruct L as [|[b t] L]; cbn [join]; [done|]. rewrite decide_False; [done|]. cbn in Hq. lia. }
    rewrite Hj. cbn [chain]. split_and!; [| |done].
    + rewrite rd64_wr64_same, Hq. apply u64_id.
      destruct L as [|[b t] L]; cbn in Hq; [destruct Hqr; [lia|done]|]. subst q.
      cbn [apart] in Hap. destruct Hap as (? & ? & Hap). apply apart_le in Hap. lia.
    + by rewrite rd32_wr64_hdr.
Qed.

(** The ring of the free blocks, [base] included, around an address that is
    in none of them. *)
Lemma ring_split lo u F A bp n :
  heap_inv lo u F A -> A !! bp = Some n ->
  exists L1 p sp L2, (base, 0) :: F = L1 ++ (p, sp) :: L2 /\
    Forall (fun x => x.1 < bp) L1 /\ p < bp /\ Forall (fun x => bp < x.1) L2.
Proof.
  intros [Hb _ _ Hap _ Hl _] HA. destruct (Hl _ _ HA) as (Hn & Hlo & _ & _ & Hd).
  destruct (asc_split _ F bp (apart_asc _ _ _ Hap)) as (F1 & F2 & -> & H1 & H2).
  { apply Forall_forall. intros [a s] Hin E. cbn in E. subst a. apply (Hd bp); [lia|].
    exists bp, s. split; [done|]. pose proof (apart_in _ _ _ _ _ Hap Hin). lia. }
  destruct F1 as [|[a s] F1 _] using rev_ind.
  - exists [], base, 0, F2. split_and!; [done..|lia|done].
  - apply Forall_app in H1 as [H1 Ha]. apply Forall_cons in Ha as [Ha _].
    exists ((base, 0) :: F1), a, s, F2. split_and!; [by rewrite <- app_assoc| |done|done].
    constructor; [cbn; lia|done].
Qed.

(** Two disjoint blocks in order. *)
Lemma below_end a s b t L lo hi :
  apart lo L hi -> (a, s) ∈ L -> 1 <= t -> (forall x, b <= x < b + 16 * t -> ~ covered L x) ->
  (a < b -> a + 16 * s <= b) /\ (b < a -> b + 16 * t <= a).
Proof.
  intros Hap Hin Ht Hd. pose proof (apart_in _ _ _ _ _ Hap Hin) as (_ & Hs & _).
  split; intros Hlt.
  - destruct (decide (a + 16 * s <= b)); [done|]. destruct (Hd b); [lia|]. exists a, s. split; [done|lia].
  - destruct (decide (b + 16 * t <= a)); [done|]. destruct (Hd a); [lia|]. exists a, s. split; [done|lia].
Qed.

Lemma apart_after lo L hi b t :
  apart lo L hi -> Forall (fun x => b < x.1) L -> 1 <= t -> b + 16 * t <= hi ->
  (forall x, b <= x < b + 16 * t -> ~ covered L x) -> apart (b + 16 * t - 1) L hi.
Proof.
  destruct L as [|[a s] L]; intros Hap Hb Ht Hh Hd; [cbn; lia|].
  destruct (below_end a s b t _ _ _ Hap ltac:(by left) Ht Hd) as [_ H].
  apply Forall_cons in Hb as [Hb _]. cbn in Hb. destruct Hap as (? & ? & ?). cbn [apart]. split_and!; [lia|done..].
Qed.

Record place (lo hi : Z) (F L1 : list (Z * Z)) (p sp : Z) (L2 : list (Z * Z)) (bp n : Z) : Prop := {
  pl_ring : (base, 0) :: F = L1 ++ (p, sp) :: L2;
  pl_low : Forall (fun x => x.1 < bp) L1;
  pl_high : Forall (fun x => bp < x.1) L2;
  pl_far : Forall (fun x => x.1 + 16 <= p) L1;
  pl_p : base <= p /\ p + 16 <= bp;
  pl_sp : 0 <= sp /\ p + 16 * sp <= bp;
  pl_n : 1 <= n /\ lo <= bp /\ bp + 16 * n <= hi;
  pl_apart2 : apart (p + 16 * sp) L2 hi;
  pl_after : apart (bp + 16 * n - 1) L2 hi;
}.

Lemma place_of lo u F A bp n :
  heap_inv lo u F A -> A !! bp = Some n ->
  exists L1 p sp L2, place lo (um_brk u) F L1 p sp L2 bp n.
Proof.
  intros HI HA. destruct (ring_split _ _ _ _ _ _ HI HA) as (L1 & p & sp & L2 & HR & H1 & Hp & H2).
  exists L1, p, sp, L2. destruct HI as [Hb _ _ Hap _ Hl _].
  destruct (Hl _ _ HA) as (Hn & Hlo & Hend & _ & Hd).
  destruct L1 as [|x L1]; injection HR as HR1 HR2.
  - subst p sp L2. split; try done; try lia.
    + eapply apart_weaken; [|reflexivity|exact Hap]. lia.
    + by eapply apart_after.
  - subst x F. pose proof Hap as Hap0. apply apart_app in Hap as [Hap1 Hap2]. cbn [apart] in Hap2.
    destruct Hap2 as (He & Hsp & Hap2).
    assert (Hin : (p, sp) ∈ L1 ++ (p, sp) :: L2) by (apply elem_of_app; right; left).
    destruct (below_end p sp bp n _ _ _ Hap0 Hin Hn Hd) as [Hpb _]. specialize (Hpb Hp).
    pose proof (apart_in _ _ _ _ _ Hap0 Hin) as (Hlp & _).
    assert (Hd2 : forall x, bp <= x < bp + 16 * n -> ~ covered L2 x).
    { intros x Hx Hc. apply (Hd x Hx). apply covered_app. right. apply covered_cons. by right. }
    split; try done; try lia.
    + constructor; [cbn; lia|]. apply Forall_forall. intros [a s] Ha. cbn [fst].
      pose proof (apart_in _ _ _ _ _ Hap1 Ha). lia.
    + by eapply apart_after.
Qed.

Lemma free_exec lo u F A bp n L1 p sp L2 :
  heap_inv lo u F A -> A !! bp = Some n -> place lo (um_brk u) F L1 p sp L2 bp n ->
  exists m, free (bp + 16) u = Ok tt (mkUmem m p (um_brk u)) /\
    chain m (L1 ++ join p sp (join bp n L2)) base /\
    (forall x, ~ (bp <= x < bp + 12) -> ~ (p <= x < p + 12) -> rd8 m x = rd8 (um_mem u) x).
Proof.
  intros [Hb Hk Hc Hap Hfp Hl _] HA [HR H1 H2 Hfar [Hp1 Hp2] [Hsp1 Hsp2] [Hn [Hlo Hend]] Ha2 Haf].
  destruct (Hl _ _ HA) as (_ & _ & _ & Hsz & _).
  unfold free. rewrite hdr_add_id by lia. replace (bp + 16 + 16 * -1) with bp by lia.
  mrun. pose proof (apart_length _ _ _ Hap) as Hlen.
  erewrite run_bind by (eapply (free_loop _ _ _ L1 p sp L2); [exact HR|done|exact Hc| |done|lia|done|exact Hfp|];
    [cbn [asc]; split; [lia|]; eapply asc_weaken; [|by eapply apart_asc]; lia
    |unfold ring_fuel; cbn [length]; lia]).
  rewrite HR in Hc. apply chain_cat in Hc as [Hc1 Hc]. cbn [chain fst_addr] in Hc, Hc1. destruct Hc as (Hpp & Hps & Hc2).
  erewrite run_bind by (unfold ld_size, gets; rewrite Hsz; reflexivity).
  erewrite run_bind by (unfold ld_ptr, gets; rewrite Hpp; reflexivity).
  destruct (coalesce_run bp n (fst_addr L2 base) L2 (um_brk u) u) as (m1 & Hrun & Hc3 & Hf1); try done; try lia.
  { apply Forall_forall. intros [a s] Hin. pose proof (apart_in _ _ _ _ _ Haf Hin). cbn. lia. }
  rewrite (run_bind _ _ _ _ _ Hrun). clear Hrun.
  assert (Hps1 : rd32 m1 (p + 8) = sp).
  { rewrite <- Hps. unfold rd32. f_equal. apply rd_bytes_ext. intros x Hx. apply Hf1. lia. }
  erewrite run_bind by (unfold ld_size, gets; cbn [um_mem]; rewrite Hps1; reflexivity).
  destruct (coalesce_run p sp bp (join bp n L2) (um_brk u) (mkUmem m1 (um_freep u) (um_brk u)))
    as (m2 & Hrun & Hc4 & Hf2); cbn [um_mem um_freep um_brk]; try done; try lia.
  { by apply join_addr. }
  { apply join_apart; [lia..|done|lia]. }
  { apply Forall_forall. intros [a s] [->|[t Hin]]%join_addrs; cbn; [lia|].
    rewrite Forall_forall in H2. specialize (H2 _ Hin). cbn in H2. lia. }
  { intros Hnil. by destruct L2 as [|[b t] L2]; cbn in Hnil; [|case_decide]. }
  rewrite (run_bind _ _ _ _ _ Hrun). clear Hrun. unfold set_freep, modify. cbn [um_mem um_freep um_brk].
  cbn [um_mem] in Hf2. exists m2. split; [done|]. split.
  - apply chain_cat. split; [|done]. rewrite join_addr. eapply chain_frame; [|exact Hc1].
    intros a s x Hin Hx. rewrite Forall_forall in Hfar. specialize (Hfar _ Hin). cbn in Hfar.
    rewrite Hf2, Hf1; [done|lia..].
  - intros x Hx1 Hx2. by rewrite Hf2, Hf1.
Qed.

(** What [F] becomes: the blocks before, the merged ones, the blocks behind. *)
Lemma free_list lo hi F L1 p sp L2 bp n :
  apart (lo - 1) F hi -> base + 16 <= lo -> place lo hi F L1 p sp L2 bp n ->
  exists F', L1 ++ join p sp (join bp n L2) = (base, 0) :: F' /\ apart (lo - 1) F' hi /\
    (forall x, covered F' x <-> covered F x \/ bp <= x < bp + 16 * n) /\
    (exists b t, (b, t) ∈ F' /\ n <= t) /\ p ∈ base :: F'.*1.
Proof.
  clear grants. intros Hap Hlo [HR _ _ _ [Hp1 Hp2] [Hsp1 Hsp2] [Hn [Hbl Hend]] Ha2 Haf].
  assert (HK : forall l, l < bp -> apart l (join bp n L2) hi) by (intros; by apply join_apart).
  assert (Hcov : forall x, covered (join bp n L2) x <-> covered L2 x \/ bp <= x < bp + 16 * n).
  { intros x. rewrite join_covered by (done || lia). tauto. }
  destruct (join_big bp n L2 _ _ Ha2) as (t & Ht & Hnt).
  destruct L1 as [|y L1]; injection HR as HR1 HR2; [subst p sp L2|subst y F].
  - exists (join bp n F). split_and!.
    + assert (Hj : forall K, fst_addr K base <> base -> join base 0 K = (base, 0) :: K).
      { intros [|[b s] K] Hne; cbn [join]; [done|]. cbn in Hne. rewrite decide_False; [done|lia]. }
      cbn [app]. rewrite Hj; [done|]. rewrite join_addr. lia.
    + apply HK. lia.
    + done.
    + eauto.
    + left.
  - exists (L1 ++ join p sp (join bp n L2)). apply apart_app in Hap as [Hap1 Hap2]. destruct Hap2 as (He & Hsp & _).
    split_and!.
    + done.
    + apply apart_app. split; [done|]. apply join_apart; [done|done| |lia]. apply HK. lia.
    + intros x. rewrite !covered_app, covered_cons. rewrite (join_covered (bp - 1) p sp _ hi x Hsp1 (HK (bp - 1) ltac:(lia))).
      rewrite Hcov. tauto.
    + destruct (decide (p + 16 * sp = bp)) as [E|E].
      * assert (exists r', (p, r') ∈ join p sp (join bp n L2) /\ n <= r') as (r' & ? & ?).
        { destruct (join bp n L2) as [|[b s] K] eqn:EK; [by apply elem_of_nil in Ht|].
          pose proof (join_addr bp n L2 0) as Hja. rewrite EK in Hja. cbn in Hja. subst b. cbn [join].
          rewrite decide_True by done. exists (sp + s). split; [by left|].
          apply elem_of_cons in Ht as [[= ->]|Ht]; [lia|]. specialize (HK (bp - 1) ltac:(lia)).
          cbn [apart] in HK. destruct HK as (_ & ? & HK). pose proof (apart_in _ _ _ _ _ HK Ht). lia. }
        exists p, r'. split; [|done]. apply elem_of_app. by right.
      * exists bp, t. split; [|done]. apply elem_of_app. right.
        destruct (join bp n L2) as [|[b s] K] eqn:EK; [by apply elem_of_nil in Ht|].
        pose proof (join_addr bp n L2 0) as Hja. rewrite EK in Hja. cbn in Hja. subst b. cbn [join].
        rewrite decide_False by done. by right.
    + right. rewrite fmap_app. apply elem_of_app. right.
      destruct (join p sp (join bp n L2)) as [|[b s] K] eqn:EK.
      * by destruct (join bp n L2) as [|[b s] K]; cbn in EK; [|case_decide].
      * pose proof (join_addr p sp (join bp n L2) 0) as Hja. rewrite EK in Hja. cbn in Hja. subst b. cbn. left.
Qed.

Lemma join_length a s L : (length (join a s L) <= S (length L))%nat.
Proof. destruct L as [|[b t] L]; cbn; [lia|]. case_decide; cbn; lia. Qed.

Lemma live_apart lo u F A a s b t x :
  heap_inv lo u F A -> A !! a = Some s -> A !! b = Some t -> a <> b ->
  b <= x < b + 16 * t -> ~ (a <= x < a + 16 * s).
Proof. intros HI Ha Hb Hne. pose proof (hi_pairs _ _ _ _ HI _ _ _ _ Ha Hb Hne) as [H|H]; cbn in H; lia. Qed.

Lemma free_run lo u F A bp n :
  heap_inv lo u F A -> A !! bp = Some n ->
  exists u' F', free (bp + 16) u = Ok tt u' /\ heap_inv lo u' F' (delete bp A) /\ um_brk u' = um_brk u /\
    (forall x, covered F' x <-> covered F x \/ bp <= x < bp + 16 * n) /\
    (forall x, ~ covered F' x -> ~ (base <= x < base + 16) -> rd8 (um_mem u') x = rd8 (um_mem u) x) /\
    (exists b t, (b, t) ∈ F' /\ n <= t) /\ (length F' <= S (length F))%nat.
Proof.
  intros HI HA. destruct (place_of _ _ _ _ _ _ HI HA) as (L1 & p & sp & L2 & Hpl).
  destruct (free_exec _ _ _ _ _ _ _ _ _ _ HI HA Hpl) as (m & Hrun & Hc & Hf).
  pose proof HI as [Hb Hk _ Hap _ Hl Hpairs].
  destruct (free_list _ _ _ _ _ _ _ _ _ Hap (proj2 Hb) Hpl) as (F' & HF & Hap' & Hcov & Hbig & Hp).
  assert (Hlen : (length F' <= S (length F))%nat).
  { pose proof (f_equal length HF) as E1. pose proof (f_equal length (pl_ring _ _ _ _ _ _ _ _ _ Hpl)) as E2.
    rewrite length_app in E1, E2. cbn [length] in E1, E2.
    pose proof (join_length p sp (join bp n L2)). pose proof (join_length bp n L2). lia. }
  assert (Hfr : forall x, ~ covered F' x -> ~ (base <= x < base + 16) -> rd8 m x = rd8 (um_mem u) x).
  { intros x Hx Hbx. destruct (Hl _ _ HA) as (Hn & _). apply Hf; intros Hin.
    - apply Hx, Hcov. right. lia.
    - apply elem_of_cons in Hp as [->|Hp]; [lia|]. apply list_elem_of_fmap in Hp as ([q t] & -> & Hq).
      apply Hx. exists q, t. pose proof (apart_in _ _ _ _ _ Hap' Hq). cbn in Hin. split; [done|lia]. }
  eexists _, F'. split; [exact Hrun|]. cbn [um_brk um_mem]. split_and!; try done.
  split; cbn [um_brk um_mem um_freep]; try done.
  - by rewrite <- HF.
  - intros a s [Hne Ha]%lookup_delete_Some. destruct (Hl _ _ Ha) as (Hs & Hlo & Hend & Hsz & Hd).
    assert (Hnc : forall x, a <= x < a + 16 * s -> ~ covered F' x).
    { intros x Hx [Hc'|Hc']%Hcov; [by apply (Hd x)|]. by apply (live_apart _ _ _ _ _ _ _ _ x HI HA Ha). }
    split_and!; try done. rewrite <- Hsz. unfold rd32. f_equal. apply rd_bytes_ext. intros x Hx.
    apply Hfr; [apply Hnc; lia|lia].
  - intros a s b t [_ Ha]%lookup_delete_Some [_ Hb']%lookup_delete_Some Hne. by apply (Hpairs a s b t).
Qed.

(** ** The search for a block that is large enough *)

(** An element whose pointer is not the end of the chain is followed by what
    it points to. *)
Lemma chain_next m L e a s :
  chain m L e -> (a, s) ∈ L -> rd64 m a <> e ->
  exists L1 t L2, L = L1 ++ (a, s) :: (rd64 m a, t) :: L2.
Proof.
  intros Hc Hin Hne. apply list_elem_of_split in Hin as (L1 & L2 & ->).
  apply chain_cat in Hc as [_ Hc]. cbn [chain] in Hc. destruct Hc as [Hp _].
  destruct L2 as [|[b t] L2]; cbn in Hp; [done|]. exists L1, t, L2. by rewrite Hp.
Qed.

Lemma chain_size m L e a s : chain m L e -> (a, s) ∈ L -> rd32 m (a + 8) = s.
Proof.
  intros Hc Hin. apply list_elem_of_split in Hin as (L1 & L2 & ->).
  apply chain_cat in Hc as [_ Hc]. by destruct Hc as (_ & ? & _).
Qed.

Definition last_addr (a : Z) (L : list (Z * Z)) : Z := default a (last L.*1).

(** While no block fits and [freep] is not reached, the loop goes on. *)
Lemma malloc_scan n u W1 prev p s W2 e f :
  chain (um_mem u) (W1 ++ (p, s) :: W2) e ->
  Forall (fun x => x.2 < n /\ x.1 <> um_freep u) W1 ->
  loop_with (length W1 + f) (prev, fst_addr W1 p) (malloc_body n) u =
  loop_with f (last_addr prev W1, p) (malloc_body n) u.
Proof.
  revert prev. induction W1 as [|[a t] W1 IH]; intros prev Hc HF; [done|].
  cbn [app chain length Nat.add loop_with fst_addr] in *. destruct Hc as (Hp & Ht & Hc).
  apply Forall_cons in HF as [[Hlt Hne] HF]. cbn in Hlt, Hne.
  rewrite fst_addr_app in Hp. cbn [fst_addr] in Hp.
  erewrite run_bind; [|unfold malloc_body, ld_size, ld_ptr; mrun; rewrite Ht;
    destruct (n <=? t) eqn:E; bprop; [lia|]; mrun; destruct (a =? um_freep u) eqn:E'; bprop; [done|];
    mrun; rewrite Hp; reflexivity].
  cbn match. rewrite (IH a Hc HF). do 2 f_equal. unfold last_addr. cbn [fmap list_fmap fst].
  rewrite last_cons. by destruct (last W1.*1).
Qed.

(** The blocks in order from the one after [freep], round to [freep] itself. *)
Lemma ring_from_freep lo u F A :
  heap_inv lo u F A ->
  exists W sf, chain (um_mem u) (W ++ [(um_freep u, sf)]) (rd64 (um_mem u) (um_freep u)) /\
    rd64 (um_mem u) (um_freep u) = fst_addr W (um_freep u) /\
    W ++ [(um_freep u, sf)] ≡ₚ (base, 0) :: F /\ Forall (fun x => x.1 <> um_freep u) W.
Proof.
  intros [Hb _ Hc Hap Hfp _ _].
  assert (Ha : asc 0 ((base, 0) :: F)).
  { cbn [asc]. split; [lia|]. eapply asc_weaken; [|by eapply apart_asc]. lia. }
  assert (Hfp' : um_freep u ∈ ((base, 0) :: F).*1) by done.
  remember ((base, 0) :: F) as R eqn:HR.
  apply list_elem_of_fmap in Hfp' as ([fp sf] & Hfp' & Hin). cbn in Hfp'. subst fp.
  apply list_elem_of_split in Hin as (P & Q & HRs). rewrite HRs in Hc, Ha.
  assert (Hne : Forall (fun x => x.1 <> um_freep u) (Q ++ P)).
  { apply Forall_forall. intros [a s] [Hin|Hin]%elem_of_app; cbn.
    - apply asc_app in Ha as (_ & _ & Ha). pose proof (asc_in _ _ _ _ Ha Hin). lia.
    - apply list_elem_of_split in Hin as (P1 & P2 & ->). rewrite <- app_assoc in Ha. cbn [app] in Ha.
      apply asc_app in Ha as (_ & _ & Ha). apply asc_app in Ha as (? & _). lia. }
  apply chain_cat in Hc as [Hc1 Hc2]. cbn [chain fst_addr] in Hc1, Hc2. destruct Hc2 as (Hp & Hs & Hc2).
  assert (Hfst : fst_addr P (um_freep u) = base).
  { rewrite HRs in HR. by destruct P as [|[b t] P]; injection HR; intros; subst. }
  exists (Q ++ P), sf. split_and!.
  - rewrite <- app_assoc. apply chain_cat. rewrite fst_addr_app. cbn [fst_addr]. rewrite Hfst. split; [done|].
    apply chain_cat. cbn [fst_addr chain]. done.
  - by rewrite Hp, fst_addr_app, Hfst.
  - rewrite HRs. rewrite <- app_assoc. rewrite (Permutation_app_comm Q). rewrite <- app_assoc. cbn [app]. done.
  - done.
Qed.

Lemma first_fit (n : Z) (W : list (Z * Z)) :
  Forall (fun x => x.2 < n) W \/
  exists W1 p s W2, W = W1 ++ (p, s) :: W2 /\ Forall (fun x => x.2 < n) W1 /\ n <= s.
Proof.
  induction W as [|[a s] W [IH|(W1 & p & t & W2 & -> & H & ?)]]; [by left|..].
  all: destruct (decide (s < n)) as [Hs|Hs]; [|right; exists [], a, s; eexists; split_and!; [done..|lia]].
  - left. by constructor.
  - right. exists ((a, s) :: W1), p, t, W2. split_and!; [done| |done]. by constructor.
Qed.

(** When a block fits, the loop comes to one. *)
Lemma malloc_finds lo u F A n f :
  heap_inv lo u F A -> 1 <= n -> Exists (fun x => n <= x.2) F ->
  exists L1 pv spv p t L2 f', (f <= f')%nat /\ (base, 0) :: F = L1 ++ (pv, spv) :: (p, t) :: L2 /\ n <= t /\
    loop_with (S (length F) + f) (um_freep u, rd64 (um_mem u) (um_freep u)) (malloc_body n) u =
    loop_with (S f') (pv, p) (malloc_body n) u.
Proof.
  intros HI Hn Hex. pose proof HI as [Hb _ Hc Hap Hfp _ _].
  destruct (ring_from_freep _ _ _ _ HI) as (W & sf & Hcw & Hnext & Hperm & Hne).
  destruct (first_fit n (W ++ [(um_freep u, sf)])) as [HF|(W1 & p & t & W2 & HW & H1 & Ht)].
  { apply Exists_exists in Hex as ([a s] & Hin & Hs). cbn in Hs. rewrite Forall_forall in HF.
    specialize (HF (a, s)). cbn in HF. rewrite Hperm in HF. specialize (HF ltac:(by right)). lia. }
  assert (Hpin : (p, t) ∈ (base, 0) :: F) by (rewrite <- Hperm, HW; apply elem_of_app; right; left).
  assert (Hpb : p <> base).
  { intros ->. apply elem_of_cons in Hpin as [[= ->]|Hin]; [lia|]. pose proof (apart_in _ _ _ _ _ Hap Hin). lia. }
  assert (H1' : Forall (fun x => x.2 < n /\ x.1 <> um_freep u) W1).
  { apply Forall_and. split; [done|]. destruct W2 as [|w W2 _] using rev_ind.
    - apply app_inj_tail in HW as [-> _]. done.
    - rewrite app_comm_cons, app_assoc in HW. apply app_inj_tail in HW as [-> _]. by apply Forall_app in Hne as [Hne _]. }
  assert (Hfst : fst_addr W (um_freep u) = fst_addr W1 p).
  { pose proof (f_equal (fun L => fst_addr L 0) HW) as E. cbn beta in E. rewrite !fst_addr_app in E. exact E. }
  assert (Hlen : (length W1 <= length F)%nat).
  { apply Permutation_length in Hperm. rewrite HW, length_app in Hperm. cbn in Hperm. lia. }
  rewrite HW in Hcw. pose proof Hcw as Hcw0. apply chain_cat in Hcw as [Hcw1 Hcw2]. cbn [fst_addr chain] in Hcw1, Hcw2.
  assert (Hpv : exists spv, (last_addr (um_freep u) W1, spv) ∈ (base, 0) :: F /\ rd64 (um_mem u) (last_addr (um_freep u) W1) = p).
  { destruct W1 as [|[a s] W1 _] using rev_ind.
    - exists sf. cbn. rewrite Hnext, Hfst. split; [|done]. rewrite <- Hperm. apply elem_of_app. right. left.
    - exists s. unfold last_addr. rewrite fmap_app. cbn [fmap list_fmap fst]. rewrite last_snoc. cbn [default]. split.
      + rewrite <- Hperm, HW. apply elem_of_app. left. apply elem_of_app. right. left.
      + apply chain_cat in Hcw1 as [_ Hcw1]. cbn in Hcw1. tauto. }
  destruct Hpv as (spv & Hpvin & Hpvp).
  destruct (chain_next _ _ _ _ _ Hc Hpvin ltac:(by rewrite Hpvp)) as (L1 & t' & L2 & HR).
  rewrite Hpvp in HR.
  assert (t' = t) as ->.
  { rewrite <- (chain_size _ _ _ _ _ Hc Hpin). symmetry. eapply (chain_size _ _ _ _ _ Hc). rewrite HR.
    apply elem_of_app. right. right. left. }
  exists L1, (last_addr (um_freep u) W1), spv, p, t, L2, (length F - length W1 + f)%nat. split_and!; [lia|done..|].
  rewrite Hnext, Hfst.
  rewrite <- (malloc_scan n u W1 _ p t W2 _ _ Hcw0 H1'). f_equal. lia.
Qed.

(** When none fits, it comes back to [freep]. *)
Lemma malloc_misses lo u F A n f :
  heap_inv lo u F A -> Forall (fun x => x.2 < n) F -> 1 <= n ->
  exists pv s, s < n /\ rd32 (um_mem u) (um_freep u + 8) = s /\
    loop_with (S (length F) + f) (um_freep u, rd64 (um_mem u) (um_freep u)) (malloc_body n) u =
    loop_with (S f) (pv, um_freep u) (malloc_body n) u.
Proof.
  intros HI HF Hn. destruct (ring_from_freep _ _ _ _ HI) as (W & sf & Hcw & Hnext & Hperm & Hne).
  assert (HF' : Forall (fun x => x.2 < n) (W ++ [(um_freep u, sf)])) by (rewrite Hperm; constructor; [cbn; lia|done]).
  apply Forall_app in HF' as [HW Hsf]. apply Forall_cons in Hsf as [Hsf _]. cbn in Hsf.
  exists (last_addr (um_freep u) W), sf. split; [done|].
  split; [by eapply (chain_size _ _ _ _ _ Hcw); apply elem_of_app; right; left|].
  assert (HWn : Forall (fun x => x.2 < n /\ x.1 <> um_freep u) W) by (by apply Forall_and).
  rewrite Hnext. rewrite <- (malloc_scan n u W _ _ sf [] _ _ Hcw HWn). f_equal.
  apply Permutation_length in Hperm. rewrite length_app in Hperm. cbn in Hperm. lia.
Qed.

(** A block [b] carved out of the free blocks becomes a block in use. *)
Lemma heap_inv_alloc lo u F A u' F' b n :
  heap_inv lo u F A -> um_brk u' = um_brk u -> 1 <= n ->
  chain (um_mem u') ((base, 0) :: F') base -> apart (lo - 1) F' (um_brk u) ->
  um_freep u' ∈ base :: F'.*1 -> rd32 (um_mem u') (b + 8) = n ->
  (forall x, covered F x <-> covered F' x \/ b <= x < b + 16 * n) ->
  (forall x, b <= x < b + 16 * n -> ~ covered F' x) ->
  (forall x, ~ covered F x -> ~ (base <= x < base + 16) -> rd8 (um_mem u') x = rd8 (um_mem u) x) ->
  A !! b = None /\ heap_inv lo u' F' (<[b := n]> A).
Proof.
  intros [Hb Hk Hc Hap Hfp Hl Hpairs] Hbrk Hn Hc' Hap' Hfp' Hsz Hcov Hnb Hfr.
  assert (Hcb : forall x, b <= x < b + 16 * n -> covered F x) by (intros; apply Hcov; auto).
  assert (Hnew : forall a s, A !! a = Some s -> disjoint_blocks (b, n) (a, s)).
  { intros a s Ha. destruct (Hl _ _ Ha) as (Hs & _ & _ & _ & Hd). unfold disjoint_blocks. cbn.
    destruct (decide (b + 16 * n <= a)), (decide (a + 16 * s <= b)); try lia. exfalso.
    apply (Hd (Z.max a b)); [lia|]. apply Hcb. lia. }
  assert (HAb : A !! b = None).
  { destruct (A !! b) as [s|] eqn:E; [|done]. destruct (Hl _ _ E) as (? & _ & _ & _ & Hd). destruct (Hd b); [lia|]. apply Hcb. lia. }
  assert (Hin : lo <= b /\ b + 16 * n <= um_brk u).
  { destruct (Hcb b) as (a1 & s1 & Hi1 & Hx1); [lia|]. destruct (Hcb (b + 16 * n - 1)) as (a2 & s2 & Hi2 & Hx2); [lia|].
    pose proof (apart_in _ _ _ _ _ Hap Hi1). pose proof (apart_in _ _ _ _ _ Hap Hi2). lia. }
  split; [done|]. split; rewrite ?Hbrk; try done.
  - intros a s Has. destruct (decide (b = a)) as [<-|Hne].
    + rewrite lookup_insert_eq in Has. injection Has as <-. split_and!; try done; lia.
    + rewrite lookup_insert_ne in Has by done. destruct (Hl _ _ Has) as (? & ? & ? & Hs & Hd). split_and!; try done.
      * rewrite <- Hs. unfold rd32. f_equal. apply rd_bytes_ext. intros x Hx. apply Hfr; [apply Hd; lia|lia].
      * intros x Hx Hcx. apply (Hd x Hx). apply Hcov. by left.
  - intros a s a' s' Ha Ha' Hne. destruct (decide (b = a)) as [<-|Hna], (decide (b = a')) as [<-|Hna']; [done|..];
      rewrite ?lookup_insert_eq, ?lookup_insert_ne in * by done; simplify_eq; auto.
    unfold disjoint_blocks in *. destruct (Hnew _ _ Ha); cbn in *; lia.
Qed.

(** The tail of a ring that starts with [base]. *)
Lemma ring_tail F L1 pv spv K lo hi :
  (base, 0) :: F = L1 ++ (pv, spv) :: K -> apart (lo - 1) F hi -> base + 16 <= lo ->
  exists P, (forall K', L1 ++ (pv, spv) :: K' = (base, 0) :: P ++ K') /\ F = P ++ K /\
    pv ∈ base :: P.*1 /\ Forall (fun x => x.1 + 16 <= pv) L1.
Proof.
  destruct L1 as [|x L1]; intros [= E1 E2] Hap Hlo; subst.
  - exists []. split_and!; [done|done|left|done].
  - apply apart_app in Hap as [Hap1 Hap2]. exists (L1 ++ [(pv, spv)]). split_and!; [|by rewrite <- app_assoc|..].
    + intros K'. cbn. by rewrite <- app_assoc.
    + right. rewrite fmap_app. apply elem_of_app. right. left.
    + cbn [apart] in Hap2. pose proof (apart_le _ _ _ Hap1). constructor; [cbn; lia|]. apply Forall_forall. intros [a s] Hin.
      pose proof (apart_in _ _ _ _ _ Hap1 Hin). cbn. lia.
Qed.

Lemma take_run lo u F A n L1 pv spv p t L2 :
  heap_inv lo u F A -> 1 <= n -> n <= t -> (base, 0) :: F = L1 ++ (pv, spv) :: (p, t) :: L2 ->
  exists b u' F', malloc_body n (pv, p) u = Ok (inr (b + 16)) u' /\ A !! b = None /\
    heap_inv lo u' F' (<[b := n]> A) /\ um_brk u' = um_brk u /\
    (forall x, covered F x <-> covered F' x \/ b <= x < b + 16 * n) /\
    (forall x, ~ covered F x -> ~ (base <= x < base + 16) -> rd8 (um_mem u') x = rd8 (um_mem u) x).
Proof.
  intros HI Hn Ht HR. pose proof HI as [Hb Hk Hc Hap Hfp Hl Hpairs].
  destruct (ring_tail _ _ _ _ _ _ _ HR Hap (proj2 Hb)) as (P & HP & HF & Hpv & Hfar).
  rewrite HR in Hc. apply chain_cat in Hc as [Hc1 Hc2]. cbn [chain fst_addr] in Hc1, Hc2.
  destruct Hc2 as (Hpvp & Hpvs & Hpp & Hps & Hc2).
  rewrite HF in Hap. pose proof Hap as Hap0. apply apart_app in Hap as [HapP Hap2]. cbn [apart] in Hap2.
  destruct Hap2 as (Hep & Ht1 & Hap2). pose proof (apart_le _ _ _ Hap2) as Hpe.
  assert (Hpvr : base <= pv /\ pv + 16 <= p).
  { pose proof (apart_in _ _ _ p t Hap0 ltac:(apply elem_of_app; right; left)).
    apply elem_of_cons in Hpv as [->|Hin]; [lia|]. apply list_elem_of_fmap in Hin as ([q r] & -> & Hin).
    pose proof (apart_in _ _ _ _ _ HapP Hin). cbn. lia. }
  assert (Hframe : forall m', (forall x, ~ (p <= x < p + 16 * t) -> ~ (pv <= x < pv + 8) -> rd8 m' x = rd8 (um_mem u) x) ->
    chain m' L1 pv /\ chain m' L2 base /\
    (forall x, ~ covered F x -> ~ (base <= x < base + 16) -> rd8 m' x = rd8 (um_mem u) x)).
  { intros m' Hm. rewrite Forall_forall in Hfar. split_and!.
    - eapply chain_frame; [|exact Hc1]. intros a s x Hin Hx. specialize (Hfar _ Hin). cbn in Hfar. apply Hm; lia.
    - eapply chain_frame; [|exact Hc2]. intros a s x Hin Hx. pose proof (apart_in _ _ _ _ _ Hap2 Hin). apply Hm; lia.
    - intros x Hx Hbx. rewrite HF, covered_app, covered_cons in Hx. apply Hm; [by auto|]. intros Hpx.
      apply elem_of_cons in Hpv as [->|Hin]; [lia|]. apply list_elem_of_fmap in Hin as ([q r] & -> & Hin).
      apply Hx. left. exists q, r. split; [done|]. pose proof (apart_in _ _ _ _ _ HapP Hin). cbn in Hpx. lia. }
  unfold malloc_body. erewrite run_bind by (unfold ld_size, gets; rewrite Hps; reflexivity).
  destruct (n <=? t) eqn:E; bprop; [|lia].
  destruct (t =? n) eqn:E2; bprop.
  - subst n.
    erewrite run_bind by (unfold ld_ptr, st_ptr, set_freep; mrun; rewrite Hpp; reflexivity).
    unfold set_freep. mrun. cbn [um_mem um_freep um_brk]. rewrite hdr_add_id by lia.
    replace (p + 16 * 1) with (p + 16) by lia.
    eexists p, _, (P ++ L2). split; [reflexivity|].
    destruct (Hframe (wr64 pv (fst_addr L2 base) (um_mem u))) as (Hk1 & Hk2 & Hk3).
    { intros x _ Hx. apply rd8_wr64_out. lia. }
    assert (Hcov : forall x, covered F x <-> covered (P ++ L2) x \/ p <= x < p + 16 * t).
    { intros x. rewrite HF, !covered_app, covered_cons. tauto. }
    assert (Hnx : 0 <= fst_addr L2 base < 0x80000000).
    { destruct L2 as [|[q r] L2]; cbn; [lia|]. destruct Hap2 as (? & ? & Hap2). apply apart_le in Hap2. lia. }
    match goal with |- _ /\ heap_inv _ ?u' _ _ /\ _ => destruct (heap_inv_alloc lo u F A u' (P ++ L2) p t) as [HA HI'] end;
      cbn [um_mem um_freep um_brk]; try done.
    + rewrite <- HP. apply chain_cat. cbn [fst_addr chain]. split_and!; try done.
      * rewrite rd64_wr64_same. apply u64_id. lia.
      * by rewrite rd32_wr64_hdr.
    + apply apart_app. split; [done|]. eapply apart_weaken; [|reflexivity|exact Hap2]. lia.
    + rewrite fmap_app, elem_of_cons, elem_of_app. apply elem_of_cons in Hpv. tauto.
    + rewrite <- Hps. unfold rd32. f_equal. apply rd_bytes_wr64_disjoint. left. lia.
    + intros x Hx. rewrite covered_app. intros [Hx'|Hx'].
      * destruct Hx' as (q & r & Hin & Hqr). pose proof (apart_in _ _ _ _ _ HapP Hin). lia.
      * destruct Hx' as (q & r & Hin & Hqr). pose proof (apart_in _ _ _ _ _ Hap2 Hin). lia.
  - set (b := p + 16 * (t - n)).
    assert (Hb1 : rd32 (wr32 (p + 8) (t - n) (um_mem u)) (p + 8) = t - n) by (rewrite rd32_wr32_same; apply u32_id; lia).
    erewrite run_bind; [|unfold ld_size, st_size; mrun; cbn [um_mem um_freep um_brk]; rewrite Hb1, hdr_add_id by lia; reflexivity].
    unfold set_freep. mrun. cbn [um_mem um_freep um_brk]. fold b. rewrite hdr_add_id by lia.
    replace (b + 16 * 1) with (b + 16) by lia.
    eexists b, _, (P ++ (p, t - n) :: L2). split; [reflexivity|].
    destruct (Hframe (wr32 (b + 8) n (wr32 (p + 8) (t - n) (um_mem u)))) as (Hk1 & Hk2 & Hk3).
    { intros x Hx _. rewrite !rd8_wr32_hdr by lia. done. }
    assert (Hcov : forall x, covered F x <-> covered (P ++ (p, t - n) :: L2) x \/ b <= x < b + 16 * n).
    { intros x. rewrite HF, !covered_app, !covered_cons. intuition lia. }
    match goal with |- _ /\ heap_inv _ ?u' _ _ /\ _ => destruct (heap_inv_alloc lo u F A u' (P ++ (p, t - n) :: L2) b n) as [HA HI'] end;
      cbn [um_mem um_freep um_brk]; try done.
    + rewrite <- HP. apply chain_cat. cbn [fst_addr chain]. split_and!; try done.
      * rewrite <- Hpvp. apply rd64_ext. intros x Hx. rewrite !rd8_wr32_hdr by lia. done.
      * rewrite <- Hpvs. unfold rd32. f_equal. apply rd_bytes_ext. intros x Hx. rewrite !rd8_wr32_hdr by lia. done.
      * rewrite <- Hpp. apply rd64_ext. intros x Hx. rewrite !rd8_wr32_out by lia. done.
      * etransitivity; [|exact Hb1]. unfold rd32. f_equal. apply rd_bytes_ext. intros x Hx. apply rd8_wr32_out. lia.
    + apply apart_app. split; [done|]. cbn [apart]. split_and!; [lia..|]. eapply apart_weaken; [|reflexivity|exact Hap2]. lia.
    + rewrite fmap_app, elem_of_cons, elem_of_app. apply elem_of_cons in Hpv. tauto.
    + rewrite rd32_wr32_same. apply u32_id. lia.
    + intros x Hx. rewrite covered_app, covered_cons. intros [Hx'|[Hx'|Hx']]; [|lia|].
      * destruct Hx' as (q & r & Hin & Hqr). pose proof (apart_in _ _ _ _ _ HapP Hin). lia.
      * destruct Hx' as (q & r & Hin & Hqr). pose proof (apart_in _ _ _ _ _ Hap2 Hin). lia.
Qed.

(** ** [morecore] *)

Definition core_units (n : Z) : Z := Z.max n 4096.

(** Fresh memory at the break, given to [free]. *)
Lemma heap_inv_grow lo u F A nu :
  heap_inv lo u F A -> 1 <= nu -> um_brk u + 16 * nu < 0x80000000 ->
  A !! um_brk u = None /\
  heap_inv lo (mkUmem (wr32 (um_brk u + 8) nu (um_mem u)) (um_freep u) (um_brk u + 16 * nu)) F (<[um_brk u := nu]> A).
Proof.
  intros [Hb Hk Hc Hap Hfp Hl Hpairs] Hnu Hmax. pose proof (apart_le _ _ _ Hap) as Hle.
  assert (HAb : A !! um_brk u = None).
  { destruct (A !! um_brk u) as [s|] eqn:E; [|done]. destruct (Hl _ _ E) as (? & ? & ? & _). lia. }
  split; [done|]. split; cbn [um_mem um_freep um_brk]; try done; [lia|..].
  - eapply chain_frame; [|exact Hc]. intros a s x Hin Hx. apply rd8_wr32_out.
    apply elem_of_cons in Hin as [[= -> ->]|Hin]; [lia|]. pose proof (apart_in _ _ _ _ _ Hap Hin). lia.
  - eapply apart_weaken; [reflexivity| |exact Hap]. lia.
  - intros a s Ha. destruct (decide (um_brk u = a)) as [E|Hne].
    + subst a. rewrite lookup_insert_eq in Ha. injection Ha as <-. split_and!; try lia.
      * rewrite rd32_wr32_same. apply u32_id. lia.
      * intros x Hx (a & s & Hin & Hax). pose proof (apart_in _ _ _ _ _ Hap Hin). lia.
    + rewrite lookup_insert_ne in Ha by done. destruct (Hl _ _ Ha) as (? & ? & ? & Hs & Hd). split_and!; try done; try lia.
      rewrite <- Hs. unfold rd32. f_equal. apply rd_bytes_ext. intros x Hx. apply rd8_wr32_out. lia.
  - intros a s b t Ha Hb' Hne. unfold disjoint_blocks; cbn.
    destruct (decide (um_brk u = a)) as [E|Hna], (decide (um_brk u = b)) as [E'|Hnb]; [congruence|..].
    + subst a. rewrite lookup_insert_eq in Ha. rewrite lookup_insert_ne in Hb' by done. simplify_eq. destruct (Hl _ _ Hb'); lia.
    + subst b. rewrite lookup_insert_eq in Hb'. rewrite lookup_insert_ne in Ha by done. simplify_eq. destruct (Hl _ _ Ha); lia.
    + rewrite lookup_insert_ne in Ha, Hb' by done. exact (Hpairs _ _ _ _ Ha Hb' Hne).
Qed.

Lemma morecore_run lo u F A n :
  heap_inv lo u F A -> 1 <= n -> um_brk u + 16 * core_units n < 0x80000000 ->
  if grants (um_brk u) (16 * core_units n) then
    exists u' F', morecore n u = Ok (um_freep u') u' /\ heap_inv lo u' F' A /\
      um_freep u' <> 0 /\ um_brk u' = um_brk u + 16 * core_units n /\
      (forall x, covered F' x <-> covered F x \/ um_brk u <= x < um_brk u') /\
      (forall x, ~ covered F' x -> ~ (base <= x < base + 16) -> rd8 (um_mem u') x = rd8 (um_mem u) x) /\
      Exists (fun x => n <= x.2) F' /\ (length F' <= S (length F))%nat
  else morecore n u = Ok 0 u.
Proof.
  intros HI Hn Hmax. unfold core_units in *.
  assert (Hnu : (if n <? 4096 then 4096 else n) = Z.max n 4096) by (destruct (n <? 4096) eqn:E; bprop; lia).
  set (nu := Z.max n 4096) in *.
  pose proof HI as [Hb Hk Hc Hap Hfp Hl Hpairs]. pose proof (apart_le _ _ _ Hap) as Hle.
  unfold morecore. rewrite Hnu. unfold sbrk, sizeof_Header. mrun.
  rewrite (s32_id (nu * 16)) by lia. rewrite (Z.mul_comm nu 16).
  destruct (grants (um_brk u) (16 * nu)); [|done].
  mrun. rewrite (s32_id (um_brk u)) by lia. rewrite (u64_id (um_brk u)) by lia.
  destruct (um_brk u =? u64 (-1)) eqn:E; bprop; [change (u64 (-1)) with 18446744073709551615 in E; lia|].
  unfold st_size. mrun. cbn [um_mem um_freep um_brk].
  destruct (heap_inv_grow lo u F A nu HI ltac:(lia) ltac:(lia)) as [HAb HI1].
  destruct (free_run _ _ _ _ (um_brk u) nu HI1 ltac:(apply lookup_insert_eq)) as (u2 & F2 & Hrun & HI2 & Hbrk & Hcov & Hfr & Hbig & Hlen).
  rewrite hdr_add_id by lia. replace (um_brk u + 16 * 1) with (um_brk u + 16) by lia.
  rewrite (run_bind _ _ _ _ _ Hrun). unfold gets. cbn [um_brk] in Hbrk.
  rewrite delete_insert_id in HI2 by done.
  exists u2, F2. split_and!; try done.
  - pose proof HI2 as [_ _ _ Hap2 Hfp2 _ _]. apply elem_of_cons in Hfp2 as [->|Hin]; [lia|].
    apply list_elem_of_fmap in Hin as ([q r] & -> & Hin). pose proof (apart_in _ _ _ _ _ Hap2 Hin). cbn. lia.
  - intros x. rewrite Hcov, Hbrk. done.
  - intros x Hx Hbx. rewrite Hfr by done. apply rd8_wr32_out. intros Hin. apply Hx, Hcov. right. lia.
  - destruct Hbig as (b & t & Hin & Ht). apply Exists_exists. exists (b, t). split; [done|]. cbn. lia.
Qed.

(** ** [malloc] *)

(** Before the first call of [malloc], [freep] is null. *)
Definition um_ready (lo : Z) (u : umem) (F : list (Z * Z)) (A : gmap Z Z) : Prop :=
  heap_inv lo u F A \/
  (um_freep u = 0 /\ F = [] /\ A = ∅ /\ (0 < base /\ base + 16 <= lo) /\ lo <= um_brk u < 0x80000000).

Lemma nunits_spec nbytes :
  0 <= nbytes < 4294967296 -> 1 <= nunits nbytes < 268435458 /\ nbytes <= 16 * (nunits nbytes - 1) < nbytes + 16.
Proof. clear base grants. intros. unfold nunits, sizeof_Header. rewrite u32_id by zlia. zlia. Qed.

(** What [malloc] promises when it gives out the block at [b]: [n] units from
    the free blocks [F] and the memory the break [brk] was moved over. *)
Record given (lo brk n : Z) (u : umem) (F : list (Z * Z)) (A : gmap Z Z) (b : Z) (u' : umem) (F' : list (Z * Z)) : Prop := {
  gv_fresh : A !! b = None;
  gv_inv : heap_inv lo u' F' (<[b := n]> A);
  gv_brk : brk <= um_brk u' <= brk + 16 * core_units n;
  gv_cover x : covered F' x \/ b <= x < b + 16 * n <-> covered F x \/ brk <= x < um_brk u';
  gv_frame a s x : A !! a = Some s -> a <= x < a + 16 * s -> rd8 (um_mem u') x = rd8 (um_mem u) x;
}.

(** From [freep], when there is a block that fits. *)
Lemma malloc_pass lo u F A n f :
  heap_inv lo u F A -> 1 <= n -> Exists (fun x => n <= x.2) F -> (length F < f)%nat ->
  exists b u' F', loop_with f (um_freep u, rd64 (um_mem u) (um_freep u)) (malloc_body n) u = Ok (b + 16) u' /\
    given lo (um_brk u) n u F A b u' F' /\ um_brk u' = um_brk u.
Proof.
  intros HI Hn Hex Hf. replace f with (S (length F) + (f - S (length F)))%nat by lia.
  destruct (malloc_finds _ _ _ _ n (f - S (length F)) HI Hn Hex) as (L1 & pv & spv & p & t & L2 & f' & Hf' & HR & Ht & ->).
  destruct (take_run _ _ _ _ _ _ _ _ _ _ _ HI Hn Ht HR) as (b & u' & F' & Hrun & HA & HI' & Hbrk & Hcov & Hfr).
  exists b, u', F'. cbn [loop_with]. rewrite (run_bind _ _ _ _ _ Hrun). split; [done|].
  split; [|done]. split; try done; [unfold core_units; lia| |].
  - intros x. rewrite Hcov. intuition lia.
  - intros a s x Ha Hx. destruct HI as [Hb _ _ _ _ Hl _]. destruct (Hl _ _ Ha) as (_ & ? & _ & _ & Hd).
    apply Hfr; [by apply Hd|lia].
Qed.

Lemma malloc_loop lo u F A n f :
  heap_inv lo u F A -> 1 <= n -> um_brk u + 16 * core_units n < 0x80000000 -> (2 * length F + 3 <= f)%nat ->
  exists r u' F', loop_with f (um_freep u, rd64 (um_mem u) (um_freep u)) (malloc_body n) u = Ok r u' /\
    ((r = 0 /\ Forall (fun x => x.2 < n) F /\ grants (um_brk u) (16 * core_units n) = false /\ u' = u) \/
     (~ (Forall (fun x => x.2 < n) F /\ grants (um_brk u) (16 * core_units n) = false) /\
      exists b, r = b + 16 /\ given lo (um_brk u) n u F A b u' F')).
Proof.
  intros HI Hn Hmax Hf. destruct (decide (Exists (fun x => n <= x.2) F)) as [Hex|Hex].
  { destruct (malloc_pass _ _ _ _ _ f HI Hn Hex ltac:(lia)) as (b & u' & F' & Hrun & Hg & _). exists (b + 16), u', F'.
    split; [done|]. right. split; [|eauto]. intros [HF _]. apply Exists_exists in Hex as (x & Hin & Hx).
    rewrite Forall_forall in HF. specialize (HF _ Hin). cbn in HF. lia. }
  assert (HF : Forall (fun x => x.2 < n) F).
  { apply not_Exists_Forall in Hex; [|intros x; apply _]. eapply Forall_impl; [exact Hex|]. cbn. intros. lia. }
  replace f with (S (length F) + (f - S (length F)))%nat by lia.
  destruct (malloc_misses _ _ _ _ _ (f - S (length F)) HI HF Hn) as (pv & s & Hs & Hsz & ->).
  pose proof (morecore_run _ _ _ _ n HI Hn Hmax) as Hcore.
  set (g := (f - S (length F))%nat) in *. cbn [loop_with].
  assert (Hbody : malloc_body n (pv, um_freep u) u =
    (r ← (p ← morecore n; if p =? 0 then mret None else mret (Some p));
     match r with None => mret (inr 0) | Some p => q ← ld_ptr p; mret (inl (p, q)) end) u).
  { unfold malloc_body, ld_size. rewrite bind_gets, Hsz. destruct (n <=? s) eqn:E; bprop; [lia|].
    by rewrite bind_gets, Z.eqb_refl. }
  destruct (grants (um_brk u) (16 * core_units n)).
  - destruct Hcore as (u2 & F2 & Hrun & HI2 & Hne & Hbrk & Hcov & Hfr & Hex2 & Hlen).
    assert (Hb2 : malloc_body n (pv, um_freep u) u = Ok (inl (um_freep u2, rd64 (um_mem u2) (um_freep u2))) u2).
    { rewrite Hbody, bind_assoc, (run_bind _ _ _ _ _ Hrun). destruct (um_freep u2 =? 0) eqn:E0; bprop; [done|]. done. }
    rewrite (run_bind _ _ _ _ _ Hb2). cbn match.
    destruct (malloc_pass _ _ _ _ _ g HI2 Hn Hex2 ltac:(unfold g; lia)) as (b & u' & F' & Hrun' & Hg & Hbrk').
    exists (b + 16), u', F'. split; [exact Hrun'|]. right. split; [by intros [_ ?]|]. exists b. split; [done|].
    destruct Hg as [Hg1 Hg2 Hg3 Hg4 Hg5]. unfold core_units in *. split; try done; [unfold core_units; lia| |].
    + intros x. rewrite Hg4, Hcov. intuition lia.
    + intros a r x Ha Hx. rewrite (Hg5 a r x Ha Hx).
      pose proof HI2 as [Hb _ _ _ _ Hl _]. destruct (Hl _ _ Ha) as (_ & ? & _ & _ & Hd).
      apply Hfr; [by apply Hd|lia].
  - assert (Hb2 : malloc_body n (pv, um_freep u) u = Ok (inr 0) u).
    { by rewrite Hbody, bind_assoc, (run_bind _ _ _ _ _ Hcore). }
    rewrite (run_bind _ _ _ _ _ Hb2). exists 0, u, F. split; [done|]. left. done.
Qed.

Lemma malloc_run lo u F A nbytes :
  um_ready lo u F A -> 0 <= nbytes < 4294967296 -> um_brk u + 16 * core_units (nunits nbytes) < 0x80000000 ->
  exists r u' F', malloc nbytes u = Ok r u' /\
    ((r = 0 /\ Forall (fun x => x.2 < nunits nbytes) F /\
      grants (um_brk u) (16 * core_units (nunits nbytes)) = false /\ heap_inv lo u' F A /\ um_brk u' = um_brk u /\
      (forall a s x, A !! a = Some s -> a <= x < a + 16 * s -> rd8 (um_mem u') x = rd8 (um_mem u) x)) \/
     (~ (Forall (fun x => x.2 < nunits nbytes) F /\ grants (um_brk u) (16 * core_units (nunits nbytes)) = false) /\
      exists b, r = b + 16 /\ given lo (um_brk u) (nunits nbytes) u F A b u' F')).
Proof.
  intros Hr Hnb Hmax. destruct (nunits_spec nbytes Hnb) as [Hn _]. unfold malloc. mrun.
  destruct Hr as [HI|(Hfp & HF & HA & Hb & Hbrk)].
  - pose proof HI as [Hb Hk _ Hap Hfp _ _]. pose proof (apart_length _ _ _ Hap) as Hlen.
    destruct (um_freep u =? 0) eqn:E; bprop.
    { exfalso. apply elem_of_cons in Hfp as [E'|Hin]; [lia|].
      apply list_elem_of_fmap in Hin as ([q r] & E' & Hin). pose proof (apart_in _ _ _ _ _ Hap Hin). cbn in E'. lia. }
    mrun. unfold ld_ptr. mrun.
    destruct (malloc_loop _ _ _ _ _ (ring_fuel u + ring_fuel u) HI (proj1 Hn) Hmax ltac:(unfold ring_fuel; lia))
      as (r & u' & F' & -> & Hres).
    exists r, u', F'. split; [done|]. destruct Hres as [(-> & ? & ? & ->)|?]; [left|by right]. done.
  - rewrite Hfp. cbn [Z.eqb]. subst F A. unfold set_freep, st_ptr, st_size, ld_ptr. mrun. cbn [um_mem um_freep um_brk].
    set (u0 := mkUmem (wr32 (base + 8) 0 (wr64 base base (um_mem u))) base (um_brk u)).
    assert (HI : heap_inv lo u0 [] ∅).
    { split; cbn [um_mem um_freep um_brk u0]; try done; [|cbn; lia|left].
      cbn [chain fst_addr]. split_and!; [|by rewrite rd32_wr32_same|done].
      rewrite rd64_wr32_hdr, rd64_wr64_same. apply u64_id. lia. }
    destruct (malloc_loop _ _ _ _ _ (ring_fuel u0 + ring_fuel u0) HI (proj1 Hn) Hmax ltac:(unfold ring_fuel; cbn; lia))
      as (r & u' & F' & Hrun & Hres).
    exists r, u', F'. split; [exact Hrun|]. destruct Hres as [(-> & ? & ? & ->)|(Hno & b & -> & [Hg1 Hg2 Hg3 Hg4 Hg5])]; [left; done|right].
    split; [exact Hno|]. exists b. split; [done|]. by split.
Qed.

(** C32. [malloc] on every branch, for requests that do not take the break past
    2^31: it returns; the result is null exactly when no free block is large
    enough and the kernel refuses more memory, and then nothing is lost;
    otherwise it is a block in the heap of at least [nbytes] bytes behind its
    header, apart from every block in use and every free block, which together
    with it still make up the heap, and what the blocks in use hold is as it
    was. *)
Theorem malloc_spec lo u F A nbytes :
  um_ready lo u F A -> 0 <= nbytes < 4294967296 -> um_brk u + 16 * core_units (nunits nbytes) < 0x80000000 ->
  exists r u' F', malloc nbytes u = Ok r u' /\
    (forall a s x, A !! a = Some s -> a <= x < a + 16 * s -> rd8 (um_mem u') x = rd8 (um_mem u) x) /\
    if decide (Forall (fun x => x.2 < nunits nbytes) F /\ grants (um_brk u) (16 * core_units (nunits nbytes)) = false)
    then r = 0 /\ heap_inv lo u' F A
    else let b := r - 16 in
      A !! b = None /\ heap_inv lo u' F' (<[b := nunits nbytes]> A) /\
      lo <= b /\ r + nbytes <= b + 16 * nunits nbytes <= um_brk u' /\
      (forall a s, A !! a = Some s -> a + 16 * s <= b \/ b + 16 * nunits nbytes <= a) /\
      (forall x, covered F' x \/ b <= x < b + 16 * nunits nbytes <-> covered F x \/ um_brk u <= x < um_brk u').
Proof.
  intros Hr Hnb Hmax. pose proof (nunits_spec _ Hnb) as [Hn Hroom].
  destruct (malloc_run _ _ _ _ _ Hr Hnb Hmax) as (r & u' & F' & Hrun & Hres). exists r, u', F'. split; [done|].
  destruct Hres as [(-> & HF & Hg & HI & Hbrk & Hfr)|(Hno & b & -> & [Hg1 Hg2 Hg3 Hg4 Hg5])].
  - split; [done|]. by rewrite decide_True.
  - split; [done|]. rewrite decide_False by exact Hno.
    replace (b + 16 - 16) with b by lia. cbn zeta.
    pose proof Hg2 as [_ _ _ _ _ Hl Hpairs]. destruct (Hl b _ ltac:(apply lookup_insert_eq)) as (_ & Hlo & Hend & _ & _).
    split_and!; try done; try lia. intros a s Ha.
    assert (b <> a) by congruence.
    pose proof (Hpairs b _ a s ltac:(apply lookup_insert_eq) ltac:(by rewrite lookup_insert_ne) ltac:(done)) as [H'|H']; cbn in H'; lia.
Qed.

(** C33. [free] of a block in use returns: the block joins the free blocks,
    merged with the neighbours it touches, so that no two free blocks are
    adjacent; the blocks still in use keep what they hold. *)
Theorem free_spec lo u F A bp n :
  heap_inv lo u F A -> A !! bp = Some n ->
  exists u' F', free (bp + 16) u = Ok tt u' /\ heap_inv lo u' F' (delete bp A) /\ um_brk u' = um_brk u /\
    (forall x, covered F' x <-> covered F x \/ bp <= x < bp + 16 * n) /\
    (forall i x y, F' !! i = Some x -> F' !! S i = Some y -> x.1 + 16 * x.2 < y.1) /\
    (forall a s x, delete bp A !! a = Some s -> a <= x < a + 16 * s -> rd8 (um_mem u') x = rd8 (um_mem u) x).
Proof.
  intros HI HA. destruct (free_run _ _ _ _ _ _ HI HA) as (u' & F' & Hrun & HI' & Hbrk & Hcov & Hfr & _ & _).
  exists u', F'. split_and!; try done; pose proof HI' as [Hb _ _ Hap _ Hl _].
  - intros i x y. by apply (apart_gap _ _ _ _ _ _ Hap).
  - intros a s x Ha Hx. destruct (Hl _ _ Ha) as (_ & ? & _ & _ & Hd). apply Hfr; [by apply Hd|lia].
Qed.
End umalloc.

(** ** A small heap: one block of 7 units given out *)

Definition granted (_ _ : Z) : bool := true.
Definition um_demo : umem := mkUmem ∅ 0 0x4000.
Definition um_demo1 : umem := match malloc 0x1000 granted 100 um_demo with Ok _ u => u | _ => um_demo end.

Lemma um_demo_ready : um_ready 0x1000 0x4000 um_demo [] ∅.
Proof. right. split_and!; done. Qed.

Lemma malloc_spec_witness : exists r u', malloc 0x1000 granted 100 um_demo = Ok r u' /\ r <> 0.
Proof.
  destruct (malloc_spec 0x1000 granted 0x4000 um_demo [] ∅ 100 um_demo_ready) as (r & u' & F' & Hrun & _ & Hres);
    [lia|vm_compute; done|].
  exists r, u'. split; [exact Hrun|]. rewrite decide_False in Hres by (by intros [_ ?]).
  cbn zeta in Hres. destruct Hres as (_ & _ & Hlo & _). lia.
Defined.

Lemma um_demo1_inv : exists F, heap_inv 0x1000 0x4000 um_demo1 F {[0x13f80 := 8]}.
Proof.
  destruct (malloc_run 0x1000 granted 0x4000 um_demo [] ∅ 100 um_demo_ready) as (r & u' & F' & Hrun & Hres);
    [lia|vm_compute; done|].
  assert (Hr : malloc 0x1000 granted 100 um_demo = Ok 0x13f90 um_demo1) by (vm_compute; reflexivity).
  rewrite Hr in Hrun. clear Hr. generalize um_demo1, Hrun. intros u1 Hrun1. clear Hrun. injection Hrun1 as <- <-.
  destruct Hres as [(E & _)|(_ & b & Hb & [_ HI _ _ _])]; [discriminate E|]. exists F'.
  replace 0x13f80 with b by (clear -Hb; lia). exact HI.
Qed.

Lemma free_spec_witness : exists u', free 0x13f90 um_demo1 = Ok tt u' /\ um_brk u' = 0x14000.
Proof.
  destruct um_demo1_inv as [F HI].
  destruct (free_spec 0x1000 0x4000 um_demo1 F {[0x13f80 := 8]} 0x13f80 8 HI) as (u' & F' & Hrun & _ & Hbrk & _);
    [apply lookup_insert_eq|].
  exists u'. split; [exact Hrun|]. rewrite Hbrk. vm_compute. reflexivity.
Defined.

(** The size handed to [sbrk] is an int: a request of 2^32 - 1 bytes asks the
    kernel for 16 bytes and returns the end of the process's memory. *)
Theorem malloc_huge :
  exists u, malloc 0x1000 granted 0xffffffff um_demo = Ok 0x4010 u /\ um_brk u = 0x4010.
Proof.
  exists (match malloc 0x1000 granted 0xffffffff um_demo with Ok _ u => u | _ => um_demo end).
  split; vm_compute; reflexivity.
Qed.
