(* ===== verification/Threads.v ===== *)
(** * user/threads.c: cooperative user threads

    The structs are a heap from addresses to [thread] records; an access to an
    address that is not allocated, or through NULL, ends in [Panic].  [malloc]
    and [free] are used through the interface [Malloc]: as long as there is
    room, an allocation gives an address that is not in use.

    What a thread's function does is the list of the calls it makes, with the
    values it shows in between; a context saved by setjmp is the rest of that
    list with the stack pointer, and longjmp resumes it.  So [dispatch],
    [thread_yield] and [thread_exit] return what runs next. *)

From S2P Require Export Prelude Monad.

(** What the library needs of the allocator: [heap_ok h X k] says that the
    addresses [X] are allocated in [h] and that the next [k] requests succeed,
    each for at most 2048 bytes. *)
Class Malloc := {
  heap : Type;
  heap_ok : heap -> gset nat -> nat -> Prop;
  malloc : Z -> heap -> nat * heap;
  free : nat -> heap -> heap;
  heap_ok_le h X k k' : (k' <= k)%nat -> heap_ok h X k -> heap_ok h X k';
  malloc_ok h X k n p h' :
    heap_ok h X (S k) -> 0 <= n <= 2048 -> malloc n h = (p, h') ->
    p <> O /\ p ∉ X /\ heap_ok h' ({[p]} ∪ X) k;
  free_ok h X k p : heap_ok h X k -> p ∈ X -> heap_ok (free p h) (X ∖ {[p]}) k;
}.

Inductive act :=
  | AEmit (x : Z)                            (* something observable *)
  | AYield                                   (* thread_yield() *)
  | AExit                                    (* thread_exit() *)
  | ASpawn (f : Z -> list act) (arg : Z).    (* thread_add_runqueue(thread_create(f, arg)) *)

Record jmp_buf := mkJmp { jb_sp : Z; jb_rest : list act }.

Record thread := mkThread {
  t_fp : Z -> list act; t_arg : Z; t_stack : nat; t_stack_p : Z; t_env : jmp_buf;
  t_ID : Z; t_buf_set : Z; t_previous : option nat; t_next : option nat;
}.

(** sizeof(struct thread) and the size of a stack *)
Definition sizeof_thread : Z := 4 * 8 + 14 * 8 + 2 * 4 + 2 * 8.
Definition stack_bytes : Z := 8 * 0x100.

Section world.
Context {MA : Malloc}.

Record world := mkWorld {
  w_alloc : heap; w_heap : gmap nat thread; w_stacks : gset nat;
  w_current : option nat; w_id : Z;
  w_trace : list (Z * Z);                    (* what the threads have shown, by ID *)
}.

Definition set_env e t := mkThread (t_fp t) (t_arg t) (t_stack t) (t_stack_p t) e (t_ID t) (t_buf_set t) (t_previous t) (t_next t).
Definition set_buf_set b t := mkThread (t_fp t) (t_arg t) (t_stack t) (t_stack_p t) (t_env t) (t_ID t) b (t_previous t) (t_next t).
Definition set_previous p t := mkThread (t_fp t) (t_arg t) (t_stack t) (t_stack_p t) (t_env t) (t_ID t) (t_buf_set t) (Some p) (t_next t).
Definition set_next n t := mkThread (t_fp t) (t_arg t) (t_stack t) (t_stack_p t) (t_env t) (t_ID t) (t_buf_set t) (t_previous t) (Some n).

Notation T := (M world).

Definition with_heap h w := mkWorld (w_alloc w) h (w_stacks w) (w_current w) (w_id w) (w_trace w).
Definition with_current c w := mkWorld (w_alloc w) (w_heap w) (w_stacks w) c (w_id w) (w_trace w).

Definition some_or_null {A} (o : option A) : T A :=
  match o with Some a => mret a | None => panic "null pointer" end.

Definition current_thread : T nat := c ← gets w_current; some_or_null c.
Definition deref (t : nat) : T thread :=
  o ← gets (fun w => w_heap w !! t);
  match o with Some th => mret th | None => panic "dangling pointer" end.
Definition field {A} (t : nat) (f : thread -> option A) : T A := th ← deref t; some_or_null (f th).
Definition upd (t : nat) (f : thread -> thread) : T unit :=
  th ← deref t;
  modify (fun w => with_heap (<[t := f th]> (w_heap w)) w).

Definition in_use (w : world) : gset nat := dom (w_heap w) ∪ w_stacks w.

Definition stack_top (stack : nat) : Z := Z.of_nat stack + 0x100 * 8 - 0x2 * 8.

(** [free] of a struct or of a stack: what was allocated there is gone. *)
Definition free_thread (t : nat) : T unit :=
  modify (fun w => mkWorld (free t (w_alloc w)) (delete t (w_heap w)) (w_stacks w) (w_current w) (w_id w) (w_trace w)).
Definition free_stack (s : nat) : T unit :=
  modify (fun w => mkWorld (free s (w_alloc w)) (w_heap w) (w_stacks w ∖ {[s]}) (w_current w) (w_id w) (w_trace w)).

Definition alloc (n : Z) : T nat := fun w =>
  let '(p, h) := malloc n (w_alloc w) in
  Ok p (mkWorld h (w_heap w) (w_stacks w) (w_current w) (w_id w) (w_trace w)).

(** The results of malloc are not checked: a store through a null [t] faults.
    The fields that the source does not set hold whatever malloc left there;
    none of them is read before it is set. *)
Definition thread_create (f : Z -> list act) (arg : Z) : T nat :=
  t ← alloc sizeof_thread;
  new_stack ← alloc stack_bytes;
  id ← gets w_id;
  if (t =? 0)%nat then panic "null pointer" else
  modify (fun w => mkWorld (w_alloc w)
    (<[t := mkThread f arg new_stack (stack_top new_stack) (mkJmp 0 []) id 0 None None]> (w_heap w))
    ({[new_stack]} ∪ w_stacks w) (w_current w) (s32 (w_id w + 1)) (w_trace w));;
  mret t.

Definition thread_add_runqueue (t : nat) : T unit :=
  c ← gets w_current;
  match c with
  | None =>
      modify (with_current (Some t));;
      upd t (set_previous t);;
      upd t (set_next t)
  | Some c =>
      p ← field c t_previous;
      upd p (set_next t);;
      p ← field c t_previous;
      upd t (set_previous p);;
      upd c (set_previous t);;
      upd t (set_next c)
  end.

Definition schedule : T unit :=
  c ← current_thread;
  n ← field c t_next;
  modify (with_current (Some n)).

(** longjmp to the context of the current thread: what it goes on with.  A
    thread that has not run starts with the call of its function. *)
Definition dispatch : T (list act) :=
  c ← current_thread;
  th ← deref c;
  when (t_buf_set th =? 0)
    (upd c (fun th => set_env (mkJmp (t_stack_p th) (t_fp th (t_arg th))) th);;
     upd c (set_buf_set 1));;
  th ← deref c;
  mret (jb_rest (t_env th)).

(** setjmp saves where the caller goes on, [rest]. *)
Definition thread_yield (rest : list act) : T (list act) :=
  c ← current_thread;
  upd c (fun th => set_env (mkJmp (jb_sp (t_env th)) rest) th);;
  schedule;;
  dispatch.

(** [None] for the longjmp back into [thread_start_threading]. *)
Definition thread_exit : T (option (list act)) :=
  c ← current_thread;
  n ← field c t_next;
  if decide (n <> c) then
    th ← deref c;
    free_stack (t_stack th);;
    p ← field c t_previous;
    upd n (set_previous p);;
    p ← field c t_previous;
    n ← field c t_next;
    upd p (set_next n);;
    next_thread ← field c t_next;
    free_thread c;;
    modify (with_current (Some next_thread));;
    r ← dispatch;
    mret (Some r)
  else
    th ← deref c;
    free_stack (t_stack th);;
    free_thread c;;
    modify (with_current None);;
    mret None.

Definition emit (x : Z) : T unit :=
  c ← current_thread;
  th ← deref c;
  modify (fun w => mkWorld (w_alloc w) (w_heap w) (w_stacks w) (w_current w) (w_id w) (w_trace w ++ [(t_ID th, x)])).

(** The processor runs the current thread until the last one has exited; a
    function that returns is back in [dispatch], which calls [thread_exit]. *)
Fixpoint run_threads (fuel : nat) (rest : list act) : T unit :=
  match fuel with
  | O => block
  | S fuel =>
      match rest with
      | AEmit x :: rest => emit x;; run_threads fuel rest
      | AYield :: rest => r ← thread_yield rest; run_threads fuel r
      | ASpawn f arg :: rest =>
          t ← thread_create f arg;
          thread_add_runqueue t;;
          run_threads fuel rest
      | AExit :: _ | [] =>
          r ← thread_exit;
          match r with Some rest => run_threads fuel rest | None => mret tt end
      end
  end.

Definition thread_start_threading (fuel : nat) : T unit :=
  schedule;;
  r ← dispatch;
  run_threads fuel r.

(** ** The run queue as a ring *)

Definition nx (h : gmap nat thread) (x : nat) : option nat := h !! x ≫= t_next.
Definition pv (h : gmap nat thread) (x : nat) : option nat := h !! x ≫= t_previous.

Section ring.
Implicit Types (n p : nat -> option nat) (q l : list nat).

(** [y] follows [x]. *)
Definition linked n p (x y : nat) : Prop := n x = Some y /\ p y = Some x.

Fixpoint chain n p l : Prop :=
  match l with
  | x :: l => match l with y :: _ => linked n p x y /\ chain n p l | [] => True end
  | [] => True
  end.

(** The queue, the current thread first, closed to a circle. *)
Definition ring n p q : Prop :=
  match q with
  | [] => True
  | c :: _ => NoDup q /\ chain n p (q ++ [c])
  end.

Lemma chain_app n p l x r : chain n p (l ++ x :: r) <-> chain n p (l ++ [x]) /\ chain n p (x :: r).
Proof. induction l as [|a l IH]; [cbn; tauto|]. destruct l as [|b l]; cbn in *; tauto. Qed.

Lemma chain_two n p l x y : chain n p (l ++ [x; y]) <-> chain n p (l ++ [x]) /\ linked n p x y.
Proof. rewrite (chain_app n p l x [y]). cbn. tauto. Qed.

(** The links out of the end and into the start of a chain do not matter. *)
Lemma chain_agree n p n' p' l z :
  (forall x, x ∈ l -> n' x = n x) -> (forall y, y ∈ tail (l ++ [z]) -> p' y = p y) ->
  chain n p (l ++ [z]) -> chain n' p' (l ++ [z]).
Proof.
  induction l as [|x l IH]; intros Hn Hp Hc; [done|].
  assert (IH' : chain n p (l ++ [z]) -> chain n' p' (l ++ [z])).
  { apply IH; intros; [apply Hn; set_solver|]. apply Hp. destruct l; set_solver. }
  assert (HL : forall y, y ∈ tail ((x :: l) ++ [z]) -> linked n p x y -> linked n' p' x y).
  { intros y Hy [H1 H2]. split; [rewrite Hn by set_solver|rewrite Hp by done]; done. }
  destruct l as [|y l]; destruct Hc as [L Hc]; (split; [apply HL; [set_solver|done]|auto]).
Qed.

Lemma ring_next n p c q : ring n p (c :: q) -> n c = Some (default c (head q)).
Proof. intros [_ Hc]. destruct q; cbn in *; by destruct Hc as [[? _] _]. Qed.

Lemma ring_prev n p c q : ring n p (c :: q) -> p c = Some (default c (last q)).
Proof.
  intros [_ Hc]. destruct q as [|z l _] using rev_ind; [cbn in *; by destruct Hc as [[_ ?] _]|].
  rewrite last_snoc. change (chain n p ((c :: l ++ [z]) ++ [c])) in Hc.
  replace ((c :: l ++ [z]) ++ [c]) with ((c :: l) ++ [z; c]) in Hc by (cbn; by rewrite <- app_assoc).
  apply chain_two in Hc as [_ [_ H]]. done.
Qed.

Lemma ring_rotate n p c q : ring n p (c :: q) -> ring n p (q ++ [c]).
Proof.
  intros [Hd Hc]. destruct q as [|d q]; [done|]. cbn [app ring]. split.
  - change (NoDup ((d :: q) ++ [c])). by rewrite <- Permutation_cons_append.
  - change (chain n p ((c :: d :: q) ++ [c])) in Hc. cbn [app] in Hc. destruct Hc as [L Hc].
    replace (d :: (q ++ [c]) ++ [d]) with ((d :: q) ++ [c; d]) by (cbn; by rewrite <- app_assoc).
    apply chain_two. done.
Qed.

(** Appending [t] at the end of the queue, that is, before the current one. *)
Lemma ring_add n p n' p' c q t :
  ring n p (c :: q) -> t ∉ c :: q ->
  let z := default c (last q) in
  n' z = Some t -> p' t = Some z -> p' c = Some t -> n' t = Some c ->
  (forall x, x <> z -> x <> t -> n' x = n x) -> (forall x, x <> c -> x <> t -> p' x = p x) ->
  ring n' p' (c :: q ++ [t]).
Proof.
  intros [Hd Hc] Ht z Hz Hpt Hpc Hnt Hn Hp. split.
  { change (NoDup ((c :: q) ++ [t])). apply NoDup_app. split; [done|]. split; [|apply NoDup_singleton].
    intros x Hx ->%list_elem_of_singleton. done. }
  assert (Hl : exists l, c :: q = l ++ [z] /\ (z ∉ l) /\ (c ∉ tail (l ++ [z]))).
  { destruct q as [|y l _] using rev_ind; subst z; cbn [last default].
    - exists []. cbn. set_solver.
    - rewrite last_snoc. exists (c :: l). cbn. split; [done|].
      apply NoDup_cons in Hd as [Hcn Hd]. apply NoDup_app in Hd as (_ & Hd & _). set_solver. }
  destruct Hl as (l & El & Hzl & Hcl). rewrite El in *.
  change (c :: q ++ [t]) with ((c :: q) ++ [t]). rewrite El.
  replace (((l ++ [z]) ++ [t]) ++ [c]) with ((l ++ [z]) ++ [t; c]) by (by rewrite <- !app_assoc).
  apply chain_two. split; [|done]. rewrite <- app_assoc. apply chain_two. split; [|done].
  rewrite <- app_assoc in Hc. apply chain_two in Hc as [Hc _]. revert Hc. apply chain_agree.
  - intros x Hx. apply Hn; set_solver.
  - intros y Hy. apply Hp; [set_solver|]. intros ->. apply Ht. destruct l; set_solver.
Qed.

(** Taking the current thread out. *)
Lemma ring_remove n p n' p' c d q :
  ring n p (c :: d :: q) ->
  let z := default d (last q) in
  n' z = Some d -> p' d = Some z ->
  (forall x, x <> z -> x <> c -> n' x = n x) -> (forall x, x <> d -> x <> c -> p' x = p x) ->
  ring n' p' (d :: q).
Proof.
  intros [Hd Hc] z Hz Hpd Hn Hp. apply NoDup_cons in Hd as [Hcn Hd]. split; [done|].
  assert (Hl : exists l, d :: q = l ++ [z] /\ (z ∉ l) /\ (d ∉ tail (l ++ [z]))).
  { destruct q as [|y l _] using rev_ind; subst z; cbn [last default].
    - exists []. cbn. set_solver.
    - rewrite last_snoc. exists (d :: l). cbn. split; [done|].
      apply NoDup_cons in Hd as [Hdn Hd]. apply NoDup_app in Hd as (_ & Hd & _). set_solver. }
  destruct Hl as (l & El & Hzl & Hdl). rewrite El in *.
  rewrite <- app_assoc. apply chain_two. split; [|done].
  change ((c :: l ++ [z]) ++ [c]) with (c :: (l ++ [z]) ++ [c]) in Hc. rewrite <- app_assoc in Hc.
  assert (Hc' : chain n p (l ++ [z])).
  { change (chain n p ((c :: l) ++ [z; c])) in Hc. apply chain_two in Hc as [Hc _]. by destruct l; destruct Hc. }
  revert Hc'. apply chain_agree.
  - intros x Hx. apply Hn; set_solver.
  - intros y Hy. apply Hp; [set_solver|]. intros ->. apply Hcn. destruct l; set_solver.
Qed.
End ring.

(** ** The queue the heap represents *)

Record entry := mkEntry { e_t : nat; e_id : Z; e_stack : nat; e_rest : list act }.

(** What a thread goes on with when it is dispatched. *)
Definition resume (th : thread) : list act :=
  if t_buf_set th =? 0 then t_fp th (t_arg th) else jb_rest (t_env th).

Definition stored (h : gmap nat thread) (e : entry) : Prop :=
  exists th, h !! e_t e = Some th /\ t_ID th = e_id e /\ t_stack th = e_stack e /\ resume th = e_rest e.

(** The current thread: what it goes on with is in the processor. *)
Definition on_cpu (h : gmap nat thread) (e : entry) : Prop :=
  exists th, h !! e_t e = Some th /\ t_ID th = e_id e /\ t_stack th = e_stack e /\ t_buf_set th <> 0.

Record rep (m : nat) (w : world) (E : list entry) : Prop := {
  rep_ring : ring (nx (w_heap w)) (pv (w_heap w)) (e_t <$> E);
  rep_dom : dom (w_heap w) = list_to_set (e_t <$> E);
  rep_stacks : w_stacks w = list_to_set (e_stack <$> E);
  rep_nodup : NoDup (e_stack <$> E);
  rep_current : w_current w = e_t <$> head E;
  rep_disj : dom (w_heap w) ## w_stacks w;
  rep_room : heap_ok (w_alloc w) (in_use w) m;
}.

(** All threads are in the queue; or the first one is running. *)
Definition queued (m : nat) (w : world) (E : list entry) : Prop := rep m w E /\ Forall (stored (w_heap w)) E.
Definition running (m : nat) (w : world) (e : entry) (E : list entry) : Prop :=
  rep m w (e :: E) /\ on_cpu (w_heap w) e /\ Forall (stored (w_heap w)) E.

(** Everything has been given back. *)
Record all_gone (w : world) : Prop := {
  gone_heap : w_heap w = ∅;
  gone_stacks : w_stacks w = ∅;
  gone_current : w_current w = None;
  gone_alloc : exists m, heap_ok (w_alloc w) ∅ m;
}.

Lemma wp_deref t Q w th : w_heap w !! t = Some th -> Q th w -> wp (deref t) Q w.
Proof. intros Ht HQ. unfold deref. apply wp_bind, wp_gets. rewrite Ht. by apply wp_ret. Qed.

Lemma wp_field {A} t (f : thread -> option A) Q w a : (w_heap w !! t ≫= f) = Some a -> Q a w -> wp (field t f) Q w.
Proof.
  intros (th & Ht & Hf)%bind_Some HQ. unfold field. apply wp_bind. eapply wp_deref; [done|]. rewrite Hf. by apply wp_ret.
Qed.

Lemma wp_current Q w c : w_current w = Some c -> Q c w -> wp current_thread Q w.
Proof. intros Hc HQ. unfold current_thread. apply wp_bind, wp_gets. rewrite Hc. by apply wp_ret. Qed.

Lemma wp_upd t f Q w th :
  w_heap w !! t = Some th -> Q tt (with_heap (<[t := f th]> (w_heap w)) w) -> wp (upd t f) Q w.
Proof. intros Ht HQ. unfold upd. apply wp_bind. eapply wp_deref; [done|]. by apply wp_modify. Qed.

Lemma with_heap_twice h h' w : with_heap h (with_heap h' w) = with_heap h w.
Proof. done. Qed.

(** Updates that leave the links alone. *)
Lemma nx_insert h t th x : nx (<[t := th]> h) x = if decide (x = t) then t_next th else nx h x.
Proof. unfold nx. case_decide; subst; by rewrite ?lookup_insert_eq, ?lookup_insert_ne. Qed.
Lemma pv_insert h t th x : pv (<[t := th]> h) x = if decide (x = t) then t_previous th else pv h x.
Proof. unfold pv. case_decide; subst; by rewrite ?lookup_insert_eq, ?lookup_insert_ne. Qed.

Lemma ring_ext n p n' p' q :
  (forall x, n' x = n x) -> (forall x, p' x = p x) -> ring n p q -> ring n' p' q.
Proof.
  destruct q as [|c q]; [done|]. intros Hn Hp [Hd Hc]. split; [done|].
  revert Hc. apply chain_agree; auto.
Qed.

Lemma rep_update m w E t th th' :
  w_heap w !! t = Some th -> t_next th' = t_next th -> t_previous th' = t_previous th ->
  rep m w E -> rep m (with_heap (<[t := th']> (w_heap w)) w) E.
Proof.
  intros Ht Hn Hp [R D S N C J O]. split; cbn; try done.
  - revert R. apply ring_ext; intros x; rewrite ?nx_insert, ?pv_insert; case_decide; subst; [|done| |done].
    + unfold nx. by rewrite Ht.
    + unfold pv. by rewrite Ht.
  - rewrite dom_insert_lookup_L; [done|]. by rewrite Ht.
  - rewrite dom_insert_lookup_L; [done|]. by rewrite Ht.
  - unfold in_use in *. cbn. rewrite dom_insert_lookup_L; [done|]. by rewrite Ht.
Qed.

Lemma stored_frame h h' e : h' !! e_t e = h !! e_t e -> stored h e -> stored h' e.
Proof. unfold stored. by intros ->. Qed.

Lemma Forall_stored_frame h h' E :
  (forall e, e ∈ E -> h' !! e_t e = h !! e_t e) -> Forall (stored h) E -> Forall (stored h') E.
Proof. rewrite !Forall_forall. intros He HE e Hin. apply (stored_frame h); [by apply He|by apply HE]. Qed.

Lemma rep_distinct m w e E e' : rep m w (e :: E) -> e' ∈ E -> e_t e' <> e_t e.
Proof.
  intros [[Hd _] _ _ _ _ _ _] He Heq. apply NoDup_cons in Hd as [Hn _]. apply Hn. rewrite <- Heq.
  by apply list_elem_of_fmap_2.
Qed.

Lemma stored_rest_insert m w e E th' :
  rep m w (e :: E) -> Forall (stored (w_heap w)) E -> Forall (stored (<[e_t e := th']> (w_heap w))) E.
Proof.
  intros HR. apply Forall_stored_frame. intros e' He'. apply lookup_insert_ne.
  pose proof (rep_distinct _ _ _ _ _ HR He'). congruence.
Qed.

(** *** The scheduler *)

Lemma schedule_wp m w e E :
  queued m w (e :: E) -> wp schedule (fun _ w' => queued m w' (E ++ [e]) /\ w_trace w' = w_trace w /\ w_id w' = w_id w) w.
Proof.
  intros [[R D S N C J O] F]. unfold schedule. apply wp_bind. eapply wp_current; [exact C|].
  apply wp_bind. eapply wp_field; [exact (ring_next _ _ _ _ R)|]. apply wp_modify. split; [|done]. split; [split; cbn|cbn].
  - rewrite fmap_app. by apply ring_rotate.
  - rewrite D. by rewrite fmap_app, list_to_set_app_L, union_comm_L, <- list_to_set_app_L.
  - rewrite S. by rewrite fmap_app, list_to_set_app_L, union_comm_L, <- list_to_set_app_L.
  - rewrite fmap_app. change (e_stack <$> [e]) with [e_stack e]. by rewrite <- Permutation_cons_append.
  - by destruct E.
  - done.
  - done.
  - apply Forall_cons in F as [Fe F]. apply Forall_app. split; [done|]. by apply Forall_singleton.
Qed.

Lemma dispatch_wp m w e E :
  queued m w (e :: E) ->
  wp dispatch (fun k w' => k = e_rest e /\ running m w' e E /\ w_trace w' = w_trace w /\ w_id w' = w_id w) w.
Proof.
  intros [HR F]. apply Forall_cons in F as [(th & Ht & Hi & Hs & Hr) F].
  unfold dispatch. apply wp_bind. eapply wp_current; [exact (rep_current _ _ _ HR)|].
  apply wp_bind. eapply wp_deref; [done|]. unfold resume in Hr.
  destruct (t_buf_set th =? 0) eqn:B; bprop; cbn [when].
  - apply wp_bind, wp_bind. eapply wp_upd; [done|]. eapply wp_upd; [cbn; by rewrite lookup_insert_eq|].
    cbn. rewrite insert_insert_eq.
    apply wp_bind. eapply wp_deref; [cbn; by rewrite lookup_insert_eq|]. apply wp_ret. cbn.
    rewrite with_heap_twice. split; [done|]. split; [|done]. split; [by eapply rep_update|]. split.
    + eexists. cbn. rewrite lookup_insert_eq. by repeat split.
    + cbn. by eapply stored_rest_insert.
  - apply wp_bind, wp_ret, wp_bind. eapply wp_deref; [done|]. apply wp_ret.
    split; [done|]. split; [|done]. split; [done|]. split; [|done]. eexists. eauto.
Qed.

Definition set_rest (k : list act) (e : entry) : entry := mkEntry (e_t e) (e_id e) (e_stack e) k.

Lemma rep_set_rest m w e E k : rep m w (e :: E) -> rep m w (set_rest k e :: E).
Proof. intros [R D S N C J O]. by split. Qed.

(** The first entry of a queue, split off. *)
Lemma next_entry (E : list entry) e : exists e' E', E ++ [e] = e' :: E'.
Proof. destruct E; cbn; eauto. Qed.

Lemma yield_wp m w e E rest e' E' :
  running m w e E -> E ++ [set_rest rest e] = e' :: E' ->
  wp (thread_yield rest)
     (fun k w' => k = e_rest e' /\ running m w' e' E' /\ w_trace w' = w_trace w /\ w_id w' = w_id w) w.
Proof.
  intros (HR & (th & Ht & Hi & Hs & Hb) & F) HE. unfold thread_yield.
  apply wp_bind. eapply wp_current; [exact (rep_current _ _ _ HR)|].
  apply wp_bind. eapply wp_upd; [done|]. set (w1 := with_heap _ _).
  assert (Q1 : queued m w1 (set_rest rest e :: E)).
  { split; [apply rep_set_rest; by eapply rep_update|].
    apply Forall_cons. split; [|by eapply stored_rest_insert].
    eexists. cbn. rewrite lookup_insert_eq. repeat split; try done. unfold resume. cbn.
    destruct (t_buf_set th =? 0) eqn:B; bprop; done. }
  apply wp_bind. eapply wp_mono; [by apply schedule_wp|]. intros _ w2 (Q2 & T2 & I2).
  rewrite HE in Q2. eapply wp_mono; [by apply dispatch_wp|]. intros k w3 (-> & R3 & T3 & I3).
  by rewrite T3, T2, I3, I2.
Qed.

(** Freeing a thread and its stack. *)
Lemma room_free m w e E :
  rep m w (e :: E) ->
  heap_ok (free (e_t e) (free (e_stack e) (w_alloc w))) (dom (w_heap w) ∖ {[e_t e]} ∪ w_stacks w ∖ {[e_stack e]}) m.
Proof.
  intros [_ D S _ _ J O]. cbn in D, S.
  assert (Ht : e_t e ∈ dom (w_heap w)) by (rewrite D; set_solver).
  assert (Hs : e_stack e ∈ w_stacks w) by (rewrite S; set_solver).
  replace (dom (w_heap w) ∖ {[e_t e]} ∪ w_stacks w ∖ {[e_stack e]})
    with (in_use w ∖ {[e_stack e]} ∖ {[e_t e]} : gset nat).
  - apply free_ok; [apply free_ok; [done|]|]; unfold in_use; set_solver.
  - unfold in_use. clear O. apply set_eq. intros x. set_solver.
Qed.

(** Nothing is left allocated when no thread is left. *)
Lemma exit_last_wp m w e :
  running m w e [] ->
  wp thread_exit (fun r w' => r = None /\ all_gone w' /\ w_trace w' = w_trace w) w.
Proof.
  intros (HR & (th & Ht & Hi & Hs & Hb) & _). unfold thread_exit.
  apply wp_bind. eapply wp_current; [exact (rep_current _ _ _ HR)|].
  apply wp_bind. eapply wp_field; [exact (ring_next _ _ _ _ (rep_ring _ _ _ HR))|].
  cbn [head fmap list_fmap default]. rewrite decide_False by (by intros H; apply H).
  apply wp_bind. eapply wp_deref; [done|]. apply wp_bind, wp_modify, wp_bind, wp_modify, wp_bind, wp_modify, wp_ret.
  split; [done|]. cbn. split; [|done]. pose proof (room_free _ _ _ _ HR) as O. destruct HR as [_ D S _ _ J _]. cbn in D, S.
  assert (HS : w_stacks w ∖ {[t_stack th]} = ∅) by (rewrite S, Hs; set_solver).
  split; cbn.
  - apply (dom_empty_iff_L (D := gset nat)). rewrite dom_delete_L, D. set_solver.
  - done.
  - done.
  - exists m. rewrite Hs. rewrite Hs in HS. rewrite HS, D in O. revert O. cbn.
    by replace (({[e_t e]} ∪ ∅) ∖ {[e_t e]} ∪ ∅ : gset nat) with (∅ : gset nat) by set_solver.
Qed.

Lemma nx_delete h t x : nx (delete t h) x = if decide (x = t) then None else nx h x.
Proof. unfold nx. case_decide; subst; by rewrite ?lookup_delete_eq, ?lookup_delete_ne. Qed.
Lemma pv_delete h t x : pv (delete t h) x = if decide (x = t) then None else pv h x.
Proof. unfold pv. case_decide; subst; by rewrite ?lookup_delete_eq, ?lookup_delete_ne. Qed.

(** The changes of the links do not show in what is stored. *)
Lemma stored_insert h t th th' e :
  h !! t = Some th -> t_ID th' = t_ID th -> t_stack th' = t_stack th -> resume th' = resume th ->
  stored h e -> stored (<[t := th']> h) e.
Proof.
  intros Ht H1 H2 H3 (x & Hx & Hi & Hs & Hr). destruct (decide (e_t e = t)) as [<-|Hne].
  - simplify_eq. exists th'. rewrite lookup_insert_eq, H1, H2, H3. done.
  - exists x. by rewrite lookup_insert_ne.
Qed.

Lemma rep_lookup m w E t : rep m w E -> t ∈ e_t <$> E -> is_Some (w_heap w !! t).
Proof. intros [_ D _ _ _ _ _] Ht. apply elem_of_dom. rewrite D. by apply elem_of_list_to_set. Qed.

Lemma last_elem_of {A} (x : A) l : default x (last l) ∈ x :: l.
Proof. destruct (last l) eqn:E; cbn; [apply last_Some_elem_of in E; set_solver|set_solver]. Qed.

(** The heap after [thread_exit] took [c], between [z] and [n], out. *)
Definition unlinked (h : gmap nat thread) (c n z : nat) (thn thz : thread) : gmap nat thread :=
  delete c (<[z := set_next n thz]> (<[n := set_previous z thn]> h)).

Lemma queued_unlinked m w e d E thn thz w' :
  rep m w (e :: d :: E) -> Forall (stored (w_heap w)) (d :: E) ->
  let n := e_t d in let z := default n (last (e_t <$> E)) in
  w_heap w !! n = Some thn -> <[n := set_previous z thn]> (w_heap w) !! z = Some thz ->
  w_heap w' = unlinked (w_heap w) (e_t e) n z thn thz ->
  w_stacks w' = w_stacks w ∖ {[e_stack e]} -> w_current w' = Some n ->
  w_alloc w' = free (e_t e) (free (e_stack e) (w_alloc w)) ->
  queued m w' (d :: E).
Proof.
  intros HR F n z Hn Hz Hh Hst Hc Hal. pose proof HR as [[Hd _] D S N _ J O].
  pose proof (rep_ring _ _ _ HR) as R. apply NoDup_cons in Hd as [Hcn Hd].
  assert (Hzin : z ∈ e_t <$> d :: E) by apply last_elem_of.
  assert (Hcz : e_t e <> z) by (intros E'; apply Hcn; by rewrite E'). assert (Hcn' : e_t e <> n) by (subst n; set_solver).
  assert (Hpz : n = z -> t_previous thz = Some z).
  { intros E'. rewrite <- E', lookup_insert_eq in Hz. injection Hz as <-. by rewrite E'. }
  assert (Hnz : n <> z -> w_heap w !! z = Some thz) by (intros; by rewrite lookup_insert_ne in Hz).
  split; [split|]; rewrite ?Hh; unfold unlinked.
  - apply (ring_remove _ _ _ _ _ _ _ R); fold n; fold z.
    + rewrite nx_delete, !nx_insert. by repeat case_decide.
    + rewrite pv_delete, !pv_insert. repeat case_decide; cbn; auto; congruence.
    + intros x Hx1 Hx2. rewrite nx_delete, !nx_insert. repeat case_decide; try done.
      subst x. cbn. unfold nx. by rewrite Hn.
    + intros x Hx1 Hx2. rewrite pv_delete, !pv_insert. repeat case_decide; try done.
      subst x. cbn. unfold pv. by rewrite Hnz by congruence.
  - rewrite dom_delete_L, !dom_insert_lookup_L, D by (rewrite ?Hz, ?Hn; eauto). set_solver.
  - rewrite Hst, S. apply NoDup_cons in N as [N _]. set_solver.
  - by apply NoDup_cons in N as [_ N].
  - by rewrite Hc.
  - rewrite Hst, dom_delete_L, !dom_insert_lookup_L by (rewrite ?Hz, ?Hn; eauto). set_solver.
  - unfold in_use. rewrite Hh, Hst, Hal. unfold unlinked.
    rewrite dom_delete_L, !dom_insert_lookup_L by (rewrite ?Hz, ?Hn; eauto). by eapply room_free.
  - apply (Forall_stored_frame (<[z := set_next n thz]> (<[n := set_previous z thn]> (w_heap w)))).
    + intros e' He'. apply lookup_delete_ne. pose proof (rep_distinct _ _ _ _ _ HR He'). congruence.
    + eapply Forall_impl; [exact F|]. intros e' He'.
      apply (stored_insert _ z thz); [exact Hz|done..|]. by apply (stored_insert _ n thn).
Qed.

Lemma exit_wp m w e d E :
  running m w e (d :: E) ->
  wp thread_exit (fun r w' => r = Some (e_rest d) /\ running m w' d E /\ w_trace w' = w_trace w /\ w_id w' = w_id w) w.
Proof.
  intros (HR & (th & Ht & Hi & Hs & Hb) & F).
  pose proof (ring_next _ _ (e_t e) (e_t d :: fmap (M := list) e_t E) (rep_ring _ _ _ HR)) as Hn.
  pose proof (ring_prev _ _ (e_t e) (e_t d :: fmap (M := list) e_t E) (rep_ring _ _ _ HR)) as Hp.
  cbn [head default] in Hn.
  rewrite last_cons in Hp. set (n := e_t d) in *.
  replace (default (e_t e) _) with (default n (last (e_t <$> E))) in Hp by (by destruct (last (e_t <$> E))).
  set (z := default n (last (e_t <$> E))) in *.
  assert (Hcn : e_t e <> n) by (apply not_eq_sym, (rep_distinct _ w e (d :: E) d HR); set_solver).
  assert (Hzin : z ∈ e_t <$> d :: E) by apply last_elem_of.
  assert (Hcz : e_t e <> z).
  { intros E'. pose proof HR as [[Hd _] _ _ _ _ _ _]. apply NoDup_cons in Hd as [Hd _]. apply Hd. by rewrite E'. }
  destruct (rep_lookup _ w _ n HR) as [thn Hthn]; [set_solver|].
  assert (exists thz, <[n := set_previous z thn]> (w_heap w) !! z = Some thz) as [thz Hthz].
  { destruct (decide (n = z)) as [<-|]; [rewrite lookup_insert_eq; eauto|]. rewrite lookup_insert_ne by done.
    destruct (rep_lookup _ w _ z HR) as [x ->]; [set_solver|eauto]. }
  unfold thread_exit. apply wp_bind. eapply wp_current; [exact (rep_current _ _ _ HR)|].
  apply wp_bind. eapply wp_field; [exact Hn|]. rewrite decide_True by done.
  apply wp_bind. eapply wp_deref; [done|]. apply wp_bind, wp_modify.
  apply wp_bind. eapply wp_field; [exact Hp|].
  apply wp_bind. eapply wp_upd; [exact Hthn|].
  apply wp_bind. eapply wp_field; [cbn; rewrite lookup_insert_ne by done; exact Hp|].
  apply wp_bind. eapply wp_field; [cbn; rewrite lookup_insert_ne by done; exact Hn|].
  apply wp_bind. eapply wp_upd; [exact Hthz|].
  apply wp_bind. eapply wp_field; [cbn; rewrite !lookup_insert_ne by done; exact Hn|].
  apply wp_bind, wp_modify, wp_bind, wp_modify, wp_bind.
  eapply wp_mono; [eapply dispatch_wp, (queued_unlinked m w e d E thn thz); try done; cbn; by rewrite ?Hs|].
  intros k w' (-> & R' & T' & I'). apply wp_ret. done.
Qed.

(** *** New threads *)

(** The threads that were there keep what they hold. *)
Definition keeps_core (h h' : gmap nat thread) : Prop :=
  forall t th, h !! t = Some th -> exists th', h' !! t = Some th' /\ t_ID th' = t_ID th /\ t_stack th' = t_stack th /\
    resume th' = resume th /\ t_buf_set th' = t_buf_set th.

Lemma keeps_stored h h' e : keeps_core h h' -> stored h e -> stored h' e.
Proof. intros HK (th & Ht & Hi & Hs & Hr). destruct (HK _ _ Ht) as (th' & ? & ? & ? & ? & ?). exists th'. naive_solver congruence. Qed.

Lemma keeps_on_cpu h h' e : keeps_core h h' -> on_cpu h e -> on_cpu h' e.
Proof. intros HK (th & Ht & Hi & Hs & Hr). destruct (HK _ _ Ht) as (th' & ? & ? & ? & ? & ?). exists th'. naive_solver congruence. Qed.

Lemma keeps_refl h : keeps_core h h.
Proof. intros t th Ht. eauto 10. Qed.

Lemma keeps_insert h h' t th th' :
  keeps_core h h' -> h' !! t = Some th -> t_ID th' = t_ID th -> t_stack th' = t_stack th ->
  resume th' = resume th -> t_buf_set th' = t_buf_set th -> keeps_core h (<[t := th']> h').
Proof.
  intros HK Ht H1 H2 H3 H4 x thx Hx. destruct (HK _ _ Hx) as (y & Hy & ? & ? & ? & ?).
  destruct (decide (x = t)) as [->|].
  - exists th'. rewrite lookup_insert_eq. naive_solver congruence.
  - exists y. by rewrite lookup_insert_ne.
Qed.

Lemma keeps_new h t th : h !! t = None -> keeps_core h (<[t := th]> h).
Proof.
  intros Ht x thx Hx. exists thx. rewrite lookup_insert_ne by congruence. eauto.
Qed.


(** The thread [thread_create] makes. *)
Definition new_thread f arg stack id := mkThread f arg stack (stack_top stack) (mkJmp 0 []) id 0 None None.

Lemma create_wp m w f arg (Q : nat -> world -> Prop) :
  heap_ok (w_alloc w) (in_use w) (S (S m)) ->
  (forall t stack h, t ∉ in_use w -> stack ∉ in_use w -> t <> stack ->
    heap_ok h ({[stack]} ∪ ({[t]} ∪ in_use w)) m ->
    Q t (mkWorld h (<[t := new_thread f arg stack (w_id w)]> (w_heap w)) ({[stack]} ∪ w_stacks w)
                 (w_current w) (s32 (w_id w + 1)) (w_trace w))) ->
  wp (thread_create f arg) Q w.
Proof.
  intros Hok HQ. unfold thread_create. apply wp_bind. unfold alloc at 1, wp at 1.
  destruct (malloc sizeof_thread (w_alloc w)) as [t h1] eqn:E1.
  destruct (malloc_ok _ _ _ sizeof_thread _ _ Hok ltac:(done) E1) as (Ht0 & Ht & Hok1).
  apply wp_bind. unfold alloc at 1, wp at 1. cbn [w_alloc].
  destruct (malloc stack_bytes h1) as [st h2] eqn:E2.
  destruct (malloc_ok _ _ _ stack_bytes _ _ Hok1 ltac:(done) E2) as (_ & Hs & Hok2).
  apply wp_bind, wp_gets. destruct (t =? 0)%nat eqn:E0; [by apply Nat.eqb_eq in E0|].
  apply wp_bind, wp_modify, wp_ret. apply HQ; [done|set_solver|set_solver|done].
Qed.

(** What the queue looks like behind the new thread. *)
Definition spawned (m : nat) (w w' : world) (E : list entry) (f : Z -> list act) (arg : Z) : Prop :=
  exists t stack, rep m w' (E ++ [mkEntry t (w_id w) stack (f arg)]) /\
    stored (w_heap w') (mkEntry t (w_id w) stack (f arg)) /\ keeps_core (w_heap w) (w_heap w') /\
    w_trace w' = w_trace w /\ w_id w' = s32 (w_id w + 1).

(** The room left when [t] and [stack] have been allocated. *)
Lemma new_room m w t stack al w' :
  heap_ok al ({[stack]} ∪ ({[t]} ∪ in_use w)) m ->
  dom (w_heap w') = {[t]} ∪ dom (w_heap w) -> w_stacks w' = {[stack]} ∪ w_stacks w ->
  heap_ok al (in_use w') m.
Proof.
  intros Hal HD HS. unfold in_use in *. rewrite HD, HS.
  replace ({[t]} ∪ dom (w_heap w) ∪ ({[stack]} ∪ w_stacks w)) with ({[stack]} ∪ ({[t]} ∪ (dom (w_heap w) ∪ w_stacks w)) : gset nat); [done|].
  clear Hal. apply set_eq. intros x. set_solver.
Qed.

Lemma spawn_first_wp m w f arg :
  rep (S (S m)) w [] -> wp (t ← thread_create f arg; thread_add_runqueue t) (fun _ w' => spawned m w w' [] f arg) w.
Proof.
  intros [_ D S _ C J O]. apply wp_bind, (create_wp m); [exact O|]. intros t stack al Ht Hs Hts Hal. unfold thread_add_runqueue.
  apply wp_bind, wp_gets. cbn [w_current]. rewrite C. cbn.
  apply wp_bind, wp_modify. cbn. apply wp_bind. eapply wp_upd; [cbn; by rewrite lookup_insert_eq|]. cbn.
  eapply wp_upd; [cbn; by rewrite lookup_insert_eq|]. cbn. rewrite !with_heap_twice, !insert_insert_eq.
  assert (Hh : w_heap w = ∅) by (apply (dom_empty_iff_L (D := gset nat)); by rewrite D).
  exists t, stack. split; [|split; [|split; [|done]]]; cbn.
  - split; cbn; try done.
    + split; [apply NoDup_singleton|]. split; [|done]. split.
      * rewrite nx_insert. by case_decide.
      * rewrite pv_insert. by case_decide.
    + rewrite Hh. set_solver.
    + rewrite S. done.
    + apply NoDup_singleton.
    + rewrite Hh, S, dom_insert_L, dom_empty_L. cbn. set_solver.
    + eapply (new_room m w t stack al); [done| |done]. cbn. by rewrite dom_insert_L.
  - eexists. rewrite lookup_insert_eq. done.
  - rewrite Hh. intros x th. by rewrite lookup_empty.
Qed.

Lemma spawn_wp m w e E f arg :
  rep (S (S m)) w (e :: E) -> wp (t ← thread_create f arg; thread_add_runqueue t) (fun _ w' => spawned m w w' (e :: E) f arg) w.
Proof.
  intros HR. pose proof HR as [R D S N C J O]. apply wp_bind, (create_wp m); [exact O|]. intros t stack al Ht Hs Hts Hal.
  set (c := e_t e) in *. set (z := default c (last (fmap (M := list) e_t E))).
  assert (Htn : t ∉ e_t <$> e :: E) by (unfold in_use in Ht; rewrite D in Ht; set_solver).
  assert (Hzin : z ∈ e_t <$> e :: E) by apply last_elem_of.
  assert (Htz : t <> z) by congruence. assert (Htc : t <> c) by (subst c; set_solver).
  pose proof (ring_prev _ _ c (fmap (M := list) e_t E) R) as Hp. fold z in Hp. unfold pv in Hp.
  destruct (rep_lookup _ w _ z HR Hzin) as [thz Hthz].
  destruct (rep_lookup _ w _ c HR) as [thc Hthc]; [subst c; set_solver|].
  unfold thread_add_runqueue. apply wp_bind, wp_gets. cbn [w_current]. rewrite C. cbn [fmap option_fmap option_map head].
  fold c. apply wp_bind. eapply wp_field; [cbn; rewrite lookup_insert_ne by done; exact Hp|].
  apply wp_bind. eapply wp_upd; [cbn; rewrite lookup_insert_ne by done; exact Hthz|].
  cbn [w_heap with_heap]. set (new := new_thread f arg stack (w_id w)).
  set (h1 := <[z := set_next t thz]> (<[t := new]> (w_heap w))).
  assert (Hp1 : (h1 !! c ≫= t_previous) = Some z).
  { change (pv h1 c = Some z). unfold h1. rewrite !pv_insert. repeat case_decide; try done.
    cbn. match goal with He : c = z |- _ => rewrite He in Hp end. rewrite Hthz in Hp. exact Hp. }
  assert (Ht1 : h1 !! t = Some new) by (unfold h1; by rewrite lookup_insert_ne, lookup_insert_eq).
  assert (Hpz : t_previous thz = pv (w_heap w) z) by (unfold pv; by rewrite Hthz).
  assert (exists thc1, h1 !! c = Some thc1 /\ t_next thc1 = (if decide (c = z) then Some t else nx (w_heap w) c)) as (thc1 & Hc1 & Hn1).
  { unfold h1. destruct (decide (c = z)) as [He|]; [rewrite He, lookup_insert_eq; eauto|].
    rewrite !lookup_insert_ne by done. exists thc. split; [done|]. unfold nx. by rewrite Hthc. }
  assert (K1 : keeps_core (w_heap w) h1).
  { eapply keeps_insert; [apply keeps_new|rewrite lookup_insert_ne by done; exact Hthz|done..].
    apply not_elem_of_dom. unfold in_use in Ht. set_solver. }
  apply wp_bind. eapply wp_field; [exact Hp1|].
  apply wp_bind. eapply wp_upd; [exact Ht1|]. apply wp_bind.
  eapply wp_upd; [cbn; rewrite lookup_insert_ne by done; exact Hc1|].
  eapply wp_upd; [cbn; rewrite lookup_insert_ne by done; apply lookup_insert_eq|].
  cbn [w_heap with_heap]. rewrite !with_heap_twice.
  set (h2 := <[t := _]> (<[c := _]> _)).
  assert (Hh2 : h2 = <[t := set_next c (set_previous z new)]> (<[c := set_previous t thc1]> h1)).
  { unfold h2. rewrite (insert_insert_ne _ c t) by done. by rewrite insert_insert_eq. }
  clearbody h2. subst h2.
  assert (Hdom : dom (<[t := set_next c (set_previous z new)]> (<[c := set_previous t thc1]> h1)) = {[t]} ∪ dom (w_heap w)).
  { apply elem_of_dom_2 in Hthz. apply elem_of_dom_2 in Hthc. unfold h1. rewrite !dom_insert_L.
    apply set_eq. intros x. clear -Hthz Hthc. set_solver. }
  exists t, stack. split; [|split; [|split; [|done]]]; cbn [w_heap with_heap].
  - split; cbn [w_heap w_stacks w_current with_heap].
    + rewrite fmap_app. change (e_t <$> e :: E) with (c :: (e_t <$> E)). cbn [app].
      eapply ring_add; [exact R|exact Htn|..]; fold z; try intros x Hx1 Hx2;
        unfold h1; rewrite ?nx_insert, ?pv_insert; repeat case_decide; try done; cbn;
        congruence.
    + unfold h1. rewrite !dom_insert_L, D, fmap_app, list_to_set_app_L. cbn. set_solver.
    + rewrite S, fmap_app, list_to_set_app_L. cbn. set_solver.
    + rewrite fmap_app. apply NoDup_app. split; [done|]. split; [|apply NoDup_singleton].
      intros x Hx ->%list_elem_of_singleton. apply Hs. unfold in_use. rewrite S. set_solver.
    + done.
    + rewrite Hdom. unfold in_use in Ht, Hs. clear -J Ht Hs Hts. set_solver.
    + by apply (new_room m w t stack al).
  - eexists. rewrite lookup_insert_eq. done.
  - intros x thx Hx. assert (Hxt : x <> t).
    { intros ->. unfold in_use in Ht. apply elem_of_dom_2 in Hx. set_solver. }
    destruct (keeps_insert _ _ c thc1 (set_previous t thc1) K1 Hc1 eq_refl eq_refl eq_refl eq_refl x thx Hx) as (y & Hy & HY).
    exists y. by rewrite lookup_insert_ne.
Qed.

(** ** Round robin *)

(** The size of what a thread will do, its children included. *)
Fixpoint act_size (a : act) : nat :=
  match a with
  | ASpawn f arg => S (S ((fix go l := match l with [] => O | a :: l => act_size a + go l end) (f arg)))
  | _ => 1
  end%nat.
Definition acts_size (l : list act) : nat := S (sum_list_with act_size l).
Definition queue_size (q : list (Z * list act)) : nat := sum_list_with (fun e => acts_size e.2) q.

(** The abstract scheduler: a queue of threads by ID with what they have left
    to do; the first one runs. *)
Fixpoint round_robin (fuel : nat) (id : Z) (q : list (Z * list act)) (trace : list (Z * Z)) : option (list (Z * Z)) :=
  match fuel with
  | O => None
  | S fuel =>
      match q with
      | [] => Some trace
      | (t, AEmit x :: rest) :: q => round_robin fuel id ((t, rest) :: q) (trace ++ [(t, x)])
      | (t, AYield :: rest) :: q => round_robin fuel id (q ++ [(t, rest)]) trace
      | (t, ASpawn f arg :: rest) :: q => round_robin fuel (s32 (id + 1)) ((t, rest) :: q ++ [(id, f arg)]) trace
      | (_, AExit :: _) :: q | (_, []) :: q => round_robin fuel id q trace
      end
  end.

Lemma spawn_size f arg : act_size (ASpawn f arg) = S (acts_size (f arg)).
Proof. done. Qed.

Lemma queue_size_app q q' : queue_size (q ++ q') = (queue_size q + queue_size q')%nat.
Proof. unfold queue_size. induction q as [|e q IH]; cbn; lia. Qed.

Lemma queue_size_cons t k q : queue_size ((t, k) :: q) = (acts_size k + queue_size q)%nat.
Proof. done. Qed.

Lemma acts_size_cons a k : acts_size (a :: k) = (act_size a + acts_size k)%nat.
Proof. unfold acts_size. cbn. lia. Qed.

(** It ends: every step leaves less to do. *)
Lemma round_robin_ends fuel id q trace :
  (queue_size q < fuel)%nat -> is_Some (round_robin fuel id q trace).
Proof.
  revert id q trace. induction fuel as [|fuel IH]; intros id q trace Hf; [lia|]. cbn [round_robin].
  destruct q as [|[t [|a rest]] q]; [by eexists|..]; rewrite ?queue_size_cons, ?acts_size_cons in Hf.
  - apply IH. unfold acts_size in Hf. lia.
  - destruct a as [x| | |f arg]; apply IH; rewrite ?spawn_size in Hf; cbn [act_size] in Hf;
      rewrite ?queue_size_cons, ?queue_size_app, ?queue_size_cons; change (queue_size []) with O; lia.
Qed.

Definition view (e : entry) : Z * list act := (e_id e, e_rest e).

(** The statements of a spawn, regrouped. *)
Lemma wp_assoc {A B C} (m : T A) (f : A -> T B) (k : T C) Q w :
  wp ((m ≫= f) ≫= fun _ => k) Q w -> wp (m ≫= fun a => f a ≫= fun _ => k) Q w.
Proof. unfold wp. by rewrite bind_assoc. Qed.


Lemma run_threads_wp m fuel id e E rest trace w res :
  running m w e E -> (2 * queue_size ((e_id e, rest) :: (view <$> E)) <= m)%nat -> w_id w = id -> w_trace w = trace ->
  round_robin fuel id ((e_id e, rest) :: (view <$> E)) trace = Some res ->
  wp (run_threads fuel rest) (fun _ w' => w_trace w' = res /\ all_gone w') w.
Proof.
  revert m id e E rest trace w. induction fuel as [|fuel IH]; intros m id e E rest trace w HR Hm Hid Htr; [done|].
  rewrite queue_size_cons in Hm.
  cbn [round_robin run_threads].
  assert (Hexit : round_robin fuel id (view <$> E) trace = Some res ->
    wp (r ← thread_exit; match r with Some rest => run_threads fuel rest | None => mret tt end)
      (fun _ w' => w_trace w' = res /\ all_gone w') w).
  { intros RR. apply wp_bind. destruct E as [|d E].
    - eapply wp_mono; [by eapply exit_last_wp|]. intros r w' (-> & H1 & H4). apply wp_ret.
      destruct fuel; cbn in RR; [done|]. split; [congruence|done].
    - eapply wp_mono; [by eapply exit_wp|]. intros r w' (-> & R' & T' & I'). eapply IH; [exact R'| |by rewrite I'|by rewrite T'|exact RR].
      rewrite fmap_cons in Hm. change (view d) with (e_id d, e_rest d) in Hm. lia. }
  destruct rest as [|a rest]; [exact Hexit|]. rewrite acts_size_cons in Hm.
  destruct a as [x| | |f arg]; [..|].
  - intros RR. apply wp_bind. destruct HR as (HR & HC & F). pose proof HC as (th & Ht & Hi & Hs & Hb).
    unfold emit. apply wp_bind. eapply wp_current; [exact (rep_current _ _ _ HR)|].
    apply wp_bind. eapply wp_deref; [done|]. apply wp_modify.
    eapply (IH m id e E rest (trace ++ [(e_id e, x)])); [|rewrite queue_size_cons; lia|done|cbn; congruence|done].
    split; [|done]. destruct HR. by split.
  - intros RR. destruct (next_entry E (set_rest rest e)) as (e' & E' & HE). apply wp_bind.
    eapply wp_mono; [by eapply yield_wp|]. intros k w' (-> & R' & T' & I').
    eapply IH; [exact R'| |by rewrite I'|by rewrite T'|].
    { change ((e_id e', e_rest e') :: (view <$> E')) with (view <$> e' :: E'). rewrite <- HE, fmap_app, queue_size_app.
      cbn [fmap list_fmap]. change (view (set_rest rest e)) with (e_id e, rest). rewrite queue_size_cons.
      change (queue_size []) with O. lia. }
    replace ((view <$> E) ++ [(e_id e, rest)]) with (view <$> (E ++ [set_rest rest e])) in RR by (by rewrite fmap_app).
    rewrite HE in RR. exact RR.
  - exact Hexit.
  - intros RR. destruct HR as (HR & HC & F).
    apply (wp_assoc (thread_create f arg) thread_add_runqueue), wp_bind.
    rewrite spawn_size in Hm. destruct m as [|[|m]]; [lia..|].
    eapply wp_mono; [by apply spawn_wp|]. intros _ w' (t & stack & R' & St & K & T' & I').
    eapply (IH m (s32 (id + 1)) e (E ++ [mkEntry t (w_id w) stack (f arg)])); [| |congruence|by rewrite T'|].
    + split; [done|]. split; [by eapply keeps_on_cpu|]. apply Forall_app. split; [|by apply Forall_singleton].
      eapply Forall_impl; [exact F|]. intros. by eapply keeps_stored.
    + rewrite queue_size_cons, fmap_app, queue_size_app. cbn [fmap list_fmap].
      change (view (mkEntry t (w_id w) stack (f arg))) with (w_id w, f arg). rewrite queue_size_cons.
      change (queue_size []) with O. lia.
    + rewrite fmap_app. cbn. rewrite Hid. exact RR.
Qed.

(** Queueing the threads of a program, in order. *)
Fixpoint add_all (fs : list ((Z -> list act) * Z)) : T unit :=
  match fs with
  | [] => skip
  | (f, arg) :: fs => t ← thread_create f arg; thread_add_runqueue t;; add_all fs
  end.

(** What the program has queued: IDs count from the first one. *)
Fixpoint program (id : Z) (fs : list ((Z -> list act) * Z)) : list (Z * list act) :=
  match fs with
  | [] => []
  | (f, arg) :: fs => (id, f arg) :: program (s32 (id + 1)) fs
  end.

Definition id_after (id : Z) (fs : list ((Z -> list act) * Z)) : Z := Nat.iter (length fs) (fun i => s32 (i + 1)) id.

Lemma add_all_wp m fs w E :
  queued (2 * length fs + m) w E ->
  wp (add_all fs) (fun _ w' => exists E', queued m w' E' /\ view <$> E' = (view <$> E) ++ program (w_id w) fs /\
                               w_trace w' = w_trace w /\ w_id w' = id_after (w_id w) fs) w.
Proof.
  revert w E. induction fs as [|[f arg] fs IH]; intros w E [HR F]; cbn [add_all program].
  - apply wp_ret. exists E. rewrite app_nil_r. done.
  - apply (wp_assoc (thread_create f arg) thread_add_runqueue), wp_bind.
    replace (2 * length ((f, arg) :: fs) + m)%nat with (S (S (2 * length fs + m))) in HR by (cbn [length]; lia).
    assert (HS : wp (t ← thread_create f arg; thread_add_runqueue t) (fun _ w' => spawned (2 * length fs + m) w w' E f arg) w).
    { destruct E; [by apply spawn_first_wp|by apply spawn_wp]. }
    eapply wp_mono; [exact HS|]. intros _ w' (t & stack & R' & St & K & T' & I').
    eapply wp_mono; [apply (IH w' (E ++ [mkEntry t (w_id w) stack (f arg)]))|].
    + split; [done|]. apply Forall_app. split; [|by apply Forall_singleton].
      eapply Forall_impl; [exact F|]. intros. by eapply keeps_stored.
    + intros _ w2 (E' & Q' & V' & T2 & I2). exists E'. split; [done|]. split; [|split; [congruence|]].
      * rewrite V', fmap_app, I'. cbn. by rewrite <- app_assoc.
      * rewrite I2, I'. unfold id_after. cbn [length]. symmetry. apply (Nat.iter_succ_r (length fs) (fun i => s32 (i + 1))).
Qed.

Lemma start_wp m fuel w e E res :
  queued m w (e :: E) -> (2 * queue_size (view <$> (E ++ [e])) <= m)%nat -> round_robin fuel (w_id w) (view <$> (E ++ [e])) (w_trace w) = Some res ->
  wp (thread_start_threading fuel)
     (fun _ w' => w_trace w' = res /\ all_gone w') w.
Proof.
  intros HQ Hm RR. unfold thread_start_threading. apply wp_bind. eapply wp_mono; [by apply schedule_wp|].
  intros _ w1 (Q1 & T1 & I1). destruct (next_entry E e) as (e' & E' & HE). rewrite HE in *.
  apply wp_bind. eapply wp_mono; [by apply dispatch_wp|]. intros k w2 (-> & R2 & T2 & I2).
  eapply run_threads_wp; [exact R2|exact Hm|reflexivity|reflexivity|]. rewrite T2, I2, T1, I1. exact RR.
Qed.

(** Everything a list of actions shows up to its exit, its children included. *)
Fixpoint shows (a : act) : list Z :=
  match a with
  | AEmit x => [x]
  | ASpawn f arg => (fix go l := match l with [] => [] | AExit :: _ => [] | a :: l => shows a ++ go l end) (f arg)
  | _ => []
  end.
Fixpoint shows_all (l : list act) : list Z :=
  match l with
  | [] => []
  | AExit :: _ => []
  | a :: l => shows a ++ shows_all l
  end.

Lemma shows_spawn f arg : shows (ASpawn f arg) = shows_all (f arg).
Proof. cbn. induction (f arg) as [|[]]; cbn; congruence. Qed.

(** The round robin lets every thread do all of its work. *)
Lemma round_robin_complete fuel id q trace res :
  round_robin fuel id q trace = Some res -> res.*2 ≡ₚ trace.*2 ++ concat ((fun e => shows_all e.2) <$> q).
Proof.
  revert id q trace. induction fuel as [|fuel IH]; intros id q trace; [done|]. cbn [round_robin].
  destruct q as [|[t [|[x| | |f arg] rest]] q]; [intros [= <-]; by rewrite app_nil_r|..]; intros ->%IH.
  - done.
  - rewrite fmap_app. cbn. by rewrite <- app_assoc.
  - rewrite fmap_app, concat_app. cbn. rewrite app_nil_r. by rewrite (Permutation_app_comm (concat _)).
  - done.
  - rewrite fmap_cons, fmap_app. cbn [concat fst snd]. rewrite concat_app. cbn [fmap list_fmap concat fst snd shows_all].
    rewrite shows_spawn, app_nil_r. f_equiv. rewrite (app_assoc (shows_all rest)), (Permutation_app_comm _ (shows_all (f arg))).
    by rewrite !app_assoc.
Qed.

Definition no_threads (h : heap) : world := mkWorld h ∅ ∅ None 1 [].

Lemma program_size id fs : (length fs <= queue_size (program id fs))%nat.
Proof.
  revert id. induction fs as [|[f arg] fs IH]; intros id; cbn [program length]; [lia|].
  rewrite queue_size_cons. specialize (IH (s32 (id + 1))). unfold acts_size. lia.
Qed.

Definition rotate1 {A} (l : list A) : list A := match l with [] => [] | x :: l => l ++ [x] end.

(** C34. The thread library is a round robin: a program that creates and queues
    some threads and starts them gets control back, after everything every
    thread (and every thread created meanwhile) shows has been shown in the
    order in which a plain queue would schedule them, from the second thread
    on; no pointer is used that is not allocated, and every thread and stack
    has been freed, given that the allocator has room for the program. *)
Theorem threads_round_robin fs fuel h :
  fs <> [] -> (queue_size (program 1 fs) < fuel)%nat -> heap_ok h ∅ (4 * queue_size (program 1 fs)) ->
  exists res, round_robin fuel (id_after 1 fs) (rotate1 (program 1 fs)) [] = Some res /\
    res.*2 ≡ₚ concat ((fun f => shows_all (f.1 f.2)) <$> fs) /\
    wp (add_all fs;; thread_start_threading fuel)
       (fun _ w' => w_trace w' = res /\ all_gone w') (no_threads h).
Proof.
  intros Hne Hf Hh. pose proof (program_size 1 fs) as Hps.
  assert (Hq : queue_size (rotate1 (program 1 fs)) = queue_size (program 1 fs)).
  { destruct (program 1 fs) as [|x q]; [done|]. cbn [rotate1]. rewrite queue_size_app. unfold queue_size. cbn. lia. }
  destruct (round_robin_ends fuel (id_after 1 fs) (rotate1 (program 1 fs)) []) as [res RR]; [lia|].
  exists res. split; [done|]. split.
  - rewrite (round_robin_complete _ _ _ _ _ RR). cbn.
    assert (Hp : rotate1 (program 1 fs) ≡ₚ program 1 fs).
    { destruct (program 1 fs); [done|]. cbn. by rewrite <- Permutation_cons_append. }
    assert (HE : forall i, (fun e : Z * list act => shows_all e.2) <$> program i fs = (fun f => shows_all (f.1 f.2)) <$> fs).
    { clear. induction fs as [|[f arg] fs IH]; intros i; cbn; [done|]. by rewrite IH. }
    by rewrite <- (HE 1), Hp.
  - apply wp_bind. eapply wp_mono; [apply (add_all_wp (2 * queue_size (program 1 fs)) fs (no_threads h) [])|].
    + split; [|done]. split; try done; [apply NoDup_nil; done|]. eapply heap_ok_le; [|exact Hh]. lia.
    + intros _ w' (E' & Q' & V' & T' & I'). destruct E' as [|e E']; [by destruct fs as [|[]]|].
      assert (HV : view <$> E' ++ [e] = rotate1 (program 1 fs)).
      { cbn in V'. rewrite <- V'. by rewrite fmap_app. }
      eapply start_wp; [exact Q'|by rewrite HV, Hq|]. by rewrite T', I', HV.
Qed.

End world.
