(* ===== verification/ThreadsHeap.v ===== *)
(** * The allocator the thread library runs on

    user/umalloc.c keeps the promise user/threads.c relies on: the interface
    [Malloc] of the file Threads is implemented by the [malloc] and [free] of
    the file Umalloc, as long as the kernel grants memory below 2^31. *)

From S2P Require Import Umalloc Threads.

Section kr.
Context (base lo : Z) (grants : Z -> Z -> bool).
Context (Hbase : 0 < base /\ base + 16 <= lo).
Context (Hgrants : forall b n, 0 <= b -> 0 <= n -> b + n < 0x80000000 -> grants b n = true).

(** Every request of the library fits into one [morecore] of 65536 bytes. *)
Definition kr_ok (u : umem) (X : gset nat) (k : nat) : Prop :=
  exists F A, um_ready base lo u F A /\ X = set_map (fun a => Z.to_nat (a + 16)) (dom A) /\
    um_brk u + 65536 * Z.of_nat k < 0x80000000.

Definition kr_malloc (n : Z) (u : umem) : nat * umem :=
  match Umalloc.malloc base grants n u with
  | Ok r u' => (Z.to_nat r, u')
  | _ => (O, u)
  end.

Definition kr_free (p : nat) (u : umem) : umem :=
  match Umalloc.free (Z.of_nat p) u with
  | Ok _ u' => u'
  | _ => u
  end.

Lemma ready_brk u F A : um_ready base lo u F A -> lo <= um_brk u < 0x80000000.
Proof. intros [[_ H _ _ _ _ _]|(_ & _ & _ & _ & H)]; exact H. Qed.

Lemma kr_malloc_ok u X k n p u' :
  kr_ok u X (S k) -> 0 <= n <= 2048 -> kr_malloc n u = (p, u') ->
  p <> O /\ p ∉ X /\ kr_ok u' ({[p]} ∪ X) k.
Proof.
  intros (F & A & Hr & -> & Hk) Hn. unfold kr_malloc.
  pose proof (nunits_spec n ltac:(lia)) as [Hu Hu']. pose proof (ready_brk _ _ _ Hr) as Hb.
  assert (Hc : core_units (nunits n) = 4096) by (unfold core_units; lia).
  destruct (malloc_run base grants lo u F A n Hr) as (r & u1 & F' & -> & Hres); [lia|rewrite Hc; lia|].
  intros [= <- <-]. rewrite Hc in Hres. destruct Hres as [(_ & _ & Hg & _)|(_ & b & -> & [HA HI Hbrk Hcov _])].
  { rewrite Hgrants in Hg by lia. done. }
  pose proof HI as [_ _ _ _ _ Hl _].
  destruct (Hl b _ ltac:(apply lookup_insert_eq)) as (_ & Hlo & Hend & _ & _).
  split; [lia|]. split.
  - intros (a & Ha & Hin)%elem_of_map. apply elem_of_dom in Hin as [s Hs].
    assert (b <> a) by congruence.
    destruct (Hl a s ltac:(by rewrite lookup_insert_ne)) as (_ & ? & _). lia.
  - exists F', (<[b := nunits n]> A). split_and!.
    + by left.
    + rewrite dom_insert_L, set_map_union_L, set_map_singleton_L. done.
    + lia.
Qed.

Lemma kr_free_ok u X k p : kr_ok u X k -> p ∈ X -> kr_ok (kr_free p u) (X ∖ {[p]}) k.
Proof.
  intros (F & A & Hr & -> & Hk) (b & -> & Hb)%elem_of_map. apply elem_of_dom in Hb as [n Hn].
  destruct Hr as [HI|(_ & _ & -> & _)]; [|by rewrite lookup_empty in Hn].
  pose proof HI as [_ _ _ _ _ Hl _]. destruct (Hl _ _ Hn) as (_ & Hlo & _).
  destruct (free_run base lo u F A b n HI Hn) as (u' & F' & Hrun & HI' & Hbrk & _).
  unfold kr_free. rewrite Z2Nat.id by lia. rewrite Hrun. exists F', (delete b A). split_and!.
  - by left.
  - rewrite dom_delete_L. apply set_eq. intros x. rewrite elem_of_difference, elem_of_singleton, !elem_of_map. split.
    + intros [(a & -> & Ha) Hne]. exists a. split; [done|]. apply elem_of_difference. split; [done|].
      rewrite elem_of_singleton. by intros ->.
    + intros (a & -> & [Ha Hne]%elem_of_difference). rewrite elem_of_singleton in Hne. split; [eauto|].
      apply elem_of_dom in Ha as [s Hs]. destruct (Hl _ _ Hs) as (_ & ? & _). lia.
  - by rewrite Hbrk.
Qed.

#[local] Program Instance kr_heap : Malloc :=
  {| heap := umem; heap_ok := kr_ok; Threads.malloc := kr_malloc; Threads.free := kr_free |}.
Next Obligation. intros h X k k' Hle (F & A & ? & ? & ?). exists F, A. split_and!; [done..|lia]. Qed.
Next Obligation. intros h X k n p h' Hok Hn Hm. by apply (kr_malloc_ok h X k n). Qed.
Next Obligation. intros h X k p. apply kr_free_ok. Qed.
End kr.

(** Two threads that show a number, yield, and show another one; the second
    creates a third. *)
Definition demo_threads : list ((Z -> list act) * Z) :=
  [(fun a => [AEmit a; AYield; AEmit (a + 1)], 10);
   (fun a => [AEmit a; ASpawn (fun b => [AEmit b]) 30; AYield; AEmit (a + 1); AExit; AEmit 99], 20)].

(** A program whose memory ends at 0x4000. *)
#[local] Instance demo_heap : Malloc := kr_heap 0x1000 0x4000 granted ltac:(lia) ltac:(done).

Lemma demo_heap_ok k : (k <= 1000)%nat -> heap_ok (Malloc := demo_heap) um_demo ∅ k.
Proof. intros Hk. exists [], ∅. split_and!; [exact um_demo_ready|done|cbn; lia]. Qed.

Lemma threads_round_robin_witness :
  exists res, res = [(2, 20); (1, 10); (3, 30); (2, 21); (1, 11)] /\
    wp (add_all demo_threads;; thread_start_threading 30) (fun _ w' => w_trace w' = res) (no_threads (MA := demo_heap) um_demo).
Proof.
  destruct (threads_round_robin (MA := demo_heap) demo_threads 30 um_demo) as (res & RR & _ & W); [done|by apply Nat.ltb_lt|..].
  { apply demo_heap_ok. apply Nat.leb_le. reflexivity. }
  exists res. split.
  - vm_compute in RR. injection RR as <-. reflexivity.
  - eapply wp_mono; [exact W|]. by intros ? ? (? & _).
Defined.
