(* ===== verification/Sh.v ===== *)
(** * user/sh.c: the command parser of the shell

    The buffer is the list of its characters up to the NUL; a pointer into it
    is an index, [es] is its length, and the character there reads as NUL.
    The parser's state is [*ps].  A word is the pair of pointers [q], [eq]
    that gettoken found; [nulterminate] then writes the NULs into the buffer.

    The recursive functions have fuel, four units for every character left,
    and the loops have as much as there are characters: see
    [parsecmd_returns]. *)

From S2P Require Export Prelude Monad.

(** [REDIR] keeps the mode and the file descriptor of the struct. *)
Inductive cmd (W : Type) : Type :=
  | EXEC (argv : list W)
  | REDIR (c : cmd W) (file : W) (mode fd : Z)
  | PIPE (left right : cmd W)
  | LIST (left right : cmd W)
  | BACK (c : cmd W).
Arguments EXEC {W} _.
Arguments REDIR {W} _ _ _ _.
Arguments PIPE {W} _ _.
Arguments LIST {W} _ _.
Arguments BACK {W} _.

Definition MAXARGS : nat := 10.
Definition O_RDONLY : Z := 0.
Definition O_WRONLY : Z := 1.
Definition O_CREATE : Z := 0x200.
Definition O_TRUNC : Z := 0x400.

(** The characters the parser knows. *)
Definition c_tab : Z := 9.
Definition c_nl : Z := 10.
Definition c_vt : Z := 11.
Definition c_cr : Z := 13.
Definition c_space : Z := 32.
Definition c_amp : Z := 38.
Definition c_lpar : Z := 40.
Definition c_rpar : Z := 41.
Definition c_plus : Z := 43.
Definition c_semi : Z := 59.
Definition c_lt : Z := 60.
Definition c_gt : Z := 62.
Definition c_a : Z := 97.
Definition c_bar : Z := 124.

Definition whitespace : list Z := [c_space; c_tab; c_cr; c_nl; c_vt].
Definition symbols : list Z := [c_lt; c_bar; c_gt; c_amp; c_semi; c_lpar; c_rpar].

(** [strchr(l, c)] as a truth value; a NUL is never found. *)
Definition strchr (l : list Z) (c : Z) : bool := existsb (Z.eqb c) l.

Section parser.
Context (buf : list Z).

Definition es : nat := length buf.
Definition ch (s : nat) : Z := default 0 (buf !! s).

Notation P := (M nat).

(** [while(s < es && f(s))] [s++] *)
Fixpoint skip_while (f : Z -> bool) (fuel s : nat) : nat :=
  match fuel with
  | O => s
  | S fuel => if (s <? es)%nat && f (ch s) then skip_while f fuel (S s) else s
  end.
Definition skip_ws (s : nat) : nat := skip_while (strchr whitespace) (es - s) s.
Definition skip_word (s : nat) : nat :=
  skip_while (fun c => negb (strchr whitespace c) && negb (strchr symbols c)) (es - s) s.

Definition gettoken : P (Z * nat * nat) := fun s =>
  let s := skip_ws s in
  let q := s in
  let c := ch s in
  let '(ret, s) :=
    if c =? 0 then (c, s)
    else if strchr [c_bar; c_lpar; c_rpar; c_semi; c_amp; c_lt] c then (c, S s)
    else if c =? c_gt then
      if ch (S s) =? c_gt then (c_plus, S (S s)) else (c, S s)
    else (c_a, skip_word s) in
  let eq := s in
  Ok (ret, q, eq) (skip_ws s).

Definition peek (toks : list Z) : P bool := fun s =>
  let s := skip_ws s in
  Ok (truth (ch s) && strchr toks (ch s)) s.

Definition redir : Type := (nat * nat) * Z * Z.

(** The struct a redirection is put around may still be filled in by the
    caller: the redirections are returned in order, innermost first. *)
Definition parseredirs_body (rs : list redir) : P (list redir + list redir) :=
  b ← peek [c_lt; c_gt];
  if (b : bool) then
    t ← gettoken;
    f ← gettoken;
    let '(tok, _, _) := t in
    let '(tok', q, eq) := f in
    if negb (tok' =? c_a) then panic "missing file for redirection"
    else if tok =? c_lt then mret (inl (rs ++ [((q, eq), O_RDONLY, 0)]))
    else if tok =? c_gt then mret (inl (rs ++ [((q, eq), Z.lor (Z.lor O_WRONLY O_CREATE) O_TRUNC, 1)]))
    else if tok =? c_plus then mret (inl (rs ++ [((q, eq), Z.lor O_WRONLY O_CREATE, 1)]))
    else mret (inl rs)
  else mret (inr rs).
Definition parseredirs (rs : list redir) : P (list redir) := loop_with (S es) rs parseredirs_body.

Definition redircmds {W} (c : cmd W) (rs : list (W * Z * Z)) : cmd W :=
  foldl (fun c '(f, mode, fd) => REDIR c f mode fd) c rs.

(** The loop of [parseexec]: the words so far and the redirections so far. *)
Definition parseexec_body '((argv, rs) : list (nat * nat) * list redir) :
    P ((list (nat * nat) * list redir) + (list (nat * nat) * list redir)) :=
  b ← peek [c_bar; c_rpar; c_amp; c_semi];
  if (b : bool) then mret (inr (argv, rs))
  else
    t ← gettoken;
    let '(tok, q, eq) := t in
    if tok =? 0 then mret (inr (argv, rs))
    else if negb (tok =? c_a) then panic "syntax"
    else
      let argv := argv ++ [(q, eq)] in
      if (MAXARGS <=? length argv)%nat then panic "too many args"
      else
        rs ← parseredirs rs;
        mret (inl (argv, rs)).

Definition back_body (c : cmd (nat * nat)) : P (cmd (nat * nat) + cmd (nat * nat)) :=
  b ← peek [c_amp];
  if (b : bool) then gettoken;; mret (inl (BACK c)) else mret (inr c).

Fixpoint parseline (fuel : nat) : P (cmd (nat * nat)) :=
  match fuel with
  | O => block
  | S fuel =>
      c ← parsepipe fuel;
      c ← loop_with (S es) c back_body;
      b ← peek [c_semi];
      if (b : bool) then
        gettoken;;
        r ← parseline fuel;
        mret (LIST c r)
      else mret c
  end
with parsepipe (fuel : nat) : P (cmd (nat * nat)) :=
  match fuel with
  | O => block
  | S fuel =>
      c ← parseexec fuel;
      b ← peek [c_bar];
      if (b : bool) then
        gettoken;;
        r ← parsepipe fuel;
        mret (PIPE c r)
      else mret c
  end
with parseexec (fuel : nat) : P (cmd (nat * nat)) :=
  match fuel with
  | O => block
  | S fuel =>
      b ← peek [c_lpar];
      if (b : bool) then parseblock fuel
      else
        rs ← parseredirs [];
        r ← loop_with (S es) ([], rs) parseexec_body;
        let '(argv, rs) := r in
        mret (redircmds (EXEC argv) rs)
  end
with parseblock (fuel : nat) : P (cmd (nat * nat)) :=
  match fuel with
  | O => block
  | S fuel =>
      b ← peek [c_lpar];
      if negb b then panic "parseblock"
      else
        gettoken;;
        c ← parseline fuel;
        b ← peek [c_rpar];
        if negb b then panic "syntax - missing )"
        else
          gettoken;;
          rs ← parseredirs [];
          mret (redircmds c rs)
  end.

Definition line_fuel : nat := 4 * es + 4.
End parser.

(** [*eq = 0] for every word of the command, in the order of the source. *)
Fixpoint nulterminate (c : cmd (nat * nat)) (a : list Z) : list Z :=
  match c with
  | EXEC argv => foldl (fun a '(_, eq) => <[eq := 0]> a) a argv
  | REDIR c (_, eq) _ _ => <[eq := 0]> (nulterminate c a)
  | PIPE l r | LIST l r => nulterminate r (nulterminate l a)
  | BACK c => nulterminate c a
  end.

(** The command and what the buffer, NUL included, has become; [*ps] starts
    at the beginning of the buffer. *)
Definition parsecmd (buf : list Z) : M nat (cmd (nat * nat) * list Z) :=
  c ← parseline buf (line_fuel buf);
  peek buf [];;
  s ← gets id;
  if negb (s =? es buf)%nat then panic "syntax"
  else mret (c, nulterminate c (buf ++ [0])).

(** ** Every input is parsed or rejected *)

(** The code returns with [Q] or panics; it does not run for ever. *)
Definition ends {S A} (m : M S A) (Q : A -> S -> Prop) (s : S) : Prop :=
  match m s with Ok a s' => Q a s' | Panic _ => True | Blocked => False end.

Lemma ends_bind {S A B} (m : M S A) (f : A -> M S B) Q s :
  ends m (fun a => ends (f a) Q) s -> ends (m ≫= f) Q s.
Proof. unfold ends, mbind, M_bind. by destruct (m s). Qed.

Lemma ends_mono {S A} (m : M S A) (P Q : A -> S -> Prop) s :
  ends m P s -> (forall a s', P a s' -> Q a s') -> ends m Q s.
Proof. unfold ends. destruct (m s); auto. Qed.

Lemma ends_ret {S A} (a : A) (Q : A -> S -> Prop) s : Q a s -> ends (mret a) Q s.
Proof. done. Qed.

(** A loop whose every round takes the position further. *)
Lemma ends_loop {I R} (n : nat) (J : I -> nat -> Prop) (Q : R -> nat -> Prop) (body : I -> M nat (I + R)) fuel i s :
  (n - s < fuel)%nat -> J i s ->
  (forall i s, J i s -> ends (body i) (fun r s' =>
     match r with inl i' => (s < s' <= n)%nat /\ J i' s' | inr r => Q r s' end) s) ->
  ends (loop_with fuel i body) Q s.
Proof.
  intros Hf HJ Hb. revert i s Hf HJ. induction fuel as [|fuel IH]; intros i s Hf HJ; [lia|].
  cbn [loop_with]. apply ends_bind. eapply ends_mono; [by apply Hb|].
  intros [i'|r] s'; [|done]. intros [Hs HJ']. apply IH; [lia|done].
Qed.

Fixpoint words {W} (c : cmd W) : list W :=
  match c with
  | EXEC argv => argv
  | REDIR c f _ _ => f :: words c
  | PIPE l r | LIST l r => words l ++ words r
  | BACK c => words c
  end.

Definition word_char (c : Z) : bool := truth c && negb (strchr whitespace c) && negb (strchr symbols c).

(** The C string at [q]. *)
Fixpoint cstring (l : list Z) : list Z :=
  match l with
  | [] => []
  | c :: l => if c =? 0 then [] else c :: cstring l
  end.
Definition str_at (a : list Z) (q : nat) : list Z := cstring (drop q a).
Definition slice (l : list Z) (w : nat * nat) : list Z := take (w.2 - w.1) (drop w.1 l).

Lemma cstring_take l n :
  (forall i c, (i < n)%nat -> l !! i = Some c -> c <> 0) -> l !! n = Some 0 -> cstring l = take n l.
Proof.
  revert n. induction l as [|c l IH]; intros n Hi Hn; [done|]. destruct n as [|n]; cbn in *.
  - by injection Hn as ->.
  - destruct (c =? 0) eqn:E; bprop; [by destruct (Hi O c ltac:(lia) eq_refl)|]. f_equal. apply IH; [|done].
    intros i d Hlt Hd. apply (Hi (S i) d); [lia|done].
Qed.

Definition set_nuls (ws : list (nat * nat)) (a : list Z) : list Z := foldl (fun a '(_, eq) => <[eq := 0]> a) a ws.

Lemma set_nuls_lookup ws a i :
  set_nuls ws a !! i = if decide (i ∈ ws.*2) then (fun _ => 0) <$> a !! i else a !! i.
Proof.
  revert a. induction ws as [|[q eq] ws IH]; intros a; [by rewrite decide_False by apply not_elem_of_nil|].
  change (set_nuls ((q, eq) :: ws) a) with (set_nuls ws (<[eq := 0]> a)). rewrite IH. cbn [fmap list_fmap snd].
  destruct (decide (i ∈ ws.*2)) as [H1|H1], (decide (i ∈ eq :: ws.*2)) as [H2|H2]; try (set_solver; fail).
  - rewrite list_lookup_insert. case_decide as E; [|done]. destruct E as [<- E].
    destruct (lookup_lt_is_Some_2 _ _ E) as [x ->]. done.
  - apply elem_of_cons in H2 as [->|H2]; [|done]. rewrite list_lookup_insert. case_decide as E.
    + destruct E as [_ E]. destruct (lookup_lt_is_Some_2 _ _ E) as [x ->]. done.
    + destruct (a !! eq) eqn:E'; [|done]. destruct E. split; [done|]. by eapply lookup_lt_Some.
  - apply not_elem_of_cons in H2 as [H2 _]. by rewrite list_lookup_insert_ne.
Qed.

(** The order in which the NULs are written does not matter. *)
Lemma nulterminate_lookup c a i :
  nulterminate c a !! i = if decide (i ∈ (words c).*2) then (fun _ => 0) <$> a !! i else a !! i.
Proof.
  revert a. induction c as [argv|c IH [q eq] m d|l IHl r IHr|l IHl r IHr|c IH]; intros a; cbn [nulterminate words].
  - apply set_nuls_lookup.
  - change (<[eq := 0]> (nulterminate c a)) with (set_nuls [(q, eq)] (nulterminate c a)).
    rewrite set_nuls_lookup, IH. cbn [fmap list_fmap snd]. repeat case_decide; try (set_solver; fail); by destruct (a !! i).
  - rewrite IHr, IHl, fmap_app. repeat case_decide; try (set_solver; fail); by destruct (a !! i).
  - rewrite IHr, IHl, fmap_app. repeat case_decide; try (set_solver; fail); by destruct (a !! i).
  - apply IH.
Qed.

Section parse.
Context (buf : list Z) (Hnul : Forall (fun c => c <> 0) buf).

Lemma ch_end s : (es buf <= s)%nat -> ch buf s = 0.
Proof. intros. unfold ch. by rewrite lookup_ge_None_2. Qed.

Lemma ch_truth s : (s < es buf)%nat -> truth (ch buf s) = true.
Proof.
  intros Hs. unfold ch. destruct (lookup_lt_is_Some_2 _ _ Hs) as [c Hc]. rewrite Hc. cbn.
  pose proof (Forall_lookup_1 _ _ _ _ Hnul Hc) as H. unfold truth. cbn in H. apply negb_true_iff. by apply Z.eqb_neq.
Qed.

Notation es := (es buf).
Notation ch := (ch buf).

(** A word of the input: nothing but word characters, and not more of them
    behind it. *)
Definition is_word (w : nat * nat) : Prop :=
  (w.1 < w.2 <= es)%nat /\ (forall i, (w.1 <= i < w.2)%nat -> word_char (ch i) = true) /\ word_char (ch w.2) = false.

Lemma skip_while_spec f fuel s :
  (es - s <= fuel)%nat -> (s <= es)%nat ->
  let s' := skip_while buf f fuel s in
  (s <= s' <= es)%nat /\ (forall i, (s <= i < s')%nat -> f (ch i) = true) /\ ((s' < es)%nat -> f (ch s') = false).
Proof.
  revert s. induction fuel as [|fuel IH]; intros s Hf Hs; cbn [skip_while].
  - split_and!; intros; lia.
  - destruct (s <? es)%nat eqn:E; cbn [andb]; [apply Nat.ltb_lt in E|apply Nat.ltb_ge in E; split_and!; intros; lia].
    destruct (f (ch s)) eqn:Ef; [|split_and!; [lia..|intros; lia|done]].
    destruct (IH (S s)) as (H1 & H2 & H3); [lia..|]. split_and!; [lia..| |done].
    intros i Hi. destruct (decide (i = s)) as [->|]; [done|]. apply H2. lia.
Qed.

Lemma skip_ws_spec s : (s <= es)%nat ->
  (s <= skip_ws buf s <= es)%nat /\ strchr whitespace (ch (skip_ws buf s)) = false.
Proof.
  intros Hs. destruct (skip_while_spec (strchr whitespace) (es - s) s) as (H1 & _ & H2); [done..|].
  split; [done|]. fold (skip_ws buf s) in *. destruct (decide (skip_ws buf s < es)%nat); [auto|].
  by rewrite ch_end by lia.
Qed.

Lemma peek_ends toks s (Q : bool -> nat -> Prop) :
  (s <= es)%nat ->
  (forall s', (s <= s' <= es)%nat -> strchr whitespace (ch s') = false ->
     Q (truth (ch s') && strchr toks (ch s')) s') ->
  ends (peek buf toks) Q s.
Proof. intros Hs HQ. destruct (skip_ws_spec s Hs). unfold ends, peek. by apply HQ. Qed.

(** A token is found, and the position moves on unless the input has ended. *)
Lemma gettoken_ends s (Q : Z * nat * nat -> nat -> Prop) :
  (s <= es)%nat ->
  (forall tok q eq s', (s <= s' <= es)%nat -> (tok <> 0 -> (s < s')%nat) ->
     (strchr whitespace (ch s) = false -> ch s <> 0 -> (s < s')%nat) ->
     (tok = c_a -> is_word (q, eq)) -> Q (tok, q, eq) s') ->
  ends (gettoken buf) Q s.
Proof.
  intros Hs HQ. unfold ends, gettoken. destruct (skip_ws_spec s Hs) as [H1 H2].
  set (s1 := skip_ws buf s) in *. cbn zeta.
  assert (Hst : strchr whitespace (ch s) = false -> s1 = s).
  { intros E. unfold s1, skip_ws. destruct (es - s)%nat; [done|]. cbn [skip_while].
    rewrite E, andb_false_r. done. }
  assert (Hin : ch s1 <> 0 -> (s1 < es)%nat).
  { intros E. destruct (decide (s1 < es)%nat); [done|]. by rewrite ch_end in E by lia. }
  destruct (ch s1 =? 0) eqn:E0; bprop.
  { destruct (skip_ws_spec s1) as [H3 _]; [lia|]. apply HQ; [lia|congruence| |by rewrite E0].
    intros ->%Hst. by rewrite E0. }
  specialize (Hin E0).
  destruct (strchr [c_bar; c_lpar; c_rpar; c_semi; c_amp; c_lt] (ch s1)) eqn:E1.
  { destruct (skip_ws_spec (S s1)) as [H3 _]; [lia|]. apply HQ; [lia|intros; lia..|].
    intros Ha. rewrite Ha in E1. done. }
  destruct (ch s1 =? c_gt) eqn:E2; bprop.
  { destruct (ch (S s1) =? c_gt) eqn:E3; bprop.
    - assert (S s1 < es)%nat.
      { destruct (decide (S s1 < es)%nat); [done|]. by rewrite ch_end in E3 by lia. }
      destruct (skip_ws_spec (S (S s1))) as [H3 _]; [lia|]. apply HQ; [lia|intros; lia..|done].
    - destruct (skip_ws_spec (S s1)) as [H3 _]; [lia|]. apply HQ; [lia|intros; lia..|]. by rewrite E2. }
  unfold skip_word.
  destruct (skip_while_spec (fun c => negb (strchr whitespace c) && negb (strchr symbols c)) (es - s1) s1) as (H3 & H4 & H5); [lia..|].
  set (s2 := skip_while _ _ _ _) in *. destruct (skip_ws_spec s2) as [H6 _]; [lia|].
  assert (Hsym : strchr symbols (ch s1) = false).
  { unfold strchr, symbols in *. cbn in E1 |- *. apply orb_false_iff in E1 as [? E1].
    repeat (apply orb_false_iff in E1 as [? E1]). apply Z.eqb_neq in E2.
    repeat (apply orb_false_iff; split); done. }
  assert (Hlt : (s1 < s2)%nat).
  { unfold s2. destruct (es - s1)%nat as [|k] eqn:Ek; [lia|]. cbn [skip_while].
    rewrite (proj2 (Nat.ltb_lt _ _) Hin), H2, Hsym. cbn [andb negb].
    destruct (skip_while_spec (fun c => negb (strchr whitespace c) && negb (strchr symbols c)) k (S s1)) as (? & _); lia. }
  apply HQ; [lia|intros; lia..|]. intros _. split; [cbn; lia|]. cbn [fst snd]. split.
  - intros i Hi. unfold word_char. rewrite <- andb_assoc. rewrite (H4 i Hi), andb_true_r.
    by rewrite ch_truth by lia.
  - unfold word_char. destruct (decide (s2 < es)%nat) as [Hs2|Hs2]; [|by rewrite ch_end by (cbn; lia)].
    cbn [snd]. rewrite <- andb_assoc. by rewrite (H5 Hs2), andb_false_r.
Qed.
(** What the parts of the parser keep: the position goes forward inside the
    buffer, and everything taken for a word is one. *)
Definition good (s : nat) {A} (ws : A -> list (nat * nat)) (a : A) (s' : nat) : Prop :=
  (s <= s' <= es)%nat /\ Forall is_word (ws a).

Definition rwords (rs : list redir) : list (nat * nat) := (fun r : redir => r.1.1) <$> rs.

Lemma redircmds_words c rs : words (redircmds c rs) ≡ₚ words c ++ rwords rs.
Proof.
  revert c. induction rs as [|[[f m] d] rs IH]; intros c; [by rewrite app_nil_r|].
  change (words (redircmds (REDIR c f m d) rs) ≡ₚ words c ++ f :: rwords rs).
  rewrite IH. cbn. by rewrite Permutation_middle.
Qed.

Lemma peek_true toks s' :
  truth (ch s') && strchr toks (ch s') = true -> ch s' <> 0.
Proof. unfold truth. intros [H _]%andb_true_iff. apply negb_true_iff in H. by apply Z.eqb_neq. Qed.

Lemma parseredirs_ends rs s (Q : list redir -> nat -> Prop) :
  (s <= es)%nat -> Forall is_word (rwords rs) ->
  (forall rs' s', good s rwords rs' s' -> Q rs' s') -> ends (parseredirs buf rs) Q s.
Proof.
  intros Hs Hrs HQ. unfold parseredirs.
  apply (ends_loop es (fun rs s' => (s <= s' <= es)%nat /\ Forall is_word (rwords rs))); [lia|split; [lia|done]|].
  clear rs Hrs. intros rs s1 [Hs1 Hrs]. unfold parseredirs_body. apply ends_bind, peek_ends; [lia|].
  intros s2 Hs2 Hw. destruct (truth (ch s2) && strchr [c_lt; c_gt] (ch s2)) eqn:E.
  - apply ends_bind, gettoken_ends; [lia|]. intros tok q eq s3 Hs3 _ Hadv _.
    specialize (Hadv Hw (peek_true _ _ E)).
    apply ends_bind, gettoken_ends; [lia|]. intros tok' q' eq' s4 Hs4 _ _ Hword.
    destruct (tok' =? c_a) eqn:E'; cbn [negb]; [|done]. bprop. specialize (Hword E').
    assert (forall m d, Forall is_word (rwords (rs ++ [((q', eq'), m, d)]))).
    { intros m d. unfold rwords. rewrite fmap_app. apply Forall_app. split; [done|]. by apply Forall_singleton. }
    repeat case_match; apply ends_ret; (split; [lia|]); (split; [lia|]); done.
  - apply ends_ret, HQ. split; [lia|done].
Qed.

Lemma parseexec_loop_ends argv rs s (Q : list (nat * nat) * list redir -> nat -> Prop) :
  (s <= es)%nat -> Forall is_word argv -> Forall is_word (rwords rs) ->
  (forall argv' rs' s', (s <= s' <= es)%nat -> Forall is_word argv' -> Forall is_word (rwords rs') -> Q (argv', rs') s') ->
  ends (loop_with (S es) (argv, rs) (parseexec_body buf)) Q s.
Proof.
  intros Hs Ha Hr HQ.
  apply (ends_loop es (fun '(argv, rs) s' => (s <= s' <= es)%nat /\ Forall is_word argv /\ Forall is_word (rwords rs)));
    [lia|split; [lia|done]|].
  clear argv rs Ha Hr. intros [argv rs] s1 (Hs1 & Ha & Hr). unfold parseexec_body. apply ends_bind, peek_ends; [lia|].
  intros s2 Hs2 _. destruct (truth (ch s2) && strchr _ (ch s2)); [apply ends_ret, HQ; [lia|done..]|].
  apply ends_bind, gettoken_ends; [lia|]. intros tok q eq s3 Hs3 Hadv _ Hword.
  destruct (tok =? 0) eqn:E0; bprop; [apply ends_ret, HQ; [lia|done..]|]. specialize (Hadv E0).
  destruct (tok =? c_a) eqn:E1; cbn [negb]; [|done]. bprop. specialize (Hword E1).
  destruct (MAXARGS <=? _)%nat; [done|]. apply ends_bind, parseredirs_ends; [lia|done|].
  intros rs' s4 [Hs4 Hr']. apply ends_ret. split; [lia|]. split; [lia|]. split; [|done].
  apply Forall_app. split; [done|]. by apply Forall_singleton.
Qed.

Lemma back_loop_ends c s (Q : cmd (nat * nat) -> nat -> Prop) :
  (s <= es)%nat -> Forall is_word (words c) ->
  (forall c' s', good s words c' s' -> Q c' s') -> ends (loop_with (S es) c (back_body buf)) Q s.
Proof.
  intros Hs Hc HQ.
  apply (ends_loop es (fun c s' => (s <= s' <= es)%nat /\ Forall is_word (words c))); [lia|split; [lia|done]|].
  clear c Hc. intros c s1 (Hs1 & Hc). unfold back_body. apply ends_bind, peek_ends; [lia|].
  intros s2 Hs2 Hw. destruct (truth (ch s2) && strchr _ (ch s2)) eqn:E.
  - apply ends_bind, gettoken_ends; [lia|]. intros tok q eq s3 Hs3 _ Hadv _. specialize (Hadv Hw (peek_true _ _ E)).
    apply ends_ret. split; [lia|]. split; [lia|done].
  - apply ends_ret, HQ. split; [lia|done].
Qed.

Lemma parse_ends fuel :
  (forall s, (s <= es)%nat -> (4 * (es - s) + 4 <= fuel)%nat -> ends (parseline buf fuel) (good s words) s) /\
  (forall s, (s <= es)%nat -> (4 * (es - s) + 3 <= fuel)%nat -> ends (parsepipe buf fuel) (good s words) s) /\
  (forall s, (s <= es)%nat -> (4 * (es - s) + 2 <= fuel)%nat -> ends (parseexec buf fuel) (good s words) s) /\
  (forall s, (s <= es)%nat -> (4 * (es - s) + 1 <= fuel)%nat -> ends (parseblock buf fuel) (good s words) s).
Proof.
  induction fuel as [|fuel (IHl & IHp & IHe & IHb)]; [split_and!; intros; lia|].
  split_and!; intros s Hs Hf; cbn [parseline parsepipe parseexec parseblock].
  - apply ends_bind. eapply ends_mono; [apply IHp; lia|]. intros c s1 [Hs1 Hc].
    apply ends_bind, back_loop_ends; [lia|done|]. intros c' s2 [Hs2 Hc'].
    apply ends_bind, peek_ends; [lia|]. intros s3 Hs3 Hw. destruct (truth (ch s3) && _) eqn:E.
    + apply ends_bind, gettoken_ends; [lia|]. intros tok q eq s4 Hs4 _ Hadv _. specialize (Hadv Hw (peek_true _ _ E)).
      apply ends_bind. eapply ends_mono; [apply IHl; lia|]. intros r s5 [Hs5 Hr]. apply ends_ret.
      split; [lia|]. cbn. by apply Forall_app.
    + apply ends_ret. split; [lia|done].
  - apply ends_bind. eapply ends_mono; [apply IHe; lia|]. intros c s1 [Hs1 Hc].
    apply ends_bind, peek_ends; [lia|]. intros s3 Hs3 Hw. destruct (truth (ch s3) && _) eqn:E.
    + apply ends_bind, gettoken_ends; [lia|]. intros tok q eq s4 Hs4 _ Hadv _. specialize (Hadv Hw (peek_true _ _ E)).
      apply ends_bind. eapply ends_mono; [apply IHp; lia|]. intros r s5 [Hs5 Hr]. apply ends_ret.
      split; [lia|]. cbn. by apply Forall_app.
    + apply ends_ret. split; [lia|done].
  - apply ends_bind, peek_ends; [lia|]. intros s1 Hs1 Hw. destruct (truth (ch s1) && _) eqn:E.
    + eapply ends_mono; [apply IHb; lia|]. intros c s2 [Hs2 Hc]. split; [lia|done].
    + apply ends_bind, parseredirs_ends; [lia|constructor|]. intros rs s2 [Hs2 Hr].
      apply ends_bind, parseexec_loop_ends; [lia|constructor|done|]. intros argv rs' s3 Hs3 Ha Hr'.
      apply ends_ret. split; [lia|]. rewrite redircmds_words. by apply Forall_app.
  - apply ends_bind, peek_ends; [lia|]. intros s1 Hs1 Hw. destruct (truth (ch s1) && _) eqn:E; cbn [negb]; [|done].
    apply ends_bind, gettoken_ends; [lia|]. intros tok q eq s2 Hs2 _ Hadv _. specialize (Hadv Hw (peek_true _ _ E)).
    apply ends_bind. eapply ends_mono; [apply IHl; lia|]. intros c s3 [Hs3 Hc].
    apply ends_bind, peek_ends; [lia|]. intros s4 Hs4 _. destruct (truth (ch s4) && _); cbn [negb]; [|done].
    apply ends_bind, gettoken_ends; [lia|]. intros tok' q' eq' s5 Hs5 _ _ _.
    apply ends_bind, parseredirs_ends; [lia|constructor|]. intros rs s6 [Hs6 Hr].
    apply ends_ret. split; [lia|]. rewrite redircmds_words. by apply Forall_app.
Qed.

(** A NUL behind every word of [c] is the end of that word and of no other. *)
Lemma nulterminate_word c w :
  Forall is_word (words c) -> w ∈ words c -> str_at (nulterminate c (buf ++ [0])) w.1 = slice buf w.
Proof.
  intros Hc Hin. rewrite Forall_forall in Hc. destruct (Hc _ Hin) as (Hr & Hw & Hend). destruct w as [q eq]; cbn [fst snd] in *.
  assert (Hlen : es = length buf) by done.
  assert (Hkeep : forall i, (q <= i < eq)%nat -> nulterminate c (buf ++ [0]) !! i = Some (ch i)).
  { intros i Hi. rewrite nulterminate_lookup, decide_False.
    - rewrite lookup_app_l by lia. unfold Sh.ch. destruct (lookup_lt_is_Some_2 buf i) as [x ->]; [lia|done].
    - intros ([q' e'] & -> & Hin')%list_elem_of_fmap. destruct (Hc _ Hin') as (_ & _ & He). cbn in *.
      rewrite Hw in He by lia. done. }
  unfold str_at. rewrite (cstring_take _ (eq - q)).
  - unfold slice. cbn [fst snd]. apply list_eq. intros i. destruct (decide (i < eq - q)%nat).
    + rewrite !lookup_take_lt, !lookup_drop by lia. rewrite Hkeep by lia. unfold Sh.ch.
      destruct (lookup_lt_is_Some_2 buf (q + i)) as [x ->]; [lia|done].
    + rewrite !lookup_take_ge by lia. done.
  - intros i x Hi. rewrite lookup_drop, Hkeep by lia. intros [= <-]. specialize (Hw (q + i)%nat ltac:(lia)).
    unfold word_char, truth in Hw. intros E. rewrite E in Hw. done.
  - rewrite lookup_drop. replace (q + (eq - q))%nat with eq by lia. rewrite nulterminate_lookup, decide_True.
    + destruct (lookup_lt_is_Some_2 (buf ++ [0]) eq) as [x ->]; [rewrite length_app; cbn; lia|done].
    + apply list_elem_of_fmap. by exists (q, eq).
Qed.

End parse.

(** C36. On every line, [parsecmd] returns a command or rejects the line; it
    does not loop.  Every word of a command it returns
    is a maximal run of word characters of the line, and once the NULs are
    written the C string at the word's address is that word. *)
Theorem parsecmd_returns buf :
  Forall (fun c => c <> 0) buf ->
  match parsecmd buf 0%nat with
  | Ok (c, a) _ => Forall (fun w => is_word buf w /\ str_at a w.1 = slice buf w) (words c)
  | Panic msg => True
  | Blocked => False
  end.
Proof.
  intros Hnul.
  cut (ends (parsecmd buf) (fun '(c, a) _ => Forall (fun w => is_word buf w /\ str_at a w.1 = slice buf w) (words c)) 0%nat).
  { unfold ends. by destruct (parsecmd buf 0%nat) as [[c a] s| |]. }
  unfold parsecmd. apply ends_bind. eapply ends_mono; [apply (parse_ends buf Hnul); unfold line_fuel; lia|].
  intros c s [Hs Hc]. apply ends_bind, peek_ends; [lia|]. intros s' Hs' _. apply ends_bind.
  unfold ends at 1, gets. destruct (negb _); [done|]. apply ends_ret.
  apply Forall_forall. intros w Hw. split; [|by apply nulterminate_word]. by apply (proj1 (Forall_forall _ _) Hc).
Qed.
