(* ===== verification/ShPrint.v ===== *)
(** * Printing commands, and parsing what was printed

    [show] writes a command the way a user would type it, with parentheses
    where the grammar of sh.c needs them; the parser reads every printed
    command back. *)

From S2P Require Export Sh.

#[local] Arguments strchr : simpl never.

Fixpoint cmap {A B} (f : A -> B) (c : cmd A) : cmd B :=
  match c with
  | EXEC argv => EXEC (f <$> argv)
  | REDIR c w mode fd => REDIR (cmap f c) (f w) mode fd
  | PIPE l r => PIPE (cmap f l) (cmap f r)
  | LIST l r => LIST (cmap f l) (cmap f r)
  | BACK c => BACK (cmap f c)
  end.

(** The redirections there are. *)
Definition redir_sym (mode fd : Z) : list Z :=
  if (mode =? O_RDONLY) && (fd =? 0) then [c_lt]
  else if mode =? Z.lor O_WRONLY O_CREATE then [c_gt; c_gt] else [c_gt].
Definition redir_ok (mode fd : Z) : Prop :=
  (mode = O_RDONLY /\ fd = 0) \/ (mode = Z.lor (Z.lor O_WRONLY O_CREATE) O_TRUNC /\ fd = 1) \/
  (mode = Z.lor O_WRONLY O_CREATE /\ fd = 1).

Definition show_word (w : list Z) : list Z := c_space :: w.
Definition show_redir (r : list Z * Z * Z) : list Z := redir_sym r.1.2 r.2 ++ show_word r.1.1.
Definition paren (b : bool) (t : list Z) : list Z := if b then [c_lpar] ++ t ++ [c_rpar] else t.

(** Level 0 is what [parseexec] reads, 1 [parsepipe], 2 with ampersands, 3 [parseline]. *)
Fixpoint show (lvl : nat) (c : cmd (list Z)) : list Z :=
  match c with
  | EXEC argv => concat (show_word <$> argv)
  | REDIR c w mode fd => show 0 c ++ show_redir (w, mode, fd)
  | PIPE l r => paren (lvl <? 1)%nat (show 0 l ++ [c_bar] ++ show 1 r)
  | BACK c => paren (lvl <? 2)%nat (show 2 c ++ [c_amp])
  | LIST l r => paren (lvl <? 3)%nat (show 2 l ++ [c_semi] ++ show 3 r)
  end.

Definition word_ok (w : list Z) : Prop := w <> [] /\ Forall (fun c => word_char c = true) w.

(** The commands a line can denote: words of word characters, fewer than
    [MAXARGS] of them, and the three redirections. *)
Fixpoint cmd_ok (c : cmd (list Z)) : Prop :=
  match c with
  | EXEC argv => (length argv < MAXARGS)%nat /\ Forall word_ok argv
  | REDIR c w mode fd => cmd_ok c /\ word_ok w /\ redir_ok mode fd
  | PIPE l r | LIST l r => cmd_ok l /\ cmd_ok r
  | BACK c => cmd_ok c
  end.

(** ** White space *)

Fixpoint dropws (t : list Z) : list Z :=
  match t with
  | [] => []
  | c :: t' => if strchr whitespace c then dropws t' else t
  end.

Lemma dropws_idem t : dropws (dropws t) = dropws t.
Proof. induction t as [|c t IH]; cbn; [done|]. destruct (strchr whitespace c) eqn:E; [exact IH|]. cbn. by rewrite E. Qed.

Lemma dropws_head t c t' : dropws t = c :: t' -> strchr whitespace c = false.
Proof.
  induction t as [|d t IH]; cbn; [done|]. destruct (strchr whitespace d) eqn:E; [exact IH|]. by intros [= <- _].
Qed.

Lemma dropws_cons c t : strchr whitespace c = false -> dropws (c :: t) = c :: t.
Proof. cbn. by intros ->. Qed.

Section roundtrip.
Context (buf : list Z) (Hnul : Forall (fun c => c <> 0) buf).
Notation len := (es buf).

(** What is left to read at [s] is [t], up to white space in front. *)
Definition near (s : nat) (t : list Z) : Prop := (s <= len)%nat /\ dropws (drop s buf) = dropws t.

Lemma skip_while_drop fuel s :
  (len - s <= fuel)%nat -> (s <= len)%nat ->
  drop (skip_while buf (strchr whitespace) fuel s) buf = dropws (drop s buf).
Proof.
  revert s. induction fuel as [|fuel IH]; intros s Hf Hs; cbn [skip_while].
  - rewrite drop_ge by (unfold es in *; lia). done.
  - destruct (s <? len)%nat eqn:E; cbn [andb]; [apply Nat.ltb_lt in E|apply Nat.ltb_ge in E; by rewrite drop_ge by (unfold es in *; lia)].
    destruct (lookup_lt_is_Some_2 buf s E) as [c Hc]. rewrite (drop_S _ _ _ Hc). cbn [dropws].
    assert (Hch : ch buf s = c) by (unfold ch; by rewrite Hc). rewrite Hch.
    destruct (strchr whitespace c); [apply IH; lia|]. by rewrite (drop_S _ _ _ Hc).
Qed.

Lemma near_skip s t : near s t -> drop (skip_ws buf s) buf = dropws t /\ (s <= skip_ws buf s <= len)%nat.
Proof.
  intros [Hs Ht]. split; [|by apply skip_ws_spec]. unfold skip_ws. by rewrite skip_while_drop.
Qed.

Lemma near_at s t : (s <= len)%nat -> drop s buf = t -> near s t.
Proof. intros Hs <-. done. Qed.

Lemma ch_drop s c t : drop s buf = c :: t -> ch buf s = c /\ drop (S s) buf = t /\ (s < len)%nat /\ c <> 0.
Proof.
  intros E. assert (Hc : buf !! s = Some c).
  { pose proof (lookup_drop buf s 0) as H. rewrite E, Nat.add_0_r in H. cbn in H. done. }
  split_and!.
  - unfold ch. by rewrite Hc.
  - rewrite (drop_S _ _ _ Hc) in E. by injection E.
  - by eapply lookup_lt_Some.
  - exact (Forall_lookup_1 _ _ _ _ Hnul Hc).
Qed.

Lemma ch_nil s : (s <= len)%nat -> drop s buf = [] -> ch buf s = 0 /\ s = len.
Proof.
  intros Hs E. apply (f_equal length) in E. rewrite length_drop in E. cbn in E. assert (s = len) by (unfold es in *; lia).
  split; [apply ch_end; lia|done].
Qed.

Lemma near_peek toks s t :
  near s t ->
  peek buf toks s = Ok (match dropws t with [] => false | c :: _ => strchr toks c end) (skip_ws buf s) /\
  near (skip_ws buf s) t /\ (s <= skip_ws buf s <= len)%nat.
Proof.
  intros Hn. destruct (near_skip _ _ Hn) as [Hd Hr]. split; [|split; [split; [lia|by rewrite Hd, dropws_idem]|lia]].
  unfold peek. f_equal. destruct (dropws t) as [|c t'].
  - destruct (ch_nil _ (proj2 Hr) Hd) as [-> _]. done.
  - destruct (ch_drop _ _ _ Hd) as (-> & _ & _ & Hc). unfold truth. by rewrite (proj2 (Z.eqb_neq _ _) Hc).
Qed.

(** The tokens of one character. *)
Lemma token_symbol s t c t' :
  near s t -> dropws t = c :: t' -> strchr [c_bar; c_lpar; c_rpar; c_semi; c_amp; c_lt] c = true ->
  exists q eq s', gettoken buf s = Ok (c, q, eq) s' /\ near s' t' /\ (s < s' <= len)%nat.
Proof.
  intros Hn Ht Hc. destruct (near_skip _ _ Hn) as [Hd Hr]. rewrite Ht in Hd.
  destruct (ch_drop _ _ _ Hd) as (Hch & Hd' & Hlt & H0).
  assert (Hn' : near (S (skip_ws buf s)) t') by (apply near_at; [lia|done]).
  destruct (near_skip _ _ Hn') as [Hd2 Hr2].
  exists (skip_ws buf s), (S (skip_ws buf s)), (skip_ws buf (S (skip_ws buf s))). split; [|split; [split; [lia|]|lia]].
  - unfold gettoken. rewrite Hch, (proj2 (Z.eqb_neq _ _) H0), Hc. done.
  - by rewrite Hd2, dropws_idem.
Qed.

Lemma token_gt s t t' :
  near s t -> dropws t = c_gt :: t' -> head t' <> Some c_gt ->
  exists q eq s', gettoken buf s = Ok (c_gt, q, eq) s' /\ near s' t' /\ (s < s' <= len)%nat.
Proof.
  intros Hn Ht Hc. destruct (near_skip _ _ Hn) as [Hd Hr]. rewrite Ht in Hd.
  destruct (ch_drop _ _ _ Hd) as (Hch & Hd' & Hlt & H0).
  assert (Hn' : near (S (skip_ws buf s)) t') by (apply near_at; [lia|done]).
  destruct (near_skip _ _ Hn') as [Hd2 Hr2].
  exists (skip_ws buf s), (S (skip_ws buf s)), (skip_ws buf (S (skip_ws buf s))). split; [|split; [split; [lia|]|lia]].
  - unfold gettoken. rewrite Hch. change (c_gt =? 0) with false. change (c_gt =? c_gt) with true.
    change (strchr [c_bar; c_lpar; c_rpar; c_semi; c_amp; c_lt] c_gt) with false. cbn match.
    destruct (ch buf (S (skip_ws buf s)) =? c_gt) eqn:E; [|done]. bprop. destruct Hc.
    destruct t' as [|d t']; [|destruct (ch_drop _ _ _ Hd') as (Ed & _); cbn; congruence].
    destruct (ch_nil _ (proj1 Hn') Hd') as [E' _]. by rewrite E in E'.
  - by rewrite Hd2, dropws_idem.
Qed.

Lemma token_gtgt s t t' :
  near s t -> dropws t = c_gt :: c_gt :: t' ->
  exists q eq s', gettoken buf s = Ok (c_plus, q, eq) s' /\ near s' t' /\ (s < s' <= len)%nat.
Proof.
  intros Hn Ht. destruct (near_skip _ _ Hn) as [Hd Hr]. rewrite Ht in Hd.
  destruct (ch_drop _ _ _ Hd) as (Hch & Hd' & Hlt & H0).
  destruct (ch_drop _ _ _ Hd') as (Hch' & Hd3 & Hlt' & _).
  assert (Hn' : near (S (S (skip_ws buf s))) t') by (apply near_at; [lia|done]).
  destruct (near_skip _ _ Hn') as [Hd2 Hr2].
  exists (skip_ws buf s), (S (S (skip_ws buf s))), (skip_ws buf (S (S (skip_ws buf s)))). split; [|split; [split; [lia|]|lia]].
  - unfold gettoken. rewrite Hch, Hch'. done.
  - by rewrite Hd2, dropws_idem.
Qed.

(** What comes next does not belong to a word. *)
Definition word_ends (t : list Z) : Prop := match t with [] => True | c :: _ => word_char c = false end.

Lemma word_char_split c : word_char c = true ->
  c <> 0 /\ strchr whitespace c = false /\ strchr symbols c = false.
Proof.
  unfold word_char, truth. intros [[H1 H2]%andb_true_iff H3]%andb_true_iff.
  apply negb_true_iff in H1, H2, H3. apply Z.eqb_neq in H1. done.
Qed.

Lemma symbols_split c : strchr symbols c = false ->
  strchr [c_bar; c_lpar; c_rpar; c_semi; c_amp; c_lt] c = false /\ c <> c_gt.
Proof.
  unfold strchr, symbols. cbn [existsb]. rewrite !orb_false_iff. intros (? & ? & H & ? & ? & ? & ? & _).
  split; [tauto|]. by apply Z.eqb_neq.
Qed.

Lemma skip_word_run w t s fuel :
  drop s buf = w ++ t -> (len - s <= fuel)%nat -> Forall (fun c => word_char c = true) w -> word_ends t -> (s <= len)%nat ->
  skip_while buf (fun c => negb (strchr whitespace c) && negb (strchr symbols c)) fuel s = (s + length w)%nat.
Proof.
  revert s fuel. induction w as [|c w IH]; intros s fuel Hd Hf Hw Ht Hs.
  - cbn [length]. rewrite Nat.add_0_r. destruct fuel as [|fuel]; [done|]. cbn [skip_while].
    destruct (s <? len)%nat eqn:E; [|done]. apply Nat.ltb_lt in E. cbn [andb app] in *.
    destruct t as [|c t]; [apply ch_nil in Hd; [lia|done]|].
    destruct (ch_drop _ _ _ Hd) as (-> & _ & _ & H0). cbn in Ht. unfold word_char, truth in Ht.
    rewrite (proj2 (Z.eqb_neq _ _) H0) in Ht. cbn [negb andb] in Ht. by rewrite Ht.
  - apply Forall_cons in Hw as [Hc Hw]. destruct (ch_drop _ _ _ Hd) as (Hch & Hd' & Hlt & _).
    destruct (word_char_split _ Hc) as (_ & H1 & H2).
    destruct fuel as [|fuel]; [lia|]. cbn [skip_while]. rewrite (proj2 (Nat.ltb_lt _ _) Hlt), Hch, H1, H2. cbn [andb negb].
    rewrite (IH (S s) fuel Hd'); [cbn [length]; lia|lia|done|done|lia].
Qed.

Lemma token_word s t w t' :
  near s t -> dropws t = w ++ t' -> word_ok w -> word_ends t' ->
  exists q eq s', gettoken buf s = Ok (c_a, q, eq) s' /\ slice buf (q, eq) = w /\ near s' t' /\ (s < s' <= len)%nat.
Proof.
  intros Hn Ht [Hne Hw] Hend. destruct (near_skip _ _ Hn) as [Hd Hr]. rewrite Ht in Hd.
  destruct w as [|c w]; [done|]. destruct (ch_drop _ _ _ Hd) as (Hch & Hd' & Hlt & H0).
  pose proof Hw as Hw0. apply Forall_cons in Hw as [Hc Hw]. destruct (word_char_split _ Hc) as (_ & H1 & H2).
  destruct (symbols_split _ H2) as [H3 H4].
  set (q := skip_ws buf s) in *. set (n := length (c :: w)).
  assert (Hq : skip_word buf q = (q + n)%nat) by (apply (skip_word_run (c :: w) t' q); [exact Hd|lia|done|done|lia]).
  assert (Hlen : (q + n <= len)%nat).
  { pose proof (f_equal length Hd) as E. rewrite length_drop, length_app in E. unfold n, es in *. lia. }
  assert (Hdn : drop (q + n) buf = t').
  { rewrite <- drop_drop, Hd. by apply drop_app_length. }
  assert (Hn' : near (q + n) t') by (by apply near_at).
  destruct (near_skip _ _ Hn') as [Hd2 Hr2].
  exists q, (q + n)%nat, (skip_ws buf (q + n)). split_and!.
  - unfold gettoken. fold q. rewrite Hch, (proj2 (Z.eqb_neq _ _) H0), H3, (proj2 (Z.eqb_neq _ _) H4), Hq. done.
  - unfold slice. cbn [fst snd]. replace (q + n - q)%nat with n by lia. rewrite Hd. by apply take_app_length.
  - split; [lia|by rewrite Hd2, dropws_idem].
  - unfold n in *. cbn [length] in *. lia.
  - lia.
Qed.

Lemma token_end s t : near s t -> dropws t = [] ->
  exists q eq s', gettoken buf s = Ok (0, q, eq) s' /\ near s' t /\ (s <= s' <= len)%nat.
Proof.
  intros Hn Ht. destruct (near_skip _ _ Hn) as [Hd Hr]. rewrite Ht in Hd.
  destruct (ch_nil _ (proj2 Hr) Hd) as [Hch Hl].
  assert (Hn' : near (skip_ws buf s) []) by (apply near_at; [lia|done]).
  destruct (near_skip _ _ Hn') as [Hd2 Hr2].
  exists (skip_ws buf s), (skip_ws buf s), (skip_ws buf (skip_ws buf s)). split; [|split; [split; [lia|]|lia]].
  - unfold gettoken. by rewrite Hch.
  - by rewrite Hd2, Ht.
Qed.

(** ** Redirections *)

Definition redirs_ok (rs : list (list Z * Z * Z)) : Prop := Forall (fun r => word_ok r.1.1 /\ redir_ok r.1.2 r.2) rs.
Definition show_redirs (rs : list (list Z * Z * Z)) : list Z := concat (show_redir <$> rs).
Definition rslice (r : redir) : list Z * Z * Z := (slice buf r.1.1, r.1.2, r.2).

(** The next character that is not white space is one of [S], or none. *)
Definition stops (S : list Z) (t : list Z) : Prop :=
  match dropws t with [] => True | c :: _ => strchr S c = true end.

Lemma strchr_sub S S' c : strchr S c = true -> (forall x, x ∈ S -> x ∈ S') -> strchr S' c = true.
Proof.
  unfold strchr. rewrite !existsb_exists. intros (x & Hx & E) Hs. exists x. split; [|done].
  apply list_elem_of_In, Hs. by apply list_elem_of_In.
Qed.

Lemma stops_sub S S' t : stops S t -> (forall x, x ∈ S -> x ∈ S') -> stops S' t.
Proof. unfold stops. destruct (dropws t); [done|]. apply strchr_sub. Qed.

Lemma stops_word_ends S t : stops S t -> (forall x, x ∈ S -> x ∈ symbols) -> word_ends t.
Proof.
  intros Hs Hsub. destruct t as [|c t]; [done|]. cbn. unfold word_char. unfold stops in Hs. cbn in Hs.
  destruct (strchr whitespace c) eqn:E; [by rewrite andb_false_r|].
  rewrite (strchr_sub S symbols c Hs Hsub). by rewrite !andb_false_r.
Qed.

(** The word of a redirection: what follows is another redirection or stops. *)
Lemma redirs_word_ends rs t : word_ends t -> word_ends (show_redirs rs ++ t).
Proof.
  destruct rs as [|[[w m] d] rs]; [done|]. intros _. cbn. unfold show_redir, redir_sym. cbn. repeat case_match; done.
Qed.

Lemma show_word_near w t s : near s (show_word w ++ t) -> word_ok w ->
  near s (w ++ t) /\ dropws (w ++ t) = w ++ t.
Proof.
  intros Hn [Hne Hw]. destruct w as [|c w]; [done|]. apply Forall_cons in Hw as [Hc _].
  destruct (word_char_split _ Hc) as (_ & Hws & _). split; [|by apply dropws_cons].
  destruct Hn as [Hs Hd]. split; [done|]. rewrite Hd. cbn. done.
Qed.

Lemma redir_token s r t :
  near s (show_redir r ++ t) -> word_ok r.1.1 -> redir_ok r.1.2 r.2 ->
  strchr [c_lt; c_gt] (hd 0 (dropws (show_redir r ++ t))) = true /\
  exists tok q eq s', gettoken buf s = Ok (tok, q, eq) s' /\ near s' (show_word r.1.1 ++ t) /\ (s < s' <= len)%nat /\
    ((tok = c_lt /\ r.1.2 = O_RDONLY /\ r.2 = 0) \/
     (tok = c_gt /\ r.1.2 = Z.lor (Z.lor O_WRONLY O_CREATE) O_TRUNC /\ r.2 = 1) \/
     (tok = c_plus /\ r.1.2 = Z.lor O_WRONLY O_CREATE /\ r.2 = 1)).
Proof.
  intros Hn Hw Hr. destruct r as [[w m] d]. cbn [fst snd] in *. unfold show_redir in *. cbn [fst snd] in *.
  destruct Hr as [[-> ->]|[[-> ->]|[-> ->]]]; (split; [done|]).
  - destruct (token_symbol _ _ c_lt _ Hn eq_refl eq_refl) as (q & eq & s' & H1 & H2 & H3). eauto 12.
  - destruct (token_gt _ _ _ Hn eq_refl) as (q & eq & s' & H1 & H2 & H3); [done|]. eauto 12.
  - destruct (token_gtgt _ _ _ Hn eq_refl) as (q & eq & s' & H1 & H2 & H3). eauto 12.
Qed.

Lemma parseredirs_run rs rs0 s t fuel :
  near s (show_redirs rs ++ t) -> redirs_ok rs -> word_ends t ->
  (match dropws t with [] => True | c :: _ => strchr [c_lt; c_gt] c = false end) -> (len - s < fuel)%nat ->
  exists rs' s', loop_with fuel rs0 (parseredirs_body buf) s = Ok (rs0 ++ rs') s' /\ rslice <$> rs' = rs /\
    near s' t /\ (s <= s' <= len)%nat.
Proof.
  revert rs0 s fuel. induction rs as [|r rs IH]; intros rs0 s fuel Hn Hrs Hend Hstop Hf; (destruct fuel as [|fuel]; [lia|]); cbn [loop_with].
  - destruct (near_peek [c_lt; c_gt] _ _ Hn) as (Hp & Hn' & Hr). cbn [app show_redirs fmap list_fmap concat] in *.
    exists [], (skip_ws buf s). rewrite app_nil_r. split; [|split; [done|split; [done|lia]]].
    erewrite run_bind; [|unfold parseredirs_body; erewrite run_bind by exact Hp;
      replace (match dropws t with [] => false | c :: _ => strchr [c_lt; c_gt] c end) with false by (by destruct (dropws t)); reflexivity].
    done.
  - apply Forall_cons in Hrs as [[Hw Hok] Hrs].
    assert (Hn0 : near s (show_redir r ++ (show_redirs rs ++ t))).
    { unfold show_redirs in *. cbn [fmap list_fmap concat] in Hn. by rewrite <- app_assoc in Hn. }
    destruct (near_peek [c_lt; c_gt] _ _ Hn0) as (Hp & Hn1 & Hr).
    destruct (redir_token _ _ _ Hn1 Hw Hok) as (Hhd & tok & q & eq & s2 & Ht & Hn2 & Hr2 & Hk).
    destruct (show_word_near _ _ _ Hn2 Hw) as [Hn3 Hd3].
    destruct (token_word _ _ _ _ Hn3 Hd3 Hw (redirs_word_ends rs t Hend)) as (q' & eq' & s3 & Ht' & Hsl & Hn4 & Hr3).
    assert (Hb : parseredirs_body buf rs0 s = Ok (inl (rs0 ++ [((q', eq'), r.1.2, r.2)])) s3).
    { unfold parseredirs_body. erewrite run_bind by exact Hp.
      destruct (dropws (show_redir r ++ (show_redirs rs ++ t))) as [|c t'] eqn:Ed; [by cbn in Hhd|].
      cbn [hd] in Hhd. rewrite Hhd. erewrite run_bind by exact Ht. erewrite run_bind by exact Ht'.
      change (c_a =? c_a) with true. cbn [negb].
      destruct Hk as [(-> & -> & ->)|[(-> & -> & ->)|(-> & -> & ->)]]; reflexivity. }
    erewrite run_bind by exact Hb. cbn match.
    destruct (IH (rs0 ++ [((q', eq'), r.1.2, r.2)]) s3 fuel Hn4 Hrs Hend Hstop) as (rs' & s' & Hrun & Hm & Hn5 & Hr5); [lia|].
    exists (((q', eq'), r.1.2, r.2) :: rs'), s'. rewrite Hrun, <- app_assoc. split; [done|].
    split; [|split; [done|lia]]. cbn. rewrite Hm. f_equal. unfold rslice. cbn [fst snd]. rewrite Hsl. by destruct r as [[??]?].
Qed.

(** ** Simple commands *)

Definition exec_stops := stops [c_bar; c_rpar; c_amp; c_semi].

Lemma exec_stops_redir t : exec_stops t ->
  match dropws t with [] => True | c :: _ => strchr [c_lt; c_gt] c = false end.
Proof.
  unfold exec_stops, stops. destruct (dropws t) as [|c u]; [done|]. unfold strchr. cbn [existsb].
  rewrite !orb_true_iff, !Z.eqb_eq. intros [->|[->|[->|[->|?]]]]; done.
Qed.

Lemma exec_stops_ends t : exec_stops t -> word_ends t.
Proof. intros H. eapply stops_word_ends; [exact H|]. set_solver. Qed.

Definition show_words (ws : list (list Z)) : list Z := concat (show_word <$> ws).

Lemma words_word_ends ws t : word_ends t -> word_ends (show_words ws ++ t).
Proof. destruct ws; [done|]. intros _. done. Qed.

Lemma exec_loop_run ws rs argv0 rs0 s t fuel :
  near s (show_words ws ++ show_redirs rs ++ t) -> Forall word_ok ws -> redirs_ok rs -> exec_stops t ->
  (ws = [] -> rs = []) -> (length argv0 + length ws < MAXARGS)%nat -> (len - s < fuel)%nat ->
  exists ws' rs' s', loop_with fuel (argv0, rs0) (parseexec_body buf) s = Ok (argv0 ++ ws', rs0 ++ rs') s' /\
    slice buf <$> ws' = ws /\ rslice <$> rs' = rs /\ near s' t /\ (s <= s' <= len)%nat.
Proof.
  revert rs argv0 rs0 s fuel. induction ws as [|w ws IH]; intros rs argv0 rs0 s fuel Hn Hws Hrs Hst Hemp Hmax Hf;
    (destruct fuel as [|fuel]; [lia|]); cbn [loop_with].
  - rewrite (Hemp eq_refl) in *. cbn [app show_words show_redirs fmap list_fmap concat] in *.
    destruct (near_peek [c_bar; c_rpar; c_amp; c_semi] _ _ Hn) as (Hp & Hn' & Hr).
    unfold exec_stops, stops in Hst. destruct (dropws t) as [|c u] eqn:Ed; cbn match in Hp.
    + destruct (token_end _ _ Hn' Ed) as (q & eq & s' & Ht & Hn2 & Hr2). exists [], [], s'. rewrite !app_nil_r.
      split; [|split; [done|split; [done|split; [done|lia]]]].
      erewrite run_bind; [|unfold parseexec_body; erewrite run_bind by exact Hp; cbn match; erewrite run_bind by exact Ht; reflexivity]. done.
    + exists [], [], (skip_ws buf s). rewrite !app_nil_r. split; [|split; [done|split; [done|split; [done|lia]]]].
      erewrite run_bind; [|unfold parseexec_body; erewrite run_bind by exact Hp; rewrite Hst; reflexivity]. done.
  - apply Forall_cons in Hws as [Hw Hws].
    assert (Hn0 : near s (show_word w ++ (show_words ws ++ show_redirs rs ++ t))).
    { unfold show_words in *. cbn [fmap list_fmap concat] in Hn. by rewrite <- app_assoc in Hn. }
    destruct (show_word_near _ _ _ Hn0 Hw) as [Hn1 Hd1].
    destruct (near_peek [c_bar; c_rpar; c_amp; c_semi] _ _ Hn1) as (Hp & Hn2 & Hr).
    assert (Hwe : word_ends (show_words ws ++ show_redirs rs ++ t)).
    { apply words_word_ends, redirs_word_ends, exec_stops_ends, Hst. }
    destruct (token_word _ _ _ _ Hn2 Hd1 Hw Hwe) as (q & eq & s2 & Ht & Hsl & Hn3 & Hr2).
    assert (Hpf : (match dropws (w ++ show_words ws ++ show_redirs rs ++ t) with [] => false | c :: _ => strchr [c_bar; c_rpar; c_amp; c_semi] c end) = false).
    { rewrite Hd1. destruct Hw as [Hne Hw]. destruct w as [|c w]; [done|]. cbn [app]. apply Forall_cons in Hw as [Hc _].
      destruct (word_char_split _ Hc) as (_ & _ & Hsym). destruct (strchr [c_bar; c_rpar; c_amp; c_semi] c) eqn:E; [|done].
      rewrite (strchr_sub _ symbols _ E) in Hsym by set_solver. done. }
    rewrite Hpf in Hp. cbn [length] in Hmax.
    assert (Hred : exists rs1 rs2 rs' s3, rs = rs1 ++ rs2 /\ (ws = [] -> rs2 = []) /\
      loop_with (S len) rs0 (parseredirs_body buf) s2 = Ok (rs0 ++ rs') s3 /\ rslice <$> rs' = rs1 /\
      near s3 (show_words ws ++ show_redirs rs2 ++ t) /\ (s2 <= s3 <= len)%nat).
    { destruct ws as [|w2 ws].
      - destruct (parseredirs_run rs rs0 s2 t (S len) Hn3 Hrs (exec_stops_ends _ Hst) (exec_stops_redir _ Hst) ltac:(lia))
          as (rs' & s3 & Hred & Hm & Hn4 & Hr3). exists rs, [], rs', s3. rewrite app_nil_r. done.
      - apply Forall_cons in Hws as [Hw2 _].
        destruct (parseredirs_run [] rs0 s2 (show_words (w2 :: ws) ++ show_redirs rs ++ t) (S len) Hn3 ltac:(constructor) Hwe) as (rs' & s3 & Hred & Hm & Hn4 & Hr3); [|lia|].
        + unfold show_words. cbn [fmap list_fmap concat]. rewrite <- app_assoc. destruct Hw2 as [Hne2 Hw2].
          destruct w2 as [|c w2]; [done|]. apply Forall_cons in Hw2 as [Hc _]. destruct (word_char_split _ Hc) as (_ & Hws2 & Hsym).
          cbn [app show_word dropws]. change (strchr whitespace c_space) with true. cbn match. rewrite Hws2.
          destruct (strchr [c_lt; c_gt] c) eqn:E; [|done]. rewrite (strchr_sub _ symbols _ E) in Hsym by set_solver. done.
        + exists [], rs, rs', s3. done. }
    destruct Hred as (rs1 & rs2 & rs' & s3 & -> & Hemp2 & Hred & Hm & Hn4 & Hr3). apply Forall_app in Hrs as [_ Hrs2].
    assert (Hb : parseexec_body buf (argv0, rs0) s = Ok (inl (argv0 ++ [(q, eq)], rs0 ++ rs')) s3).
    { unfold parseexec_body. erewrite run_bind by exact Hp. cbn match. erewrite run_bind by exact Ht.
      cbn [negb]. rewrite (proj2 (Nat.leb_gt _ _)) by (rewrite length_app; cbn [length]; lia).
      change (c_a =? 0) with false. change (c_a =? c_a) with true. cbn [negb].
      cbn match. erewrite run_bind by (unfold parseredirs; exact Hred). done. }
    erewrite run_bind by exact Hb. cbn match.
    destruct (IH rs2 (argv0 ++ [(q, eq)]) (rs0 ++ rs') s3 fuel) as (ws2 & rs3 & s4 & Hrun & Hw2 & Hm2 & Hn5 & Hr4); try done.
    { rewrite length_app. cbn [length]. lia. } { lia. }
    exists ((q, eq) :: ws2), (rs' ++ rs3), s4. rewrite Hrun, <- !app_assoc. split; [done|].
    split; [by rewrite fmap_cons, Hsl, Hw2|]. split; [by rewrite fmap_app, Hm, Hm2|]. split; [done|lia].
Qed.
(** ** The levels of the grammar *)

Definition reads (ct : cmd (nat * nat)) (c : cmd (list Z)) : Prop := cmap (slice buf) ct = c.

Lemma reads_redirs ct c rs' rs :
  reads ct c -> rslice <$> rs' = rs -> reads (redircmds ct rs') (redircmds c rs).
Proof.
  revert ct c rs. induction rs' as [|[[w m] d] rs' IH]; intros ct c rs Hc <-; [done|].
  cbn. apply (IH (REDIR ct w m d) (REDIR c (slice buf w) m d)); [|done]. unfold reads in *. cbn. by rewrite Hc.
Qed.

Definition pipe_stops := stops [c_rpar; c_amp; c_semi].
Definition back_stops := stops [c_rpar; c_semi].
Definition line_stops := stops [c_rpar].

(** Each says what the functions of the parser do on a printed command. *)
Definition exec_reads (c : cmd (list Z)) : Prop := forall s rs t fuel,
  near s (show 0 c ++ show_redirs rs ++ t) -> redirs_ok rs -> exec_stops t -> (4 * (len - s) + 2 <= fuel)%nat ->
  exists ct s', parseexec buf fuel s = Ok ct s' /\ reads ct (redircmds c rs) /\ near s' t /\ (s <= s' <= len)%nat.

Definition pipe_reads (c : cmd (list Z)) : Prop := forall s t fuel,
  near s (show 1 c ++ t) -> pipe_stops t -> (4 * (len - s) + 3 <= fuel)%nat ->
  exists ct s', parsepipe buf fuel s = Ok ct s' /\ reads ct c /\ near s' t /\ (s <= s' <= len)%nat.

Definition back_reads (c : cmd (list Z)) : Prop := forall s t fuel n,
  near s (show 2 c ++ t) -> pipe_stops t -> (4 * (len - s) + 3 <= fuel)%nat -> (len - s < n)%nat ->
  exists ct s' n', (c ← parsepipe buf fuel; loop_with n c (back_body buf)) s = loop_with n' ct (back_body buf) s' /\
    reads ct c /\ near s' t /\ (s <= s' <= len)%nat /\ (len - s' < n')%nat.

Definition line_reads (c : cmd (list Z)) : Prop := forall s t fuel,
  near s (show 3 c ++ t) -> line_stops t -> (4 * (len - s) + 4 <= fuel)%nat ->
  exists ct s', parseline buf fuel s = Ok ct s' /\ reads ct c /\ near s' t /\ (s <= s' <= len)%nat.

(** A character that is no white space, in front. *)
Lemma peek_no toks s t S :
  near s t -> stops S t -> (forall x, x ∈ S -> strchr toks x = false) ->
  peek buf toks s = Ok false (skip_ws buf s) /\ near (skip_ws buf s) t /\ (s <= skip_ws buf s <= len)%nat.
Proof.
  intros Hn Hs Hno. destruct (near_peek toks _ _ Hn) as (Hp & ? & ?). split; [|done]. rewrite Hp. f_equal.
  unfold stops in Hs. destruct (dropws t) as [|c u]; [done|]. apply Hno. unfold strchr in Hs.
  apply existsb_exists in Hs as (x & Hx & ->%Z.eqb_eq). by apply list_elem_of_In.
Qed.

(** A symbol in front, read by [peek] and [gettoken]. *)
Lemma peek_symbol toks s c t :
  near s (c :: t) -> strchr toks c = true -> strchr [c_bar; c_lpar; c_rpar; c_semi; c_amp; c_lt] c = true ->
  exists s1 q eq s2, peek buf toks s = Ok true s1 /\ gettoken buf s1 = Ok (c, q, eq) s2 /\ near s2 t /\
    (s <= s1 < s2)%nat /\ (s2 <= len)%nat.
Proof.
  intros Hn Hc Hsym. assert (Hws : strchr whitespace c = false).
  { unfold strchr in Hsym. cbn [existsb] in Hsym. rewrite !orb_true_iff, !Z.eqb_eq in Hsym.
    destruct Hsym as [->|[->|[->|[->|[->|[->|?]]]]]]; done. }
  destruct (near_peek toks _ _ Hn) as (Hp & Hn1 & Hr). rewrite (dropws_cons _ _ Hws), Hc in Hp.
  destruct (token_symbol _ _ c t Hn1 (dropws_cons _ _ Hws) Hsym) as (q & eq & s2 & Ht & Hn2 & Hr2).
  exists (skip_ws buf s), q, eq, s2. split_and!; try done; lia.
Qed.

Lemma back_body_exit c s s' : peek buf [c_amp] s = Ok false s' -> back_body buf c s = Ok (inr c) s'.
Proof. intros Hp. unfold back_body. by erewrite run_bind by exact Hp. Qed.

Lemma back_body_more c s s1 x s2 :
  peek buf [c_amp] s = Ok true s1 -> gettoken buf s1 = Ok x s2 -> back_body buf c s = Ok (inl (BACK c)) s2.
Proof. intros Hp Ht. unfold back_body. erewrite run_bind by exact Hp. cbn match. by erewrite run_bind by exact Ht. Qed.

Lemma exec_to_pipe c : show 1 c = show 0 c -> exec_reads c -> pipe_reads c.
Proof.
  intros Hsh HX s t fuel Hn Hst Hf. destruct fuel as [|fuel]; [lia|]. rewrite Hsh in Hn.
  destruct (HX s [] t fuel) as (ct & s1 & Hrun & Hre & Hn1 & Hr1);
    [done|constructor|eapply stops_sub; [exact Hst|set_solver]|lia|].
  destruct (peek_no [c_bar] _ _ _ Hn1 Hst) as (Hp & Hn2 & Hr2).
  { intros x. rewrite !elem_of_cons, elem_of_nil. intros [->|[->|[->|[]]]]; done. }
  exists ct, (skip_ws buf s1). split; [|split; [done|split; [done|lia]]].
  cbn [parsepipe]. erewrite run_bind by exact Hrun. by erewrite run_bind by exact Hp.
Qed.

Lemma pipe_to_back c : show 2 c = show 1 c -> pipe_reads c -> back_reads c.
Proof.
  intros Hsh HP s t fuel n Hn Hst Hf Hlt. rewrite Hsh in Hn.
  destruct (HP s t fuel Hn Hst Hf) as (ct & s1 & Hrun & Hre & Hn1 & Hr1).
  exists ct, s1, n. split; [by erewrite run_bind by exact Hrun|]. split; [done|]. split; [done|lia].
Qed.

Lemma back_to_line c : show 3 c = show 2 c -> back_reads c -> line_reads c.
Proof.
  intros Hsh HB s t fuel Hn Hst Hf. destruct fuel as [|fuel]; [lia|]. rewrite Hsh in Hn.
  assert (Hps : pipe_stops t) by (eapply stops_sub; [exact Hst|set_solver]).
  destruct (HB s t fuel (S len) Hn Hps) as (ct & s1 & n & Hrun & Hre & Hn1 & Hr1 & Hlt); [lia..|].
  destruct n as [|n]; [lia|].
  assert (Hno : forall toks, toks = [c_amp] \/ toks = [c_semi] -> forall x, x ∈ [c_rpar] -> strchr toks x = false).
  { intros toks [->| ->] x ->%list_elem_of_singleton; done. }
  destruct (peek_no [c_amp] _ _ _ Hn1 Hst (Hno _ (or_introl eq_refl))) as (Hp & Hn2 & Hr2).
  destruct (peek_no [c_semi] _ _ _ Hn2 Hst (Hno _ (or_intror eq_refl))) as (Hp' & Hn3 & Hr3).
  exists ct, (skip_ws buf (skip_ws buf s1)). split; [|split; [done|split; [done|lia]]].
  cbn [parseline]. rewrite <- bind_assoc.
  erewrite run_bind; [|rewrite Hrun; cbn [loop_with]; by erewrite run_bind by exact (back_body_exit _ _ _ Hp)].
  by erewrite run_bind by exact Hp'.
Qed.
(** Between parentheses. *)
Lemma line_to_exec c : show 0 c = [c_lpar] ++ show 3 c ++ [c_rpar] -> line_reads c -> exec_reads c.
Proof.
  intros Hsh HL s rs t fuel Hn Hrs Hst Hf. destruct fuel as [|[|fuel]]; [lia..|]. rewrite Hsh in Hn.
  replace (([c_lpar] ++ show 3 c ++ [c_rpar]) ++ show_redirs rs ++ t)
    with (c_lpar :: show 3 c ++ c_rpar :: show_redirs rs ++ t) in Hn by (cbn; by rewrite <- !app_assoc).
  destruct (near_peek [c_lpar] _ _ Hn) as (Hp & Hn1 & Hr1). rewrite (dropws_cons c_lpar) in Hp by done.
  destruct (peek_symbol [c_lpar] _ _ _ Hn1 eq_refl eq_refl) as (s1 & q & eq & s2 & Hp2 & Ht2 & Hn2 & Hr2 & Hl2).
  destruct (HL s2 (c_rpar :: show_redirs rs ++ t) fuel Hn2) as (ct & s3 & Hrun & Hre & Hn3 & Hr3); [done|lia|].
  destruct (peek_symbol [c_rpar] _ _ _ Hn3 eq_refl eq_refl) as (s4 & q' & eq' & s5 & Hp4 & Ht4 & Hn4 & Hr4 & Hl4).
  destruct (parseredirs_run rs [] s5 t (S len) Hn4 Hrs (exec_stops_ends _ Hst) (exec_stops_redir _ Hst) ltac:(lia))
    as (rs' & s6 & Hred & Hm & Hn6 & Hr6).
  exists (redircmds ct rs'), s6. split; [|split; [by apply reads_redirs|split; [done|lia]]].
  cbn [parseexec]. erewrite run_bind by exact Hp. change (strchr [c_lpar] c_lpar) with true. cbn match.
  cbn [parseblock]. erewrite run_bind by exact Hp2. cbn [negb]. erewrite run_bind by exact Ht2.
  erewrite run_bind by exact Hrun. erewrite run_bind by exact Hp4. cbn [negb]. erewrite run_bind by exact Ht4.
  by erewrite run_bind by exact Hred.
Qed.

Lemma reads_exec argv : Forall word_ok argv -> (length argv < MAXARGS)%nat -> exec_reads (EXEC argv).
Proof.
  intros Hok Hmax s rs t fuel Hn Hrs Hst Hf. destruct fuel as [|fuel]; [lia|]. cbn [show] in Hn.
  change (concat (show_word <$> argv)) with (show_words argv) in Hn.
  assert (Hno : match dropws (show_words argv ++ show_redirs rs ++ t) with [] => False | c :: _ => strchr [c_lpar] c = true end -> False).
  { destruct argv as [|w argv].
    - cbn [show_words fmap list_fmap concat app]. destruct rs as [|[[w m] d] rs].
      + cbn. unfold exec_stops, stops in Hst. destruct (dropws t) as [|c u]; [done|]. unfold strchr in *. cbn [existsb] in *.
        rewrite !orb_true_iff, !Z.eqb_eq in *. intros [->|?]; [|done]. by destruct Hst as [?|[?|[?|[?|?]]]].
      + apply Forall_cons in Hrs as [[_ Hr] _]. cbn in Hr. by destruct Hr as [[-> ->]|[[-> ->]|[-> ->]]].
    - apply Forall_cons in Hok as [[Hne Hw] _]. destruct w as [|c w]; [done|]. apply Forall_cons in Hw as [Hc _].
      destruct (word_char_split _ Hc) as (_ & Hws & Hsym). unfold show_words. cbn [fmap list_fmap concat show_word app dropws].
      change (strchr whitespace c_space) with true. cbn match. rewrite Hws. intros E.
      rewrite (strchr_sub _ symbols _ E) in Hsym by set_solver. done. }
  destruct (near_peek [c_lpar] _ _ Hn) as (Hp & Hn1 & Hr1).
  replace (match dropws (show_words argv ++ show_redirs rs ++ t) with [] => false | c :: _ => strchr [c_lpar] c end)
    with false in Hp by (destruct (dropws _); [done|]; destruct (strchr [c_lpar] _) eqn:E; [by destruct Hno|done]).
  assert (Hred : exists rs1 rs2 rs' s3, rs = rs1 ++ rs2 /\ (argv = [] -> rs2 = []) /\
    parseredirs buf [] (skip_ws buf s) = Ok rs' s3 /\ rslice <$> rs' = rs1 /\
    near s3 (show_words argv ++ show_redirs rs2 ++ t) /\ (skip_ws buf s <= s3 <= len)%nat).
  { destruct argv as [|w argv].
    - destruct (parseredirs_run rs [] _ t (S len) Hn1 Hrs (exec_stops_ends _ Hst) (exec_stops_redir _ Hst) ltac:(lia))
        as (rs' & s3 & Hred & Hm & Hn4 & Hr3). exists rs, [], rs', s3. rewrite app_nil_r. done.
    - pose proof Hok as Hok0. apply Forall_cons in Hok as [[Hne Hw] _].
      destruct (parseredirs_run [] [] _ (show_words (w :: argv) ++ show_redirs rs ++ t) (S len) Hn1 ltac:(constructor)) as (rs' & s3 & Hred & Hm & Hn4 & Hr3).
      + apply words_word_ends, redirs_word_ends, exec_stops_ends, Hst.
      + destruct w as [|c w]; [done|]. apply Forall_cons in Hw as [Hc _]. destruct (word_char_split _ Hc) as (_ & Hws & Hsym).
        unfold show_words. cbn [fmap list_fmap concat show_word app dropws].
        change (strchr whitespace c_space) with true. cbn match. rewrite Hws.
        destruct (strchr [c_lt; c_gt] c) eqn:E; [|done]. rewrite (strchr_sub _ symbols _ E) in Hsym by set_solver. done.
      + lia.
      + exists [], rs, rs', s3. done. }
  destruct Hred as (rs1 & rs2 & rs' & s3 & -> & Hemp & Hred & Hm & Hn3 & Hr3). apply Forall_app in Hrs as [_ Hrs2].
  destruct (exec_loop_run argv rs2 [] rs' s3 t (S len) Hn3 Hok Hrs2 Hst Hemp) as (ws' & rs3 & s4 & Hrun & Hw' & Hm3 & Hn4 & Hr4); [done|lia|].
  exists (redircmds (EXEC ws') (rs' ++ rs3)), s4. split; [|split; [|split; [done|lia]]].
  - cbn [parseexec]. erewrite run_bind by exact Hp. cbn match. erewrite run_bind by exact Hred. by erewrite run_bind by exact Hrun.
  - apply reads_redirs; [unfold reads; cbn [cmap]; by rewrite Hw'|]. by rewrite fmap_app, Hm, Hm3.
Qed.

Lemma reads_redir c w m d : word_ok w -> redir_ok m d -> exec_reads c -> exec_reads (REDIR c w m d).
Proof.
  intros Hw Hr HX s rs t fuel Hn Hrs Hst Hf. cbn [show] in Hn.
  destruct (HX s ((w, m, d) :: rs) t fuel) as (ct & s' & Hrun & Hre & Hn' & Hr').
  - unfold show_redirs. cbn [fmap list_fmap concat]. by rewrite <- !app_assoc in *.
  - by constructor.
  - done.
  - done.
  - exists ct, s'. done.
Qed.

Lemma reads_pipe l r : exec_reads l -> pipe_reads r -> pipe_reads (PIPE l r).
Proof.
  intros HX HP s t fuel Hn Hst Hf. destruct fuel as [|fuel]; [lia|]. cbn [show paren Nat.ltb Nat.leb] in Hn.
  rewrite <- app_assoc in Hn. cbn [app] in Hn.
  destruct (HX s [] (c_bar :: show 1 r ++ t) fuel Hn) as (ct & s1 & Hrun & Hre & Hn1 & Hr1); [constructor|done|lia|].
  destruct (peek_symbol [c_bar] _ _ _ Hn1 eq_refl eq_refl) as (s2 & q & eq & s3 & Hp & Ht & Hn3 & Hr3 & Hl3).
  destruct (HP s3 t fuel Hn3 Hst) as (cr & s4 & Hrun2 & Hre2 & Hn4 & Hr4); [lia|].
  exists (PIPE ct cr), s4. split; [|split; [|split; [done|lia]]].
  - cbn [parsepipe]. erewrite run_bind by exact Hrun. erewrite run_bind by exact Hp. cbn match.
    erewrite run_bind by exact Ht. by erewrite run_bind by exact Hrun2.
  - unfold reads in *. cbn in *. by rewrite Hre, Hre2.
Qed.

Lemma reads_back c : back_reads c -> back_reads (BACK c).
Proof.
  intros HB s t fuel n Hn Hst Hf Hlt. cbn [show paren Nat.ltb Nat.leb] in Hn. rewrite <- app_assoc in Hn. cbn [app] in Hn.
  destruct (HB s (c_amp :: t) fuel n Hn) as (ct & s1 & n' & Hrun & Hre & Hn1 & Hr1 & Hlt1); [done|lia|lia|].
  destruct (peek_symbol [c_amp] _ _ _ Hn1 eq_refl eq_refl) as (s2 & q & eq & s3 & Hp & Ht & Hn3 & Hr3 & Hl3).
  destruct n' as [|n']; [lia|]. exists (BACK ct), s3, n'. split; [|split; [|split; [done|lia]]].
  - rewrite Hrun. cbn [loop_with]. by erewrite run_bind by exact (back_body_more _ _ _ _ _ Hp Ht).
  - unfold reads in *. cbn. by rewrite Hre.
Qed.

Lemma reads_list l r : back_reads l -> line_reads r -> line_reads (LIST l r).
Proof.
  intros HB HL s t fuel Hn Hst Hf. destruct fuel as [|fuel]; [lia|]. cbn [show paren Nat.ltb Nat.leb] in Hn.
  rewrite <- app_assoc in Hn. cbn [app] in Hn.
  destruct (HB s (c_semi :: show 3 r ++ t) fuel (S len) Hn) as (ct & s1 & n & Hrun & Hre & Hn1 & Hr1 & Hlt); [done|lia|lia|].
  destruct n as [|n]; [lia|].
  destruct (near_peek [c_amp] _ _ Hn1) as (Hp1 & Hn1' & Hr1'). rewrite (dropws_cons c_semi) in Hp1 by done.
  change (strchr [c_amp] c_semi) with false in Hp1.
  destruct (peek_symbol [c_semi] _ _ _ Hn1' eq_refl eq_refl) as (s2 & q & eq & s3 & Hp & Ht & Hn3 & Hr3 & Hl3).
  destruct (HL s3 t fuel Hn3 Hst) as (cr & s4 & Hrun2 & Hre2 & Hn4 & Hr4); [lia|].
  exists (LIST ct cr), s4. split; [|split; [|split; [done|lia]]].
  - cbn [parseline]. rewrite <- bind_assoc.
    erewrite run_bind; [|rewrite Hrun; cbn [loop_with]; by erewrite run_bind by exact (back_body_exit _ _ _ Hp1)].
    erewrite run_bind by exact Hp. cbn match. erewrite run_bind by exact Ht. by erewrite run_bind by exact Hrun2.
  - unfold reads in *. cbn in *. by rewrite Hre, Hre2.
Qed.

Lemma show_reads c : cmd_ok c -> exec_reads c /\ pipe_reads c /\ back_reads c /\ line_reads c.
Proof.
  induction c as [argv|c IH w m d|l IHl r IHr|l IHl r IHr|c IH]; intros Hok; cbn [cmd_ok] in Hok.
  - assert (HX : exec_reads (EXEC argv)) by (apply reads_exec; tauto).
    assert (HP := exec_to_pipe (EXEC argv) eq_refl HX). assert (HB := pipe_to_back (EXEC argv) eq_refl HP).
    split_and!; try done. by apply back_to_line.
  - destruct Hok as (Hc & Hw & Hr). assert (HX : exec_reads (REDIR c w m d)) by (apply reads_redir; [done..|by apply IH]).
    assert (HP := exec_to_pipe (REDIR c w m d) eq_refl HX). assert (HB := pipe_to_back (REDIR c w m d) eq_refl HP).
    split_and!; try done. by apply back_to_line.
  - destruct Hok as [Hl Hr]. destruct (IHl Hl) as (HXl & _), (IHr Hr) as (_ & HPr & _).
    assert (HP := reads_pipe _ _ HXl HPr). assert (HB := pipe_to_back (PIPE l r) eq_refl HP). assert (HL := back_to_line (PIPE l r) eq_refl HB).
    split_and!; try done. by apply line_to_exec.
  - destruct Hok as [Hl Hr]. destruct (IHl Hl) as (_ & _ & HBl & _), (IHr Hr) as (_ & _ & _ & HLr).
    assert (HL := reads_list _ _ HBl HLr). assert (HX := line_to_exec (LIST l r) eq_refl HL).
    assert (HP := exec_to_pipe (LIST l r) eq_refl HX). assert (HB := pipe_to_back (LIST l r) eq_refl HP). done.
  - destruct (IH Hok) as (_ & _ & HBc & _). assert (HB := reads_back _ HBc). assert (HL := back_to_line (BACK c) eq_refl HB).
    assert (HX := line_to_exec (BACK c) eq_refl HL). assert (HP := exec_to_pipe (BACK c) eq_refl HX). done.
Qed.
End roundtrip.

Lemma cmap_ext {A B} (f g : A -> B) c : (forall w, w ∈ words c -> f w = g w) -> cmap f c = cmap g c.
Proof.
  induction c as [argv|c IH w m d|l IHl r IHr|l IHl r IHr|c IH]; cbn; intros H.
  - f_equal. by apply list_fmap_ext; intros i x Hx; apply H; eapply list_elem_of_lookup_2.
  - rewrite IH, H by set_solver. done.
  - rewrite IHl, IHr by set_solver. done.
  - rewrite IHl, IHr by set_solver. done.
  - by rewrite IH.
Qed.

Lemma word_ok_nul w : word_ok w -> Forall (fun c => c <> 0) (show_word w).
Proof.
  intros [_ Hw]. constructor; [done|]. eapply Forall_impl; [exact Hw|]. intros c Hc. cbn in Hc.
  by destruct (word_char_split c Hc).
Qed.

Lemma show_nul lvl c : cmd_ok c -> Forall (fun c => c <> 0) (show lvl c).
Proof.
  revert lvl. assert (Hp : forall b t, Forall (fun c => c <> 0) t -> Forall (fun c => c <> 0) (paren b t)).
  { intros [] t Ht; [|done]. cbn. constructor; [done|]. apply Forall_app. split; [done|]. by constructor. }
  induction c as [argv|c IH w m d|l IHl r IHr|l IHl r IHr|c IH]; intros lvl Hok; cbn [show cmd_ok] in *.
  - destruct Hok as [_ Hok]. induction Hok as [|w argv Hw _ IH]; [constructor|]. cbn [fmap list_fmap concat].
    apply Forall_app. split; [by apply word_ok_nul|done].
  - destruct Hok as (Hc & Hw & Hr). apply Forall_app. split; [by apply IH|]. apply Forall_app. split; [|by apply word_ok_nul].
    cbn [fst snd]. unfold redir_sym. repeat case_match; repeat constructor; done.
  - apply Hp, Forall_app. split; [apply IHl; tauto|]. constructor; [done|]. apply IHr; tauto.
  - apply Hp, Forall_app. split; [apply IHl; tauto|]. constructor; [done|]. apply IHr; tauto.
  - apply Hp, Forall_app. split; [by apply IH|]. by constructor.
Qed.

Lemma dropws_ws w : Forall (fun c => strchr whitespace c = true) w -> dropws w = [].
Proof. induction 1 as [|c w Hc _ IH]; cbn; [done|]. by rewrite Hc. Qed.

(** C35. Parsing undoes printing: a line with the printed form of a command,
    followed by white space such as the newline, is parsed to that command,
    and after the NULs have been written every argument and file name of it
    is the C string its pointer shows. *)
Theorem parse_show c w :
  cmd_ok c -> Forall (fun x => strchr whitespace x = true) w ->
  exists ct a s, parsecmd (show 3 c ++ w) 0%nat = Ok (ct, a) s /\ cmap (fun p => str_at a p.1) ct = c.
Proof.
  intros Hok Hw. set (buf := show 3 c ++ w).
  assert (Hnul : Forall (fun x => x <> 0) buf).
  { apply Forall_app. split; [by apply show_nul|]. eapply Forall_impl; [exact Hw|]. by intros x Hx ->. }
  assert (Hn : near buf 0 (show 3 c ++ w)) by (apply near_at; [lia|done]).
  assert (Hst : line_stops w) by (unfold line_stops, stops; by rewrite dropws_ws).
  destruct (show_reads buf Hnul c Hok) as (_ & _ & _ & HL).
  destruct (HL 0%nat w (line_fuel buf) Hn Hst) as (ct & s1 & Hrun & Hre & Hn1 & Hr1); [unfold line_fuel; lia|].
  destruct (near_peek buf Hnul [] _ _ Hn1) as (Hp & Hn2 & Hr2).
  assert (Hs : skip_ws buf s1 = es buf).
  { destruct (near_skip buf _ _ Hn1) as [Hd _]. rewrite dropws_ws in Hd by done. by apply ch_nil in Hd as [_ ?]; [|lia]. }
  exists ct, (nulterminate ct (buf ++ [0])), (es buf). split.
  - unfold parsecmd. erewrite run_bind by exact Hrun. erewrite run_bind by exact Hp. rewrite Hs. unfold gets.
    unfold mbind, M_bind, id. by rewrite Nat.eqb_refl.
  - rewrite <- Hre. apply cmap_ext. intros p Hin. apply (nulterminate_word buf); [|done].
    destruct (parse_ends buf Hnul (line_fuel buf)) as (He & _).
    specialize (He 0%nat ltac:(lia) ltac:(unfold line_fuel; lia)). unfold ends in He. rewrite Hrun in He. by destruct He.
Qed.

(** [ls -l | (grep x > out; wc) &] and a newline *)
Definition chars (s : string) : list Z := (fun a => Z.of_N (Ascii.N_of_ascii a)) <$> String.list_ascii_of_string s.
Definition demo_cmd : cmd (list Z) :=
  BACK (PIPE (EXEC [chars "ls"; chars "-l"])
    (LIST (REDIR (EXEC [chars "grep"; chars "x"]) (chars "out") 0x601 1) (EXEC [chars "wc"]))).

Lemma demo_cmd_ok : cmd_ok demo_cmd.
Proof.
  assert (Hw : forall w, forallb word_char w && negb (bool_decide (w = [])) = true -> word_ok w).
  { intros w [Hw Hne]%andb_true_iff. split; [by apply negb_true_iff, bool_decide_eq_false_1 in Hne|].
    apply Forall_forall. intros x Hx. rewrite forallb_forall in Hw. by apply Hw, list_elem_of_In. }
  repeat split; try (repeat constructor; apply Hw; reflexivity); try (apply Hw; reflexivity); try (apply Nat.ltb_lt; reflexivity).
Qed.

Lemma parse_show_witness :
  exists ct a s, parsecmd (chars " ls -l|( grep x> out; wc)&" ++ [c_nl]) 0%nat = Ok (ct, a) s /\ cmap (fun p => str_at a p.1) ct = demo_cmd.
Proof. exact (parse_show demo_cmd [c_nl] demo_cmd_ok ltac:(by repeat constructor)). Defined.

Lemma parsecmd_returns_witness :
  match parsecmd (chars "ls|wc >out") 0%nat with
  | Ok (c, a) _ => Forall (fun w => is_word (chars "ls|wc >out") w /\ str_at a w.1 = slice (chars "ls|wc >out") w) (words c)
  | _ => False
  end.
Proof.
  assert (H : Forall (fun c => c <> 0) (chars "ls|wc >out")) by (by repeat constructor).
  exact (parsecmd_returns (chars "ls|wc >out") H).
Defined.
